(* ===== verification/_CoqProject ===== *)
-Q . S2P
Prelude.v
Sql.v
Tables.v
GoStd.v
GoTime.v
GoTimeSpec.v
GoCrypto.v
Json.v
JsonText.v
GoDuration.v
GoFlag.v
GoNet.v
GoURL.v
GoHTTP.v
GoClient.v
Protocol.v
Envelope.v
Payloads.v
AgentPayloads.v
RuntimeDB.v
RuntimeSql.v
RuntimeHistory.v
RunStore.v
Outbox.v
Bootstrap.v
Listing.v
RuntimeStore.v
RunSpec.v
EventSpec.v
OutboxSpec.v
Threads.v
Hub.v
Router.v
HubSafety.v
Gateway.v
Coordinator.v
CoordSpec.v
SyncSpec.v
ImportSpec.v
PgStore.v
RuntimeHTTP.v
RuntimeFeed.v
FeedSpec.v
SessionFeed.v
RunFeed.v
Notify.v
Redis.v
RedisSpec.v
MemRedis.v
AuthDB.v
AuthStore.v
AuthService.v
AuthEffects.v
AuthInvariant.v
AuthSpec.v
AuthSafety.v
AuthFlow.v
AuthHTTP.v
Server.v
Config.v
RelayMain.v
RunFlow.v
EventFlow.v
PairQR.v
PairRun.v
QRSpec.v
Scenario.v
SyncScenario.v
AuthScenario.v
RelayCtl.v
RelayCtlSpec.v
RelayFlow.v
AuthJSON.v
PairFlow.v
HTTPScenario.v
CtlScenario.v
