(* ===== verification/Prelude.v ===== *)
(** * The relay server, modelled and verified

    A relay between one App and one Agent (a Mac that runs Codex), with a
    durable runtime behind it: sessions, runs and their event logs in
    PostgreSQL, live events and notifications in Redis, an HTTP API, and paired
    clients with rotating credentials.  This library translates the Go sources
    under src/internal/ and src/cmd/ into executable definitions and proves what
    the parts promise each other.

    ** Parts and files

    Foundations.  [Prelude] (this file): results, the monad notation, state
    passing, ordered streams over [gmap Z].  [Sql]: a database as a value, a
    statement as a function on it, a transaction as a program whose round trips
    may be lost before or after their effect ([Done], [Failed], [LostReply]) and
    between whose steps other clients run; [rely] and [op_guar] are its
    rely-guarantee logic.  [Tables]: statements on tables.  [GoStd], [GoTime],
    [GoTimeSpec], [GoCrypto], [GoDuration], [GoFlag], [GoNet], [GoURL], [GoHTTP],
    [GoClient], [Json], [JsonText]: what the code uses of Go's standard library,
    written out: UTF-8 space trimming, strconv, RFC 3339, SHA-256, base64, flag
    sets, URLs (as Go 1.25 parses them), HTTP requests and the ServeMux, the
    redirects an HTTP client follows, JSON values with Go's decoding into structs,
    JSON strings as text.  [Threads]: programs in atomic steps.

    Protocol (internal/protocol).  [Protocol]: the envelope, Validate, Decode,
    AllowedFrom, json.Marshal of a message.  [Envelope]: what is written is read
    back.  [Payloads]: the payloads the relay reads or writes; [AgentPayloads]:
    those of the Agent's events, which relayctl reads.

    The runtime's store (internal/runtime/postgres.go, migrations/).
    [RuntimeDB], [RuntimeSql]: the schema and its statements, [db_wf] the
    constraints it keeps.  [RuntimeHistory]: what never changes once written.
    [RunStore]: projects, sessions, runs, events.  [Outbox]: claiming,
    delivering and releasing commands.  [Bootstrap]: sync jobs and the import.
    [Listing]: the listings.  [RuntimeStore]: the calls together.  [RunSpec],
    [EventSpec], [OutboxSpec], [SyncSpec], [ImportSpec]: their contracts.

    Connections (internal/hub, internal/websocket, internal/router).  [Hub]: the
    registry and the peers' queues.  [Router]: routing and the read loop, every
    call of the registry, a peer or the observer an atomic step.  [HubSafety]:
    the handlers of all connections at once, as the steps of [hub_step], and what
    holds in every state they reach.  [Gateway]: source.go and
    execution_profiles.go, requests to the Agent and their answers.

    Coordination (internal/runtime/coordinator.go, redis.go).  [Coordinator]: a
    client of the classes [StoreI] and [BrokerI]; [CoordSpec]: its theorems
    against the laws [StoreLaws]; [PgStore]: PostgresStore as an instance, the
    laws discharged.  [Redis]: RedisBroker over the class [RedisI] of its
    client's commands; [RedisSpec]: what it keeps, from the laws [RedisLaws];
    [Notify]: waiting for a notification; [MemRedis]: an instance of both.

    The HTTP interface.  [RuntimeHTTP], [RuntimeFeed]: the endpoints, the long
    polls and the event streams of internal/runtime/http.go; [FeedSpec],
    [SessionFeed], [RunFeed]: what their clients receive.  [AuthHTTP]:
    internal/auth/http.go and middleware.go.  [Server]: internal/server.
    [RunFlow]: a run from its creation over HTTP through the outbox to the
    Agent; [EventFlow]: an event of the Agent from the coordinator through the
    store and the broker to the clients.  [Config]: internal/config.  [AuthJSON]:
    the JSON of the auth responses, and that the command lines read it back.

    The programs (cmd/).  [RelayMain]: the relay, as the log of what it opens,
    serves and closes.  [RelayCtl]: relayctl, its commands as logs of actions,
    the loop of turn as the steps of its reader, its signals and itself;
    [RelayCtlSpec]: what it does with what it receives; [RelayFlow]: a request of
    relayctl through the router and the coordinator.  [PairQR]: pairqr's
    renderings of a pairing code and its choice of an address; [QRSpec]: a
    terminal that reads them; [PairRun]: the rest of pairqr; [PairFlow]: pairqr
    against Auth Control.

    Credentials (internal/auth).  [AuthDB], [AuthStore]: the schema and
    postgres.go.  [AuthService]: service.go.  [AuthEffects]: what each
    transaction does.  [AuthInvariant], [AuthSpec], [AuthSafety], [AuthFlow]:
    the invariant, and what no sequence of calls can undo.

    [Scenario], [SyncScenario], [AuthScenario], [HTTPScenario], [CtlScenario] run
    the calls on small concrete inputs and instantiate the theorems there.

    ** How state and operations correspond

    A table is a finite map from its key to a row; a method of a store is an
    operation of the same name on a [World]: the database, the failures to come
    and the other clients to come.  A theorem about an operation under [rely]
    holds for every way its round trips fail and every interleaving of other
    clients that respect the same guarantee.  The hub is a record; a mutex of
    the program covers one call of the registry, and so does an atom of the
    handlers, which are written over any monad with atoms: as functions of the
    state they say what a handler does alone ([read_turn_alone] shows that this
    is one of its runs), as a [Prog] other handlers' atoms come between theirs.
    The observer's callbacks are one atom each; what the coordinator sends on its
    own, or earlier in a callback, is the step [step_background].  An HTTP
    handler maps a request and its environment (clock readings, random
    bytes, what wakes its loops) to a response and a new state.  Time is
    nanoseconds since 1970; int64 values are [Z] with their bounds stated or
    their wrap-around written out.

    ** What the theorems show

    The store: [RuntimeStore.store_invariant] (any sequence of calls keeps the
    schema and only lets history grow), a contract per operation that changes
    state, on every branch and under every failure ([CreateRun_spec],
    [AppendAgentEvent_spec], [RequestCancel_spec], [ClaimCommands_spec],
    [CreateSyncJob_spec], [ApplyBootstrapBatch_spec]), retries
    ([CreateRun_retry], [CreateSession_idempotent], [import_run_idempotent]),
    leases ([claim_lease_exclusive]) and what reconciliation may archive
    ([ApplyBootstrapBatch_archives]).

    The connections, however their handlers interleave: who a message can come
    from ([hub_provenance]); that an open connection is the registered one, or is
    about to be registered or bound to be closed, so that there is one per role
    when the handlers are at rest ([hub_single_connection]); answers that reach
    their own request ([gateway_correct]); and every frame that is written is accepted at
    the other end as the message that was queued ([hub_frames_decode]).

    Durability: an event the Agent is told is durable is stored or, when it is of
    a run that is not the relay's, waiting in the App's queue
    ([durable_ack_sound]); the broker accepts an event once and gives it back
    ([AppendRunEvent_spec], [broker_roundtrip]); no notification is lost but by
    a failing command, one not delivered, or a version that repeats
    ([no_lost_wakeup]).

    A run: creating one over HTTP is idempotent whatever fails
    ([post_run_idempotent]), and its command reaches the Agent, when it is
    connected with room in its queue and no more commands wait than one dispatch
    claims ([run_reaches_agent]); what the Agent then reports, the coordinator
    handles and acknowledges as durable reaches the clients that follow the run
    ([event_reaches_client]).

    The feeds: a client that polls or streams a session receives its log exactly
    ([session_poll_exact], [session_stream_exact]); a run's stream merges store
    and broker without a gap ([read_run_events_spec], [run_stream_gapless]);
    polls end ([polls_end]); cursors survive the trip to a client and back
    ([cursor_roundtrip]).

    Credentials: the invariant ([auth_invariant]), single use of pairing codes
    and refresh tokens, revocation that lasts, principals that were paired
    ([pairing_code_once], [refresh_token_once], [session_revocation_final],
    [RevokeClient_final], [principal_paired]), the flow that works
    ([pairing_flow], and from pairqr's command line to a token that works:
    [pairqr_pairs]), tokens ([token_roundtrip], [Refresh_spec]); and over HTTP
    the protected API ([runtime_protected], with the one GET that is asked for
    another scope than its endpoint's), CSRF, cookies and CORS ([public_csrf],
    [browser_cookie], [cors_safe]); a configuration that is accepted is safe, its
    control address a loopback one ([FromEnv_safe]); a pairing code is drawn as
    it is, by a terminal that knows the half blocks and the braille patterns of
    Unicode ([pairing_code_drawn]).

    The programs: a listing asked for with relayctl is answered through the
    relay ([relayctl_query_answered]); turn ends as its own turn ended and
    interrupts the turn last started, in every interleaving ([turn_outcome]); a relay releases what it opened, on every path
    ([relay_lifecycle]).

    ** Bounds and fuel

    Trimming, splitting and decoding recurse on the bytes or take their length
    as fuel (a step removes a byte).  The contiguous part of a run's stream takes
    one more than the size of the map as fuel, which [contiguous_fuel] shows is
    never used up.  A long poll and an event stream recurse on the list of the
    turns of their loop; [polls_end] shows which lists are long enough.
    ParseDuration's fuel is the length of its text; parseIPv6's is its eight
    groups.  The loop of turn recurses on the list of its labels; [turn_outcome]
    shows that its own steps reach the end once the ending event was read.  An
    HTTP client follows nine redirects, as Go's does.

    ** Parameters

    PostgreSQL's jsonb conversion ([Jsonb], with [JsonbLaws]) and collation ([Collation]), the
    commands of the Redis client ([RedisI], with [RedisLaws]), the text of a
    RawMessage ([RawText]), the answers of the Agent to source and profile
    requests inside a handler, error texts of other packages, random bytes and
    clocks; for the programs: the environment, the answers of the network (with
    a Location resolved against its request's URL) and of the file system, the QR encoder, json.MarshalIndent and the local time zone.
    Each has an instance in the scenarios.

    ** Not modelled

    Opening, migrating and closing the databases, logging, TLS and HTTP
    timeouts are I/O.  Goroutines are modelled by their atomic steps (an atom of
    a connection's handler, a round trip, a step of [Notify.step]); an HTTP
    handler's interleaving with others goes through the other clients of its
    [World].  A request of a gateway is one step up to its select.  The payload
    of a RawMessage is its JSON value: two texts of one value, which the broker's
    comparison of a repeated event tells apart, are the same payload here, and
    the broker refuses in the code what it accepts in the model.  The created_at
    of a run.created event is written in UTC; the code writes it in the zone of
    the process.  net/http is assumed to parse requests; its redirects of unclean
    paths are not modelled, nor the bodies of its own errors.  Command line
    arguments are taken to be UTF-8.

    ** Plan

    What could follow: the same flows with several requests of one client
    interleaved with the coordinator's steps. *)

From stdpp Require Export base tactics strings list gmap sorting.
From stdpp Require Export fin_maps.
From Stdlib Require Export ZArith Lia.

#[global] Set Default Goal Selector "!".

(** ** Results

    A Go function with an [error] result is a function into [result]: the zero
    value that accompanies a non-nil error is never read by the callers. *)

Inductive result (E A : Type) : Type :=
| Ok (a : A)
| Err (e : E).
Arguments Ok {E A} a.
Arguments Err {E A} e.

Definition is_ok {E A} (r : result E A) : bool :=
  match r with Ok _ => true | Err _ => false end.

Declare Scope relay_scope.
Delimit Scope relay_scope with relay.

(** A minimal monad interface with a notation close to Go's
    "x, err := f(); if err != nil { return err }". *)

Class SeqMonad (M : Type → Type) : Type := {
  ret : ∀ {A}, A → M A;
  bind : ∀ {A B}, M A → (A → M B) → M B;
}.

Notation "'let!' x ':=' m 'in' k" := (bind m (λ x, k))
  (at level 10, x pattern, m at level 100, k at level 200,
   format "'[v' 'let!'  x  ':='  m  'in' '/' k ']'") : relay_scope.

#[export] Instance result_monad (E : Type) : SeqMonad (result E) := {|
  ret A a := Ok a;
  bind A B r k := match r with Ok a => k a | Err e => Err e end;
|}.

Open Scope relay_scope.

(** ** State passing *)

Definition St (S A : Type) : Type := S → A * S.

#[export] Instance st_monad (S : Type) : SeqMonad (St S) := {|
  ret A a := λ s, (a, s);
  bind A B m k := λ s, let '(a, s') := m s in k a s';
|}.

Definition get {S} : St S S := λ s, (s, s).
Definition gets {S A} (f : S → A) : St S A := λ s, (f s, s).
Definition modify {S} (f : S → S) : St S unit := λ s, (tt, f s).

Fixpoint st_each {S A} (l : list A) (f : A → St S unit) : St S unit :=
  match l with [] => ret tt | x :: l => let! _ := f x in st_each l f end.

(** [st_triple P m Q]: from a state satisfying [P], [m] ends with a result and a
    state satisfying [Q]. *)
Definition st_triple {S A} (P : S → Prop) (m : St S A) (Q : A → S → Prop) : Prop :=
  ∀ s, P s → Q (m s).1 (m s).2.

Lemma st_triple_bind {S A B} (m : St S A) (k : A → St S B) P Q R :
  st_triple P m Q → (∀ a, st_triple (Q a) (k a) R) → st_triple P (let! a := m in k a) R.
Proof.
  intros Hm Hk s HP. specialize (Hm s HP). simpl. destruct (m s) as [a s']. by apply Hk.
Qed.
Lemma st_triple_ret {S A} (a : A) (P : S → Prop) Q : (∀ s, P s → Q a s) → st_triple P (ret a) Q.
Proof. intros H s HP. by apply H. Qed.
Lemma st_triple_pre {S A} (P P' : S → Prop) (m : St S A) Q :
  (∀ s, P s → P' s) → st_triple P' m Q → st_triple P m Q.
Proof. intros H Hm s HP. by apply Hm, H. Qed.

(** ** Tactics *)

(** Case analysis on the innermost [match] of a hypothesis or of the goal. *)
Ltac case_in H :=
  match type of H with
  | context [match ?x with _ => _ end] =>
      lazymatch x with
      | context [match _ with _ => _ end] => fail
      | _ => let E := fresh "E" in destruct x eqn:E
      end
  end.

Ltac case_goal :=
  match goal with
  | |- context [match ?x with _ => _ end] =>
      lazymatch x with
      | context [match _ with _ => _ end] => fail
      | _ => let E := fresh "E" in destruct x eqn:E
      end
  end.

Create HintDb relay.

(** ** Ordered views of integer-keyed tables

    [SELECT ... ORDER BY seq] over the rows of one resource: the entries of a
    map keyed by the sequence number, in increasing order. *)

Section Entries.
Context {A : Type}.
Implicit Types (m : gmap Z A).

Definition key_le (x y : Z * A) : Prop := (x.1 ≤ y.1)%Z.
#[global] Instance key_le_dec : RelDecision key_le.
Proof. intros x y; unfold key_le; apply _. Defined.
#[local] Instance key_le_trans : Transitive key_le.
Proof. intros x y z; unfold key_le; lia. Qed.
#[local] Instance key_le_total : Total key_le.
Proof. intros x y; unfold key_le; lia. Qed.

Definition entries m : list (Z * A) := merge_sort key_le (map_to_list m).

Definition after (cursor : Z) (l : list (Z * A)) : list (Z * A) :=
  filter (λ x, (cursor < x.1)%Z) l.

Definition key_lt (x y : Z * A) : Prop := (x.1 < y.1)%Z.

Lemma elem_of_entries m k v : (k, v) ∈ entries m ↔ m !! k = Some v.
Proof.
  unfold entries. rewrite merge_sort_Permutation. apply elem_of_map_to_list.
Qed.

Lemma NoDup_fst_entries m : NoDup (entries m).*1.
Proof.
  unfold entries. rewrite merge_sort_Permutation. apply NoDup_fst_map_to_list.
Qed.

Lemma StronglySorted_strict (l : list (Z * A)) :
  StronglySorted key_le l → NoDup l.*1 → StronglySorted key_lt l.
Proof.
  induction 1 as [|x l Hs IH Hx]; intros Hn; [constructor|].
  rewrite fmap_cons, NoDup_cons in Hn; destruct Hn as [Hni Hn].
  constructor; [auto|].
  rewrite Forall_forall in Hx |- *. intros y Hy. specialize (Hx y Hy).
  unfold key_le, key_lt in *.
  assert (x.1 ≠ y.1); [|lia].
  intros E; apply Hni. rewrite E. apply list_elem_of_fmap; eauto.
Qed.

Lemma entries_sorted m : StronglySorted key_lt (entries m).
Proof.
  apply StronglySorted_strict, NoDup_fst_entries.
  apply StronglySorted_merge_sort; apply _.
Qed.

(** Two strictly increasing lists with the same members are equal. *)
Lemma sorted_ext (l1 l2 : list (Z * A)) :
  StronglySorted key_lt l1 → StronglySorted key_lt l2 →
  (∀ x, x ∈ l1 ↔ x ∈ l2) → l1 = l2.
Proof.
  intros H1; revert l2; induction H1 as [|x l1 Hs1 IH Hx1]; intros l2 H2 Hext.
  { destruct l2 as [|y l2]; [done|].
    exfalso. apply (not_elem_of_nil y), Hext; set_solver. }
  destruct H2 as [|y l2 Hs2 Hx2].
  { exfalso. apply (not_elem_of_nil x), Hext; set_solver. }
  rewrite Forall_forall in Hx1, Hx2. unfold key_lt in *.
  assert (x = y) as <-.
  { assert (x = y ∨ x ∈ l2) as [|Hx] by (rewrite <- elem_of_cons; apply Hext; set_solver);
      [done|].
    assert (y = x ∨ y ∈ l1) as [|Hy] by (rewrite <- elem_of_cons; apply Hext; set_solver);
      [done|].
    specialize (Hx1 y Hy); specialize (Hx2 x Hx); lia. }
  f_equal. apply IH; [done|]. intros z. specialize (Hext z).
  rewrite !elem_of_cons in Hext.
  split; intros Hz.
  - destruct (proj1 Hext (or_intror Hz)) as [->|]; [|done].
    specialize (Hx1 x Hz); lia.
  - destruct (proj2 Hext (or_intror Hz)) as [->|]; [|done].
    specialize (Hx2 x Hz); lia.
Qed.

Lemma StronglySorted_app_lt (l1 l2 : list (Z * A)) :
  StronglySorted key_lt l1 → StronglySorted key_lt l2 →
  (∀ x y, x ∈ l1 → y ∈ l2 → (x.1 < y.1)%Z) →
  StronglySorted key_lt (l1 ++ l2).
Proof.
  induction 1 as [|x l1 Hs IH Hx]; intros H2 Hlt; simpl; [done|].
  constructor.
  - apply IH; [done|]. intros; apply Hlt; set_solver.
  - rewrite Forall_app; split; [done|].
    rewrite Forall_forall; intros y Hy. apply Hlt; set_solver.
Qed.

Lemma StronglySorted_filter (P : Z * A → Prop) `{!∀ x, Decision (P x)} l :
  StronglySorted key_lt l → StronglySorted key_lt (filter P l).
Proof.
  induction 1 as [|x l Hs IH Hx]; [constructor|].
  rewrite filter_cons; case_decide; [|done].
  constructor; [done|]. rewrite Forall_forall in Hx |- *.
  intros y Hy; apply list_elem_of_filter in Hy as [_ Hy]; auto.
Qed.

Lemma entries_empty : entries ∅ = [].
Proof. reflexivity. Qed.

(** A row whose sequence is above every stored one is listed last. *)
Lemma entries_insert_last m k v :
  (∀ j w, m !! j = Some w → (j < k)%Z) →
  entries (<[k := v]> m) = entries m ++ [(k, v)].
Proof.
  intros Hmax. apply sorted_ext.
  - apply entries_sorted.
  - apply StronglySorted_app_lt; [apply entries_sorted|repeat constructor|].
    intros [j w] y Hj ->%list_elem_of_singleton; simpl.
    apply elem_of_entries in Hj; eauto.
  - intros [j w]. rewrite elem_of_app, list_elem_of_singleton, !elem_of_entries.
    destruct (decide (j = k)) as [->|Hne].
    + rewrite lookup_insert_eq. split.
      * intros; simplify_eq; auto.
      * intros [Hm|]; [|by simplify_eq].
        specialize (Hmax _ _ Hm); lia.
    + rewrite lookup_insert_ne by done. split; [auto|].
      intros [|]; [done|simplify_eq].
Qed.

Lemma elem_of_after cursor m k v :
  (k, v) ∈ after cursor (entries m) ↔ m !! k = Some v ∧ (cursor < k)%Z.
Proof.
  unfold after. rewrite list_elem_of_filter, elem_of_entries; simpl; tauto.
Qed.

Lemma after_sorted cursor m : StronglySorted key_lt (after cursor (entries m)).
Proof. apply StronglySorted_filter, entries_sorted. Qed.

Lemma after_after c1 c2 (l : list (Z * A)) :
  (c1 ≤ c2)%Z → after c2 (after c1 l) = after c2 l.
Proof.
  intros Hc. unfold after. rewrite list_filter_filter.
  apply list_filter_iff; intros x; lia.
Qed.
End Entries.

(** ** Fixed-width integers

    PostgreSQL's [bigint] and [integer] columns raise "out of range" where Go
    would wrap: an update that leaves the range fails as a statement. *)

Definition int64_max : Z := 9223372036854775807.
Definition int64_min : Z := -9223372036854775808.
Definition int32_max : Z := 2147483647.
Definition int32_min : Z := -2147483648.

(** int64 addition *)
Definition wrap_int64 (z : Z) : Z := ((z - int64_min) mod 2 ^ 64 + int64_min)%Z.

Definition in_int64 (z : Z) : bool := (int64_min <=? z)%Z && (z <=? int64_max)%Z.
Definition in_int32 (z : Z) : bool := (int32_min <=? z)%Z && (z <=? int32_max)%Z.

Lemma in_int64_spec z : in_int64 z = true ↔ (int64_min ≤ z ≤ int64_max)%Z.
Proof. unfold in_int64. rewrite andb_true_iff, !Z.leb_le. done. Qed.
