(* ===== verification/Sql.v ===== *)
(** * Transactions over a database that can fail

    The stores of [internal/runtime/postgres.go] and [internal/auth/postgres.go]
    are sequences of SQL statements, some sent directly to the pool (each its own
    transaction), some between [Begin] and [Commit] with a deferred [Rollback].
    This file models that discipline once, for any database state [DB]: a
    statement is a pure function on the database that may be refused; every
    round trip to the server may also fail, or succeed with its reply lost; a
    failed statement aborts its transaction; an aborted transaction cannot
    commit.  Other clients act between the top-level statements and
    transactions of one call, never inside a transaction: each transaction is
    one atomic step (the row locks the statements take with FOR UPDATE, and the
    advisory lock of the sync jobs, are what the code relies on for that). *)

From S2P Require Import Prelude.

(** Failures that do not come from the program's own logic. *)
Inductive dberr :=
| IOFailure
| TxAborted
| CommitRolledBack
| Refused (constraint : string)
| ScanError.  (** a value that does not fit its Go destination, or no row *)

Class FromDb (E : Type) := from_db : dberr → E.

(** What happens to one round trip. *)
Inductive outcome :=
| Done       (** executed, reply received *)
| Failed     (** not executed *)
| LostReply. (** executed, reply lost *)

(** ** A state monad with errors *)

Definition SM (S E A : Type) : Type := S → result E A * S.

#[export] Instance sm_monad (S E : Type) : SeqMonad (SM S E) := {|
  ret A a := λ s, (Ok a, s);
  bind A B m k := λ s,
    match m s with
    | (Ok a, s') => k a s'
    | (Err e, s') => (Err e, s')
    end;
|}.

Definition fail {S E A} (e : E) : SM S E A := λ s, (Err e, s).

(** The error as a value: Go's "v, err := f()" when [err] is inspected. *)
Definition attempt {S E A} (m : SM S E A) : SM S E (result E A) :=
  λ s, let '(r, s') := m s in (Ok r, s').

(** A loop over a slice that stops at the first error. *)
Fixpoint for_each {S E A} (l : list A) (f : A → SM S E unit) : SM S E unit :=
  match l with
  | [] => ret tt
  | x :: l => let! _ := f x in for_each l f
  end.

(** A loop over a slice with an accumulator. *)
Fixpoint fold_each {S E A B} (l : list A) (acc : B) (f : B → A → SM S E B) : SM S E B :=
  match l with
  | [] => ret acc
  | x :: l => let! acc := f acc x in fold_each l acc f
  end.

(** What an operation returns when it returns without an error. *)
Section Returns.
Context {S E : Type}.

Definition returns {A} (m : SM S E A) (φ : A → Prop) : Prop :=
  ∀ s a s', m s = (Ok a, s') → φ a.

Lemma returns_ret {A} (a : A) (φ : A → Prop) : φ a → returns (ret a) φ.
Proof. intros H s a' s' Hr. cbv in Hr. by simplify_eq. Qed.
Lemma returns_fail {A} (e : E) (φ : A → Prop) : returns (fail e) φ.
Proof. intros s a' s' Hr. by cbv in Hr. Qed.
Lemma returns_bind {A B} (m : SM S E A) (k : A → SM S E B) φ :
  (∀ a, returns (k a) φ) → returns (let! a := m in k a) φ.
Proof.
  intros Hk s b s' Hr. simpl in Hr. destruct (m s) as [[a|e] s1]; [|done]. by eapply Hk.
Qed.
Lemma returns_fold_each {A B} (l : list A) (acc : B) (f : B → A → SM S E B) φ :
  φ acc → (∀ c x, φ c → returns (f c x) φ) → returns (fold_each l acc f) φ.
Proof.
  intros Hacc Hf. revert acc Hacc. induction l as [|x l IH]; intros acc Hacc; simpl.
  - by apply returns_ret.
  - intros s b s' Hr. simpl in Hr. destruct (f acc x s) as [[a|e] s1] eqn:E1; [|done].
    eapply IH; [|exact Hr]. by eapply Hf.
Qed.
End Returns.

Section Sql.
Context {DB E : Type} `{!FromDb E}.

(** A statement: its result and the new database, or the constraint that
    refuses it. *)
Definition Stmt (A : Type) : Type := DB → result dberr (A * DB).

Definition query {A} (f : DB → A) : Stmt A := λ d, Ok (f d, d).

Record World := mkWorld {
  w_db : DB;
  w_faults : list outcome;      (** fate of the coming round trips; [Done] when exhausted *)
  w_env : list (DB → DB);       (** what other clients do before the coming top-level steps *)
}.

Record TxState := mkTx {
  t_db : DB;
  t_ok : bool;
  t_faults : list outcome;
}.

Definition Op (A : Type) : Type := SM World E A.
Definition Tx (A : Type) : Type := SM TxState E A.

Definition next (fs : list outcome) : outcome * list outcome :=
  match fs with [] => (Done, []) | f :: fs => (f, fs) end.

(** Other clients' steps that happen before the next top-level step. *)
Definition interfere (w : World) : World :=
  match w_env w with
  | [] => w
  | g :: env => mkWorld (g (w_db w)) (w_faults w) env
  end.

(** pool.QueryRow / pool.Query / pool.Exec *)
Definition pool_stmt {A} (s : Stmt A) : Op A := λ w,
  let w := interfere w in
  let '(o, fs) := next (w_faults w) in
  let w' d := mkWorld d fs (w_env w) in
  match o, s (w_db w) with
  | Done, Ok (a, d) => (Ok a, w' d)
  | Done, Err e => (Err (from_db e), w' (w_db w))
  | Failed, _ => (Err (from_db IOFailure), w' (w_db w))
  | LostReply, Ok (_, d) => (Err (from_db IOFailure), w' d)
  | LostReply, Err _ => (Err (from_db IOFailure), w' (w_db w))
  end.

(** tx.QueryRow / tx.Query / tx.Exec *)
Definition tx_stmt {A} (s : Stmt A) : Tx A := λ t,
  if t_ok t then
    let '(o, fs) := next (t_faults t) in
    match o, s (t_db t) with
    | Done, Ok (a, d) => (Ok a, mkTx d true fs)
    | Done, Err e => (Err (from_db e), mkTx (t_db t) false fs)
    | _, _ => (Err (from_db IOFailure), mkTx (t_db t) false fs)
    end
  else (Err (from_db TxAborted), t).

(** How the code leaves a transaction without an error. *)
Inductive TxEnd (A : Type) :=
| Commit (a : A)
| Rollback (a : A).
#[global] Arguments Commit {A} a.
#[global] Arguments Rollback {A} a.

(** pool.Begin, the body with "defer tx.Rollback(ctx)", then Commit or an
    explicit Rollback. *)
Definition run_tx {A} (body : Tx (TxEnd A)) : Op A := λ w,
  let w := interfere w in
  let '(o, fs) := next (w_faults w) in
  match o with
  | Done =>
      let '(r, t) := body (mkTx (w_db w) true fs) in
      let stay fs := mkWorld (w_db w) fs (w_env w) in
      match r with
      | Err e => (Err e, stay (t_faults t))
      | Ok (Rollback a) =>
          match next (t_faults t) with
          | (Done, fs') => (Ok a, stay fs')
          | (_, fs') => (Err (from_db IOFailure), stay fs')
          end
      | Ok (Commit a) =>
          match t_ok t, next (t_faults t) with
          | false, (_, fs') => (Err (from_db CommitRolledBack), stay fs')
          | true, (Done, fs') => (Ok a, mkWorld (t_db t) fs' (w_env w))
          | true, (Failed, fs') => (Err (from_db IOFailure), stay fs')
          | true, (LostReply, fs') => (Err (from_db IOFailure), mkWorld (t_db t) fs' (w_env w))
          end
      end
  | _ => (Err (from_db IOFailure), mkWorld (w_db w) fs (w_env w))
  end.

(** No failures and no other clients. *)
Definition calm (d : DB) : World := mkWorld d [] [].
End Sql.

Arguments World : clear implicits.
Arguments TxState : clear implicits.
Arguments Op : clear implicits.
Arguments Tx : clear implicits.
Arguments Stmt : clear implicits.
Arguments TxEnd : clear implicits.

(** ** All or nothing

    With failures but no other clients, a transaction either has the effect it
    has when nothing fails, or none. *)
Section AllOrNothing.
Context {DB E : Type} `{!FromDb E}.

Definition quiet (t : TxState DB) : TxState DB := mkTx (t_db t) (t_ok t) [].

Definition db_failure {A} (r : result E A) : Prop := ∃ x, r = Err (from_db x).

(** The body agrees with its failure-free run unless it reports a failure of
    the database or, when it ignores the error of a statement
    ([strict = false]), leaves the transaction aborted. *)
Definition robust (strict : bool) {A} (m : Tx DB E A) : Prop :=
  (∀ t, t_ok t = false → t_ok (m t).2 = false ∧
     (strict = false → is_ok (m t).1 = true ∨ db_failure (m t).1)) ∧
  (∀ t, t_ok t = true →
    ((m (quiet t)).1 = (m t).1 ∧ quiet (m t).2 = (m (quiet t)).2
      ∧ (strict = true → is_ok (m t).1 = true → t_ok (m t).2 = true))
    ∨ db_failure (m t).1
    ∨ (strict = false ∧ t_ok (m t).2 = false ∧ is_ok (m t).1 = true)).

Lemma robust_ret b {A} (a : A) : robust b (ret a).
Proof. split; [auto|intros t Ht; left; split; [reflexivity|split; [reflexivity|done]]]. Qed.

Lemma robust_fail {A} (e : E) : robust true (fail e : Tx DB E A).
Proof. split; [done|intros t Ht; left; split; [reflexivity|split; [reflexivity|done]]]. Qed.

Lemma tx_stmt_cases {A} (s : Stmt DB A) t (r := (tx_stmt s : Tx DB E A) t)
    (r0 := (tx_stmt s : Tx DB E A) (quiet t)) :
  (t_ok t = false → r = (Err (from_db TxAborted), t)) ∧
  (t_ok t = true →
    (r0.1 = r.1 ∧ quiet r.2 = r0.2 ∧ (is_ok r.1 = true → t_ok r.2 = true))
    ∨ (db_failure r.1 ∧ t_ok r.2 = false)).
Proof.
  subst r r0. unfold tx_stmt, quiet, db_failure; simpl. split; intros Ht; rewrite Ht; [done|].
  destruct (t_faults t) as [|[| |] fs] eqn:Ef; simpl; auto;
    destruct (s (t_db t)) as [[a d]|e]; simpl; eauto.
Qed.

Lemma robust_stmt b {A} (s : Stmt DB A) : robust b (tx_stmt s).
Proof.
  split; intros t Ht; destruct (tx_stmt_cases s t) as [H1 H2].
  - rewrite H1 by done. split; [done|]. right. by exists TxAborted.
  - destruct (H2 Ht) as [(?&?&?)|[? ?]]; auto 10.
Qed.

(** An ignored failure leaves the transaction aborted, so it cannot commit. *)
Lemma robust_attempt_stmt {A} (s : Stmt DB A) :
  robust false (attempt (tx_stmt s) : Tx DB E _).
Proof.
  split; intros t Ht; unfold attempt; destruct (tx_stmt_cases s t) as [H1 H2].
  - rewrite H1 by done. auto.
  - destruct (H2 Ht) as [(Hr&Hs&_)|[Hr Hs]].
    + left. destruct (tx_stmt s t), (tx_stmt s (quiet t)); simpl in *; by subst.
    + right; right. destruct (tx_stmt s t); simpl in *; auto.
Qed.

Lemma robust_bind b {A B} (m : Tx DB E A) (k : A → Tx DB E B) :
  robust b m → (∀ a, robust b (k a)) → robust b (let! a := m in k a).
Proof.
  unfold db_failure. intros [Hm1 Hm2] Hk. split; intros t Ht; simpl.
  - specialize (Hm1 t Ht) as [Hm1 Hmr]. destruct (m t) as [[a|e] t']; simpl in *.
    + by apply (Hk a).
    + split; [done|]. intros Hb. destruct (Hmr Hb) as [Hx|[x Hx]]; [done|]. right. exists x. congruence.
  - specialize (Hm2 t Ht).
    destruct (m t) as [r t'] eqn:Em, (m (quiet t)) as [r0 t0] eqn:Em0; simpl in *.
    destruct Hm2 as [(->&<-&Hstrict)|[[x ->]|(->&Hbad&Hok)]].
    + destruct r as [a|e]; simpl; [|by left].
      destruct (t_ok t') eqn:Ok'; [by apply (Hk a)|].
      destruct b; [by specialize (Hstrict eq_refl eq_refl)|].
      destruct (Hk a) as [Hd _]. destruct (Hd t' Ok') as [? Hr]. destruct (Hr eq_refl); auto 10.
    + simpl. right; left. by exists x.
    + destruct r as [a|e]; simpl; [|done].
      destruct (Hk a) as [Hd _]. destruct (Hd t' Hbad) as [? Hr]. destruct (Hr eq_refl); auto 10.
Qed.

Lemma robust_for_each b {A} (l : list A) (f : A → Tx DB E unit) :
  (∀ x, robust b (f x)) → robust b (for_each l f).
Proof.
  intros Hf. induction l as [|x l IH]; [apply robust_ret|].
  apply robust_bind; auto.
Qed.

Lemma robust_fold_each b {A B} (l : list A) (acc : B) (f : B → A → Tx DB E B) :
  (∀ c x, robust b (f c x)) → robust b (fold_each l acc f).
Proof.
  intros Hf. revert acc. induction l as [|x l IH]; intros acc; [apply robust_ret|].
  apply robust_bind; auto.
Qed.

(** The database and the reply of a transaction when nothing fails. *)
Definition committed {A} (body : Tx DB E (TxEnd A)) (d : DB) : DB :=
  w_db (run_tx body (calm d)).2.
Definition reply {A} (body : Tx DB E (TxEnd A)) (d : DB) : result E A :=
  (run_tx body (calm d)).1.

Definition is_rollback {A} (r : result E (TxEnd A)) : bool :=
  match r with Ok (Rollback _) => true | _ => false end.

(** A body that ignores no error, or never rolls back explicitly. *)
Definition all_or_nothing {A} (body : Tx DB E (TxEnd A)) : Prop :=
  robust true body ∨ (robust false body ∧ ∀ t, is_rollback (body t).1 = false).

(** Whatever fails, the transaction has its whole effect or none; a reply
    without an error is the failure-free one, and the effect is there. *)
Lemma run_tx_all_or_nothing {A} (body : Tx DB E (TxEnd A)) w
    (d := w_db (interfere w)) (r := run_tx body w) :
  all_or_nothing body →
  (w_db r.2 = d ∨ w_db r.2 = committed body d)
  ∧ (is_ok r.1 = true → r.1 = reply body d ∧ w_db r.2 = committed body d)
  ∧ (∀ e, r.1 = Err e → (∃ x, e = from_db x) ∨ (reply body d = Err e ∧ w_db r.2 = d))
  ∧ w_env r.2 = w_env (interfere w).
Proof.
  intros Hrob. subst d r. unfold committed, reply, calm, run_tx; simpl.
  set (v := interfere w). destruct (next (w_faults v)) as [[| |] fs1]; simpl; [|naive_solver..].
  assert (∃ b, robust b body ∧ (b = true ∨ is_rollback (body (mkTx (w_db v) true fs1)).1 = false))
    as (b & [_ Hb] & Hroll) by (destruct Hrob as [|[? ?]]; eauto).
  specialize (Hb (mkTx (w_db v) true fs1) eq_refl). unfold quiet in Hb; simpl in Hb.
  destruct (body (mkTx (w_db v) true fs1)) as [r t] eqn:E1.
  destruct (body (mkTx (w_db v) true [])) as [r0 t0] eqn:E0; simpl in *.
  destruct Hb as [(->&<-&Hs)|[Hbad|[-> Hbad]]].
  - destruct r as [[a|a]|e]; simpl; [| |naive_solver].
    + destruct (t_ok t), (next (t_faults t)) as [[| |] fs']; simpl; naive_solver.
    + destruct (next (t_faults t)) as [[| |] fs']; simpl; naive_solver.
  - destruct Hbad as [x ->]; simpl in *; naive_solver.
  - destruct Hbad as [Hbad Hok].
    destruct r as [[a|a]|e]; simpl in *; rewrite ?Hbad; [|by destruct Hroll|done].
    destruct (next (t_faults t)) as [o fs']; simpl; naive_solver.
Qed.
End AllOrNothing.

(** With no other clients, a statement sent to the pool. *)
Lemma pool_stmt_alone {DB E A} `{!FromDb E} (s : Stmt DB A) (w : World DB) r w' :
  w_env w = [] → pool_stmt (E:=E) s w = (r, w') →
  w_env w' = [] ∧
  match r with
  | Ok a => s (w_db w) = Ok (a, w_db w')
  | Err e => (∃ x, e = from_db x) ∧ (w_db w' = w_db w ∨ ∃ a, s (w_db w) = Ok (a, w_db w'))
  end.
Proof.
  intros Hw Hr. unfold pool_stmt, interfere in Hr. rewrite Hw in Hr.
  destruct (next _) as [[| |] fs]; destruct (s (w_db w)) as [[a d]|e] eqn:Es;
    simplify_eq/=; rewrite Hw; eauto 10.
Qed.

Lemma pool_query_alone {DB E A} `{!FromDb E} (f : DB → A) (w : World DB) r w' :
  w_env w = [] → pool_stmt (E:=E) (query f) w = (r, w') →
  w_env w' = [] ∧ w_db w' = w_db w ∧
  match r with Ok a => a = f (w_db w) | Err e => ∃ x, e = from_db x end.
Proof.
  intros Hw (He&Hr)%pool_stmt_alone; [|done]. unfold query in Hr.
  destruct r as [a|e]; [by simplify_eq|].
  destruct Hr as [Hx [Hd|[a Ha]]]; [done|]. by simplify_eq.
Qed.

Lemma run_tx_alone {DB E A} `{!FromDb E} (body : Tx DB E (TxEnd A)) (w : World DB) r w' :
  w_env w = [] → all_or_nothing body → run_tx body w = (r, w') →
  w_env w' = [] ∧
  match r with
  | Ok a => reply body (w_db w) = Ok a ∧ w_db w' = committed body (w_db w)
  | Err e => ((∃ x, e = from_db x) ∧ (w_db w' = w_db w ∨ w_db w' = committed body (w_db w)))
             ∨ (reply body (w_db w) = Err e ∧ w_db w' = w_db w)
  end.
Proof.
  intros Hw Hrob Hr. destruct (run_tx_all_or_nothing body w Hrob) as (H1&H2&H3&H4).
  rewrite Hr in *. unfold interfere in *. rewrite Hw in *. simpl in *. split; [congruence|].
  destruct r as [a|e].
  - by destruct (H2 eq_refl) as [-> ?].
  - destruct (H3 e eq_refl) as [?|?]; auto.
Qed.

(** The same by cases: the whole transaction with its reply, or a failure of
    the database that tells nothing about which. *)
Lemma run_tx_outcome {DB E A} `{!FromDb E} (body : Tx DB E (TxEnd A)) (w : World DB) r w' :
  w_env w = [] → all_or_nothing body → run_tx body w = (r, w') →
  w_env w' = [] ∧
  ((r = reply body (w_db w) ∧
    (w_db w' = committed body (w_db w) ∨ (is_ok r = false ∧ w_db w' = w_db w))) ∨
   ((∃ x, r = Err (from_db x)) ∧ (w_db w' = w_db w ∨ w_db w' = committed body (w_db w)))).
Proof.
  intros Hw Hrob Hr. apply run_tx_alone in Hr as [Hw' Hr]; [|done..]. split; [done|].
  destruct r as [a|e]; [left; naive_solver|].
  destruct Hr as [[[x ->] Hd]|[He Hd]]; [right; eauto|]. left. auto.
Qed.

Create HintDb robust.
#[export] Hint Resolve robust_ret robust_fail robust_stmt robust_bind robust_attempt_stmt
  robust_for_each robust_fold_each : robust.

(** ** Rely-guarantee

    [R] relates the database before and after any number of steps.  An
    operation guarantees [R] when, whatever fails, it only moves the database
    along [R], as long as the other clients do. *)
Section Guarantee.
Context {DB E : Type} `{!FromDb E} (R : relation DB) `{!PreOrder R}.

Definition stmt_guar {A} (s : Stmt DB A) : Prop :=
  ∀ d a d', s d = Ok (a, d') → R d d'.

Definition rely (w : World DB) : Prop := Forall (λ g, ∀ d, R d (g d)) (w_env w).

Definition op_guar {A} (m : Op DB E A) : Prop :=
  ∀ w, rely w → R (w_db w) (w_db (m w).2) ∧ rely (m w).2.

Lemma stmt_guar_query {A} (f : DB → A) : stmt_guar (query f).
Proof. intros d a d' H. unfold query in H. by simplify_eq. Qed.

Lemma interfere_rely w :
  rely w → R (w_db w) (w_db (interfere w)) ∧ rely (interfere w).
Proof.
  unfold rely, interfere. destruct (w_env w) as [|g env] eqn:Eq; simpl.
  - rewrite Eq. done.
  - intros Hf; inv Hf; auto.
Qed.

(** *** Top-level operations *)

Lemma op_guar_ret {A} (a : A) : op_guar (ret a).
Proof. intros w Hw; split; [reflexivity|done]. Qed.

Lemma op_guar_fail {A} (e : E) : op_guar (fail e : Op DB E A).
Proof. intros w Hw; split; [reflexivity|done]. Qed.

Lemma op_guar_bind {A B} (m : Op DB E A) (k : A → Op DB E B) :
  op_guar m → (∀ a, op_guar (k a)) → op_guar (let! a := m in k a).
Proof.
  intros Hm Hk w Hw. destruct (Hm w Hw) as [HR Hw']. simpl.
  destruct (m w) as [[a|e] w'] eqn:Em; simpl in *; [|done].
  destruct (Hk a w' Hw') as [HR' Hw'']. split; [by etrans|done].
Qed.

Lemma op_guar_attempt {A} (m : Op DB E A) : op_guar m → op_guar (attempt m).
Proof.
  intros Hm w Hw. specialize (Hm w Hw). unfold attempt. by destruct (m w).
Qed.

Lemma op_guar_pool {A} (s : Stmt DB A) : stmt_guar s → op_guar (pool_stmt s).
Proof.
  intros Hs w Hw. destruct (interfere_rely w Hw) as [HR Hw'].
  unfold pool_stmt, rely in *. simpl.
  destruct (next _) as [o fs].
  destruct o; destruct (s (w_db (interfere w))) as [[a d]|e] eqn:Es; simpl; split; try done;
    (etrans; [done|eauto]).
Qed.

(** A transaction guarantees what its failure-free effect guarantees. *)
Lemma op_guar_run_tx {A} (body : Tx DB E (TxEnd A)) :
  all_or_nothing body → (∀ d, R d (committed body d)) → op_guar (run_tx body).
Proof.
  intros Hrob Hc w Hw. destruct (interfere_rely w Hw) as [HR Hw'].
  destruct (run_tx_all_or_nothing body w Hrob) as ([Hd|Hd] & _ & _ & Henv);
    unfold rely; rewrite Hd, Henv; split; try done. by etrans.
Qed.

Lemma op_guar_for_each {A} (l : list A) (f : A → Op DB E unit) :
  (∀ x, op_guar (f x)) → op_guar (for_each l f).
Proof.
  intros Hf. induction l as [|x l IH]; [apply op_guar_ret|].
  apply op_guar_bind; auto.
Qed.
End Guarantee.

Create HintDb guar.
#[export] Hint Resolve stmt_guar_query op_guar_ret op_guar_fail op_guar_bind
  op_guar_attempt op_guar_pool op_guar_run_tx op_guar_for_each : guar.

(** Invariants are guarantees. *)
Definition preserves {DB} (I : DB → Prop) : relation DB := λ d d', I d → I d'.

#[export] Instance preserves_preorder {DB} (I : DB → Prop) : PreOrder (preserves I).
Proof. split; unfold preserves; [intros d; done|intros d1 d2 d3; auto]. Qed.


(** ** Hoare triples for transaction bodies

    [triple P m Q]: whatever round trips fail, if the transaction is live with a
    database satisfying [P] and [m] returns without an error leaving it live,
    the result and the database satisfy [Q]; and a dead transaction stays dead. *)
Section Triple.
Context {DB E : Type} `{!FromDb E}.

Definition triple {A} (P : DB → Prop) (m : Tx DB E A) (Q : A → DB → Prop) : Prop :=
  (∀ t, t_ok t = false → t_ok (m t).2 = false) ∧
  (∀ t a t', t_ok t = true → P (t_db t) → m t = (Ok a, t') → t_ok t' = true → Q a (t_db t')).

Lemma triple_ret {A} (a : A) (P : DB → Prop) (Q : A → DB → Prop) :
  (∀ d, P d → Q a d) → triple P (ret a) Q.
Proof. intros H. split; [done|]. intros t a' t' _ HP Hr _. cbv in Hr. simplify_eq. auto. Qed.

Lemma triple_fail {A} (e : E) P (Q : A → DB → Prop) : triple P (fail e) Q.
Proof. split; [done|]. intros t a t' _ _ Hr. by cbv in Hr. Qed.

Lemma triple_stmt {A} (s : Stmt DB A) (P : DB → Prop) (Q : A → DB → Prop) :
  (∀ d a d', P d → s d = Ok (a, d') → Q a d') → triple P (tx_stmt s) Q.
Proof.
  intros H. split; unfold tx_stmt.
  - intros t Ht; by rewrite Ht.
  - intros t a t' Ht HP Hr Ht'. rewrite Ht in Hr. destruct (next _) as [[| |] fs];
      destruct (s (t_db t)) as [[a' d]|e] eqn:Es; simplify_eq; simpl; eauto.
Qed.

(** An ignored error: the statement ran, or the transaction is dead. *)
Lemma triple_attempt_stmt {A} (s : Stmt DB A) (P : DB → Prop) (Q : result E A → DB → Prop) :
  (∀ d a d', P d → s d = Ok (a, d') → Q (Ok a) d') → triple P (attempt (tx_stmt s)) Q.
Proof.
  intros H. split; unfold attempt, tx_stmt.
  - intros t Ht; by rewrite Ht.
  - intros t a t' Ht HP Hr Ht'. rewrite Ht in Hr. destruct (next _) as [[| |] fs];
      destruct (s (t_db t)) as [[a' d]|e] eqn:Es; simplify_eq; simpl; eauto.
Qed.

Lemma triple_bind {A B} (m : Tx DB E A) (k : A → Tx DB E B) P Q R :
  triple P m Q → (∀ a, triple (Q a) (k a) R) → triple P (let! a := m in k a) R.
Proof.
  intros [Hs Hm] Hk. split.
  - intros t Ht. simpl. specialize (Hs t Ht). destruct (m t) as [[a|e] t']; [|done].
    by apply (Hk a).
  - intros t b t'' Ht HP Hr Ht''. simpl in Hr. destruct (m t) as [[a|e] t'] eqn:Em; [|done].
    destruct (t_ok t') eqn:Ht'.
    + eapply (Hk a); eauto.
    + destruct (Hk a) as [Hs' _]. specialize (Hs' t' Ht'). rewrite Hr in Hs'. simpl in Hs'.
      congruence.
Qed.

Lemma triple_pre {A} (P P' : DB → Prop) (m : Tx DB E A) Q :
  (∀ d, P d → P' d) → triple P' m Q → triple P m Q.
Proof.
  intros H [Hs Hm]; split; [done|]. intros t a t' Ht HP Hr Ht'.
  exact (Hm t a t' Ht (H _ HP) Hr Ht').
Qed.

Lemma triple_post {A} (P : DB → Prop) (m : Tx DB E A) (Q Q' : A → DB → Prop) :
  (∀ a d, Q a d → Q' a d) → triple P m Q → triple P m Q'.
Proof. 
  intros H [Hs Hm]; split; [done|]. intros t a t' Ht HP Hr Ht'.
  apply H. exact (Hm t a t' Ht HP Hr Ht').
Qed.

(** Facts that do not depend on the database can be assumed, as long as the
    dead transaction is accounted for. *)
Lemma triple_pure {A} (φ : Prop) (P : DB → Prop) (m : Tx DB E A) Q :
  (∀ t, t_ok t = false → t_ok (m t).2 = false) →
  (φ → triple P m Q) → triple (λ d, φ ∧ P d) m Q.
Proof.
  intros Hs Hm. split; [done|]. intros t a t' Ht [Hφ HP]. by eapply (Hm Hφ).
Qed.

Lemma triple_for_each {A} (l : list A) (f : A → Tx DB E unit) (P : DB → Prop) :
  (∀ x, triple P (f x) (λ _, P)) → triple P (for_each l f) (λ _, P).
Proof.
  intros Hf. induction l as [|x l IH]; simpl; [by apply triple_ret|].
  eapply triple_bind; eauto.
Qed.

Lemma triple_for_each_in {A} (l : list A) (f : A → Tx DB E unit) (P : DB → Prop) :
  (∀ x, x ∈ l → triple P (f x) (λ _, P)) → triple P (for_each l f) (λ _, P).
Proof.
  induction l as [|x l IH]; intros Hf; simpl; [by apply triple_ret|].
  eapply (triple_bind _ _ _ (λ _, P)); [apply Hf; by left|]. intros _. apply IH. intros y Hy. apply Hf. by right.
Qed.

Lemma triple_fold_each {A B} (l : list A) (acc : B) (f : B → A → Tx DB E B) (P : DB → Prop) :
  (∀ c x, triple P (f c x) (λ _, P)) → triple P (fold_each l acc f) (λ _, P).
Proof.
  intros Hf. revert acc. induction l as [|x l IH]; intros acc; simpl; [by apply triple_ret|].
  eapply triple_bind; eauto.
Qed.

Lemma triple_conj {A} (P : DB → Prop) (m : Tx DB E A) Q1 Q2 :
  triple P m Q1 → triple P m Q2 → triple P m (λ a d, Q1 a d ∧ Q2 a d).
Proof. intros [Hs H1] [_ H2]; split; [done|]. intros; split; eauto. Qed.

Lemma triple_returns {A} (P : DB → Prop) (m : Tx DB E A) Q (φ : A → Prop) :
  triple P m Q → returns m φ → triple P m (λ a d, Q a d ∧ φ a).
Proof. intros [Hs H1] H2; split; [done|]. intros; split; eauto. Qed.

(** A transaction seen from outside, whatever fails: the database is
    unchanged or satisfies the postcondition of a commit, and a reply without
    an error says which. *)
Lemma run_tx_triple {A} (P : DB → Prop) (body : Tx DB E (TxEnd A)) Q w
    (d := w_db (interfere w)) (r := run_tx body w) :
  all_or_nothing body → triple P body Q → P d →
  (w_db r.2 = d ∨ ∃ a, Q (Commit a) (w_db r.2)) ∧
  (∀ a, r.1 = Ok a →
    Q (Commit a) (w_db r.2) ∨ (w_db r.2 = d ∧ ∃ d', Q (Rollback a) d')).
Proof.
  intros Hrob [_ Hm] HP. subst d r. unfold run_tx. set (v := interfere w) in *.
  destruct (next (w_faults v)) as [[| |] fs1]; simpl; [|naive_solver..].
  destruct (body (mkTx (w_db v) true fs1)) as [r t] eqn:E1.
  destruct r as [[a|a]|e]; simpl; [| |naive_solver].
  - pose proof (Hm (mkTx (w_db v) true fs1) (Commit a) t eq_refl HP E1) as HQ.
    destruct (t_ok t), (next (t_faults t)) as [[| |] fs']; simpl; naive_solver.
  - pose proof (Hm (mkTx (w_db v) true fs1) (Rollback a) t eq_refl HP E1) as HQ.
    assert (t_ok t = true) as Ht.
    { destruct Hrob as [[_ Hrob]|[_ Hrob]].
      - specialize (Hrob (mkTx (w_db v) true fs1) eq_refl). rewrite E1 in Hrob.
        destruct Hrob as [(_&_&Hstrict)|[[x Hx]|(Hx&_)]]; [by apply Hstrict|done|done].
      - specialize (Hrob (mkTx (w_db v) true fs1)). by rewrite E1 in Hrob. }
    destruct (next (t_faults t)) as [[| |] fs']; simpl; naive_solver.
Qed.

(** The database can only move along [R]. *)
Lemma op_guar_run_tx_triple {A} (R : relation DB) `{!PreOrder R} (body : Tx DB E (TxEnd A)) :
  (∀ d0, triple (λ d, d = d0) body (λ x d, match x with Commit _ => R d0 d | Rollback _ => True end)) →
  op_guar R (run_tx body).
Proof.
  intros Hm w Hw. destruct (interfere_rely R w Hw) as [HR Hw'].
  unfold run_tx. set (v := interfere w) in *.
  destruct (next (w_faults v)) as [[| |] fs1]; simpl; [|by split..].
  destruct (body (mkTx (w_db v) true fs1)) as [r t] eqn:E1.
  destruct (Hm (w_db v)) as [_ Hm'].
  destruct r as [[a|a]|e]; simpl; [| |by split].
  - specialize (Hm' (mkTx (w_db v) true fs1) _ t eq_refl eq_refl E1).
    destruct (t_ok t) eqn:Et, (next (t_faults t)) as [[| |] fs']; simpl; (split; [|done]); try done;
      (etrans; [done|auto]).
  - destruct (next (t_faults t)) as [[| |] fs']; simpl; by split.
Qed.
End Triple.

(** ** Guarantees of transaction bodies *)
Section TxGuarantee.
Context {DB E : Type} `{!FromDb E} (R : relation DB) `{!PreOrder R}.

Definition tx_guar {A} (m : Tx DB E A) : Prop :=
  ∀ d0, triple (λ d, R d0 d) m (λ _ d, R d0 d).

Lemma tx_guar_ret {A} (a : A) : tx_guar (ret a).
Proof. intros d0. by apply triple_ret. Qed.
Lemma tx_guar_fail {A} (e : E) : tx_guar (fail e : Tx DB E A).
Proof. intros d0. apply triple_fail. Qed.
Lemma tx_guar_stmt {A} (s : Stmt DB A) : stmt_guar R s → tx_guar (tx_stmt s).
Proof. intros Hs d0. apply triple_stmt. intros d a d' Hd Hr. etrans; [done|eauto]. Qed.
Lemma tx_guar_attempt {A} (s : Stmt DB A) : stmt_guar R s → tx_guar (attempt (tx_stmt s)).
Proof. intros Hs d0. apply triple_attempt_stmt. intros d a d' Hd Hr. etrans; [done|eauto]. Qed.
Lemma tx_guar_bind {A B} (m : Tx DB E A) (k : A → Tx DB E B) :
  tx_guar m → (∀ a, tx_guar (k a)) → tx_guar (let! a := m in k a).
Proof. intros Hm Hk d0. eapply triple_bind; [apply Hm|intros a; apply Hk]. Qed.
Lemma tx_guar_for_each {A} (l : list A) (f : A → Tx DB E unit) :
  (∀ x, tx_guar (f x)) → tx_guar (for_each l f).
Proof. intros Hf d0. apply triple_for_each. intros x; apply Hf. Qed.
Lemma tx_guar_fold_each {A B} (l : list A) (acc : B) (f : B → A → Tx DB E B) :
  (∀ c x, tx_guar (f c x)) → tx_guar (fold_each l acc f).
Proof. intros Hf d0. apply triple_fold_each. intros c x; apply Hf. Qed.

(** Two statements that only together move along [R]. *)
Lemma tx_guar_pair {A B} (s : Stmt DB A) (s' : A → Stmt DB B) :
  (∀ d a d1 b d2, s d = Ok (a, d1) → s' a d1 = Ok (b, d2) → R d d2) →
  tx_guar (let! a := tx_stmt s in tx_stmt (s' a)).
Proof.
  intros Hs d0. eapply (triple_bind _ _ _ (λ a d1, ∃ d, R d0 d ∧ s d = Ok (a, d1))).
  - apply triple_stmt. eauto.
  - intros a. apply triple_stmt. intros d1 b d2 (d&Hd&Ha) Hb. etrans; eauto.
Qed.

Lemma op_guar_tx {A} (body : Tx DB E (TxEnd A)) : tx_guar body → op_guar R (run_tx body).
Proof.
  intros Hb. apply op_guar_run_tx_triple; [done|]. intros d0.
  eapply triple_pre; [|eapply triple_post; [|apply (Hb d0)]].
  - intros d ->. done.
  - intros [a|a] d; done.
Qed.
End TxGuarantee.

(** ** Running a transaction when nothing fails *)
Section Calm.
Context {DB E : Type} `{!FromDb E}.

Definition live (d : DB) : TxState DB := mkTx d true [].

Lemma tx_stmt_live {A} (s : Stmt DB A) d :
  (tx_stmt s : Tx DB E A) (live d) =
  match s d with
  | Ok (a, d') => (Ok a, live d')
  | Err e => (Err (from_db e), mkTx d false [])
  end.
Proof. unfold tx_stmt, live; simpl. by destruct (s d) as [[a d']|e]. Qed.

Lemma bind_live {A B} (m : Tx DB E A) (k : A → Tx DB E B) t :
  (let! a := m in k a) t = match m t with (Ok a, t') => k a t' | (Err e, t') => (Err e, t') end.
Proof. reflexivity. Qed.

Lemma calm_commit {A} (body : Tx DB E (TxEnd A)) d a d' :
  body (live d) = (Ok (Commit a), live d') → reply body d = Ok a ∧ committed body d = d'.
Proof. unfold reply, committed, calm, run_tx, live; simpl. by intros ->. Qed.
Lemma calm_rollback {A} (body : Tx DB E (TxEnd A)) d a t :
  body (live d) = (Ok (Rollback a), t) → t_faults t = [] →
  reply body d = Ok a ∧ committed body d = d.
Proof. unfold reply, committed, calm, run_tx, live; simpl. intros ->; simpl. by intros ->. Qed.
Lemma calm_error {A} (body : Tx DB E (TxEnd A)) d e t :
  body (live d) = (Err e, t) → reply body d = Err e ∧ committed body d = d.
Proof. unfold reply, committed, calm, run_tx, live; simpl. by intros ->. Qed.

Lemma for_each_live {A} (l : list A) (s : A → Stmt DB unit) d u t :
  for_each l (λ x, tx_stmt (s x) : Tx DB E unit) (live d) = (Ok u, t) → ∃ d', t = live d'.
Proof.
  revert d. induction l as [|x l IH]; intros d H; [cbv in H; simplify_eq; by exists d|].
  cbn [for_each bind sm_monad] in H. rewrite tx_stmt_live in H.
  destruct (s x d) as [[[] d1]|e]; [by eapply IH|done].
Qed.

(** A call with no failures and no other clients. *)
Lemma pool_stmt_calm {A} (s : Stmt DB A) d :
  (pool_stmt s : Op DB E A) (calm d) =
  match s d with
  | Ok (a, d') => (Ok a, calm d')
  | Err e => (Err (from_db e), calm d)
  end.
Proof. unfold pool_stmt, calm; simpl. by destruct (s d) as [[a d']|e]. Qed.
Lemma bind_op {A B} (m : Op DB E A) (k : A → Op DB E B) w :
  (let! a := m in k a) w = match m w with (Ok a, w') => k a w' | (Err e, w') => (Err e, w') end.
Proof. reflexivity. Qed.
End Calm.

(** Run the next statement of a calm call. *)
Ltac calm_step := rewrite ?bind_op, pool_stmt_calm; unfold query.

(** ** Errors that only the database causes *)
Section DbOnly.
Context {DB E : Type} `{!FromDb E}.

Definition db_only {A} (m : Tx DB E A) : Prop :=
  ∀ t e t', m t = (Err e, t') → ∃ x, e = from_db x.

Lemma db_only_ret {A} (a : A) : db_only (ret a).
Proof. by intros t e t' H. Qed.
Lemma db_only_bind {A B} (m : Tx DB E A) (k : A → Tx DB E B) :
  db_only m → (∀ a, db_only (k a)) → db_only (let! a := m in k a).
Proof.
  intros Hm Hk t e t' H. simpl in H. destruct (m t) as [[a|x] t1] eqn:Em; [by eapply Hk|].
  simplify_eq. by eapply Hm.
Qed.
Lemma db_only_stmt {A} (s : Stmt DB A) : db_only (tx_stmt s).
Proof.
  intros t e t' H. unfold tx_stmt in H. destruct (t_ok t); [|simplify_eq; eauto].
  destruct (next _) as [[| |] fs]; destruct (s (t_db t)) as [[a d]|x]; simplify_eq; eauto.
Qed.
Lemma db_only_attempt {A} (m : Tx DB E A) : db_only (attempt m).
Proof. intros t e t' H. unfold attempt in H. by destruct (m t). Qed.
Lemma db_only_for_each {A} (l : list A) (f : A → Tx DB E unit) :
  (∀ x, db_only (f x)) → db_only (for_each l f).
Proof.
  intros Hf. induction l as [|x l IH]; [apply db_only_ret|]. by apply db_only_bind.
Qed.
Lemma db_only_fold_each {A B} (l : list A) (acc : B) (f : B → A → Tx DB E B) :
  (∀ c x, db_only (f c x)) → db_only (fold_each l acc f).
Proof.
  intros Hf. revert acc. induction l as [|x l IH]; intros acc; [apply db_only_ret|].
  by apply db_only_bind.
Qed.

(** A transaction that fails left the database as it was, or reports a failure
    of the database. *)
Lemma run_tx_err {A} (body : Tx DB E (TxEnd A)) w e w' (d := w_db (interfere w)) :
  run_tx body w = (Err e, w') →
  (∃ x, e = from_db x) ∨ (w_db w' = d ∧ ∃ fs t', body (mkTx d true fs) = (Err e, t')).
Proof.
  subst d. unfold run_tx. set (v := interfere w).
  destruct (next (w_faults v)) as [[| |] fs]; simpl; [|intros; simplify_eq; eauto..].
  destruct (body _) as [[[a|a]|x] t] eqn:Eb; simpl.
  - destruct (t_ok t), (next (t_faults t)) as [[| |] fs']; intros; simplify_eq; eauto.
  - destruct (next (t_faults t)) as [[| |] fs']; intros; simplify_eq; eauto.
  - intros; simplify_eq. right. split; [done|]. by exists fs, t.
Qed.
End DbOnly.

Ltac db_only :=
  repeat (intros; lazymatch goal with
    | |- db_only (match ?x with _ => _ end) => destruct x
    | |- db_only (bind _ _) => apply db_only_bind
    | |- db_only (ret _) => apply db_only_ret
    | |- db_only (tx_stmt _) => apply db_only_stmt
    | |- db_only (attempt _) => apply db_only_attempt
    | |- db_only (for_each _ _) => apply db_only_for_each
    | |- db_only (fold_each _ _ _) => apply db_only_fold_each
    end).
