(* ===== verification/Tables.v ===== *)
(** * Tables and statements

    What the two schemas (runtime and auth) share: selecting a row by a column,
    unique indexes, the checks of a statement, tables whose rows only evolve
    along a relation, and the tactics that follow a call statement by
    statement. *)

From S2P Require Import Prelude Sql.
#[local] Open Scope string_scope.

(** ** Selecting by a column *)

#[export] Hint Extern 1 (Decision ((λ _, _) _ _)) => progress cbv beta : typeclass_instances.

Section LookupBy.
Context {V : Type} (P : string → V → Prop) `{!∀ k v, Decision (P k v)}.

Definition lookup_by (m : gmap string V) : option (string * V) :=
  head (filter (λ kv, P kv.1 kv.2) (map_to_list m)).

Lemma lookup_by_Some m k v : lookup_by m = Some (k, v) → m !! k = Some v ∧ P k v.
Proof.
  unfold lookup_by. intros Hl. apply head_Some_elem_of in Hl.
  apply list_elem_of_filter in Hl as [HP Hin]. by apply elem_of_map_to_list in Hin.
Qed.

Lemma lookup_by_None m : lookup_by m = None ↔ ∀ k v, m !! k = Some v → ¬ P k v.
Proof.
  unfold lookup_by. rewrite head_None. split.
  - intros Hnil k v Hk HP.
    apply (not_elem_of_nil (k, v)). rewrite <- Hnil.
    apply list_elem_of_filter; split; [done|]. by apply elem_of_map_to_list.
  - intros Hno. apply elem_of_nil_inv. intros [k v] Hin.
    apply list_elem_of_filter in Hin as [HP Hin].
    apply elem_of_map_to_list in Hin. by apply (Hno k v).
Qed.

Lemma lookup_by_unique m k v :
  m !! k = Some v → P k v →
  (∀ k' v', m !! k' = Some v' → P k' v' → k' = k) → lookup_by m = Some (k, v).
Proof.
  intros Hk HP Hu. destruct (lookup_by m) as [[k' v']|] eqn:E.
  - apply lookup_by_Some in E as [Hk' HP']. pose proof (Hu _ _ Hk' HP'); by simplify_eq.
  - by destruct (proj1 (lookup_by_None m) E _ _ Hk).
Qed.
End LookupBy.

(** Does a row other than [self] have this value in a uniquely indexed column? *)
Definition taken {V C} `{EqDecision C} (col : V → option C) (m : gmap string V)
    (self : string) (c : option C) : bool :=
  match c with
  | None => false
  | Some _ => match lookup_by (λ k v, k ≠ self ∧ col v = c) m with Some _ => true | None => false end
  end.

#[global] Arguments taken : simpl never.

Definition unique_col {V C} (col : V → option C) (m : gmap string V) : Prop :=
  ∀ i j v w c, m !! i = Some v → m !! j = Some w → col v = Some c → col w = Some c → i = j.

Lemma taken_false {V C} `{EqDecision C} (col : V → option C) (m : gmap string V) self c :
  taken col m self (Some c) = false ↔
  ∀ k v, m !! k = Some v → k ≠ self → col v ≠ Some c.
Proof.
  unfold taken. destruct (lookup_by _ m) as [[k v]|] eqn:E.
  - apply lookup_by_Some in E as [Hk [Hne Hc]]. split; [done|].
    intros H. by destruct (H _ _ Hk Hne).
  - split; [|done]. intros _ k v Hk Hne Hc.
    apply (proj1 (lookup_by_None (λ k v, k ≠ self ∧ col v = Some c) m) E k v Hk); done.
Qed.

(** A row written where its value is free keeps the index unique. *)
Lemma unique_col_insert {V C} `{EqDecision C} (col : V → option C) (m : gmap string V) k v :
  unique_col col m → taken col m k (col v) = false → unique_col col (<[k := v]> m).
Proof.
  intros Hu Ht i j x y c Hi Hj Hx Hy.
  destruct (decide (i = k)) as [->|Hik], (decide (j = k)) as [->|Hjk]; [done| | |].
  - rewrite lookup_insert_eq in Hi; rewrite lookup_insert_ne in Hj by done; simplify_eq.
    rewrite Hx in Ht. by destruct (proj1 (taken_false col m k c) Ht j y Hj Hjk).
  - rewrite lookup_insert_eq in Hj; rewrite lookup_insert_ne in Hi by done; simplify_eq.
    rewrite Hy in Ht. by destruct (proj1 (taken_false col m k c) Ht i x Hi Hik).
  - rewrite lookup_insert_ne in Hi, Hj by done. eauto.
Qed.

(** ** The checks of a statement *)

Definition ensure (b : bool) (what : string) : result dberr unit :=
  if b then Ok tt else Err (Refused what).

Lemma ensure_Ok b what u : ensure b what = Ok u ↔ b = true.
Proof. unfold ensure. destruct b, u; split; congruence. Qed.

(** Split a successful statement into the checks it passed. *)
Ltac checks H :=
  repeat match type of H with
  | context [ensure ?b ?w] =>
      let C := fresh "C" in
      destruct (ensure b w) eqn:C; simpl in H; [|discriminate H]; apply ensure_Ok in C
  end.

Definition same_null {A B} (x : option A) (y : option B) : bool :=
  match x, y with None, None | Some _, Some _ => true | _, _ => false end.

Lemma same_null_spec {A B} (x : option A) (y : option B) :
  same_null x y = true ↔ (x = None ↔ y = None).
Proof. destruct x, y; simpl; split; intros; try done; naive_solver. Qed.

(** ** Tables whose rows evolve *)

Section TableLe.
Context {V : Type} (le : relation V) `{!PreOrder le}.

Definition table_le (m m' : gmap string V) : Prop :=
  ∀ i x, m !! i = Some x → ∃ y, m' !! i = Some y ∧ le x y.

#[export] Instance table_le_preorder : PreOrder table_le.
Proof.
  split.
  - intros m i x Hx. exists x. split; [done|reflexivity].
  - intros m1 m2 m3 H1 H2 i x Hx. destruct (H1 i x Hx) as (y&Hy&?).
    destruct (H2 i y Hy) as (z&Hz&?). exists z. split; [done|by etrans].
Qed.

Lemma table_le_insert m k v :
  (∀ x, m !! k = Some x → le x v) → table_le m (<[k := v]> m).
Proof.
  intros Hv i x Hx. destruct (decide (i = k)) as [->|].
  - exists v. rewrite lookup_insert_eq. auto.
  - exists x. rewrite lookup_insert_ne by done. split; [done|reflexivity].
Qed.
End TableLe.

(** [x] is kept once it is known. *)
Definition sticky {A} (x y : option A) : Prop := x = None ∨ y = x.

#[export] Instance sticky_preorder {A} : PreOrder (@sticky A).
Proof.
  split; [intros x; by right|]. unfold sticky. intros x y z [Hx|Hx] [Hy|Hy]; subst; auto.
Qed.

Ltac row_preorder :=
  split;
  [intros ?; split; auto; reflexivity
  |intros ??? [] []; split; try congruence; try (etrans; eassumption); auto].
#[export] Instance always_preorder {V} : PreOrder (λ _ _ : V, True).
Proof. split; repeat intro; auto. Qed.

(** ** Updating the rows that satisfy a condition *)

(** UPDATE ... SET over the rows of a table that satisfy a condition; the
    number of rows affected. *)
Definition update_where {V} (P : string → V → bool) (f : V → V) (m : gmap string V)
    : Z * gmap string V :=
  (Z.of_nat (size (filter (λ kv, P kv.1 kv.2 = true) m)),
   map_imap (λ k v, Some (if P k v then f v else v)) m).

Section UpdateWhere.
Context {V : Type}.
Implicit Types (m : gmap string V) (f : V → V).

Lemma lookup_update_where (P : string → V → bool) f m k :
  (update_where P f m).2 !! k = (λ v, if P k v then f v else v) <$> m !! k.
Proof. unfold update_where; simpl. rewrite map_lookup_imap. by destruct (m !! k). Qed.

Lemma update_where_unique {C} (col : V → option C) (P : string → V → bool) f m :
  (∀ v, col (f v) = col v) → unique_col col m → unique_col col (update_where P f m).2.
Proof.
  intros Hf Hu i j v w c Hi Hj. rewrite lookup_update_where in Hi, Hj.
  destruct (m !! i) as [v0|] eqn:Ei, (m !! j) as [w0|] eqn:Ej; simpl in *; try done. simplify_eq.
  intros Hv Hw. apply (Hu i j v0 w0 c); try done.
  - by destruct (P i v0); rewrite ?Hf in Hv.
  - by destruct (P j w0); rewrite ?Hf in Hw.
Qed.

Lemma update_where_le (le : relation V) `{!PreOrder le} (P : string → V → bool) f m :
  (∀ v, le v (f v)) → table_le le m (update_where P f m).2.
Proof.
  intros Hf i x Hx. rewrite lookup_update_where, Hx. simpl. eexists. split; [done|].
  destruct (P i x); [done|reflexivity].
Qed.

Lemma update_where_Some (P : string → V → bool) f m i y :
  (update_where P f m).2 !! i = Some y → ∃ x, m !! i = Some x ∧ y = if P i x then f x else x.
Proof. rewrite lookup_update_where. destruct (m !! i) as [x|]; [|done]. intros. simplify_eq/=. eauto. Qed.
End UpdateWhere.

(** ** Following a call *)

(** Prove that a transaction body ignores no error. *)
Ltac robust :=
  repeat (intros; lazymatch goal with
    | |- robust _ (match ?x with _ => _ end) => destruct x
    | |- robust _ (bind _ _) => apply robust_bind
    | |- robust _ (ret _) => apply robust_ret
    | |- robust _ (fail _) => apply robust_fail
    | |- robust _ (tx_stmt _) => apply robust_stmt
    | |- robust _ (attempt (tx_stmt _)) => apply robust_attempt_stmt
    | |- robust _ (for_each _ _) => apply robust_for_each
    | |- robust _ (fold_each _ _ _) => apply robust_fold_each
    | |- _ => solve [auto with robust]
    end).

(** Run the next statement of a calm transaction, in the equation of its run. *)
Ltac live_step H := rewrite bind_live, tx_stmt_live in H; unfold query in H.
(** The outcome of the run [H], kept in [H0]. *)
Ltac live_end H H0 :=
  cbn [ret sm_monad] in H; unfold fail in H; injection H as <- <-;
  let Hreply := fresh "Hreply" in let Hdb := fresh "Hdb" in
  first [apply calm_commit in H0 as [Hreply Hdb]
        | apply calm_rollback in H0 as [Hreply Hdb]; [|reflexivity]
        | apply calm_error in H0 as [Hreply Hdb]].

(** Follow a call made alone: one round trip after the other. *)
Ltac alone_step Hw H :=
  cbn [bind sm_monad] in H;
  let r := fresh "r" in let w1 := fresh "w" in let E := fresh "E" in let Hw' := fresh "Hw" in
  let Hd := fresh "Hd" in
  match type of H with
  | context [pool_stmt ?s ?w] =>
      destruct (pool_stmt s w) as [r w1] eqn:E;
      first
        [ apply pool_query_alone in E as (Hw'&Hd&E); [|exact Hw]
        | apply pool_stmt_alone in E as (Hw'&E); [|exact Hw] ];
      clear Hw; rename Hw' into Hw
  end.

(** Prove that an operation moves along a relation by following its structure. *)
Ltac guar :=
  repeat (intros; lazymatch goal with
    | |- op_guar _ (match ?x with _ => _ end) => destruct x
    | |- tx_guar _ (match ?x with _ => _ end) => destruct x
    | |- op_guar _ (bind _ _) => apply op_guar_bind; [apply _| |]
    | |- op_guar _ (ret _) => apply op_guar_ret; apply _
    | |- op_guar _ (fail _) => apply op_guar_fail; apply _
    | |- op_guar _ (attempt _) => apply op_guar_attempt
    | |- op_guar _ (pool_stmt _) => apply op_guar_pool; [apply _|]
    | |- op_guar _ (run_tx _) => apply op_guar_tx; [apply _|]
    | |- op_guar _ (for_each _ _) => apply op_guar_for_each; [apply _|]
    | |- tx_guar _ (bind _ _) => apply tx_guar_bind
    | |- tx_guar _ (ret _) => apply tx_guar_ret
    | |- tx_guar _ (fail _) => apply tx_guar_fail
    | |- tx_guar _ (attempt (tx_stmt _)) => apply tx_guar_attempt; [apply _|]
    | |- tx_guar _ (tx_stmt _) => apply tx_guar_stmt; [apply _|]
    | |- tx_guar _ (for_each _ _) => apply tx_guar_for_each
    | |- tx_guar _ (fold_each _ _ _) => apply tx_guar_fold_each
    | |- stmt_guar _ (query _) => apply stmt_guar_query; apply _
    | |- stmt_guar _ (match ?x with _ => _ end) => destruct x
    | |- _ => solve [eauto with guar]
    end).

(** A statement that only reads. *)
Lemma read_stmt {DB A} (R : relation DB) `{!PreOrder R} (s : Stmt DB A) :
  (∀ d a d', s d = Ok (a, d') → d' = d) → stmt_guar R s.
Proof. intros Hs d a d' H. by rewrite (Hs d a d' H). Qed.

Ltac read :=
  apply read_stmt; [apply _|];
  let d := fresh "d" in let x := fresh "x" in let d' := fresh "d'" in let Hst := fresh "Hst" in
  intros d x d' Hst; cbv beta in Hst; repeat case_match; by simplify_eq.
