(* ===== verification/GoStd.v ===== *)
(** * The parts of Go's standard library the server computes with

    [strings] (TrimSpace, Split, Fields, HasPrefix, HasSuffix, EqualFold against
    an ASCII word), [encoding/hex], [strconv] on base-10 64-bit integers, and
    [time] (instants, RFC 3339 parsing and printing).  A Go string is the list
    of its bytes; an instant is the number of nanoseconds since the Unix epoch. *)

From S2P Require Import Prelude.
From Stdlib Require Import Ascii.
#[local] Open Scope string_scope.
#[local] Open Scope list_scope.

Definition bytes : Type := list ascii.
Definition str_bytes (s : string) : bytes := String.list_ascii_of_string s.
Definition bytes_str (l : bytes) : string := String.string_of_list_ascii l.

Lemma bytes_str_bytes s : bytes_str (str_bytes s) = s.
Proof. apply String.string_of_list_ascii_of_string. Qed.
Lemma str_bytes_str l : str_bytes (bytes_str l) = l.
Proof. apply String.list_ascii_of_string_of_list_ascii. Qed.

Lemma str_bytes_inj s t : str_bytes s = str_bytes t → s = t.
Proof. intros H. rewrite <- (bytes_str_bytes s), H. apply bytes_str_bytes. Qed.

Lemma str_bytes_app s t : str_bytes (s +:+ t) = str_bytes s ++ str_bytes t.
Proof. induction s as [|c s IH]; simpl; [done|by f_equal]. Qed.

Definition code (c : ascii) : N := N_of_ascii c.

(** ** Unicode white space (unicode.IsSpace) in UTF-8 *)

Definition ascii_space (c : ascii) : bool :=
  let n := code c in ((9 <=? n) && (n <=? 13) || (n =? 32))%N.

Definition space2 (c d : ascii) : bool :=
  ((code c =? 194) && ((code d =? 133) || (code d =? 160)))%N.

Definition space3 (c d e : ascii) : bool :=
  let '(c, d, e) := (code c, code d, code e) in
  ( (c =? 225) && (d =? 154) && (e =? 128)
  || (c =? 226) && (d =? 128) &&
       ((128 <=? e) && (e <=? 138) || (e =? 168) || (e =? 169) || (e =? 175))
  || (c =? 226) && (d =? 129) && (e =? 159)
  || (c =? 227) && (d =? 128) && (e =? 128) )%N.

(** The input without its first rune, when that rune is a space. *)
Definition drop_space (l : bytes) : option bytes :=
  match l with
  | c :: t =>
      if ascii_space c then Some t else
      match t with
      | d :: t2 =>
          if space2 c d then Some t2 else
          match t2 with
          | e :: t3 => if space3 c d e then Some t3 else None
          | [] => None
          end
      | [] => None
      end
  | [] => None
  end.

(** The same at the end, on the reversed bytes. *)
Definition drop_space_rev (l : bytes) : option bytes :=
  match l with
  | c :: t =>
      if ascii_space c then Some t else
      match t with
      | d :: t2 =>
          if space2 d c then Some t2 else
          match t2 with
          | e :: t3 => if space3 e d c then Some t3 else None
          | [] => None
          end
      | [] => None
      end
  | [] => None
  end.

Fixpoint trim_with (step : bytes → option bytes) (fuel : nat) (l : bytes) : bytes :=
  match fuel with
  | O => l
  | S fuel => match step l with Some l' => trim_with step fuel l' | None => l end
  end.

(** strings.TrimSpace: every step removes a byte, so the length is enough fuel. *)
Definition trim_bytes (l : bytes) : bytes :=
  let r := rev (trim_with drop_space (length l) l) in
  rev (trim_with drop_space_rev (length r) r).

Definition TrimSpace (s : string) : string := bytes_str (trim_bytes (str_bytes s)).

(** A printable ASCII byte other than the space. *)
Definition graphic (c : ascii) : bool := ((33 <=? code c) && (code c <=? 126))%N.

Lemma graphic_drop_space c l :
  graphic c = true → drop_space (c :: l) = None ∧ drop_space_rev (c :: l) = None.
Proof.
  unfold graphic, drop_space, drop_space_rev, ascii_space, space2, space3.
  rewrite andb_true_iff, !N.leb_le. intros [H1 H2].
  assert ((9 <=? code c) && (code c <=? 13) || (code c =? 32) = false)%N as ->.
  { rewrite orb_false_iff, andb_false_iff, !N.leb_gt, N.eqb_neq. lia. }
  destruct (N.eqb_spec (code c) 194); [lia|].
  destruct (N.eqb_spec (code c) 225); [lia|].
  destruct (N.eqb_spec (code c) 226); [lia|].
  destruct (N.eqb_spec (code c) 227); [lia|].
  destruct (N.eqb_spec (code c) 133); [lia|].
  destruct (N.eqb_spec (code c) 160); [lia|].
  destruct (N.eqb_spec (code c) 168); [lia|].
  destruct (N.eqb_spec (code c) 169); [lia|].
  destruct (N.eqb_spec (code c) 175); [lia|].
  destruct (N.eqb_spec (code c) 159); [lia|].
  destruct (N.eqb_spec (code c) 128); [lia|].
  destruct (N.leb_spec 128 (code c)); [lia|].
  destruct l as [|d [|e l]]; simpl; rewrite ?andb_false_r; done.
Qed.

(** Trimming leaves graphic strings alone. *)
Lemma TrimSpace_graphic s :
  Forall (λ c, graphic c = true) (str_bytes s) → TrimSpace s = s.
Proof.
  unfold TrimSpace, trim_bytes. intros Hg.
  assert (∀ step l, (∀ c t, l = c :: t → step l = None) → trim_with step (length l) l = l) as Hstop.
  { intros step [|c t] H; simpl; [done|]. by rewrite (H c t). }
  rewrite (Hstop drop_space), Hstop, rev_involutive; [apply bytes_str_bytes| |].
  - intros c t Hrev. rewrite Hrev. apply graphic_drop_space.
    rewrite Forall_forall in Hg. apply Hg.
    apply list_elem_of_In, in_rev. rewrite Hrev. by left.
  - intros c t Hs. rewrite Hs in Hg |- *. inv Hg. by apply graphic_drop_space.
Qed.

(** ** Splitting *)

(** strings.Split with a one-byte separator: always at least one part. *)
Fixpoint split_bytes (sep : ascii) (l : bytes) : list bytes :=
  match l with
  | [] => [[]]
  | c :: l =>
      if Ascii.eqb c sep then [] :: split_bytes sep l
      else match split_bytes sep l with
           | p :: ps => (c :: p) :: ps
           | [] => [[c]]
           end
  end.

Definition Split (s : string) (sep : ascii) : list string :=
  map bytes_str (split_bytes sep (str_bytes s)).

(** strings.Fields: the maximal runs of non-space runes. *)
Fixpoint fields_bytes (fuel : nat) (word : bytes) (l : bytes) : list bytes :=
  let emit rest := match word with [] => rest | _ => rev word :: rest end in
  match fuel with
  | O => emit []
  | S fuel =>
      match l with
      | [] => emit []
      | c :: t =>
          match drop_space l with
          | Some l' => emit (fields_bytes fuel [] l')
          | None => fields_bytes fuel (c :: word) t
          end
      end
  end.

Definition Fields (s : string) : list string :=
  map bytes_str (fields_bytes (S (length (str_bytes s))) [] (str_bytes s)).

Fixpoint bytes_prefix (p l : bytes) : bool :=
  match p, l with
  | [], _ => true
  | _ :: _, [] => false
  | c :: p, d :: l => Ascii.eqb c d && bytes_prefix p l
  end.

Definition HasPrefix (s p : string) : bool := bytes_prefix (str_bytes p) (str_bytes s).
Definition HasSuffix (s p : string) : bool := bytes_prefix (rev (str_bytes p)) (rev (str_bytes s)).

Lemma bytes_prefix_app p l : bytes_prefix p (p ++ l) = true.
Proof. induction p as [|c p IH]; simpl; [done|]. by rewrite Ascii.eqb_refl, IH. Qed.

Lemma HasPrefix_app p s : HasPrefix (p +:+ s) p = true.
Proof. unfold HasPrefix. rewrite str_bytes_app. apply bytes_prefix_app. Qed.

Lemma split_bytes_none sep l :
  Forall (λ c, c ≠ sep) l → split_bytes sep l = [l].
Proof.
  induction 1 as [|c l Hc Hl IH]; simpl; [done|].
  destruct (Ascii.eqb_spec c sep); [done|]. by rewrite IH.
Qed.

Lemma split_bytes_app sep l l' :
  Forall (λ c, c ≠ sep) l → split_bytes sep (l ++ sep :: l') = l :: split_bytes sep l'.
Proof.
  induction 1 as [|c l Hc Hl IH]; simpl; [by rewrite Ascii.eqb_refl|].
  destruct (Ascii.eqb_spec c sep); [done|]. by rewrite IH.
Qed.

(** ASCII case folding; strings.EqualFold against a word none of whose letters
    folds to a non-ASCII rune (neither K nor S). *)
Definition lower (c : ascii) : ascii :=
  let n := code c in if ((65 <=? n) && (n <=? 90))%N then ascii_of_N (n + 32) else c.

Definition ToLowerASCII (s : string) : string := bytes_str (map lower (str_bytes s)).
Definition EqualFoldASCII (s t : string) : bool :=
  bool_decide (ToLowerASCII s = ToLowerASCII t).

Definition strlen (s : string) : Z := Z.of_nat (String.length s).

(** ** Hexadecimal *)

Definition hex_digit (n : Z) : ascii :=
  ascii_of_N (Z.to_N (if (n <? 10)%Z then 48 + n else 87 + n)%Z).

(** hex.EncodeToString on bytes given as integers in [0, 256). *)
Definition EncodeToString (data : list Z) : string :=
  bytes_str (concat (map (λ b, [hex_digit (b / 16); hex_digit (b mod 16)]) data)).

(** ** Decimal integers *)

Definition digit_of (c : ascii) : option Z :=
  let n := code c in
  if ((48 <=? n) && (n <=? 57))%N then Some (Z.of_N n - 48)%Z else None.

Fixpoint digits_value (acc : Z) (l : bytes) : option Z :=
  match l with
  | [] => Some acc
  | c :: l => match digit_of c with Some d => digits_value (10 * acc + d) l | None => None end
  end.

(** strconv.ParseInt(s, 10, 64) *)
Definition ParseInt (s : string) : option Z :=
  let number neg l :=
    match l with
    | [] => None
    | _ => match digits_value 0 l with
           | Some v => let v := if neg : bool then (- v)%Z else v in
                       if in_int64 v then Some v else None
           | None => None
           end
    end in
  match str_bytes s with
  | c :: l =>
      if Ascii.eqb c "-" then number true l
      else if Ascii.eqb c "+" then number false l
      else number false (c :: l)
  | [] => None
  end.

(** Decimal digits, most significant first, padded to [width]. *)
Fixpoint pad_digits (width : nat) (n : Z) : bytes :=
  match width with
  | O => []
  | S w => pad_digits w (n / 10) ++ [ascii_of_N (Z.to_N (48 + n mod 10))]
  end.
