(* ===== verification/GoTime.v ===== *)
(** * Instants, calendar dates and RFC 3339

    Go's [time.Time] as the number of nanoseconds since the Unix epoch (its
    location only matters when it is printed): the proleptic Gregorian calendar,
    time.Parse with the layouts RFC3339 and RFC3339Nano (which accept the same
    texts), Format(RFC3339Nano) in UTC, and Truncate to the microsecond. *)

From S2P Require Import Prelude GoStd.
From Stdlib Require Import Ascii.
#[local] Open Scope Z_scope.

Definition nanosecond : Z := 1.
Definition microsecond : Z := 1000.
Definition millisecond : Z := 1000000.
Definition second : Z := 1000000000.
Definition minute : Z := 60 * second.
Definition hour : Z := 60 * minute.

(** The zero value of time.Time: 1 January of year 1, UTC. *)
Definition zero_time : Z := -62135596800 * second.

Definition IsZero (t : Z) : bool := t =? zero_time.

(** t.UTC().Truncate(time.Microsecond), for instants since the zero time. *)
Definition TruncateMicro (t : Z) : Z := t / microsecond * microsecond.

(** ** The calendar *)

(** Days since 1 January 1970 of a date, counting years from March. *)
Definition days_from_civil (y m d : Z) : Z :=
  let y := if m <=? 2 then y - 1 else y in
  let era := y / 400 in
  let yoe := y mod 400 in
  let mp := (m + 9) mod 12 in
  let doy := (153 * mp + 2) / 5 + d - 1 in
  let doe := yoe * 365 + yoe / 4 - yoe / 100 + doy in
  era * 146097 + doe - 719468.

Definition civil_from_days (z : Z) : Z * Z * Z :=
  let z := z + 719468 in
  let era := z / 146097 in
  let doe := z mod 146097 in
  let yoe := (doe - doe / 1460 + doe / 36524 - doe / 146096) / 365 in
  let doy := doe - (365 * yoe + yoe / 4 - yoe / 100) in
  let mp := (5 * doy + 2) / 153 in
  let d := doy - (153 * mp + 2) / 5 + 1 in
  let m := if mp <? 10 then mp + 3 else mp - 9 in
  (yoe + era * 400 + (if m <=? 2 then 1 else 0), m, d).

Definition is_leap (y : Z) : bool := (y mod 4 =? 0) && (negb (y mod 100 =? 0) || (y mod 400 =? 0)).

Definition days_in (y m : Z) : Z :=
  if m =? 2 then (if is_leap y then 29 else 28)
  else if (m =? 4) || (m =? 6) || (m =? 9) || (m =? 11) then 30 else 31.

(** ** Parsing *)

Definition Parser (A : Type) : Type := bytes → option (A * bytes).

#[export] Instance parser_monad : SeqMonad Parser := {|
  ret A a := λ l, Some (a, l);
  bind A B p k := λ l, match p l with Some (a, l') => k a l' | None => None end;
|}.

Definition p_fail {A} : Parser A := λ _, None.
Definition p_guard (b : bool) : Parser unit := if b then ret tt else p_fail.

Definition p_char (c : ascii) : Parser unit := λ l,
  match l with d :: l => if Ascii.eqb c d then Some (tt, l) else None | [] => None end.

Definition p_digit : Parser Z := λ l,
  match l with c :: l => match digit_of c with Some d => Some (d, l) | None => None end | [] => None end.

Definition p_two : Parser Z := let! a := p_digit in let! b := p_digit in ret (10 * a + b).

(** getnum with fixed = false: one digit is enough. *)
Definition p_one_or_two : Parser Z := let! a := p_digit in λ l,
  match p_digit l with Some (b, l) => Some (10 * a + b, l) | None => Some (a, l) end.

(** The digits of a fraction of a second; those after the ninth are dropped. *)
Fixpoint p_frac (fuel : nat) (weight acc : Z) (l : bytes) : Z * bytes :=
  match fuel with
  | O => (acc, l)
  | S fuel =>
      match p_digit l with
      | Some (d, l) => p_frac fuel (weight / 10) (acc + d * weight) l
      | None => (acc, l)
      end
  end.

(** A fraction is read only when a separator is followed by a digit. *)
Definition p_fraction : Parser Z := λ l,
  match l with
  | c :: l' =>
      if Ascii.eqb c "." || Ascii.eqb c "," then
        match p_digit l' with
        | Some _ => Some (p_frac (length l') 100000000 0 l')
        | None => Some (0, l)
        end
      else Some (0, l)
  | [] => Some (0, [])
  end.

(** "Z" or a signed hh:mm, as seconds east of UTC. *)
Definition p_zone : Parser Z := λ l,
  match l with
  | c :: l =>
      if Ascii.eqb c "Z" then Some (0, l)
      else if Ascii.eqb c "+" || Ascii.eqb c "-" then
        (let! h := p_two in let! _ := p_char ":" in let! m := p_two in
         let! _ := p_guard ((h <=? 24) && (m <=? 60)) in
         ret ((if Ascii.eqb c "-" then -1 else 1) * (h * 3600 + m * 60))) l
      else None
  | [] => None
  end.

Definition p_rfc3339 : Parser Z :=
  let! c := p_two in let! y := p_two in let! _ := p_char "-" in
  let! mo := p_two in let! _ := p_char "-" in
  let! d := p_two in let! _ := p_char "T" in
  let! h := p_one_or_two in let! _ := p_char ":" in
  let! mi := p_two in let! _ := p_char ":" in
  let! s := p_two in
  let! ns := p_fraction in
  let! off := p_zone in
  let y := 100 * c + y in
  let! _ := p_guard ((1 <=? mo) && (mo <=? 12) && (1 <=? d) && (d <=? days_in y mo)
                     && (h <? 24) && (mi <? 60) && (s <? 60)) in
  ret ((days_from_civil y mo d * 86400 + h * 3600 + mi * 60 + s - off) * second + ns).

(** time.Parse(time.RFC3339Nano, s) *)
Definition ParseRFC3339 (s : string) : option Z :=
  match p_rfc3339 (str_bytes s) with Some (t, []) => Some t | _ => None end.

(** ** Printing *)

(** The fraction without its trailing zeros. *)
Fixpoint strip_zeros (l : bytes) : bytes :=
  match l with
  | c :: l' => if Ascii.eqb c "0" then strip_zeros l' else l
  | [] => []
  end.

Definition frac_bytes (ns : Z) : bytes :=
  match rev (strip_zeros (rev (pad_digits 9 ns))) with
  | [] => []
  | l => "."%char :: l
  end.

(** The date and time, before the zone. *)
Definition local_bytes (t : Z) : bytes :=
  let secs := t / second in
  let ns := t mod second in
  let '(y, m, d) := civil_from_days (secs / 86400) in
  let sod := secs mod 86400 in
  (pad_digits 4 y ++ ["-"%char] ++ pad_digits 2 m ++ ["-"%char] ++ pad_digits 2 d ++ ["T"%char] ++
   pad_digits 2 (sod / 3600) ++ [":"%char] ++ pad_digits 2 (sod / 60 mod 60) ++ [":"%char] ++
   pad_digits 2 (sod mod 60) ++ frac_bytes ns)%list.

Definition format_bytes (t : Z) : bytes := (local_bytes t ++ ["Z"%char])%list.

(** t.UTC().Format(time.RFC3339Nano), for years 0 to 9999. *)
Definition FormatRFC3339Nano (t : Z) : string := bytes_str (format_bytes t).

(** 0000-01-01T00:00:00Z and 10000-01-01T00:00:00Z. *)
Definition first_instant : Z := -62167219200 * second.
Definition end_instant : Z := 253402300800 * second.
Definition printable_time (t : Z) : Prop := first_instant ≤ t < end_instant.

(** A zone by its offset, in seconds east of UTC. *)
Definition zone_bytes (offset : Z) : bytes :=
  if offset =? 0 then ["Z"%char]
  else let zone := Z.quot offset 60 in
       (if zone <? 0 then "-"%char else "+"%char)
         :: (pad_digits 2 (Z.abs zone / 60) ++ ":"%char :: pad_digits 2 (Z.abs zone mod 60))%list.

(** Time.MarshalJSON of an instant in a zone: an error when the local year is
    not one of 0 to 9999, or the zone is a day or more. *)
Definition MarshalTime (offset t : Z) : option string :=
  let u := t + offset * second in
  if (first_instant <=? u) && (u <? end_instant) && (Z.abs offset <? 86400)
  then Some (bytes_str (local_bytes u ++ zone_bytes offset)%list) else None.

Example format_ex : FormatRFC3339Nano (1786523404123450000) = "2026-08-12T08:30:04.12345Z"%string.
Proof. vm_compute. reflexivity. Qed.
Example marshal_ex : MarshalTime (-5400) 1786523404000000000 = Some "2026-08-12T07:00:04-01:30"%string.
Proof. vm_compute. reflexivity. Qed.
Example parse_ex : ParseRFC3339 "2026-08-12T10:30:04.12345+02:00" = Some 1786523404123450000.
Proof. vm_compute. reflexivity. Qed.

(** strconv.FormatInt in base 10, for 64-bit integers. *)
Definition decimal (n : Z) : string :=
  let digits := strip_zeros (pad_digits 20 (Z.abs n)) in
  bytes_str ((if (n <? 0) then ["-"%char] else []) ++ (match digits with [] => ["0"%char] | _ => digits end))%list.

