(* ===== verification/GoTimeSpec.v ===== *)
(** * Decimal digits, dates and RFC 3339 texts, there and back *)

From S2P Require Import Prelude GoStd GoTime.
From Stdlib Require Import Ascii.
#[local] Open Scope Z_scope.

(** ** Decimal digits *)

Lemma digit_of_ascii d : 0 ≤ d < 10 → digit_of (ascii_of_N (Z.to_N (48 + d))) = Some d.
Proof.
  intros Hd. unfold digit_of, code. rewrite N_ascii_embedding by lia.
  destruct (N.leb_spec 48 (Z.to_N (48 + d))); [|lia]. destruct (N.leb_spec (Z.to_N (48 + d)) 57); [|lia].
  simpl. f_equal. lia.
Qed.

Lemma digits_value_snoc acc l c d v :
  digits_value acc l = Some v → digit_of c = Some d → digits_value acc (l ++ [c])%list = Some (10 * v + d).
Proof.
  revert acc. induction l as [|x l IH]; intros acc; cbn [app digits_value].
  - intros [= ->] ->. done.
  - destruct (digit_of x); [|done]. apply IH.
Qed.

Lemma digits_value_pad w n : 0 ≤ n < 10 ^ Z.of_nat w → digits_value 0 (pad_digits w n) = Some n.
Proof.
  revert n. induction w as [|w IH]; intros n Hn; cbn [pad_digits].
  - assert (n = 0) as -> by (simpl in Hn; lia). done.
  - rewrite Nat2Z.inj_succ, Z.pow_succ_r in Hn by lia.
    assert (0 ≤ n mod 10 < 10) as Hm by (apply Z.mod_pos_bound; lia).
    erewrite digits_value_snoc; [|apply IH|by apply digit_of_ascii].
    + f_equal. pose proof (Z.div_mod n 10). lia.
    + split; [apply Z.div_pos; lia|apply Z.div_lt_upper_bound; lia].
Qed.

Lemma pad_digits_digits w n : Forall (λ c, is_Some (digit_of c)) (pad_digits w n).
Proof.
  revert n. induction w as [|w IH]; intros n; cbn [pad_digits]; [constructor|].
  apply Forall_app. split; [apply IH|]. repeat constructor. rewrite digit_of_ascii; [done|].
  apply Z.mod_pos_bound. lia.
Qed.


(** ** The calendar *)

Lemma civil_year doe (yoe := (doe - doe / 1460 + doe / 36524 - doe / 146096) / 365)
    (doy := doe - (365 * yoe + yoe / 4 - yoe / 100)) :
  0 ≤ doe < 146097 → 0 ≤ yoe < 400 ∧ 0 ≤ doy ≤ 365
    ∧ (doy = 365 → (yoe + 1) mod 4 = 0 ∧ ((yoe + 1) mod 100 ≠ 0 ∨ (yoe + 1) mod 400 = 0)).
Proof. subst yoe doy. intros H. Z.to_euclidean_division_equations. lia. Qed.

(** The month and the day of a day of the year that starts in March. *)
Lemma civil_month doy (mp := (5 * doy + 2) / 153) (d := doy - (153 * mp + 2) / 5 + 1) :
  0 ≤ doy ≤ 365 → 0 ≤ mp < 12 ∧ 1 ≤ d ≤ 31
    ∧ (mp ∈ [1; 3; 6; 8] → d ≤ 30) ∧ (mp = 11 → d ≤ 29 ∧ (d = 29 → doy = 365)).
Proof.
  subst mp d. intros H.
  set (P := λ k, let doy := Z.of_nat k in
    let mp := (5 * doy + 2) / 153 in let d := doy - (153 * mp + 2) / 5 + 1 in
    0 ≤ mp < 12 ∧ 1 ≤ d ≤ 31 ∧ (mp ∈ [1; 3; 6; 8] → d ≤ 30) ∧ (mp = 11 → d ≤ 29 ∧ (d = 29 → doy = 365))).
  assert (forallb (λ k, bool_decide (P k)) (seq 0 366) = true) as Hf by (vm_compute; reflexivity).
  rewrite forallb_forall in Hf.
  assert (P (Z.to_nat doy)) as Hall.
  { refine (proj1 (bool_decide_eq_true _) (Hf _ _)). apply in_seq. lia. }
  unfold P in Hall. rewrite Z2Nat.id in Hall by lia. exact Hall.
Qed.

(** A date exists. *)
Definition valid_date (y m d : Z) : Prop := 1 ≤ m ≤ 12 ∧ 1 ≤ d ≤ days_in y m.

Lemma civil_roundtrip z y m d :
  civil_from_days z = (y, m, d) → days_from_civil y m d = z ∧ valid_date y m d
    ∧ (let era := (z + 719468) / 146097 in 400 * era ≤ y ≤ 400 * era + 400).
Proof.
  unfold civil_from_days. cbv zeta.
  set (era := (z + 719468) / 146097). set (doe := (z + 719468) mod 146097).
  assert (z + 719468 = 146097 * era + doe ∧ 0 ≤ doe < 146097) as [Hz Hdoe].
  { unfold era, doe. split; [apply Z.div_mod; lia|apply Z.mod_pos_bound; lia]. }
  destruct (civil_year doe Hdoe) as (Hyoe&Hdoy&Hleap).
  set (yoe := (doe - doe / 1460 + doe / 36524 - doe / 146096) / 365) in *.
  set (doy := doe - (365 * yoe + yoe / 4 - yoe / 100)) in *.
  destruct (civil_month doy Hdoy) as (Hmp&Hd&H30&Hfeb).
  set (mp := (5 * doy + 2) / 153) in *. set (day := doy - (153 * mp + 2) / 5 + 1) in *.
  intros [= <- <- <-].
  set (month := if mp <? 10 then mp + 3 else mp - 9).
  assert (1 ≤ month ≤ 12 ∧ (month + 9) mod 12 = mp ∧ (month <=? 2) = (10 <=? mp)) as (Hm&Hmod&Hle).
  { unfold month. destruct (Z.ltb_spec mp 10).
    - split_and!; [lia..| |destruct (Z.leb_spec (mp + 3) 2), (Z.leb_spec 10 mp); lia].
      replace (mp + 3 + 9) with (mp + 1 * 12) by lia. rewrite Z.mod_add by lia. apply Z.mod_small. lia.
    - split_and!; [lia..| |destruct (Z.leb_spec (mp - 9) 2), (Z.leb_spec 10 mp); lia].
      replace (mp - 9 + 9) with mp by lia. apply Z.mod_small. lia. }
  assert (days_from_civil (yoe + era * 400 + (if month <=? 2 then 1 else 0)) month day = z) as Hback.
  { unfold days_from_civil. cbv zeta. rewrite Hmod.
    assert ((if month <=? 2 then yoe + era * 400 + (if month <=? 2 then 1 else 0) - 1
             else yoe + era * 400 + (if month <=? 2 then 1 else 0)) = yoe + era * 400) as ->
      by (destruct (month <=? 2); lia).
    rewrite Z.div_add, Z.mod_add, (Z.div_small yoe), (Z.mod_small yoe) by lia.
    unfold day, doy in *. lia. }
  split_and!; [done| |destruct (month <=? 2); lia..].
  split; [done|]. split; [lia|]. unfold days_in.
  destruct (Z.eqb_spec month 2) as [E|E].
  - assert (mp = 11) as Hmp11.
    { unfold month in E. destruct (Z.ltb_spec mp 10); lia. }
    destruct (Hfeb Hmp11) as [H29 Hd29]. rewrite E. cbn [Z.leb Z.compare Pos.compare Pos.compare_cont].
    destruct (is_leap _) eqn:El; [done|]. assert (day ≠ 29); [|lia]. intros Hd'. apply not_true_iff_false in El.
    apply El. destruct (Hleap (Hd29 Hd')) as [H4 H100]. unfold is_leap.
    replace (yoe + era * 400 + 1) with (yoe + 1 + era * 400) by lia.
    replace (era * 400) with (era * 100 * 4) at 1 by lia. rewrite Z.mod_add by lia.
    replace (era * 400) with (era * 4 * 100) at 1 by lia. rewrite Z.mod_add by lia.
    rewrite Z.mod_add by lia. rewrite H4. rewrite Z.eqb_refl. cbn [andb].
    destruct H100 as [H100|H400]; [destruct (Z.eqb_spec ((yoe + 1) mod 100) 0); [done|]|].
    + done.
    + rewrite H400. apply orb_true_r.
  - destruct ((month =? 4) || (month =? 6) || (month =? 9) || (month =? 11)) eqn:E30; [|lia].
    apply H30. unfold month in *. rewrite !orb_true_iff, !Z.eqb_eq in E30.
    rewrite !elem_of_cons. destruct (Z.ltb_spec mp 10); lia.
Qed.

(** The years of the printable instants. *)
Lemma civil_year_bounds y m d :
  valid_date y m d → -719528 ≤ days_from_civil y m d < 2932897 → 0 ≤ y < 10000.
Proof.
  intros [Hm Hd]. assert (days_in y m ≤ 31) by (unfold days_in; repeat case_match; lia).
  unfold days_from_civil. cbv zeta. assert (1 ≤ d ≤ 31) by lia. clear Hd.
  assert (0 ≤ (153 * ((m + 9) mod 12) + 2) / 5 + d - 1 ≤ 367
    ∧ ((m <=? 2) = true → 306 ≤ (153 * ((m + 9) mod 12) + 2) / 5)
    ∧ ((m <=? 2) = false → (153 * ((m + 9) mod 12) + 2) / 5 + d - 1 ≤ 305)) as (H1&H2&H3).
  { destruct (Z.leb_spec m 2); Z.to_euclidean_division_equations; lia. }
  set (doy := (153 * ((m + 9) mod 12) + 2) / 5) in *.
  destruct (m <=? 2); [specialize (H2 eq_refl)|specialize (H3 eq_refl)]; intros Hz;
    Z.to_euclidean_division_equations; lia.
Qed.

(** ** Reading back what was printed *)

Definition digit (d : Z) : ascii := ascii_of_N (Z.to_N (48 + d)).

Lemma p_digit_digit d l : 0 ≤ d < 10 → p_digit (digit d :: l) = Some (d, l).
Proof. intros Hd. unfold p_digit, digit. by rewrite digit_of_ascii. Qed.

Lemma pad_two n : pad_digits 2 n = [digit (n / 10 mod 10); digit (n mod 10)].
Proof. reflexivity. Qed.

Lemma p_two_pad n l : 0 ≤ n < 100 → p_two (pad_digits 2 n ++ l) = Some (n, l).
Proof.
  intros Hn. rewrite pad_two. unfold p_two. cbn [app bind ret parser_monad].
  rewrite p_digit_digit by (apply Z.mod_pos_bound; lia). rewrite p_digit_digit by (apply Z.mod_pos_bound; lia).
  do 2 f_equal. Z.to_euclidean_division_equations. lia.
Qed.

Lemma p_one_or_two_pad n l : 0 ≤ n < 100 → p_one_or_two (pad_digits 2 n ++ l) = Some (n, l).
Proof.
  intros Hn. rewrite pad_two. unfold p_one_or_two. cbn [app bind ret parser_monad].
  rewrite p_digit_digit by (apply Z.mod_pos_bound; lia). rewrite p_digit_digit by (apply Z.mod_pos_bound; lia).
  do 2 f_equal. Z.to_euclidean_division_equations. lia.
Qed.

Lemma pad_four n : pad_digits 4 n = pad_digits 2 (n / 100) ++ pad_digits 2 (n mod 100).
Proof.
  rewrite !pad_two. cbn [pad_digits app]. fold (digit (n mod 10)) (digit (n / 10 mod 10)).
  fold (digit (n / 10 / 10 mod 10)) (digit (n / 10 / 10 / 10 mod 10)).
  assert (n / 10 / 10 / 10 = n / 100 / 10) as -> by (Z.to_euclidean_division_equations; lia).
  assert (n / 10 / 10 = n / 100) as -> by (Z.to_euclidean_division_equations; lia).
  assert (n mod 100 / 10 mod 10 = n / 10 mod 10) as -> by (Z.to_euclidean_division_equations; lia).
  by assert (n mod 100 mod 10 = n mod 10) as -> by (Z.to_euclidean_division_equations; lia).
Qed.

Lemma p_frac_value l : ∀ fuel j w a v rest,
  digits_value a l = Some v → Z.of_nat (length l) ≤ j + 1 → (l ≠ [] → w = 10 ^ j) →
  (length l ≤ fuel)%nat → p_digit rest = None →
  p_frac fuel w (a * 10 ^ (j + 1)) (l ++ rest) = (v * 10 ^ (j + 1 - Z.of_nat (length l)), rest).
Proof.
  induction l as [|c l IH]; intros fuel j w a v rest Hv Hj Hw Hf Hr.
  - simpl in Hv. simplify_eq. rewrite Z.sub_0_r. destruct fuel; [done|]. cbn [p_frac app]. by rewrite Hr.
  - destruct fuel as [|fuel]; [simpl in Hf; lia|]. cbn [digits_value] in Hv.
    destruct (digit_of c) as [d|] eqn:Ed; [|done]. cbn [app p_frac]. unfold p_digit at 1. rewrite Ed.
    rewrite (Hw ltac:(done)). cbn [length] in *.
    replace (a * 10 ^ (j + 1) + d * 10 ^ j) with ((10 * a + d) * 10 ^ (j - 1 + 1)).
    + rewrite (IH fuel (j - 1) _ _ v); [|done|lia| |lia|done].
      * do 3 f_equal. lia.
      * intros Hl. destruct l; [done|]. cbn [length] in *.
        replace j with (Z.succ (j - 1)) at 1 by lia. rewrite Z.pow_succ_r by lia.
        rewrite Z.mul_comm, Z.div_mul by lia. done.
    + replace (j - 1 + 1) with j by lia. rewrite Z.pow_add_r by lia. lia.
Qed.

Lemma strip_zeros_replicate l : ∃ k, l = replicate k "0"%char ++ strip_zeros l.
Proof.
  induction l as [|c l [k IH]]; [by exists O|]. cbn [strip_zeros].
  destruct (Ascii.eqb_spec c "0") as [->|]; [exists (S k); simpl; by f_equal|by exists O].
Qed.

Lemma digits_value_zeros a l k v :
  digits_value a (l ++ replicate k "0"%char) = Some v → ∃ u, digits_value a l = Some u ∧ v = u * 10 ^ Z.of_nat k.
Proof.
  revert a. induction l as [|c l IH]; intros a; cbn [app digits_value].
  - intros H. exists a. split; [done|]. revert a H. induction k as [|k IH]; intros a H; cbn [replicate digits_value] in H.
    + simplify_eq. rewrite Z.pow_0_r. lia.
    + change (digit_of "0") with (Some 0) in H. cbv iota beta in H. apply IH in H.
      rewrite H, Nat2Z.inj_succ, Z.pow_succ_r by lia. ring.
  - destruct (digit_of c); [apply IH|done].
Qed.

(** What follows the seconds: neither a fraction nor a digit. *)
Definition zone_start (l : bytes) : Prop :=
  p_digit l = None ∧ match l with c :: _ => Ascii.eqb c "." || Ascii.eqb c "," = false | [] => True end.

Lemma p_fraction_frac ns l :
  0 ≤ ns < second → zone_start l → p_fraction (frac_bytes ns ++ l) = Some (ns, l).
Proof.
  intros Hns [Hl1 Hl2]. unfold frac_bytes.
  destruct (strip_zeros_replicate (rev (pad_digits 9 ns))) as [k Hk].
  set (s := strip_zeros (rev (pad_digits 9 ns))) in *.
  assert (pad_digits 9 ns = rev s ++ replicate k "0"%char) as Hpad.
  { rewrite <- (rev_involutive (pad_digits 9 ns)), Hk, rev_app_distr. f_equal.
    clear. induction k as [|k IH]; [done|]. cbn [replicate rev]. rewrite IH. by rewrite <- replicate_S_end. }
  assert (digits_value 0 (pad_digits 9 ns) = Some ns) as Hv by (apply digits_value_pad; unfold second in Hns; simpl Z.of_nat; lia).
  assert (length (rev s) + k = 9)%nat as Hlen.
  { assert (length (pad_digits 9 ns) = 9%nat) as H9 by reflexivity. rewrite Hpad, length_app, length_replicate in H9. lia. }
  rewrite Hpad in Hv. apply digits_value_zeros in Hv as (u&Hu&Hns').
  assert (Forall (λ c, is_Some (digit_of c)) (rev s)) as Hd.
  { pose proof (pad_digits_digits 9 ns) as Hd. rewrite Hpad, Forall_app in Hd. apply Hd. }
  destruct (rev s) as [|c t] eqn:Es.
  - simpl in Hu. simplify_eq. simpl. destruct l as [|c l]; [done|]. unfold p_fraction. by rewrite Hl2.
  - cbn [app]. unfold p_fraction. cbn [Ascii.eqb orb].
    cbn [Bool.eqb]. cbv iota beta.
    inv Hd. destruct H1 as [d Hcd]. unfold p_digit at 1. cbn [app]. rewrite Hcd.
    change (c :: t ++ l) with ((c :: t) ++ l).
    pose proof (p_frac_value (c :: t) (length ((c :: t) ++ l)) 8 100000000 0 u l) as Hp.
    rewrite Z.mul_0_l in Hp. rewrite Hp; [|done|lia|done|rewrite length_app; lia|done].
    do 4 f_equal. lia.
Qed.

Lemma p_char_here c l : p_char c (c :: l) = Some (tt, l).
Proof. unfold p_char. by rewrite Ascii.eqb_refl. Qed.

Lemma p_zone_bytes offset :
  offset mod 60 = 0 → Z.abs offset < 86400 →
  zone_start (zone_bytes offset) ∧ p_zone (zone_bytes offset) = Some (offset, []).
Proof.
  intros H60 Hday. unfold zone_bytes. destruct (Z.eqb_spec offset 0) as [->|Hne]; [done|].
  cbv zeta. set (z := Z.quot offset 60).
  assert (offset = z * 60) as Hz by (unfold z; Z.to_euclidean_division_equations; lia).
  assert (0 ≤ Z.abs z / 60 < 24) as Hh by (Z.to_euclidean_division_equations; lia).
  assert (0 ≤ Z.abs z mod 60 < 60) as Hm by (by apply Z.mod_pos_bound).
  assert (p_two (pad_digits 2 (Z.abs z mod 60)) = Some (Z.abs z mod 60, [])) as Hmin
    by (rewrite <- (app_nil_r (pad_digits 2 _)); apply p_two_pad; lia).
  assert (Z.abs z = Z.abs z / 60 * 60 + Z.abs z mod 60) as Habs by (Z.to_euclidean_division_equations; lia).
  split; [by destruct (z <? 0)|]. unfold p_zone.
  destruct (Z.ltb_spec z 0); cbn [Ascii.eqb Bool.eqb orb]; cbv iota beta; cbn [bind parser_monad];
    rewrite p_two_pad by lia; rewrite p_char_here, Hmin; unfold p_guard;
    (destruct (Z.leb_spec (Z.abs z / 60) 24), (Z.leb_spec (Z.abs z mod 60) 60); [|lia..]);
    cbn [andb ret parser_monad]; do 2 f_equal; lia.
Qed.

(** A local time and a zone are read back as the instant. *)
Lemma p_rfc3339_local u tail offset :
  printable_time u → zone_start tail → p_zone tail = Some (offset, []) →
  p_rfc3339 (local_bytes u ++ tail) = Some (u - offset * second, []).
Proof.
  intros Ht Htail Hzone. unfold printable_time, first_instant, end_instant in Ht.
  unfold local_bytes. cbv zeta.
  assert (0 ≤ u mod second < second) as Hns by (by apply Z.mod_pos_bound).
  set (ns := u mod second) in *. set (secs := u / second).
  assert (u = second * secs + ns) as Hts by (apply Z.div_mod; done).
  assert (-62167219200 ≤ secs < 253402300800) as Hsecs by (unfold second in *; lia).
  set (sod := secs mod 86400). assert (0 ≤ sod < 86400) as Hsod by (by apply Z.mod_pos_bound).
  assert (secs = 86400 * (secs / 86400) + sod) as Hday by (apply Z.div_mod; done).
  destruct (civil_from_days (secs / 86400)) as [[y m] d] eqn:Ec.
  destruct (civil_roundtrip _ _ _ _ Ec) as (Hback&[Hm Hd]&Hy).
  assert (0 ≤ y < 10000) as Hyear.
  { apply (civil_year_bounds y m d); [by split|]. rewrite Hback. Z.to_euclidean_division_equations; lia. }
  assert (days_in y m ≤ 31) as Hdays by (unfold days_in; repeat case_match; lia).
  rewrite pad_four, <- !app_assoc. unfold p_rfc3339. cbn [bind parser_monad].
  rewrite p_two_pad by (Z.to_euclidean_division_equations; lia).
  rewrite p_two_pad by (Z.to_euclidean_division_equations; lia). cbn [app]. rewrite p_char_here.
  rewrite p_two_pad by lia. rewrite p_char_here. rewrite p_two_pad by lia. rewrite p_char_here.
  rewrite p_one_or_two_pad by (Z.to_euclidean_division_equations; lia). rewrite p_char_here.
  rewrite p_two_pad by (Z.to_euclidean_division_equations; lia). rewrite p_char_here.
  rewrite p_two_pad by (Z.to_euclidean_division_equations; lia). rewrite p_fraction_frac by done.
  assert (100 * (y / 100) + y mod 100 = y) as -> by (symmetry; apply Z.div_mod; lia).
  rewrite Hzone. cbv iota beta.
  assert ((1 <=? m) && (m <=? 12) && (1 <=? d) && (d <=? days_in y m)
          && (sod / 3600 <? 24) && (sod / 60 mod 60 <? 60) && (sod mod 60 <? 60) = true) as Hok.
  { rewrite !andb_true_iff, !Z.leb_le, !Z.ltb_lt. split_and!; try lia; Z.to_euclidean_division_equations; lia. }
  unfold p_guard. rewrite Hok. cbn [ret parser_monad]. do 2 f_equal. rewrite Hback, Hts.
  assert (sod / 3600 * 3600 + sod / 60 mod 60 * 60 + sod mod 60 = sod) by (Z.to_euclidean_division_equations; lia).
  unfold second in *. lia.
Qed.

(** Timestamps survive a round trip: an instant of the years 0 to 9999,
    printed in UTC with its nanoseconds, is read back as the same instant. *)
Lemma ParseRFC3339_format t : printable_time t → ParseRFC3339 (FormatRFC3339Nano t) = Some t.
Proof.
  intros Ht. unfold ParseRFC3339, FormatRFC3339Nano, format_bytes. rewrite str_bytes_str.
  rewrite (p_rfc3339_local t ["Z"%char] 0) by done. f_equal. lia.
Qed.

(** So does what MarshalJSON writes in another zone. *)
Lemma ParseRFC3339_marshal offset t s :
  offset mod 60 = 0 → MarshalTime offset t = Some s → ParseRFC3339 s = Some t.
Proof.
  intros H60. unfold MarshalTime.
  destruct (Z.leb_spec first_instant (t + offset * second)), (Z.ltb_spec (t + offset * second) end_instant),
    (Z.ltb_spec (Z.abs offset) 86400); try done. cbn [andb]. intros Hs. apply (inj Some) in Hs as <-.
  destruct (p_zone_bytes offset) as [Hz1 Hz2]; [done..|].
  unfold ParseRFC3339. rewrite str_bytes_str, (p_rfc3339_local _ _ offset) by done. f_equal. lia.
Qed.
