(* ===== verification/GoCrypto.v ===== *)
(** * crypto/sha256 and encoding/base64

    The two encodings the auth service computes secrets with: SHA-256 (FIPS
    180-4) and base64.RawURLEncoding.  Bytes are integers in [0, 256), words
    integers in [0, 2^32).  What the service relies on is proved: the encoding
    of random bytes is graphic text without a dot, of known length, and
    determines the bytes. *)

From S2P Require Import Prelude GoStd.
From Stdlib Require Import Ascii.
#[local] Open Scope Z_scope.
#[local] Open Scope list_scope.

Definition is_byte (b : Z) : Prop := 0 <= b < 256.

(** ** SHA-256 *)

Definition word (z : Z) : Z := Z.land z (Z.ones 32).
Definition rotr (n x : Z) : Z := Z.lor (Z.shiftr x n) (word (Z.shiftl x (32 - n))).

(** The first [n] primes from [p] on, by trial division. *)
Definition is_prime (p : Z) : bool :=
  forallb (λ d, negb (p mod (Z.of_nat d) =? 0)) (seq 2 (Z.to_nat (Z.sqrt p) - 1)).
Fixpoint primes (fuel : nat) (p : Z) : list Z :=
  match fuel with
  | O => []
  | S fuel => if is_prime p then p :: primes fuel (p + 1) else primes fuel (p + 1)
  end.

(** The integer cube root, bit by bit from the highest. *)
Fixpoint cube_root (bit : nat) (acc n : Z) : Z :=
  match bit with
  | O => acc
  | S bit =>
      let r := acc + Z.shiftl 1 (Z.of_nat bit) in
      cube_root bit (if r * r * r <=? n then r else acc) n
  end.

(** The fractional parts of the square roots of the first 8 primes and of the
    cube roots of the first 64. *)
Definition initial_hash : list Z :=
  Eval vm_compute in map (λ p, word (Z.sqrt (Z.shiftl p 64))) (take 8 (primes 20 2)).
Definition round_constants : list Z :=
  Eval vm_compute in map (λ p, word (cube_root 40 0 (Z.shiftl p 96))) (take 64 (primes 310 2)).

Record regs := mkRegs { ra : Z; rb : Z; rc : Z; rd : Z; re : Z; rf : Z; rg : Z; rh : Z }.

Definition round (s : regs) (k w : Z) : regs :=
  let choice := Z.lxor (Z.land (re s) (rf s)) (Z.ldiff (rg s) (re s)) in
  let majority := Z.lxor (Z.lxor (Z.land (ra s) (rb s)) (Z.land (ra s) (rc s))) (Z.land (rb s) (rc s)) in
  let sum1 := Z.lxor (Z.lxor (rotr 6 (re s)) (rotr 11 (re s))) (rotr 25 (re s)) in
  let sum0 := Z.lxor (Z.lxor (rotr 2 (ra s)) (rotr 13 (ra s))) (rotr 22 (ra s)) in
  let t1 := rh s + sum1 + choice + k + w in
  mkRegs (word (t1 + sum0 + majority)) (ra s) (rb s) (rc s) (word (rd s + t1)) (re s) (rf s) (rg s).

(** The message schedule keeps the last 16 words. *)
Definition next_word (window : list Z) : Z :=
  let at_ n := nth n window 0 in
  let sigma0 x := Z.lxor (Z.lxor (rotr 7 x) (rotr 18 x)) (Z.shiftr x 3) in
  let sigma1 x := Z.lxor (Z.lxor (rotr 17 x) (rotr 19 x)) (Z.shiftr x 10) in
  word (sigma1 (at_ 14%nat) + at_ 9%nat + sigma0 (at_ 1%nat) + at_ 0%nat).

Fixpoint rounds (ks : list Z) (s : regs) (window : list Z) : regs :=
  match ks with
  | [] => s
  | k :: ks => rounds ks (round s k (hd 0 window)) (tl window ++ [next_word window])
  end.

Fixpoint be_words (n : nat) (l : list Z) : list Z :=
  match n, l with
  | S n, a :: b :: c :: d :: l => (((a * 256 + b) * 256 + c) * 256 + d) :: be_words n l
  | _, _ => []
  end.
Fixpoint be_bytes (n : nat) (z : Z) : list Z :=
  match n with O => [] | S n => be_bytes n (z / 256) ++ [z mod 256] end.

Definition compress (h : list Z) (block : list Z) : list Z :=
  match h with
  | [a; b; c; d; e; f; g; i] =>
      let s := rounds round_constants (mkRegs a b c d e f g i) (be_words 16 block) in
      map word [a + ra s; b + rb s; c + rc s; d + rd s; e + re s; f + rf s; g + rg s; i + rh s]
  | _ => h
  end.

Definition pad (l : list Z) : list Z :=
  let n := Z.of_nat (length l) in
  l ++ [128] ++ repeat 0 (Z.to_nat ((55 - n) mod 64)) ++ be_bytes 8 (8 * n).

Fixpoint blocks (fuel : nat) (h l : list Z) : list Z :=
  match fuel with
  | O => h
  | S fuel => blocks fuel (compress h (take 64 l)) (drop 64 l)
  end.

(** sha256.Sum256: the padded length is a multiple of 64, one step per block. *)
Definition Sum256 (data : list Z) : list Z :=
  let l := pad data in
  concat (map (be_bytes 4) (blocks (length l / 64) initial_hash l)).

(** The bytes of a Go string. *)
Definition string_bytes (s : string) : list Z := map (λ c, Z.of_N (code c)) (str_bytes s).

(** The test vector of FIPS 180-4 for one block. *)
Example Sum256_abc : EncodeToString (Sum256 (string_bytes "abc")) =
  "ba7816bf8f01cfea414140de5dae2223b00361a396177a9cb410ff61f20015ad"%string.
Proof. vm_compute. reflexivity. Qed.
Example Sum256_empty : EncodeToString (Sum256 []) =
  "e3b0c44298fc1c149afbf4c8996fb92427ae41e4649b934ca495991b7852b855"%string.
Proof. vm_compute. reflexivity. Qed.

(** ** base64.RawURLEncoding *)

Definition sextet (n : Z) : ascii :=
  ascii_of_N (Z.to_N
    (if n <? 26 then 65 + n else if n <? 52 then 71 + n else if n <? 62 then n - 4
     else if n =? 62 then 45 else 95)).

Fixpoint raw_url (l : list Z) : bytes :=
  match l with
  | a :: b :: c :: l =>
      sextet (a / 4) :: sextet (a mod 4 * 16 + b / 16) :: sextet (b mod 16 * 4 + c / 64)
        :: sextet (c mod 64) :: raw_url l
  | [a; b] => [sextet (a / 4); sextet (a mod 4 * 16 + b / 16); sextet (b mod 16 * 4)]
  | [a] => [sextet (a / 4); sextet (a mod 4 * 16)]
  | [] => []
  end.

Definition RawURLEncoding (data : list Z) : string := bytes_str (raw_url data).

(** Induction three bytes at a time. *)
Lemma triples_ind (P : list Z → Prop) :
  P [] → (∀ a, P [a]) → (∀ a b, P [a; b]) → (∀ a b c l, P l → P (a :: b :: c :: l)) → ∀ l, P l.
Proof.
  intros H0 H1 H2 H3 l. assert (P l ∧ (∀ a, P (a :: l)) ∧ ∀ a b, P (a :: b :: l)) as [? _]; [|done].
  induction l as [|x l (IH0&IH1&IH2)]; auto.
Qed.

(** The length of the encoding: four characters for three bytes. *)
Definition raw_url_length (n : Z) : Z := (8 * n + 5) / 6.

Lemma raw_url_len l : Z.of_nat (length (raw_url l)) = raw_url_length (Z.of_nat (length l)).
Proof.
  unfold raw_url_length. induction l using triples_ind; [done..|].
  cbn [raw_url length]. rewrite !Nat2Z.inj_succ, IHl.
  match goal with |- _ = ?x / 6 => replace x with (8 * Z.of_nat (length l) + 5 + 4 * 6) by lia end.
  rewrite Z.div_add by lia. lia.
Qed.

Definition url_char (c : ascii) : bool := graphic c && negb (Ascii.eqb c ".").

(** A property of all sextets, by cases. *)
Lemma sextet_cases (P : Z → bool) :
  forallb P (map Z.of_nat (seq 0 64)) = true → ∀ n, 0 <= n < 64 → P n = true.
Proof.
  rewrite forallb_forall. intros H n Hn. apply H, in_map_iff. exists (Z.to_nat n).
  split; [lia|]. apply in_seq. lia.
Qed.

Lemma sextet_url n : 0 <= n < 64 → url_char (sextet n) = true.
Proof. apply (sextet_cases (λ n, url_char (sextet n))). vm_compute. reflexivity. Qed.

Definition unsextet (c : ascii) : Z :=
  let n := Z.of_N (code c) in
  if n =? 45 then 62 else if n =? 95 then 63 else if n <? 58 then n + 4 else if n <? 91 then n - 65 else n - 71.

Lemma unsextet_sextet n : 0 <= n < 64 → unsextet (sextet n) = n.
Proof.
  intros Hn. apply Z.eqb_eq. revert n Hn. apply (sextet_cases (λ n, unsextet (sextet n) =? n)).
  vm_compute. reflexivity.
Qed.

Lemma sextet_inj m n : 0 <= m < 64 → 0 <= n < 64 → sextet m = sextet n → m = n.
Proof. intros Hm Hn H. by rewrite <- (unsextet_sextet m), <- (unsextet_sextet n), H. Qed.

Lemma sextet_bounds a b :
  is_byte a → is_byte b →
  0 <= a / 4 < 64 ∧ 0 <= a mod 4 * 16 < 64 ∧ 0 <= a mod 4 * 16 + b / 16 < 64
  ∧ 0 <= a mod 16 * 4 < 64 ∧ 0 <= a mod 16 * 4 + b / 64 < 64 ∧ 0 <= a mod 64 < 64.
Proof. unfold is_byte. intros. Z.to_euclidean_division_equations. lia. Qed.

(** What all sextets are, the encoding is made of. *)
Lemma raw_url_all (P : ascii → Prop) l :
  (∀ n, 0 <= n < 64 → P (sextet n)) → Forall is_byte l → Forall P (raw_url l).
Proof.
  intros HP. induction l using triples_ind; intros Hl; cbn [raw_url]; rewrite ?Forall_cons in Hl.
  - done.
  - destruct Hl as [Ha _]. pose proof (sextet_bounds a a Ha Ha).
    repeat constructor; apply HP; tauto.
  - destruct Hl as (Ha&Hb&_). pose proof (sextet_bounds a b Ha Hb). pose proof (sextet_bounds b b Hb Hb).
    repeat constructor; apply HP; tauto.
  - destruct Hl as (Ha&Hb&Hc&Hl). pose proof (sextet_bounds a b Ha Hb).
    pose proof (sextet_bounds b c Hb Hc). pose proof (sextet_bounds c c Hc Hc).
    repeat (constructor; [apply HP; tauto|]). auto.
Qed.
Lemma raw_url_chars l : Forall is_byte l → Forall (λ c, url_char c = true) (raw_url l).
Proof. apply raw_url_all, sextet_url. Qed.

Lemma raw_url_inj l m :
  Forall is_byte l → Forall is_byte m → length l = length m → raw_url l = raw_url m → l = m.
Proof.
  revert m. induction l using triples_ind; intros m Hl Hm Hlen H.
  - by destruct m.
  - destruct m as [|a' [|? ?]]; try done. rewrite !Forall_cons in Hl, Hm.
    destruct Hl as [Ha _], Hm as [Ha' _]. cbn [raw_url] in H. injection H as H1 H2.
    pose proof (sextet_bounds a a Ha Ha). pose proof (sextet_bounds a' a' Ha' Ha').
    apply sextet_inj in H1; [|tauto..]. apply sextet_inj in H2; [|tauto..].
    f_equal. rewrite (Z.div_mod a 4), (Z.div_mod a' 4) by lia. lia.
  - destruct m as [|a' [|b' [|? ?]]]; try done. rewrite !Forall_cons in Hl, Hm.
    destruct Hl as (Ha&Hb&_), Hm as (Ha'&Hb'&_). cbn [raw_url] in H. injection H as H1 H2 H3.
    pose proof (sextet_bounds a b Ha Hb). pose proof (sextet_bounds a' b' Ha' Hb').
    pose proof (sextet_bounds b b Hb Hb). pose proof (sextet_bounds b' b' Hb' Hb').
    apply sextet_inj in H1; [|tauto..]. apply sextet_inj in H2; [|tauto..].
    apply sextet_inj in H3; [|tauto..]. unfold is_byte in *.
    assert (a = a' ∧ b = b') as [-> ->]; [|done]. Z.to_euclidean_division_equations. lia.
  - destruct m as [|a' [|b' [|c' m]]]; try done. rewrite !Forall_cons in Hl, Hm.
    destruct Hl as (Ha&Hb&Hc&Hl), Hm as (Ha'&Hb'&Hc'&Hm). cbn [raw_url] in H.
    injection H as H1 H2 H3 H4 H5.
    pose proof (sextet_bounds a b Ha Hb). pose proof (sextet_bounds a' b' Ha' Hb').
    pose proof (sextet_bounds b c Hb Hc). pose proof (sextet_bounds b' c' Hb' Hc').
    pose proof (sextet_bounds c c Hc Hc). pose proof (sextet_bounds c' c' Hc' Hc').
    apply sextet_inj in H1; [|tauto..]. apply sextet_inj in H2; [|tauto..].
    apply sextet_inj in H3; [|tauto..]. apply sextet_inj in H4; [|tauto..]. unfold is_byte in *.
    f_equal; [|f_equal; [|f_equal]]; [Z.to_euclidean_division_equations; lia..|].
    apply IHl; [done..| |done].
    by injection Hlen.
Qed.
