(* ===== verification/Json.v ===== *)
(** * JSON values and [encoding/json]

    A JSON text is represented by the tree of its value: objects keep their
    members in order, duplicates included; a number is an integer literal
    ([JInt]) or a literal with a fraction or an exponent ([JReal m e], of value
    m * 10^e).  json.Unmarshal into Go types is modelled by decoders that start
    from the current value of their target, as Go does, and report whether a
    type error was found (Go keeps decoding after one and reports the first);
    json.Marshal of a struct by the tree it writes.  The value a json.RawMessage
    holds is that of a text already accepted by the JSON parser. *)

From S2P Require Import Prelude GoStd GoTime.
From Stdlib Require Import Ascii.

Inductive json :=
| JNull
| JBool (b : bool)
| JInt (z : Z)
| JReal (m e : Z)
| JStr (s : string)
| JArr (l : list json)
| JObj (members : list (string * json)).

(** json.RawMessage: nil, or the text of one value. *)
Inductive RawMessage :=
| RawNil
| Raw (v : json).

Definition raw_empty (r : RawMessage) : bool := match r with RawNil => true | Raw _ => false end.

(** ** Decoders *)

(** The new value of the target, and [true] when no type error was met. *)
Definition Dec (A : Type) : Type := json → A → A * bool.

(** encoding/json folds a member name to upper case when no field has exactly
    that name; U+017F folds to S and U+212A to K. *)
Fixpoint fold_name (l : bytes) : bytes :=
  match l with
  | c :: t =>
      let n := code c in
      if ((97 <=? n) && (n <=? 122))%N then ascii_of_N (n - 32) :: fold_name t else
      match t with
      | d :: t2 =>
          if ((n =? 197) && (code d =? 191))%N then "S"%char :: fold_name t2 else
          match t2 with
          | e :: t3 =>
              if ((n =? 226) && (code d =? 132) && (code e =? 170))%N
              then "K"%char :: fold_name t3 else c :: fold_name t
          | [] => c :: fold_name t
          end
      | [] => [c]
      end
  | [] => []
  end.

Definition folded (s : string) : string := bytes_str (fold_name (str_bytes s)).

(** The field a member name denotes: the one with exactly that name, else the
    first one equal to it up to folding. *)
Definition match_field (names : list string) (k : string) : option string :=
  if bool_decide (k ∈ names) then Some k
  else snd <$> list_find (λ n, folded n = folded k) names.

(** A value with the mark that no type error was met while computing it. *)
Definition Checked (A : Type) : Type := A * bool.

#[export] Instance checked_monad : SeqMonad Checked := {|
  ret A a := (a, true);
  bind A B m k := let '(a, ok) := m in let '(b, ok') := k a in (b, ok && ok');
|}.

(** The value of one field after all the members of the object, in order. *)
Fixpoint dec_member {B} (names : list string) (name : string) (d : Dec B)
    (ms : list (string * json)) (b : B) : Checked B :=
  match ms with
  | [] => ret b
  | (k, v) :: ms =>
      if bool_decide (match_field names k = Some name) then
        let! b := d v b in dec_member names name d ms b
      else dec_member names name d ms b
  end.

(** How a struct decoder reads its fields: name, decoder, current value. *)
Definition FieldReader : Type := ∀ B, string → Dec B → B → Checked B.

(** A struct with the given JSON names; [strict] is DisallowUnknownFields. *)
Definition dec_struct_with {A} (strict : bool) (names : list string)
    (body : FieldReader → A → Checked A) : Dec A := λ j a,
  match j with
  | JObj ms =>
      let! a := body (λ B name d b, dec_member names name d ms b) a in
      (a, negb strict || forallb (λ kv, if match_field names kv.1 then true else false) ms)
  | JNull => (a, true)
  | _ => (a, false)
  end.

Definition dec_struct {A} := @dec_struct_with A false.

Definition dec_string : Dec string := λ j s,
  match j with JStr t => (t, true) | JNull => (s, true) | _ => (s, false) end.

Definition dec_bool : Dec bool := λ j b,
  match j with JBool c => (c, true) | JNull => (b, true) | _ => (b, false) end.

(** int64 and int: an integer literal in range. *)
Definition dec_int64 : Dec Z := λ j z,
  match j with
  | JInt v => if in_int64 v then (v, true) else (z, false)
  | JNull => (z, true)
  | _ => (z, false)
  end.

Definition dec_time : Dec Z := λ j t,
  match j with
  | JStr s => match ParseRFC3339 s with Some v => (v, true) | None => (t, false) end
  | JNull => (t, true)
  | _ => (t, false)
  end.

(** A json.RawMessage keeps whatever value stands there, null included. *)
Definition dec_raw : Dec RawMessage := λ j _, (Raw j, true).

Definition dec_ptr {A} (zero : A) (d : Dec A) : Dec (option A) := λ j p,
  match j with
  | JNull => (None, true)
  | _ => let '(a, ok) := d j (default zero p) in (Some a, ok)
  end.

Definition dec_elems {A} (zero : A) (d : Dec A) : list json → list A * bool :=
  fix go l :=
    match l with
    | [] => ([], true)
    | j :: l =>
        let '(a, ok) := d j zero in
        let '(rest, ok') := go l in
        (a :: rest, ok && ok')
    end.

(** A slice: null makes it nil, an array replaces its elements. *)
Definition dec_slice {A} (zero : A) (d : Dec A) : Dec (list A) := λ j l,
  match j with
  | JNull => ([], true)
  | JArr js => dec_elems zero d js
  | _ => (l, false)
  end.

(** json.Unmarshal(raw, &v) with [v] at its zero value. *)
Definition Unmarshal {A} (zero : A) (d : Dec A) (r : RawMessage) : A * bool :=
  match r with Raw j => d j zero | RawNil => (zero, false) end.

(** ** json.Marshal of a struct

    Members in declaration order; a field with omitempty is left out at its zero
    value. *)

Definition req (k : string) (v : json) : list (string * json) := [(k, v)].
Definition opt_str (k s : string) : list (string * json) :=
  if String.eqb s EmptyString then [] else [(k, JStr s)].
Definition opt_int (k : string) (z : Z) : list (string * json) :=
  if (z =? 0)%Z then [] else [(k, JInt z)].
Definition opt_ptr {A} (k : string) (f : A → json) (p : option A) : list (string * json) :=
  match p with Some a => [(k, f a)] | None => [] end.
Definition opt_list {A} (k : string) (f : A → json) (l : list A) : list (string * json) :=
  match l with [] => [] | _ => [(k, JArr (map f l))] end.

(** A json.RawMessage: nil is written null. *)
Definition raw_json (r : RawMessage) : json := match r with Raw v => v | RawNil => JNull end.

(** ** Reading back a struct

    Members whose names are the fields' own, none of them twice, or no field's:
    each field is decoded once, from its member, and keeps its value without
    one. *)

Fixpoint member (name : string) (ms : list (string * json)) : option json :=
  match ms with
  | [] => None
  | (k, v) :: ms => if String.eqb k name then Some v else member name ms
  end.

Definition is_name (names : list string) (k : string) : bool := existsb (String.eqb k) names.
Fixpoint own_names (names : list string) (ms : list (string * json)) : bool :=
  match ms with
  | [] => true
  | (k, _) :: ms =>
      (if is_name names k then negb (is_name ms.*1 k) else if match_field names k then false else true)
      && own_names names ms
  end.

Lemma match_field_exact names k : is_name names k = true → match_field names k = Some k.
Proof.
  intros H. apply existsb_exists in H as (x&Hx&->%String.eqb_eq). unfold match_field.
  rewrite bool_decide_eq_true_2; [done|]. by apply list_elem_of_In.
Qed.

(** A member of another name, or of none, is no part of the field. *)
Lemma member_other names name k ms v :
  own_names names ((k, v) :: ms) = true → is_name names name = true → k ≠ name →
  match_field names k ≠ Some name ∧ own_names names ms = true.
Proof.
  cbn [own_names]. rewrite andb_true_iff. intros [Hk Ho] Hn Hne. split; [|done].
  destruct (is_name names k) eqn:E; [|by destruct (match_field names k)].
  rewrite match_field_exact by done. congruence.
Qed.

Lemma dec_member_absent {B} names name (d : Dec B) ms b :
  own_names names ms = true → is_name names name = true → is_name ms.*1 name = false →
  dec_member names name d ms b = (b, true).
Proof.
  intros Ho Hn. induction ms as [|[k v] ms IH]; [done|]. intros [Hk Ha]%orb_false_iff.
  destruct (member_other names name k ms v) as [Hm Ho']; [done..|by apply not_eq_sym, String.eqb_neq|].
  cbn [dec_member]. rewrite bool_decide_eq_false_2 by done. by apply IH.
Qed.

Lemma dec_member_own {B} names name (d : Dec B) ms b :
  own_names names ms = true → is_name names name = true →
  dec_member names name d ms b = match member name ms with Some v => d v b | None => (b, true) end.
Proof.
  intros Ho Hn. induction ms as [|[k v] ms IH]; [done|]. cbn [member dec_member].
  destruct (String.eqb_spec k name) as [->|Hne].
  - rewrite match_field_exact, bool_decide_eq_true_2 by done. cbn [own_names] in Ho. rewrite Hn in Ho.
    apply andb_true_iff in Ho as [Hd%negb_true_iff Ho]. cbn [bind checked_monad].
    destruct (d v b) as [b' ok]. rewrite dec_member_absent by done. by rewrite andb_true_r.
  - destruct (member_other names name k ms v) as [Hm Ho']; [done..|].
    rewrite bool_decide_eq_false_2 by done. by apply IH.
Qed.

(** The order of the members is no matter when no key comes twice. *)
Definition well_named (names : list string) (k : string) : bool :=
  is_name names k || if match_field names k then false else true.
Lemma own_names_NoDup names ms :
  NoDup ms.*1 → Forall (λ kv, well_named names kv.1 = true) ms → own_names names ms = true.
Proof.
  induction ms as [|[k v] ms IH]; [done|]. rewrite fmap_cons, NoDup_cons, Forall_cons. simpl.
  intros [Hk Hn] [Hw Hf]. rewrite IH, andb_true_r by done. unfold well_named in Hw.
  destruct (is_name names k); [|exact Hw]. apply negb_true_iff, not_true_is_false. intros H.
  apply existsb_exists in H as (x&Hx&->%String.eqb_eq). by apply Hk, list_elem_of_In.
Qed.
Lemma member_Some name ms v : NoDup ms.*1 → member name ms = Some v ↔ (name, v) ∈ ms.
Proof.
  induction ms as [|[k u] ms IH]; [simpl; intros _; split; [done|by intros ?%elem_of_nil]|].
  rewrite fmap_cons, NoDup_cons, elem_of_cons. simpl. intros [Hk Hn].
  destruct (String.eqb_spec k name) as [->|Hne].
  - split; [intros [= ->]; by left|]. intros [[= ->]|H]; [done|]. destruct Hk. apply list_elem_of_fmap. by exists (name, v).
  - rewrite IH by done. split; [by right|]. intros [[= -> ->]|?]; done.
Qed.
Lemma member_permutation name ms ms' : NoDup ms.*1 → ms ≡ₚ ms' → member name ms = member name ms'.
Proof.
  intros Hn Hp. assert (NoDup ms'.*1) as Hn' by (by rewrite <- Hp). apply option_eq. intros v.
  rewrite !member_Some by done. by rewrite Hp.
Qed.

(** A struct decoder on such members, one field after the other. *)
Ltac read_struct :=
  unfold dec_struct, dec_struct_with;
  repeat (rewrite dec_member_own by reflexivity);
  cbn [member String.eqb Ascii.eqb Bool.eqb bind ret checked_monad].

(** ** json.Unmarshal into [any] *)

(** The float64 nearest to m * 10^e, ties to even: mantissa and binary
    exponent, [None] when it overflows.  Zero is (0, 0). *)
Definition round_ratio (n d : Z) : option (Z * Z) :=
  (if n =? 0 then Some (0, 0) else
   let s := Z.log2 n - Z.log2 d - 53 in
   let s := Z.max s (-1074) in
   let '(n', d') := if 0 <=? s then (n, d * 2 ^ s) else (n * 2 ^ (- s), d) in
   (* here n'/d' < 2^54: normalise to 53 bits *)
   let '(s, d') := if (2 ^ 53 * d' <=? n') then (s + 1, 2 * d') else (s, d') in
   let q := n' / d' in
   let r := n' mod d' in
   let q := if 2 * r <? d' then q else if d' <? 2 * r then q + 1 else if Z.even q then q else q + 1 in
   let '(q, s) := if q =? 2 ^ 53 then (2 ^ 52, s + 1) else (q, s) in
   if 971 <? s then None else Some (if q =? 0 then (0, 0) else (q, s)))%Z.

(** A float64: sign, mantissa and exponent, in a canonical form. *)
Definition float64 : Type := Z * Z.

Definition to_float64 (m e : Z) : option float64 :=
  let '(n, d) := if (0 <=? e)%Z then (Z.abs m * 10 ^ e, 1)%Z else (Z.abs m, 10 ^ (- e))%Z in
  match round_ratio n d with
  | Some (q, s) =>
      (* an odd mantissa makes the pair unique *)
      let tz := match q with Zpos p => (fix go p := match p with xO p => 1 + go p | _ => 0 end)%Z p
                | _ => 0%Z end in
      Some (Z.sgn m * (q / 2 ^ tz), if (q =? 0)%Z then 0 else s + tz)%Z
  | None => None
  end.

(** The dynamic values json.Unmarshal stores in an [any]. *)
Inductive any :=
| ANil
| ABool (b : bool)
| AFloat (f : float64)
| AStr (s : string)
| AArr (l : list any)
| AMap (m : list (string * any)).  (** sorted by key, keys distinct *)

(** Insert into a sorted association list: the map Go builds, one entry per
    key, the last one written. *)
Fixpoint map_put {A} (k : string) (v : A) (m : list (string * A)) : list (string * A) :=
  match m with
  | [] => [(k, v)]
  | (k', v') :: m' =>
      match String.compare k k' with
      | Lt => (k, v) :: m
      | Eq => (k, v) :: m'
      | Gt => (k', v') :: map_put k v m'
      end
  end.

Fixpoint to_any (j : json) : option any :=
  match j with
  | JNull => Some ANil
  | JBool b => Some (ABool b)
  | JInt z => AFloat <$> to_float64 z 0
  | JReal m e => AFloat <$> to_float64 m e
  | JStr s => Some (AStr s)
  | JArr l =>
      AArr <$> (fix go l := match l with
                            | [] => Some []
                            | j :: l => match to_any j, go l with
                                        | Some a, Some r => Some (a :: r)
                                        | _, _ => None
                                        end
                            end) l
  | JObj ms =>
      AMap <$> (fix go acc ms := match ms with
                                 | [] => Some acc
                                 | (k, j) :: ms =>
                                     match to_any j with
                                     | Some a => go (map_put k a acc) ms
                                     | None => None
                                     end
                                 end) [] ms
  end.

(** reflect.DeepEqual on such values: floats by value, maps by their entries. *)
Fixpoint any_eqb (a b : any) : bool :=
  match a, b with
  | ANil, ANil => true
  | ABool x, ABool y => Bool.eqb x y
  | AFloat x, AFloat y => bool_decide (x = y)
  | AStr x, AStr y => String.eqb x y
  | AArr l, AArr r =>
      (fix go l r := match l, r with
                     | [], [] => true
                     | x :: l, y :: r => any_eqb x y && go l r
                     | _, _ => false
                     end) l r
  | AMap l, AMap r =>
      (fix go l r := match l, r with
                     | [], [] => true
                     | (k, x) :: l, (k', y) :: r => String.eqb k k' && any_eqb x y && go l r
                     | _, _ => false
                     end) l r
  | _, _ => false
  end.

Section AnyInd.
Variable P : any → Prop.
Hypothesis Hnil : P ANil.
Hypothesis Hbool : ∀ b, P (ABool b).
Hypothesis Hfloat : ∀ f, P (AFloat f).
Hypothesis Hstr : ∀ s, P (AStr s).
Hypothesis Harr : ∀ l, Forall P l → P (AArr l).
Hypothesis Hmap : ∀ m, Forall (λ kv, P kv.2) m → P (AMap m).

Fixpoint any_ind_nested (a : any) : P a :=
  match a with
  | ANil => Hnil
  | ABool b => Hbool b
  | AFloat f => Hfloat f
  | AStr s => Hstr s
  | AArr l =>
      Harr l ((fix go l : Forall P l := match l with
               | [] => List.Forall_nil P
               | x :: l => List.Forall_cons P x l (any_ind_nested x) (go l)
               end) l)
  | AMap m =>
      Hmap m ((fix go m : Forall (λ kv, P kv.2) m := match m with
               | [] => List.Forall_nil _
               | x :: m => List.Forall_cons (λ kv, P kv.2) x m (any_ind_nested x.2) (go m)
               end) m)
  end.
End AnyInd.

Lemma any_eqb_refl a : any_eqb a a = true.
Proof.
  induction a as [|b|f|s|l IH|m IH] using any_ind_nested; simpl; auto.
  - apply Bool.eqb_reflx.
  - by apply bool_decide_eq_true.
  - apply String.eqb_refl.
  - induction IH as [|x l Hx _ IHl]; [done|]. by rewrite Hx.
  - induction IH as [|[k x] m Hx _ IHm]; [done|]. simpl in Hx.
    by rewrite String.eqb_refl, Hx.
Qed.
