(* ===== verification/JsonText.v ===== *)
(** * The text json.Marshal writes for strings

    encoding/json escapes quotes, backslashes, control characters, the three
    characters of HTML and U+2028/U+2029, copies every other rune, and replaces
    a byte that starts no rune by the escape of U+FFFD.  What it writes for
    valid UTF-8 is decodable: two different strings never have the same text,
    which is what RequestHash relies on. *)

From S2P Require Import Prelude GoStd GoCrypto.
From Stdlib Require Import Ascii.
#[local] Open Scope string_scope.

(** ** UTF-8 *)

Definition between (lo hi : N) (c : ascii) : bool := ((lo <=? code c) && (code c <=? hi))%N.
Definition continuation := between 128 191.

(** The length of the rune at the head, as utf8.DecodeRune: [None] when the
    head starts none. *)
Definition rune_len (l : bytes) : option nat :=
  match l with
  | c :: l =>
      if between 0 127 c then Some 1%nat
      else match l with
      | c1 :: l =>
          if between 194 223 c then (if continuation c1 then Some 2%nat else None)
          else match l with
          | c2 :: l =>
              if between 224 239 c then
                (let lo := if (code c =? 224)%N then 160%N else 128%N in
                 let hi := if (code c =? 237)%N then 159%N else 191%N in
                 if between lo hi c1 && continuation c2 then Some 3%nat else None)
              else match l with
              | c3 :: _ =>
                  if between 240 244 c then
                    (let lo := if (code c =? 240)%N then 144%N else 128%N in
                     let hi := if (code c =? 244)%N then 143%N else 191%N in
                     if between lo hi c1 && continuation c2 && continuation c3 then Some 4%nat else None)
                  else None
              | [] => None
              end
          | [] => None
          end
      | [] => None
      end
  | [] => None
  end.

(** The runes of a text, a byte that starts none standing for itself. *)
Fixpoint runes (fuel : nat) (l : bytes) : list (bool * bytes) :=
  match fuel, l with
  | S fuel, _ :: _ =>
      match rune_len l with
      | Some n => (true, take n l) :: runes fuel (drop n l)
      | None => (false, take 1 l) :: runes fuel (drop 1 l)
      end
  | _, _ => []
  end.

Definition valid_utf8 (s : string) : bool :=
  forallb fst (runes (length (str_bytes s)) (str_bytes s)).

(** ** Escaping *)

Definition backslash : ascii := ascii_of_N 92.
Definition quote : ascii := ascii_of_N 34.

(** A byte that is written as it is. *)
Definition html_safe (c : ascii) : bool :=
  between 32 127 c && negb (existsb (λ n, (code c =? n)%N) [34; 38; 60; 62; 92]%N).

Definition hex_escape (n : Z) : bytes :=
  (backslash :: "u"%char :: map hex_digit [n / 4096; n / 256 mod 16; n / 16 mod 16; n mod 16]%Z)%list.

Definition escape_byte (c : ascii) : bytes :=
  if html_safe c then [c] else
  let n := code c in
  if (n =? 34)%N || (n =? 92)%N then [backslash; c]
  else if (n =? 8)%N then [backslash; "b"%char]
  else if (n =? 12)%N then [backslash; "f"%char]
  else if (n =? 10)%N then [backslash; "n"%char]
  else if (n =? 13)%N then [backslash; "r"%char]
  else if (n =? 9)%N then [backslash; "t"%char]
  else hex_escape (Z.of_N n).

(** U+2028 and U+2029 *)
Definition line_separator (r : bytes) : bool :=
  match r with
  | [c; d; e] => ((code c =? 226) && (code d =? 128) && ((code e =? 168) || (code e =? 169)))%N
  | _ => false
  end.

Definition escape_rune (x : bool * bytes) : bytes :=
  match x with
  | (false, _) => hex_escape 65533
  | (true, [c]) => escape_byte c
  | (true, r) => if line_separator r
                 then hex_escape (8192 + Z.of_N (code (List.last r backslash) - 128))%Z else r
  end.

Definition escape (l : bytes) : bytes := concat (map escape_rune (runes (length l) l)).

Definition quoted_bytes (s : string) : bytes := (quote :: escape (str_bytes s) ++ [quote])%list.

(** ** Decoding *)

Definition hex_value (c : ascii) : option Z :=
  let n := Z.of_N (code c) in
  if ((48 <=? n) && (n <=? 57))%Z then Some (n - 48)%Z
  else if ((97 <=? n) && (n <=? 102))%Z then Some (n - 87)%Z else None.

(** The rune the text starts with, and the rest; [None] at the closing quote. *)
Definition read_rune (l : bytes) : option (bytes * bytes) :=
  match l with
  | [] => None
  | c :: t =>
      if Ascii.eqb c quote then None
      else if Ascii.eqb c backslash then
        match t with
        | d :: t =>
            if Ascii.eqb d "b" then Some ([ascii_of_N 8], t)
            else if Ascii.eqb d "f" then Some ([ascii_of_N 12], t)
            else if Ascii.eqb d "n" then Some ([ascii_of_N 10], t)
            else if Ascii.eqb d "r" then Some ([ascii_of_N 13], t)
            else if Ascii.eqb d "t" then Some ([ascii_of_N 9], t)
            else if Ascii.eqb d "u" then
              match t with
              | h1 :: h2 :: h3 :: h4 :: t =>
                  match hex_value h1, hex_value h2, hex_value h3, hex_value h4 with
                  | Some a, Some b, Some c, Some d =>
                      let n := (4096 * a + 256 * b + 16 * c + d)%Z in
                      if (n <? 256)%Z then Some ([ascii_of_N (Z.to_N n)], t)
                      else Some ([ascii_of_N 226; ascii_of_N 128; ascii_of_N (Z.to_N (n - 8192 + 128))], t)
                  | _, _, _, _ => None
                  end
              | _ => None
              end
            else Some ([d], t)
        | [] => None
        end
      else match rune_len l with Some n => Some (take n l, drop n l) | None => None end
  end.

(** A byte of one rune escapes to a text that reads back. *)
Lemma read_escaped_byte c rest :
  between 0 127 c = true → read_rune (escape_byte c ++ rest)%list = Some ([c], rest).
Proof.
  destruct c as [b0 b1 b2 b3 b4 b5 b6 b7]. intros H.
  destruct b7; [by destruct b0, b1, b2, b3, b4, b5, b6|].
  destruct b0, b1, b2, b3, b4, b5, b6; reflexivity.
Qed.

Lemma between_spec lo hi c : between lo hi c = true ↔ (lo ≤ code c ≤ hi)%N.
Proof. unfold between. by rewrite andb_true_iff, !N.leb_le. Qed.

Lemma between_false lo hi c : (hi < code c)%N ∨ (code c < lo)%N → between lo hi c = false.
Proof. intros H. apply not_true_iff_false. rewrite between_spec. lia. Qed.

Lemma code_inj c d : code c = code d → c = d.
Proof. intros H. rewrite <- (ascii_N_embedding c), <- (ascii_N_embedding d). by f_equal. Qed.

(** A rune does not depend on what follows it. *)
Lemma rune_len_spec l n :
  rune_len l = Some n →
  (∃ c t, l = c :: t ∧ n = 1%nat ∧ between 0 127 c = true)
  ∨ (∃ c r t, l = (c :: r ++ t)%list ∧ n = S (length r) ∧ r ≠ [] ∧ (194 ≤ code c)%N
       ∧ ∀ rest, rune_len (c :: r ++ rest)%list = Some n).
Proof.
  destruct l as [|c l]; [done|]. unfold rune_len at 1.
  destruct (between 0 127 c) eqn:E1; [intros [= <-]; left; eauto|].
  destruct l as [|c1 l]; [done|].
  destruct (between 194 223 c) eqn:E2.
  { destruct (continuation c1) eqn:Ec; [|done]. intros [= <-]. right. exists c, [c1], l.
    apply between_spec in E2 as Hc. split_and!; [done..|lia|]. intros rest.
    unfold rune_len. simpl. by rewrite E1, E2, Ec. }
  destruct l as [|c2 l]; [done|].
  destruct (between 224 239 c) eqn:E3.
  { cbv zeta. destruct (_ && _) eqn:Ec; [|done]. intros [= <-]. right. exists c, [c1; c2], l.
    apply between_spec in E3 as Hc. split_and!; [done..|lia|]. intros rest.
    unfold rune_len. simpl. rewrite E1, E2, E3. cbv zeta. by rewrite Ec. }
  destruct l as [|c3 l]; [done|].
  destruct (between 240 244 c) eqn:E4; [|done].
  cbv zeta. destruct (_ && _) eqn:Ec; [|done]. intros [= <-]. right. exists c, [c1; c2; c3], l.
  apply between_spec in E4 as Hc. split_and!; [done..|lia|]. intros rest.
  unfold rune_len. simpl. rewrite E1, E2, E3, E4. cbv zeta. by rewrite Ec.
Qed.

Lemma read_plain_rune c r rest n :
  (194 ≤ code c)%N → rune_len (c :: r ++ rest)%list = Some n → n = S (length r) →
  read_rune ((c :: r) ++ rest)%list = Some (c :: r, rest).
Proof.
  intros Hc Hn ->. unfold read_rune. simpl app. cbv beta iota.
  assert (Ascii.eqb c quote = false) as -> by (apply Ascii.eqb_neq; intros ->; by apply Hc).
  assert (Ascii.eqb c backslash = false) as -> by (apply Ascii.eqb_neq; intros ->; by apply Hc).
  rewrite Hn. cbn [take drop]. rewrite take_app_length. rewrite drop_app_length. reflexivity.
Qed.

Lemma read_separator r rest :
  line_separator r = true →
  read_rune (hex_escape (8192 + Z.of_N (code (List.last r backslash) - 128)) ++ rest)%list = Some (r, rest).
Proof.
  destruct r as [|c [|d [|e [|x r]]]]; try done. unfold line_separator.
  rewrite !andb_true_iff, orb_true_iff, !N.eqb_eq. intros [[Hc Hd] He].
  assert (c = ascii_of_N 226) as -> by by apply code_inj.
  assert (d = ascii_of_N 128) as -> by by apply code_inj.
  destruct He as [He|He]; [assert (e = ascii_of_N 168) as -> by by apply code_inj
                          |assert (e = ascii_of_N 169) as -> by by apply code_inj]; reflexivity.
Qed.

Lemma read_escaped_rune l n rest :
  rune_len l = Some n → read_rune (escape_rune (true, take n l) ++ rest)%list = Some (take n l, rest).
Proof.
  intros Hn. destruct (rune_len_spec l n Hn) as [(c&t&->&->&Hc)|(c&r&t&->&->&Hr&Hc&Hl)].
  - simpl. by apply read_escaped_byte.
  - simpl take. rewrite take_app_length. unfold escape_rune.
    destruct r as [|d r]; [done|].
    destruct (line_separator (c :: d :: r)) eqn:Es; [by apply read_separator|].
    by eapply read_plain_rune.
Qed.

(** ** Two valid strings with the same text are equal *)

#[local] Arguments rune_len : simpl never.
#[local] Arguments read_rune : simpl never.
#[local] Arguments escape_rune : simpl never.

Lemma runes_valid_inj f1 f2 l1 l2 rest1 rest2 :
  (length l1 ≤ f1)%nat → (length l2 ≤ f2)%nat →
  forallb fst (runes f1 l1) = true → forallb fst (runes f2 l2) = true →
  (concat (map escape_rune (runes f1 l1)) ++ quote :: rest1
   = concat (map escape_rune (runes f2 l2)) ++ quote :: rest2)%list →
  l1 = l2 ∧ rest1 = rest2.
Proof.
  revert f2 l1 l2. induction f1 as [|f1 IH]; intros f2 l1 l2 H1 H2 V1 V2 H.
  - destruct l1; simpl in H1; [|lia]. destruct f2 as [|f2]; destruct l2 as [|d l2]; simpl in H2; try lia.
    + simpl in H. by simplify_eq.
    + simpl in H. by simplify_eq.
    + exfalso. simpl runes in *. destruct (rune_len (d :: l2)) as [n|] eqn:En; [|discriminate V2].
      pose proof (read_escaped_rune _ _ (concat (map escape_rune (runes f2 (drop n (d :: l2)))) ++ quote :: rest2)%list En) as Hr.
      cbn [map concat] in H. rewrite <- app_assoc in H. rewrite <- H in Hr. discriminate Hr.
  - destruct l1 as [|c l1].
    { destruct f2 as [|f2]; destruct l2 as [|d l2]; simpl in H2; try lia; try (simpl in H; by simplify_eq).
      exfalso. simpl runes in *. destruct (rune_len (d :: l2)) as [n|] eqn:En; [|discriminate V2].
      pose proof (read_escaped_rune _ _ (concat (map escape_rune (runes f2 (drop n (d :: l2)))) ++ quote :: rest2)%list En) as Hr.
      cbn [map concat] in H. rewrite <- app_assoc in H. rewrite <- H in Hr. discriminate Hr. }
    simpl runes in V1, H. destruct (rune_len (c :: l1)) as [n|] eqn:En; [|discriminate V1].
    pose proof (read_escaped_rune _ _ (concat (map escape_rune (runes f1 (drop n (c :: l1)))) ++ quote :: rest1)%list En) as Hr1.
    cbn [map concat] in H. rewrite <- !app_assoc in H. rewrite H in Hr1.
    destruct f2 as [|f2]; destruct l2 as [|d l2]; simpl in H2; try lia; try discriminate Hr1.
    simpl runes in V2, Hr1, H. destruct (rune_len (d :: l2)) as [m|] eqn:Em; [|discriminate V2].
    pose proof (read_escaped_rune _ _ (concat (map escape_rune (runes f2 (drop m (d :: l2)))) ++ quote :: rest2)%list Em) as Hr2.
    cbn [map concat] in Hr1, H. rewrite <- !app_assoc in Hr1, H. rewrite Hr2 in Hr1.
    injection Hr1 as Ht Hrest.
    assert (∃ n', n = S n') as [n' ->].
    { destruct (rune_len_spec _ _ En) as [(?&?&_&->&_)|(?&?&?&_&->&_)]; eauto. }
    assert (∃ m', m = S m') as [m' ->].
    { destruct (rune_len_spec _ _ Em) as [(?&?&_&->&_)|(?&?&?&_&->&_)]; eauto. }
    simpl in V1, V2, H1, H2.
    destruct (IH f2 (drop n' l1) (drop m' l2)) as [Hd ->]; [rewrite length_drop; lia..|done|done|by symmetry|].
    split; [|done]. rewrite <- (take_drop (S n') (c :: l1)), <- (take_drop (S m') (d :: l2)).
    rewrite <- Ht. f_equal. exact Hd.
Qed.

(** A quoted text is a prefix code on valid strings. *)
Lemma quoted_inj s1 s2 rest1 rest2 :
  valid_utf8 s1 = true → valid_utf8 s2 = true →
  (quoted_bytes s1 ++ rest1 = quoted_bytes s2 ++ rest2)%list → s1 = s2 ∧ rest1 = rest2.
Proof.
  intros V1 V2 H. unfold quoted_bytes, escape in H. simpl in H. injection H as H.
  rewrite <- !app_assoc in H. apply runes_valid_inj in H as [Hs ->]; [|done..].
  split; [by apply str_bytes_inj|done].
Qed.

(** ** RequestHash (postgres.go) *)

(** The text of a struct of strings; a field with omitempty is left out when
    its value is empty. *)
Definition field_text (f : string * bool * string) : list bytes :=
  let '(name, omitempty, value) := f in
  if omitempty && String.eqb value "" then []
  else [(quoted_bytes name ++ ":"%char :: quoted_bytes value)%list].

Fixpoint join_bytes (sep : ascii) (l : list bytes) : bytes :=
  match l with
  | [] => []
  | [x] => x
  | x :: l => (x ++ sep :: join_bytes sep l)%list
  end.

Definition struct_text (fields : list (string * bool * string)) : bytes :=
  ("{"%char :: join_bytes "," (concat (map field_text fields)) ++ ["}"%char])%list.

Definition RequestHash (fields : list (string * bool * string)) : string :=
  EncodeToString (Sum256 (map (λ c, Z.of_N (code c)) (struct_text fields))).

Example struct_text_ex :
  bytes_str (struct_text [("prompt", false, "<a>" +:+ bytes_str [ascii_of_N 195; ascii_of_N 169; ascii_of_N 10]);
                          ("permission_profile_id", true, "")])
  = bytes_str (ascii_of_N 123 :: quote :: str_bytes "prompt" ++ [quote; ":"%char; quote; backslash]
      ++ str_bytes "u003ca" ++ [backslash] ++ str_bytes "u003e"
      ++ [ascii_of_N 195; ascii_of_N 169; backslash; "n"%char; quote; "}"%char])%list.
Proof. vm_compute. reflexivity. Qed.
