(* ===== verification/GoDuration.v ===== *)
(** * time.ParseDuration, Duration.String and strconv.ParseBool

    Durations are nanoseconds in an int64.  The fraction of a number is
    multiplied in binary64, rounding to nearest even as IEEE 754 does. *)

From S2P Require Import Prelude GoStd GoTime.
From Stdlib Require Import Ascii SpecFloat.
#[local] Open Scope string_scope.
#[local] Open Scope Z_scope.

(** ** float64 *)

Definition float_of (z : Z) : spec_float := binary_normalize 53 1024 z 0 false.
(** The conversion to uint64 of a number in its range. *)
Definition uint_of (f : spec_float) : Z :=
  match f with S754_finite false m e => Z.shiftl (Zpos m) e | _ => 0 end.

(** ** time.ParseDuration *)

(** leadingInt: the number and the rest, [None] on overflow. *)
Fixpoint leading_int (l : bytes) (x : Z) : option (Z * bytes) :=
  match l with
  | c :: l' =>
      match digit_of c with
      | Some d =>
          if 2 ^ 63 / 10 <? x then None
          else let x := 10 * x + d in if 2 ^ 63 <? x then None else leading_int l' x
      | None => Some (x, l)
      end
  | [] => Some (x, [])
  end.

(** leadingFraction: the digits as a number, its scale, and the rest; what does
    not fit is dropped. *)
Fixpoint leading_fraction (l : bytes) (x scale : Z) (overflow : bool) : Z * Z * bytes :=
  match l with
  | c :: l' =>
      match digit_of c with
      | Some d =>
          if overflow then leading_fraction l' x scale true
          else if (2 ^ 63 - 1) / 10 <? x then leading_fraction l' x scale true
          else let y := 10 * x + d in
               if 2 ^ 63 <? y then leading_fraction l' x scale true
               else leading_fraction l' y (10 * scale) false
      | None => (x, scale, l)
      end
  | [] => (x, scale, [])
  end.

Definition unit_char (c : ascii) : bool :=
  match digit_of c with Some _ => false | None => negb (Ascii.eqb c ".") end.
Fixpoint take_unit (l : bytes) : bytes * bytes :=
  match l with
  | c :: l' => if unit_char c then let '(u, rest) := take_unit l' in (c :: u, rest) else ([], l)
  | [] => ([], [])
  end.

Definition code_bytes (l : list N) : bytes := map ascii_of_N l.
(** unitMap; the two micro signs are U+00B5 and U+03BC. *)
Definition unit_map : list (bytes * Z) :=
  [(str_bytes "ns", 1); (str_bytes "us", 1000); (code_bytes [194; 181; 115]%N, 1000);
   (code_bytes [206; 188; 115]%N, 1000); (str_bytes "ms", 1000 * 1000); (str_bytes "s", second);
   (str_bytes "m", minute); (str_bytes "h", hour)].
Definition unit_of (u : bytes) : option Z := snd ∘ snd <$> list_find (λ e, e.1 = u) unit_map.

(** One number with its unit, in nanoseconds, and the rest. *)
Definition duration_term (l : bytes) : option (Z * bytes) :=
  match leading_int l 0 with
  | None => None
  | Some (v, rest) =>
      let pre := negb (length rest =? length l)%nat in
      let '(f, scale, rest', post) :=
        match rest with
        | c :: rest0 =>
            if Ascii.eqb c "." then
              let '(f, scale, rest') := leading_fraction rest0 0 1 false in
              (f, scale, rest', negb (length rest' =? length rest0)%nat)
            else (0, 1, rest, false)
        | [] => (0, 1, rest, false)
        end in
      if negb (pre || post) then None else
      let '(u, rest) := take_unit rest' in
      match u, unit_of u with
      | [], _ | _, None => None
      | _, Some unit =>
          if 2 ^ 63 / unit <? v then None else
          let v := v * unit in
          let v := if 0 <? f
                   then v + uint_of (SFmul 53 1024 (float_of f) (SFdiv 53 1024 (float_of unit) (float_of scale)))
                   else v in
          if 2 ^ 63 <? v then None else Some (v, rest)
      end
  end.

(** Every term takes at least a byte. *)
Fixpoint duration_terms (fuel : nat) (l : bytes) (d : Z) : option Z :=
  match l, fuel with
  | [], _ => Some d
  | _, O => None
  | _, S fuel =>
      match duration_term l with
      | None => None
      | Some (v, rest) => if 2 ^ 63 <? d + v then None else duration_terms fuel rest (d + v)
      end
  end.

Definition ParseDuration (s : string) : option Z :=
  let l := str_bytes s in
  let '(neg, l) := match l with
                   | c :: l' => if Ascii.eqb c "-" then (true, l')
                                else if Ascii.eqb c "+" then (false, l') else (false, l)
                   | [] => (false, [])
                   end in
  if bool_decide (l = str_bytes "0") then Some 0
  else match l with
       | [] => None
       | _ => match duration_terms (length l) l 0 with
              | None => None
              | Some d => if neg then Some (- d) else if 2 ^ 63 - 1 <? d then None else Some d
              end
       end.

(** ** Duration.String *)

(** fmtFrac: the digits below the unit, without trailing zeros. *)
Definition fmt_frac (v : Z) (prec : nat) : bytes :=
  match rev (strip_zeros (rev (pad_digits prec (v mod 10 ^ Z.of_nat prec)))) with
  | [] => []
  | l => "."%char :: l
  end.

(** The decimal digits of an integer below 2^64. *)
Definition fmt_int (v : Z) : bytes :=
  match strip_zeros (pad_digits 20 v) with [] => ["0"%char] | l => l end.

Definition with_unit (u : Z) (prec : nat) (name : bytes) : bytes :=
  (fmt_int (u / 10 ^ Z.of_nat prec) ++ fmt_frac u prec ++ name)%list.

Definition DurationString (d : Z) : string :=
  let u := Z.abs d in
  let text :=
    if u <? second then
      if u =? 0 then str_bytes "0s"
      else if u <? microsecond then with_unit u 0 (str_bytes "ns")
      else if u <? millisecond then with_unit u 3 (code_bytes [194; 181; 115]%N)
      else with_unit u 6 (str_bytes "ms")
    else
      let secs := u / second in
      let mins := secs / 60 in
      let hours := mins / 60 in
      ((if 0 <? mins then (if 0 <? hours then fmt_int hours ++ ["h"%char] else []) ++ fmt_int (mins mod 60) ++ ["m"%char]
        else []) ++ fmt_int (secs mod 60) ++ fmt_frac u 9 ++ ["s"%char])%list in
  bytes_str ((if d <? 0 then ["-"%char] else []) ++ text)%list.

Example duration_ex : map DurationString [0; 1500; 83 * millisecond; 3661 * second + 500 * millisecond; - hour]
  = ["0s"; bytes_str (str_bytes "1.5" ++ code_bytes [194; 181; 115]%N)%list; "83ms"; "1h1m1.5s"; "-1h0m0s"].
Proof. vm_compute. reflexivity. Qed.

(** ** strconv.ParseBool *)

Definition ParseBool (s : string) : option bool :=
  if existsb (String.eqb s) ["1"; "t"; "T"; "TRUE"; "true"; "True"] then Some true
  else if existsb (String.eqb s) ["0"; "f"; "F"; "FALSE"; "false"; "False"] then Some false
  else None.

(** ** A duration fits its int64 *)

Lemma leading_int_nonneg l x v rest : 0 ≤ x → leading_int l x = Some (v, rest) → 0 ≤ v.
Proof.
  revert x. induction l as [|c l IH]; intros x Hx H; cbn [leading_int] in H; [by simplify_eq|].
  destruct (digit_of c) as [d|] eqn:Ed; [|by simplify_eq].
  assert (0 ≤ d).
  { unfold digit_of in Ed. destruct ((48 <=? code c)%N && _) eqn:Eb; [|done].
    apply andb_true_iff in Eb as [Hb _]. apply N.leb_le in Hb. simplify_eq. lia. }
  destruct (_ <? x); [done|]. destruct (2 ^ 63 <? _); [done|]. eapply IH; [|exact H]. lia.
Qed.

Lemma uint_of_nonneg f : 0 ≤ uint_of f.
Proof. destruct f as [| | |[] m e]; simpl; try done. apply Z.shiftl_nonneg. lia. Qed.

Lemma unit_pos u n : unit_of u = Some n → 0 < n.
Proof.
  unfold unit_of. intros H. apply fmap_Some in H as ([i e]&He&->). apply list_find_Some in He as (Hi&_&_).
  apply list_elem_of_lookup_2 in Hi. unfold unit_map in Hi. simpl.
  rewrite !elem_of_cons in Hi. destruct_or! Hi; subst; try (vm_compute; reflexivity). by apply elem_of_nil in Hi.
Qed.

Lemma duration_term_nonneg l v rest : duration_term l = Some (v, rest) → 0 ≤ v.
Proof.
  unfold duration_term. destruct (leading_int l 0) as [[n r]|] eqn:En; [|done].
  apply leading_int_nonneg in En; [|lia]. set (x := match r with [] => _ | _ => _ end).
  destruct x as [[[f scale] rest'] post]. destruct (negb _); [done|]. destruct (take_unit rest') as [u r2].
  destruct u as [|c u]; [done|]. destruct (unit_of (c :: u)) as [unit|] eqn:Eu; [|done]. apply unit_pos in Eu.
  destruct (_ <? n); [done|]. pose proof (uint_of_nonneg (SFmul 53 1024 (float_of f) (SFdiv 53 1024 (float_of unit) (float_of scale)))).
  destruct (0 <? f); (destruct (2 ^ 63 <? _); [done|]); intros [= <- _]; nia.
Qed.

Lemma duration_terms_bounds fuel l d v :
  0 ≤ d ≤ 2 ^ 63 → duration_terms fuel l d = Some v → 0 ≤ v ≤ 2 ^ 63.
Proof.
  revert l d. induction fuel as [|fuel IH]; intros [|c l] d Hd H; cbn [duration_terms] in H; try (by simplify_eq).
  destruct (duration_term (c :: l)) as [[t rest]|] eqn:Et; [|done]. apply duration_term_nonneg in Et.
  destruct (Z.ltb_spec (2 ^ 63) (d + t)); [done|]. eapply IH; [|exact H]. lia.
Qed.

Lemma ParseDuration_int64 s d : ParseDuration s = Some d → int64_min ≤ d ≤ int64_max.
Proof.
  unfold ParseDuration. set (x := match str_bytes s with [] => _ | _ => _ end). destruct x as [neg l].
  case_bool_decide; [by intros [= <-]|]. destruct l as [|c l]; [done|].
  destruct (duration_terms _ _ 0) as [v|] eqn:E; [|done]. apply duration_terms_bounds in E; [|lia].
  destruct neg; [intros [= <-]; unfold int64_min, int64_max; lia|].
  destruct (Z.ltb_spec (2 ^ 63 - 1) v); [done|]. intros [= <-]. unfold int64_min, int64_max. lia.
Qed.
