(* ===== verification/GoFlag.v ===== *)
(** * The flag package

    FlagSet.Parse on a set of string, bool and int flags, with the continue-on-
    error handling every command of the repository uses: the flags' new values
    and the arguments that are left, or an error (whose text and the usage the
    package prints itself). *)

From S2P Require Import Prelude GoStd GoDuration.
From Stdlib Require Import Ascii.
#[local] Open Scope string_scope.

(** ** strconv.ParseInt in base 0 *)

Definition lower_byte (c : ascii) : N := N.lor (code c) 32.

Definition digit36 (c : ascii) : option Z :=
  let n := lower_byte c in
  match digit_of c with
  | Some d => Some d
  | None => if ((97 <=? n) && (n <=? 122))%N then Some (Z.of_N n - 87)%Z else None
  end.

(** The digits in a base, underscores skipped; [None]: not a number. *)
Fixpoint base_digits (base : Z) (l : bytes) (acc : Z) : option Z :=
  match l with
  | [] => Some acc
  | c :: l =>
      if (code c =? 95)%N then base_digits base l acc
      else match digit36 c with
           | Some d => if (d <? base)%Z then base_digits base l (base * acc + d)%Z else None
           | None => None
           end
  end.

(** A base prefix: the base, the digits, and whether the prefix is one letter. *)
Definition base_prefix (l : bytes) : Z * bytes * bool :=
  match l with
  | z :: rest =>
      if (code z =? 48)%N then
        match rest with
        | p :: ((_ :: _) as digits) =>
            if (lower_byte p =? 98)%N then (2%Z, digits, true)
            else if (lower_byte p =? 111)%N then (8%Z, digits, true)
            else if (lower_byte p =? 120)%N then (16%Z, digits, true)
            else (8%Z, rest, false)
        | _ => (8%Z, rest, false)
        end
      else (10%Z, l, false)
  | [] => (10%Z, [], false)
  end.

(** underscoreOK after the prefix: underscores only between digits. *)
Inductive previous := PStart | PDigit | PUnderscore | POther.
Fixpoint underscores (hex : bool) (i : previous) (l : bytes) : bool :=
  match l with
  | [] => match i with PUnderscore => false | _ => true end
  | c :: l =>
      let n := code c in
      if ((48 <=? n) && (n <=? 57))%N || (hex && ((97 <=? lower_byte c) && (lower_byte c <=? 102))%N)
      then underscores hex PDigit l
      else if (n =? 95)%N then match i with PDigit => underscores hex PUnderscore l | _ => false end
      else match i with PUnderscore => false | _ => underscores hex POther l end
  end.
Definition underscoreOK (l : bytes) : bool :=
  match l with
  | z :: p :: rest =>
      if ((code z =? 48) && ((lower_byte p =? 98) || (lower_byte p =? 111) || (lower_byte p =? 120)))%N
      then underscores (lower_byte p =? 120)%N PDigit rest
      else underscores false PStart l
  | _ => underscores false PStart l
  end.

Definition ParseIntBase0 (s : string) : option Z :=
  let text := str_bytes s in
  let '(neg, l) := match text with
                   | c :: l' => if Ascii.eqb c "-" then (true, l')
                                else if Ascii.eqb c "+" then (false, l') else (false, text)
                   | [] => (false, [])
                   end in
  match l with
  | [] => None
  | _ =>
      let '(base, digits, _) := base_prefix l in
      match base_digits base digits 0 with
      | None => None
      | Some v =>
          if existsb (λ c, (code c =? 95)%N) digits && negb (underscoreOK l) then None
          else let v := if neg then (- v)%Z else v in if in_int64 v then Some v else None
      end
  end.

Example ParseIntBase0_ex :
  map ParseIntBase0 ["12"; "-0x1F"; "010"; "1_000"; "1__0"; "0b2"; "0_7"; ""; "x"]
  = [Some 12%Z; Some (-31)%Z; Some 8%Z; Some 1000%Z; None; None; Some 7%Z; None; None].
Proof. vm_compute. reflexivity. Qed.

(** ** FlagSet *)

Inductive flag_value := FString (s : string) | FBool (b : bool) | FInt (z : Z).
Definition is_bool_flag (v : flag_value) : bool := match v with FBool _ => true | _ => false end.

(** Value.Set on a flag of the same kind. *)
Definition set_flag (old : flag_value) (text : string) : option flag_value :=
  match old with
  | FString _ => Some (FString text)
  | FBool _ => FBool <$> ParseBool text
  | FInt _ => FInt <$> ParseIntBase0 text
  end.

Notation flag_set := (list (string * flag_value)) (only parsing).

Fixpoint lookup_flag (name : string) (fs : list (string * flag_value)) : option flag_value :=
  match fs with
  | [] => None
  | (n, v) :: fs => if String.eqb n name then Some v else lookup_flag name fs
  end.
Definition put_flag (name : string) (v : flag_value) (fs : list (string * flag_value)) : flag_set :=
  map (λ f, if String.eqb f.1 name then (f.1, v) else f) fs.

(** The name and the value of "name=value"; the equals sign cannot come first. *)
Fixpoint cut_equals (l : bytes) : bytes * option bytes :=
  match l with
  | [] => ([], None)
  | c :: l => if Ascii.eqb c "=" then ([], Some l)
              else let '(n, v) := cut_equals l in (c :: n, v)
  end.

(** The name part of an argument that is a flag. *)
Inductive flag_word := NotAFlag | Terminator | BadSyntax | FlagWord (name : string) (value : option string).
Definition classify (arg : string) : flag_word :=
  match str_bytes arg with
  | d :: ((e :: rest) as after) =>
      if negb (Ascii.eqb d "-") then NotAFlag
      else
        let name := if Ascii.eqb e "-" then rest else after in
        if Ascii.eqb e "-" && (match rest with [] => true | _ => false end) then Terminator
        else match name with
             | [] => BadSyntax
             | c :: tail =>
                 if Ascii.eqb c "-" || Ascii.eqb c "=" then BadSyntax
                 else let '(n, v) := cut_equals tail in FlagWord (bytes_str (c :: n)) (bytes_str <$> v)
             end
  | _ => NotAFlag
  end.

(** Parse: every flag takes an argument off the list. *)
Fixpoint Parse (fs : list (string * flag_value)) (args : list string)
    : option (list (string * flag_value) * list string) :=
  match args with
  | [] => Some (fs, [])
  | arg :: rest =>
      match classify arg with
      | NotAFlag => Some (fs, args)
      | Terminator => Some (fs, rest)
      | BadSyntax => None
      | FlagWord name value =>
          match lookup_flag name fs with
          | None => None   (* not defined, or -help *)
          | Some old =>
              let set text rest :=
                match set_flag old text with Some v => Parse (put_flag name v fs) rest | None => None end in
              match value with
              | Some text => set text rest
              | None =>
                  if is_bool_flag old then set "true" rest
                  else match rest with
                       | text :: rest' =>
                           match set_flag old text with Some v => Parse (put_flag name v fs) rest' | None => None end
                       | [] => None
                       end
              end
          end
      end
  end.

Definition flag_string (name : string) (fs : list (string * flag_value)) : string :=
  match lookup_flag name fs with Some (FString s) => s | _ => "" end.
Definition flag_bool (name : string) (fs : list (string * flag_value)) : bool :=
  match lookup_flag name fs with Some (FBool b) => b | _ => false end.
Definition flag_int (name : string) (fs : list (string * flag_value)) : Z :=
  match lookup_flag name fs with Some (FInt z) => z | _ => 0%Z end.

Example Parse_ex :
  Parse [("project", FString ""); ("prompt", FString "x"); ("v", FBool false)]
    ["--project"; "p=1"; "-v"; "-prompt=a=b"; "rest"; "-v"]
  = Some ([("project", FString "p=1"); ("prompt", FString "a=b"); ("v", FBool true)], ["rest"; "-v"]).
Proof. vm_compute. reflexivity. Qed.

(** A flag keeps its kind, so that its pointer can be read. *)
Definition same_kind (v w : flag_value) : Prop :=
  match v, w with FString _, FString _ | FBool _, FBool _ | FInt _, FInt _ => True | _, _ => False end.

Lemma set_flag_kind old text v : set_flag old text = Some v → same_kind old v.
Proof.
  destruct old; simpl; [by intros [= <-]| |]; intros H; apply fmap_Some in H as (x&_&->); done.
Qed.

Lemma same_kind_trans u v w : same_kind u v → same_kind v w → same_kind u w.
Proof. by destruct u, v, w. Qed.
Lemma same_kind_refl v : same_kind v v.
Proof. by destruct v. Qed.

Lemma lookup_put name n v fs :
  lookup_flag n (put_flag name v fs)
  = if String.eqb n name then (λ _, v) <$> lookup_flag n fs else lookup_flag n fs.
Proof.
  induction fs as [|[k w] fs IH]; simpl; [by destruct (String.eqb n name)|].
  destruct (String.eqb_spec k name) as [->|Hk]; simpl.
  - destruct (String.eqb_spec name n) as [->|Hn]; [by rewrite String.eqb_refl|exact IH].
  - destruct (String.eqb_spec k n) as [->|Hn]; [|exact IH]. by destruct (String.eqb_spec n name).
Qed.

(** Parse changes values only, each to one of its kind. *)
Definition flags_refine (fs fs' : list (string * flag_value)) : Prop :=
  ∀ n, match lookup_flag n fs, lookup_flag n fs' with
       | Some v, Some w => same_kind v w
       | None, None => True
       | _, _ => False
       end.

Lemma put_refines name old v fs :
  lookup_flag name fs = Some old → same_kind old v → flags_refine fs (put_flag name v fs).
Proof.
  intros Ho Hk n. rewrite lookup_put. destruct (String.eqb_spec n name) as [->|].
  - by rewrite Ho.
  - destruct (lookup_flag n fs); [apply same_kind_refl|done].
Qed.

Lemma flags_refine_trans f g h : flags_refine f g → flags_refine g h → flags_refine f h.
Proof.
  intros H1 H2 n. specialize (H1 n); specialize (H2 n).
  destruct (lookup_flag n f), (lookup_flag n g), (lookup_flag n h); try done. by eapply same_kind_trans.
Qed.

Lemma flags_refine_refl fs : flags_refine fs fs.
Proof. intros n. destruct (lookup_flag n fs); [apply same_kind_refl|done]. Qed.

Lemma Parse_refines fs args fs' rest : Parse fs args = Some (fs', rest) → flags_refine fs fs'.
Proof.
  remember (length args) as len eqn:Hlen. revert fs args Hlen.
  induction (lt_wf len) as [len _ IH]. intros fs args -> H.
  destruct args as [|arg tl]; simpl in H; [simplify_eq; apply flags_refine_refl|].
  destruct (classify arg) as [| | |name value]; try (simplify_eq; by apply flags_refine_refl).
  destruct (lookup_flag name fs) as [old|] eqn:Eo; [|done].
  assert (∀ text tl', match set_flag old text with Some v => Parse (put_flag name v fs) tl' | None => None end
            = Some (fs', rest) → (length tl' < S (length tl))%nat → flags_refine fs fs') as Hset.
  { intros text tl' H' Hlt. destruct (set_flag old text) as [v|] eqn:Es; [|done].
    apply set_flag_kind in Es. eapply flags_refine_trans; [by eapply put_refines|].
    by eapply (IH (length tl')). }
  destruct value as [text|]; [eapply Hset; [exact H|lia]|].
  destruct (is_bool_flag old); [eapply Hset; [exact H|lia]|].
  destruct tl as [|text tl']; [done|]. eapply Hset; [exact H|simpl; lia].
Qed.
