(* ===== verification/GoNet.v ===== *)
(** * package net, as the configuration uses it

    net.SplitHostPort, net.ParseIP and IP.IsLoopback.  A 16-byte address is the
    list of its bytes. *)

From S2P Require Import Prelude GoStd.
From Stdlib Require Import Ascii.
#[local] Open Scope string_scope.
#[local] Open Scope Z_scope.

(** ** Bytes *)

Definition is_char (c : string) (a : ascii) : bool := bool_decide (str_bytes c = [a]).

(** bytealg.IndexByteString and LastIndexByteString *)
Fixpoint index_byte (c : string) (l : bytes) : option nat :=
  match l with
  | [] => None
  | a :: l => if is_char c a then Some O else S <$> index_byte c l
  end.
Fixpoint last_index_byte (c : string) (l : bytes) : option nat :=
  match l with
  | [] => None
  | a :: l => match last_index_byte c l with
              | Some i => Some (S i)
              | None => if is_char c a then Some O else None
              end
  end.
Definition has_byte (c : string) (l : bytes) : bool := existsb (is_char c) l.

(** ** net.SplitHostPort *)

Definition split_host_port (l : bytes) : option (bytes * bytes) :=
  match last_index_byte ":" l with
  | None => None
  | Some i =>
      let port := drop (S i) l in
      match l with
      | a :: rest =>
          if is_char "[" a then
            match index_byte "]" l with
            | None => None
            | Some end_ =>
                if (S end_ =? i)%nat then
                  (** no other bracket after the first '[', nor after the ']' *)
                  if has_byte "[" rest || has_byte "]" (drop (S end_) l) then None
                  else Some (take (pred end_) rest, port)
                else None
            end
          else
            let host := take i l in
            if has_byte ":" host then None
            else if has_byte "[" l || has_byte "]" l then None else Some (host, port)
      | [] => None
      end
  end.
Definition SplitHostPort (hostport : string) : option (string * string) :=
  (λ p, (bytes_str p.1, bytes_str p.2)) <$> split_host_port (str_bytes hostport).

(** ** netip.ParseAddr *)

(** parseIPv4Fields: [val] and [digLen] of the octet under way, the octets
    before it, and whether it follows a dot or the beginning. *)
Fixpoint ipv4_fields (l : bytes) (val : Z) (digLen : nat) (octets : list Z) : option (list Z) :=
  match l with
  | [] => if (length octets <? 3)%nat then None else Some (octets ++ [val])%list
  | c :: l =>
      match digit_of c with
      | Some d =>
          if ((digLen =? 1)%nat && (val =? 0))%bool then None
          else let val := 10 * val + d in
               if 255 <? val then None else ipv4_fields l val (S digLen) octets
      | None =>
          if is_char "." c then
            if ((digLen =? 0)%nat || (length l =? 0)%nat)%bool then None
            else if (length octets =? 3)%nat then None
            else ipv4_fields l 0 0 (octets ++ [val])%list
          else None
      end
  end.

(** An IPv4 address, mapped into IPv6 as As16 gives it. *)
Definition v4_prefix : list Z := replicate 10 0 ++ [255; 255].
Definition parse_ipv4 (l : bytes) : option (list Z) := app v4_prefix <$> ipv4_fields l 0 0 [].

Definition hex_of (c : ascii) : option Z :=
  let n := Z.of_N (code c) in
  if ((48 <=? n) && (n <=? 57))%bool then Some (n - 48)
  else if ((97 <=? n) && (n <=? 102))%bool then Some (n - 87)
  else if ((65 <=? n) && (n <=? 70))%bool then Some (n - 55)
  else None.

(** The hexadecimal digits at the start, at most four: their value, their
    number and the rest; [None] when there are more. *)
Fixpoint hex_group (l : bytes) (acc : Z) (off : nat) : option (Z * nat * bytes) :=
  match l with
  | c :: l' =>
      match hex_of c with
      | Some d => if (3 <? off)%nat then None else hex_group l' (16 * acc + d) (S off)
      | None => Some (acc, off, l)
      end
  | [] => Some (acc, off, [])
  end.

(** The loop of parseIPv6, once per group: the bytes so far, where the ellipsis
    is, what is left to read.  At most eight groups fit. *)
Fixpoint ipv6_groups (fuel : nat) (l : bytes) (ip : list Z) (ellipsis : option nat)
    : option (list Z * option nat) :=
  match fuel with
  | O => match l with [] => Some (ip, ellipsis) | _ => None end
  | S fuel =>
      match hex_group l 0 0 with
      | None => None
      | Some (_, O, _) => None
      | Some (acc, _, rest) =>
          match rest with
          | [] => Some (ip ++ [acc / 256; acc mod 256], ellipsis)%list
          | c :: rest' =>
              if is_char "." c then
                if (match ellipsis with None => negb (length ip =? 12)%nat | Some _ => false end)
                   || (16 <? length ip + 4)%nat
                then None
                else (λ octets, (ip ++ octets, ellipsis)%list) <$> ipv4_fields l 0 0 []
              else if negb (is_char ":" c) then None
              else
                let ip := (ip ++ [acc / 256; acc mod 256])%list in
                match rest' with
                | [] => None
                | d :: rest'' =>
                    if is_char ":" d then
                      match ellipsis with
                      | Some _ => None
                      | None => match rest'' with
                                | [] => Some (ip, Some (length ip))
                                | _ => ipv6_groups fuel rest'' ip (Some (length ip))
                                end
                      end
                    else ipv6_groups fuel rest' ip ellipsis
                end
          end
      end
  end.

(** The address, with zeros where the ellipsis is. *)
Definition expand (ip : list Z) (ellipsis : option nat) : option (list Z) :=
  if (length ip <? 16)%nat then
    match ellipsis with
    | None => None
    | Some e => Some (take e ip ++ replicate (16 - length ip) 0 ++ drop e ip)%list
    end
  else match ellipsis with Some _ => None | None => Some ip end.

Definition parse_ipv6_groups (l : bytes) : option (list Z) :=
  let groups l ellipsis := match ipv6_groups 8 l [] ellipsis with
                           | Some (ip, e) => expand ip e
                           | None => None
                           end in
  match l with
  | a :: b :: rest =>
      if is_char ":" a && is_char ":" b
      then match rest with [] => Some (replicate 16 0) | _ => groups rest (Some O) end
      else groups l None
  | _ => groups l None
  end.

(** net.ParseIP refuses an address with a zone. *)
Definition parse_ip (l : bytes) : option (list Z) :=
  match list_find (λ c, (is_char "." c || is_char ":" c || is_char "%" c) = true) l with
  | None => None
  | Some (_, c) =>
      if is_char "." c then parse_ipv4 l
      else if is_char ":" c then if has_byte "%" l then None else parse_ipv6_groups l
      else None
  end.
Definition ParseIP (s : string) : option (list Z) := parse_ip (str_bytes s).

(** IP.To4 and IP.IsLoopback *)
Definition To4 (ip : list Z) : option (list Z) :=
  if bool_decide (take 12 ip = v4_prefix) then Some (drop 12 ip) else None.
Definition IsLoopback (ip : list Z) : bool :=
  match To4 ip with
  | Some (a :: _) => (a =? 127)
  | _ => bool_decide (ip = replicate 15 0 ++ [1])%list
  end.
