(* ===== verification/GoHTTP.v ===== *)
(** * net/http as the handlers see it

    A request after parsing, a response before encoding, and the routing of
    http.ServeMux for method patterns with one-segment wildcards.  The body of a
    request is the first JSON value of its first 64 KiB ([None] when it is
    malformed or too long); the body of a response is the Go value that is
    encoded, of type [D], or an error object.  The path is a list of decoded
    segments: a segment may contain a slash that was escaped. *)

From S2P Require Import Prelude GoStd GoTime Json.
From Stdlib Require Import Ascii.
#[local] Open Scope string_scope.

Record Request := mkRequest {
  rq_Method : string;
  rq_Segments : list string;
  rq_Header : string → string;          (** Header.Get: the first value, or "" *)
  rq_PathValue : string → string;
  rq_Query : string → string;           (** URL.Query().Get *)
  rq_Cookie : string → option string;
  rq_Body : option json;
}.

(** URL.Path *)
Definition Path (rq : Request) : string := foldr (λ s p, "/" +:+ s +:+ p) "" (rq_Segments rq).

(** http.SetCookie with HttpOnly and SameSite=Strict, as the handlers set them. *)
Record Cookie := mkCookie {
  ck_Name : string; ck_Value : string; ck_Path : string; ck_Expires : Z; ck_MaxAge : Z;
  ck_HttpOnly : bool; ck_Secure : bool; ck_SameSiteStrict : bool }.

Inductive Body (D : Type) :=
| NoBody
| Data (d : D)                                   (** {"success":true,"data":d,"meta":...} *)
| ErrorBody (code : string) (retryable : bool)   (** {"success":false,"error":...,"meta":...} *)
| Plain (d : D)                                  (** [d] alone *)
| Aborted   (** the handler panicked: the connection is closed without a response *)
| Pending.  (** the handler is still waiting *)
#[global] Arguments NoBody {D}.
#[global] Arguments Data {D} d.
#[global] Arguments ErrorBody {D} code retryable.
#[global] Arguments Plain {D} d.
#[global] Arguments Aborted {D}.
#[global] Arguments Pending {D}.

Record Response (D : Type) := mkResponse {
  rs_Status : Z;
  rs_Headers : list (string * string);
  rs_Cookie : option Cookie;
  rs_Body : Body D;
}.
#[global] Arguments mkResponse {D} rs_Status rs_Headers rs_Cookie rs_Body.
#[global] Arguments rs_Status {D} r.
#[global] Arguments rs_Headers {D} r.
#[global] Arguments rs_Cookie {D} r.
#[global] Arguments rs_Body {D} r.

Definition StatusOK := 200%Z.
Definition StatusCreated := 201%Z.
Definition StatusAccepted := 202%Z.
Definition StatusNoContent := 204%Z.
Definition StatusBadRequest := 400%Z.
Definition StatusUnauthorized := 401%Z.
Definition StatusForbidden := 403%Z.
Definition StatusNotFound := 404%Z.
Definition StatusMethodNotAllowed := 405%Z.
Definition StatusRequestTimeout := 408%Z.
Definition StatusConflict := 409%Z.
Definition StatusRequestEntityTooLarge := 413%Z.
Definition StatusUnsupportedMediaType := 415%Z.
Definition StatusTooManyRequests := 429%Z.
Definition StatusInternalServerError := 500%Z.
Definition StatusBadGateway := 502%Z.
Definition StatusServiceUnavailable := 503%Z.
Definition StatusGatewayTimeout := 504%Z.

Definition json_headers : list (string * string) :=
  [("Content-Type", "application/json; charset=utf-8"); ("Cache-Control", "no-store")].

(** A header set before the handler behind writes its response. *)
Definition with_headers {D} (hs : list (string * string)) (r : Response D) : Response D :=
  mkResponse (rs_Status r) (hs ++ rs_Headers r) (rs_Cookie r) (rs_Body r).
Definition with_cookie {D} (c : Cookie) (r : Response D) : Response D :=
  mkResponse (rs_Status r) (rs_Headers r) (Some c) (rs_Body r).

(** The same response carrying data of a wider type. *)
Definition map_body {D D'} (f : D → D') (b : Body D) : Body D' :=
  match b with
  | NoBody => NoBody | Data d => Data (f d) | ErrorBody c r => ErrorBody c r
  | Plain d => Plain (f d) | Aborted => Aborted | Pending => Pending
  end.
Definition map_response {D D'} (f : D → D') (r : Response D) : Response D' :=
  mkResponse (rs_Status r) (rs_Headers r) (rs_Cookie r) (map_body f (rs_Body r)).

(** json.NewDecoder(http.MaxBytesReader(...)) with DisallowUnknownFields:
    the decoded value, unless the body or its type is wrong. *)
Definition decode_body {A} (zero : A) (d : Dec A) (rq : Request) : option A :=
  match rq_Body rq with
  | Some j => match d j zero with (a, true) => Some a | (_, false) => None end
  | None => None
  end.

(** ** http.ServeMux *)

Inductive Segment := Lit (s : string) | Wild (name : string).

Record Route (H : Type) := mkRoute { rt_Method : string; rt_Pattern : list Segment; rt_Handler : H }.
#[global] Arguments mkRoute {H} rt_Method rt_Pattern rt_Handler.
#[global] Arguments rt_Method {H} r.
#[global] Arguments rt_Pattern {H} r.
#[global] Arguments rt_Handler {H} r.

(** The values of the wildcards; a wildcard matches one segment, not empty. *)
Fixpoint match_path (pattern : list Segment) (path : list string) : option (list (string * string)) :=
  match pattern, path with
  | [], [] => Some []
  | Lit s :: pattern, t :: path => if String.eqb s t then match_path pattern path else None
  | Wild n :: pattern, t :: path =>
      if String.eqb t "" then None else ((n, t) ::.) <$> match_path pattern path
  | _, _ => None
  end.

(** A pattern without a method matches all; a GET pattern also matches HEAD. *)
Definition match_method (pattern method : string) : bool :=
  String.eqb pattern "" || String.eqb pattern method
  || (String.eqb pattern "GET" && String.eqb method "HEAD").

Inductive routed (H : Type) := Routed (h : H) (values : list (string * string)) | NoMethod | NoRoute.
#[global] Arguments Routed {H} h values.
#[global] Arguments NoMethod {H}.
#[global] Arguments NoRoute {H}.

(** No two patterns of the server match the same request, so that the first
    match is the one. *)
Fixpoint route {H} (routes : list (Route H)) (rq : Request) : routed H :=
  match routes with
  | [] => NoRoute
  | r :: routes =>
      match match_path (rt_Pattern r) (rq_Segments rq) with
      | Some values =>
          if match_method (rt_Method r) (rq_Method rq) then Routed (rt_Handler r) values
          else match route routes rq with NoRoute => NoMethod | x => x end
      | None => route routes rq
      end
  end.

(** Request.PathValue after routing *)
Definition path_value (values : list (string * string)) (name : string) : string :=
  match list_find (λ kv, kv.1 = name) values with Some (_, (_, v)) => v | None => "" end.

Definition with_values (values : list (string * string)) (rq : Request) : Request :=
  mkRequest (rq_Method rq) (rq_Segments rq) (rq_Header rq) (path_value values) (rq_Query rq)
    (rq_Cookie rq) (rq_Body rq).

(** The responses of ServeMux itself. *)
Definition mux_error {D} (status : Z) : Response D := mkResponse status [] None NoBody.

Definition serve {H D S} (routes : list (Route H)) (run : H → Request → St S (Response D)) (rq : Request)
    : St S (Response D) :=
  match route routes rq with
  | Routed h values => run h (with_values values rq)
  | NoMethod => ret (mux_error StatusMethodNotAllowed)
  | NoRoute => ret (mux_error StatusNotFound)
  end.

Lemma route_Routed {H} (routes : list (Route H)) rq h values :
  route routes rq = Routed h values →
  ∃ r, r ∈ routes ∧ rt_Handler r = h ∧ match_path (rt_Pattern r) (rq_Segments rq) = Some values
    ∧ match_method (rt_Method r) (rq_Method rq) = true.
Proof.
  induction routes as [|r routes IH]; simpl; [done|].
  destruct (match_path (rt_Pattern r) (rq_Segments rq)) as [vs|] eqn:Em.
  - destruct (match_method _ _) eqn:Ea; intros H0.
    + simplify_eq. exists r. split; [by left|done].
    + destruct (route routes rq) eqn:Er; simplify_eq. destruct (IH eq_refl) as (r'&?&?). exists r'.
      split; [by right|done].
  - intros H0. destruct (IH H0) as (r'&?&?). exists r'. split; [by right|done].
Qed.

(** The segment a pattern's last literal fixes. *)
Definition last_lit (pattern : list Segment) : option string :=
  match last pattern with Some (Lit w) => Some w | _ => None end.

Lemma match_path_cons g pattern u path values :
  match_path (g :: pattern) (u :: path) = Some values →
  (∃ vs, match_path pattern path = Some vs) ∧ (∀ w, g = Lit w → u = w).
Proof.
  destruct g as [t|n]; simpl.
  - destruct (String.eqb_spec t u) as [->|]; [|done]. intros H. split; [by eexists|congruence].
  - destruct (String.eqb u ""); [done|]. destruct (match_path pattern path); [|done].
    intros _. split; [by eexists|done].
Qed.

Lemma match_path_nil g pattern values : match_path (g :: pattern) [] ≠ Some values.
Proof. by destruct g. Qed.

Lemma match_path_last pattern path values w :
  match_path pattern path = Some values → last_lit pattern = Some w → last path = Some w.
Proof.
  revert path values. induction pattern as [|g pattern IH]; intros path values H Hw; [done|].
  destruct path as [|u path]; [by apply match_path_nil in H|].
  apply match_path_cons in H as [[vs Hvs] Hu].
  destruct pattern as [|g' pattern].
  - destruct path; [|done]. unfold last_lit in Hw. simpl in Hw. destruct g as [t|n]; [|done].
    simplify_eq. by rewrite (Hu w eq_refl).
  - destruct path as [|u' path]; [by apply match_path_nil in Hvs|]. rewrite last_cons_cons.
    eapply IH; [exact Hvs|]. unfold last_lit in *. by rewrite last_cons_cons in Hw.
Qed.

(** ** The last segment of a path *)

Definition no_slash (s : string) : Prop := Forall (λ c, c ≠ "/"%char) (str_bytes s).

Lemma path_snoc rq segments s :
  rq_Segments rq = (segments ++ [s])%list →
  ∃ p, str_bytes (Path rq) = (p ++ "/"%char :: str_bytes s)%list.
Proof.
  unfold Path. intros ->. induction segments as [|t l [p IH]]; simpl.
  - exists []. change ("/" +:+ s +:+ "") with ("/" +:+ (s +:+ "")). rewrite !str_bytes_app. simpl.
    by rewrite app_nil_r.
  - exists (("/"%char :: str_bytes t) ++ p)%list. rewrite !str_bytes_app, IH. simpl. by rewrite <- app_assoc.
Qed.

Lemma bytes_prefix_spec p l : bytes_prefix p l = true ↔ ∃ k, l = (p ++ k)%list.
Proof.
  revert l. induction p as [|c p IH]; intros l; simpl; [naive_solver|].
  destruct l as [|d l]; [split; [done|intros (k&Hk); done]|].
  rewrite andb_true_iff, IH. split.
  - intros [->%Ascii.eqb_eq (k&->)]. by exists k.
  - intros (k&Hk). injection Hk as -> ->. rewrite Ascii.eqb_refl. eauto.
Qed.

(** Up to the first slash, the reversed texts agree. *)
Lemma no_slash_prefix (u v p k : bytes) :
  Forall (λ c, c ≠ "/"%char) u → Forall (λ c, c ≠ "/"%char) v →
  (u ++ "/"%char :: p)%list = (v ++ "/"%char :: k)%list → u = v.
Proof.
  intros Hu. revert v. induction Hu as [|c u Hc Hu IH]; intros v Hv H.
  - destruct Hv as [|d v Hd Hv]; [done|]. simpl in H. injection H as <- _. done.
  - destruct Hv as [|d v Hd Hv]; simpl in H; [injection H as -> _; done|].
    injection H as -> H. f_equal. by apply IH.
Qed.

(** HasSuffix of a slash and a word tests the last segment, if that has no
    slash of its own. *)
Lemma HasSuffix_last rq segments s word :
  rq_Segments rq = (segments ++ [s])%list → no_slash s → no_slash word →
  HasSuffix (Path rq) ("/" +:+ word) = bool_decide (s = word).
Proof.
  intros Hs Hns Hnw. destruct (path_snoc rq segments s Hs) as [p Hp].
  unfold HasSuffix. rewrite Hp, str_bytes_app. change (str_bytes "/") with ["/"%char].
  rewrite !rev_app_distr. cbn [rev app].
  assert (Forall (λ c, c ≠ "/"%char) (rev (str_bytes s))) as Hrs by by apply Forall_rev.
  assert (Forall (λ c, c ≠ "/"%char) (rev (str_bytes word))) as Hrw by by apply Forall_rev.
  destruct (bytes_prefix _ _) eqn:E; symmetry; [apply bool_decide_eq_true|apply bool_decide_eq_false].
  - apply bytes_prefix_spec in E as (k&Hk). rewrite <- !app_assoc in Hk. simpl in Hk.
    apply no_slash_prefix in Hk; [|done..]. apply str_bytes_inj.
    by rewrite <- (rev_involutive (str_bytes s)), Hk, rev_involutive.
  - intros ->. apply not_true_iff_false in E. apply E, bytes_prefix_spec.
    exists (rev p). by rewrite <- !app_assoc.
Qed.
