(* ===== verification/GoClient.v ===== *)
(** * net/http: Client.Do and the redirects it follows

    The command-line tools call it with clients that keep the default
    CheckRedirect.  What a request is answered is a parameter; the Location of
    an answer is given as the URL it names, resolved against the request's. *)

From S2P Require Import Prelude.
#[local] Open Scope string_scope.

Inductive Location := NoLocation | BadLocation | At (url : string).

(** redirectBehavior for requests whose body can be sent again: what is asked
    next when the status is a redirect's.  A body that was dropped stays
    dropped. *)
Definition redirectBehavior {P} (method : string) (payload : option P) (status : Z) : option (string * option P) :=
  if existsb (Z.eqb status) [301; 302; 303]%Z
  then Some (if String.eqb method "GET" || String.eqb method "HEAD" then method else "GET", None)
  else if existsb (Z.eqb status) [307; 308]%Z then Some (method, payload)
  else None.

Section Do.
Context {W P R : Type} (send : string → string → option P → St W (option (Z * Location * R))).

(** Client.do; [send] is Client.send, [None] its error.  [more]: the redirects
    defaultCheckRedirect still allows. *)
Fixpoint follow (more : nat) (method url : string) (payload : option P) : St W (option (Z * R)) :=
  let! sent := send method url payload in
  match sent with
  | None => ret None
  | Some (status, location, response) =>
      match redirectBehavior method payload status with
      | None => ret (Some (status, response))
      | Some (method, payload) =>
          match location with
          | NoLocation => ret (Some (status, response))
          | BadLocation => ret None
          | At url => match more with
                      | O => ret None
                      | S more => follow more method url payload
                      end
          end
      end
  end.

(** Client.Do: ten requests at most. *)
Definition Do : string → string → option P → St W (option (Z * R)) := follow 9.
End Do.

(** ** What was asked

    For a [send] that logs its requests: they form a chain, each the one the
    answer to the one before asks for. *)
Section Chain.
Context {P R : Type} (answer : string → string → option P → option (Z * Location * R)).

Definition asked := (string * string * option P)%type.
(** [b] is where the answer to [a] sends the client. *)
Definition redirects (a b : asked) : Prop :=
  let '(method, url, payload) := a in
  ∃ status url' response, answer method url payload = Some (status, At url', response)
    ∧ ∃ method' payload', redirectBehavior method payload status = Some (method', payload') ∧ b = (method', url', payload').
Definition chain (l : list asked) : Prop := ∀ i a b, l !! i = Some a → l !! S i = Some b → redirects a b.

Lemma chain_one a : chain [a].
Proof. by intros [|i] x y. Qed.
Lemma chain_cons a b l : redirects a b → chain (b :: l) → chain (a :: b :: l).
Proof. intros H Hl [|i] x y; cbn; [by intros [= <-] [= <-]|apply Hl]. Qed.

(** Without a redirect there is one request. *)
Lemma chain_alone l : (∀ a b, hd_error l = Some a → ¬ redirects a b) → chain l → (length l ≤ 1)%nat.
Proof.
  destruct l as [|a [|b l]]; cbn; [lia..|]. intros Hno Hc. destruct (Hno a b eq_refl). by apply (Hc 0%nat).
Qed.

(** What is sent again is what was sent first, or nothing. *)
Lemma chain_payload m u p l : chain ((m, u, p) :: l) → Forall (λ a : asked, a.2 = p ∨ a.2 = None) ((m, u, p) :: l).
Proof.
  intros Hc. apply Forall_cons. split; [by left|].
  apply Forall_lookup. intros i. induction i as [|i IH]; intros b Hb.
  - destruct (Hc 0%nat _ _ eq_refl Hb) as (s&u'&r&_&m'&p'&Hr&->). cbn. unfold redirectBehavior in Hr.
    repeat case_match; simplify_eq; auto.
  - destruct (l !! i) as [[[m1 u1] p1]|] eqn:Ea.
    2:{ apply lookup_ge_None in Ea. assert (is_Some (l !! S i)) as Hi%lookup_lt_is_Some by eauto. lia. }
    destruct (Hc (S i) _ _ Ea Hb) as (s&u'&r&_&m'&p'&Hr&->). specialize (IH _ Ea). cbn in *.
    unfold redirectBehavior in Hr. repeat case_match; simplify_eq; auto.
Qed.
End Chain.

(** Requests that are logged as they are sent. *)
Section Logged.
Context {W P R E : Type} (send : string → string → option P → St W (option (Z * Location * R)))
        (log : W → list E) (requested : string → string → option P → E)
        (answer : string → string → option P → option (Z * Location * R)).
(** [quiet]: what the state keeps when only the log grows. *)
Context (quiet : W → W → Prop) `{!PreOrder quiet}.
Hypothesis send_logs : ∀ method url payload s a s',
  send method url payload s = (a, s') →
  quiet s s' ∧ ((s' = s ∧ a = None)
                ∨ (log s' = (log s ++ [requested method url payload])%list ∧ a = answer method url payload)).

Lemma follow_chain more method url payload s r s' :
  follow send more method url payload s = (r, s') →
  quiet s s' ∧ ∃ l, chain answer l ∧ (length l ≤ more + 1)%nat
    ∧ log s' = (log s ++ map (λ '(m, u, p), requested m u p) l)%list
    ∧ (l = [] ∧ r = None ∨ hd_error l = Some (method, url, payload))
    ∧ ∀ status response, r = Some (status, response) →
        ∃ m u p loc, last l = Some (m, u, p) ∧ answer m u p = Some (status, loc, response).
Proof.
  revert method url payload s r s'. induction more as [|more IH]; intros method url payload s r s'; cbn [follow bind st_monad];
    destruct (send method url payload s) as [a s1] eqn:Es; apply send_logs in Es as [Hq [[-> ->]|[Hl ->]]].
  1,3: intros [= <- <-]; split; [done|]; exists []; cbn; rewrite app_nil_r; split_and!; [by intros i ?|lia|done|by left|done].
  all: destruct (answer method url payload) as [[[status location] response]|] eqn:Ea;
    [|intros [= <- <-]; split; [done|]; exists [(method, url, payload)]; cbn;
      split_and!; [apply chain_one|lia|done|by right|done]].
  all: destruct (redirectBehavior method payload status) as [[m' p']|] eqn:Eb;
    [destruct location as [| |url']|]; try (intros [= <- <-]; split; [done|]; exists [(method, url, payload)]; cbn;
      split_and!; [apply chain_one|lia|done|by right|]; intros ?? [= <- <-]; by eauto 10).
  all: try (intros [= <- <-]; split; [done|]; exists [(method, url, payload)]; cbn;
      split_and!; [apply chain_one|lia|done|by right|done]).
  intros (Hq'&l&Hc&Hn&Hl'&Hh&Hr)%IH. split; [by etrans|].
  exists ((method, url, payload) :: l). cbn [map length hd_error]. split_and!.
  - destruct Hh as [[-> _]|Hh]; [apply chain_one|]. destruct l as [|b l]; [done|]. injection Hh as ->.
    apply chain_cons; [|done]. cbn. eauto 10.
  - lia.
  - rewrite Hl', Hl, <- app_assoc. done.
  - by right.
  - intros st resp Hres. destruct (Hr st resp Hres) as (m&u&p&loc&Hlast&Hans). exists m, u, p, loc. split; [|done].
    destruct l; [done|]. by rewrite last_cons_cons.
Qed.
End Logged.
