(* ===== verification/Protocol.v ===== *)
(** * internal/protocol/message.go

    The v2 envelope, the payloads the relay itself reads or writes, the
    direction whitelist, and the validation of the envelope.  Payload decoding
    is [PayloadAs] at the payload's decoder. *)

From S2P Require Import Prelude GoStd GoTime Json.
From Stdlib Require Import Ascii.
#[local] Open Scope string_scope.

Definition SpecVersion := "2.0".

(** ** Message types *)

Definition TypeAgentHello := "agent.hello".
Definition TypeAgentStatus := "agent.status".
Definition TypeAgentCapabilities := "agent.capabilities".
Definition TypeExecutionProfileList := "execution.profile.list".
Definition TypeExecutionProfileSnapshot := "execution.profile.snapshot".
Definition TypeProjectList := "project.list".
Definition TypeProjectSnapshot := "project.snapshot".
Definition TypeThreadList := "thread.list".
Definition TypeThreadSnapshot := "thread.snapshot".
Definition TypeThreadRead := "thread.read".
Definition TypeThreadDetail := "thread.detail".
Definition TypeSourceRead := "source.read".
Definition TypeSourceSnapshot := "source.snapshot".
Definition TypeSourceReadFailed := "source.read.failed".
Definition TypeTurnStart := "turn.start".
Definition TypeTurnStarted := "turn.started".
Definition TypeTurnOutput := "turn.output".
Definition TypeTurnItemStarted := "turn.item.started".
Definition TypeTurnItemDelta := "turn.item.delta".
Definition TypeTurnItemDone := "turn.item.completed".
Definition TypeTurnSnapshot := "turn.snapshot".
Definition TypeTurnInterrupt := "turn.interrupt".
Definition TypeTurnInterrupted := "turn.interrupted".
Definition TypeTurnCompleted := "turn.completed".
Definition TypeTurnFailed := "turn.failed".
Definition TypeTurnRejected := "turn.rejected".
Definition TypeTurnAcknowledged := "turn.acknowledged".
Definition TypeRunAccepted := "run.accepted".
Definition TypeRuntimeReceivedAck := "runtime.received_ack".
Definition TypeRuntimeDurableAck := "runtime.durable_ack".
Definition TypeBootstrapStart := "bootstrap.start".
Definition TypeBootstrapBatch := "bootstrap.batch".
Definition TypeBootstrapDurableAck := "bootstrap.durable_ack".

Definition RoleApp := "app".
Definition RoleAgent := "agent".

(** ** The envelope *)

Record Sender := mkSender { Kind : string; SenderID : string }.

Record Message := mkMessage {
  m_SpecVersion : string;
  m_MessageID : string;
  m_Type : string;
  m_OccurredAt : Z;
  m_TraceID : string;
  m_Sender : Sender;
  m_Payload : RawMessage;
  m_AgentSequence : Z;
}.

Definition zero_message : Message :=
  mkMessage "" "" "" zero_time "" (mkSender "" "") RawNil 0.

Definition with_sender (m : Message) (s : Sender) : Message :=
  mkMessage (m_SpecVersion m) (m_MessageID m) (m_Type m) (m_OccurredAt m) (m_TraceID m) s
    (m_Payload m) (m_AgentSequence m).

Inductive invalid :=
| UnsupportedSpecVersion
| MessageIDRequired
| TypeRequired
| OccurredAtRequired
| TraceIDRequired
| SenderRequired
| PayloadRequired
| DecodeMessage.

(** Message.Validate: the first failing condition, in this order. *)
Definition Validate (m : Message) : result invalid unit :=
  if negb (String.eqb (m_SpecVersion m) SpecVersion) then Err UnsupportedSpecVersion
  else if String.eqb (m_MessageID m) "" then Err MessageIDRequired
  else if String.eqb (m_Type m) "" then Err TypeRequired
  else if IsZero (m_OccurredAt m) then Err OccurredAtRequired
  else if String.eqb (m_TraceID m) "" then Err TraceIDRequired
  else if String.eqb (Kind (m_Sender m)) "" || String.eqb (SenderID (m_Sender m)) ""
       then Err SenderRequired
  else if raw_empty (m_Payload m) then Err PayloadRequired
  else Ok tt.

Definition dec_Sender : Dec Sender :=
  dec_struct ["kind"; "id"] (λ get s,
    let! k := get _ "kind" dec_string (Kind s) in
    let! i := get _ "id" dec_string (SenderID s) in
    ret (mkSender k i)).

Definition dec_Message : Dec Message :=
  dec_struct ["spec_version"; "message_id"; "type"; "occurred_at"; "trace_id"; "sender";
              "payload"; "agent_sequence"] (λ get m,
    let! v := get _ "spec_version" dec_string (m_SpecVersion m) in
    let! i := get _ "message_id" dec_string (m_MessageID m) in
    let! t := get _ "type" dec_string (m_Type m) in
    let! o := get _ "occurred_at" dec_time (m_OccurredAt m) in
    let! tr := get _ "trace_id" dec_string (m_TraceID m) in
    let! s := get _ "sender" dec_Sender (m_Sender m) in
    let! p := get _ "payload" dec_raw (m_Payload m) in
    let! q := get _ "agent_sequence" dec_int64 (m_AgentSequence m) in
    ret (mkMessage v i t o tr s p q)).

(** Decode, on the value of the frame's text ([None] when it is not JSON). *)
Definition Decode (frame : option json) : result invalid Message :=
  match frame with
  | None => Err DecodeMessage
  | Some j =>
      match dec_Message j zero_message with
      | (m, true) => let! _ := Validate m in Ok m
      | (_, false) => Err DecodeMessage
      end
  end.

(** json.Marshal of a message whose OccurredAt has that zone offset. *)
Definition json_Sender (s : Sender) : json := JObj [("kind", JStr (Kind s)); ("id", JStr (SenderID s))].
Definition json_Message (zone : Z) (m : Message) : option json :=
  (λ occurred,
     JObj (req "spec_version" (JStr (m_SpecVersion m)) ++ req "message_id" (JStr (m_MessageID m))
           ++ req "type" (JStr (m_Type m)) ++ req "occurred_at" (JStr occurred)
           ++ req "trace_id" (JStr (m_TraceID m)) ++ req "sender" (json_Sender (m_Sender m))
           ++ req "payload" (raw_json (m_Payload m)) ++ opt_int "agent_sequence" (m_AgentSequence m))%list)
  <$> MarshalTime zone (m_OccurredAt m).

(** PayloadAs: the payload, and whether it decoded without an error. *)
Definition PayloadAs {T} (zero : T) (d : Dec T) (m : Message) : T * bool :=
  Unmarshal zero d (m_Payload m).

(** ** Identifiers *)

(** Set the version and variant bits of 16 random bytes. *)
Definition id_bytes (random : list Z) : list Z :=
  let random := alter (λ b, Z.lor (Z.land b 0x0f) 0x40) 6 random in
  alter (λ b, Z.lor (Z.land b 0x3f) 0x80) 8 random.

(** NewID, from the 16 bytes read from crypto/rand. *)
Definition NewID (random : list Z) : string := EncodeToString (id_bytes random).

(** What a call draws from the process environment: the clock and random ids. *)
Record Env := mkEnv { e_now : Z; e_random : nat → list Z; e_next : nat }.

Definition draw (env : Env) : string * Env :=
  (NewID (e_random env (e_next env)), mkEnv (e_now env) (e_random env) (S (e_next env))).

(** The message NewMessage returns, with the payload already marshalled, also
    when it comes with an error.  A trace id is drawn before the message id. *)
Definition build_message (messageType traceID : string) (sender : Sender) (payload : json)
    (env : Env) : Message * Env :=
  let '(traceID, env) :=
    if String.eqb traceID "" then draw env else (traceID, env) in
  let '(id, env) := draw env in
  (mkMessage SpecVersion id messageType (e_now env) traceID sender (Raw payload) 0, env).

Definition NewMessage (messageType traceID : string) (sender : Sender) (payload : json)
    (env : Env) : result invalid Message * Env :=
  let '(m, env) := build_message messageType traceID sender payload env in
  (let! _ := Validate m in Ok m, env).

(** ** Directions *)

Definition app_types : list string :=
  [TypeExecutionProfileList; TypeProjectList; TypeThreadList; TypeThreadRead; TypeTurnStart;
   TypeTurnInterrupt; TypeTurnAcknowledged; TypeRuntimeReceivedAck; TypeRuntimeDurableAck;
   TypeBootstrapStart; TypeBootstrapDurableAck].

Definition agent_types : list string :=
  [TypeAgentHello; TypeAgentStatus; TypeAgentCapabilities; TypeExecutionProfileSnapshot;
   TypeProjectSnapshot; TypeThreadSnapshot; TypeThreadDetail; TypeSourceSnapshot;
   TypeSourceReadFailed; TypeRunAccepted; TypeBootstrapBatch; TypeTurnStarted; TypeTurnOutput;
   TypeTurnItemStarted; TypeTurnItemDelta; TypeTurnItemDone; TypeTurnSnapshot;
   TypeTurnInterrupted; TypeTurnCompleted; TypeTurnFailed; TypeTurnRejected].

Definition AllowedFrom (role messageType : string) : bool :=
  if String.eqb role RoleApp then existsb (String.eqb messageType) app_types
  else if String.eqb role RoleAgent then existsb (String.eqb messageType) agent_types
  else false.

Definition CanonicalSender (role : string) : Sender :=
  if String.eqb role RoleAgent then mkSender "device" "local-mac"
  else mkSender "user" "local-user".
