(* ===== verification/Envelope.v ===== *)
(** * What is written is read back

    A message that json.Marshal writes is accepted by Decode at the other end,
    unchanged; NewMessage builds such messages, and Decode returns only such. *)

From S2P Require Import Prelude GoStd GoTime GoTimeSpec Json Protocol.
#[local] Open Scope string_scope.

(** A message that may travel: what Validate accepts, its sequence an int64. *)
Definition well_formed (m : Message) : Prop := Validate m = Ok tt ∧ in_int64 (m_AgentSequence m) = true.

Lemma well_formed_raw m : well_formed m → m_Payload m = Raw (raw_json (m_Payload m)).
Proof.
  intros [Hv _]. unfold Validate in Hv. repeat case_match; try done. by destruct (m_Payload m).
Qed.

Lemma dec_json_Sender s s0 : dec_Sender (json_Sender s) s0 = (s, true).
Proof. destruct s. unfold dec_Sender, json_Sender. read_struct. reflexivity. Qed.

Lemma dec_json_Message zone m j :
  (zone mod 60 = 0)%Z → well_formed m → json_Message zone m = Some j → dec_Message j zero_message = (m, true).
Proof.
  intros Hz Hm H. pose proof (well_formed_raw m Hm) as Hp. destruct Hm as [_ Hn].
  unfold json_Message in H. destruct (MarshalTime zone (m_OccurredAt m)) as [t|] eqn:Et; [|done].
  apply (inj Some) in H as <-. apply ParseRFC3339_marshal in Et; [|done].
  destruct m as [v i ty o tr se p q]. cbn [m_OccurredAt m_Payload m_AgentSequence] in *. rewrite Hp.
  assert (dec_time (JStr t) zero_time = (o, true)) as Ho by (unfold dec_time; by rewrite Et).
  assert (dec_int64 (JInt q) 0%Z = (q, true)) as Hq by (unfold dec_int64; by rewrite Hn).
  unfold opt_int, req, dec_Message. cbn [m_SpecVersion m_MessageID m_Type m_TraceID m_Sender m_Payload m_AgentSequence].
  destruct (Z.eqb_spec q 0) as [->|Hq0]; cbn [app]; read_struct;
    cbn [m_SpecVersion m_MessageID m_Type m_OccurredAt m_TraceID m_Sender m_Payload m_AgentSequence zero_message];
    rewrite dec_json_Sender, Ho, ?Hq; reflexivity.
Qed.

(** What is written is what Decode returns at the other end. *)
Lemma Decode_json_Message zone m j :
  (zone mod 60 = 0)%Z → well_formed m → json_Message zone m = Some j → Decode (Some j) = Ok m.
Proof.
  intros Hz Hm H. unfold Decode. rewrite (dec_json_Message zone m j Hz Hm H).
  destruct Hm as [Hv _]. simpl. by rewrite Hv.
Qed.

(** ** Where well-formed messages come from *)

Lemma dec_member_int64 names name ms z :
  in_int64 z = true → in_int64 (dec_member names name dec_int64 ms z).1 = true.
Proof.
  revert z. induction ms as [|[k v] ms IH]; intros z Hz; [done|]. cbn [dec_member].
  case_bool_decide; [|by apply IH]. cbn [bind checked_monad].
  assert (in_int64 (dec_int64 v z).1 = true) as Hd by (unfold dec_int64; repeat case_match; done).
  destruct (dec_int64 v z) as [z' ok]. specialize (IH z' Hd). by destruct (dec_member _ _ _ _ _).
Qed.

Lemma dec_Message_int64 j m : in_int64 (m_AgentSequence m) = true → in_int64 (m_AgentSequence (dec_Message j m).1) = true.
Proof.
  intros Hm. unfold dec_Message, dec_struct, dec_struct_with. destruct j; try done.
  cbn [bind checked_monad].
  repeat lazymatch goal with
    | |- context [dec_member _ _ dec_int64 _ _] => fail
    | |- context [dec_member ?n ?k ?d ?ms ?b] => destruct (dec_member n k d ms b)
    end.
  pose proof (dec_member_int64 ["spec_version"; "message_id"; "type"; "occurred_at"; "trace_id"; "sender";
    "payload"; "agent_sequence"] "agent_sequence" members (m_AgentSequence m) Hm) as Hq.
  repeat match goal with |- context [dec_member ?n ?k ?d ?ms ?b] => destruct (dec_member n k d ms b) end.
  exact Hq.
Qed.

Lemma Decode_well_formed v m : Decode v = Ok m → well_formed m.
Proof.
  unfold Decode. destruct v as [j|]; [|done].
  pose proof (dec_Message_int64 j zero_message eq_refl) as Hq.
  destruct (dec_Message j zero_message) as [m' [|]]; [|done]. simpl.
  destruct (Validate m') as [[]|] eqn:Ev; [|done]. intros [= <-]. by split.
Qed.

Lemma NewMessage_Ok type traceID sender payload env m env' :
  NewMessage type traceID sender payload env = (Ok m, env') →
  build_message type traceID sender payload env = (m, env') ∧ well_formed m.
Proof.
  unfold NewMessage. destruct (build_message type traceID sender payload env) as [m0 env0] eqn:E.
  destruct (Validate m0) as [[]|] eqn:Ev; simpl; [|done]. intros [= -> ->].
  split; [done|]. split; [done|]. unfold build_message in E.
  destruct (if String.eqb traceID "" then _ else _) as [t e1]. destruct (draw e1). by simplify_eq.
Qed.

Lemma NewMessage_well_formed type traceID sender payload env m env' :
  NewMessage type traceID sender payload env = (Ok m, env') → well_formed m.
Proof. intros H. by apply NewMessage_Ok in H as [_ ?]. Qed.

(** The sender is not looked at beyond being there. *)
Lemma with_sender_well_formed m s :
  Kind s ≠ "" → SenderID s ≠ "" → well_formed m → well_formed (with_sender m s).
Proof.
  intros Hk%String.eqb_neq Hi%String.eqb_neq [Hv Hn]. split; [|done]. unfold Validate in *. simpl. rewrite Hk, Hi. simpl.
  repeat case_match; done.
Qed.

Lemma CanonicalSender_named role : Kind (CanonicalSender role) ≠ "" ∧ SenderID (CanonicalSender role) ≠ "".
Proof. unfold CanonicalSender. by destruct (String.eqb role RoleAgent). Qed.

(** A clock in the years RFC 3339 has, and a source of random bytes. *)
Record env_ok (env : Env) : Prop := {
  eo_printable : printable_time (e_now env);
  eo_nonzero : e_now env ≠ zero_time;
  eo_random : ∀ n, e_random env n ≠ [];
}.

Lemma NewID_not_empty random : random ≠ [] → NewID random ≠ "".
Proof.
  intros Hr. unfold NewID, id_bytes, EncodeToString.
  destruct random as [|a l]; [done|]. by rewrite !alter_cons_S || by destruct l.
Qed.

Lemma draw_ok env i env' : env_ok env → draw env = (i, env') → i ≠ "" ∧ env_ok env'.
Proof.
  intros [H1 H2 H3] H. unfold draw in H. simplify_eq. split; [by apply NewID_not_empty|by split].
Qed.

(** What NewMessage builds is accepted as it is at the other end. *)
Lemma build_message_sound type traceID sender payload env m env' :
  env_ok env → type ≠ "" → Kind sender ≠ "" → SenderID sender ≠ "" →
  build_message type traceID sender payload env = (m, env') →
  env_ok env' ∧ well_formed m ∧ m_Type m = type ∧ m_Sender m = sender ∧ m_Payload m = Raw payload
  ∧ (traceID ≠ "" → m_TraceID m = traceID)
  ∧ ∃ j, json_Message 0 m = Some j ∧ Decode (Some j) = Ok m.
Proof.
  intros Henv Ht Hk Hi H. unfold build_message in H.
  destruct (if String.eqb traceID "" then draw env else (traceID, env)) as [t env1] eqn:Et.
  assert (t ≠ "" ∧ env_ok env1 ∧ (traceID ≠ "" → t = traceID)) as (Ht0&Henv1&Htr).
  { destruct (String.eqb_spec traceID "") as [->|]; [|by simplify_eq].
    destruct (draw_ok _ _ _ Henv Et). by split_and!. }
  destruct (draw env1) as [i env2] eqn:Ei. destruct (draw_ok _ _ _ Henv1 Ei) as [Hi0 Henv2].
  simplify_eq. assert (well_formed (mkMessage SpecVersion i type (e_now env') t sender (Raw payload) 0)) as Hw.
  { split; [|done]. unfold Validate. simpl. apply String.eqb_neq in Ht, Hk, Hi, Ht0, Hi0.
    rewrite Ht, Hk, Hi, Ht0, Hi0. unfold IsZero. by rewrite (proj2 (Z.eqb_neq _ _) (eo_nonzero _ Henv2)). }
  split_and!; try done.
  assert (∃ s, MarshalTime 0 (e_now env') = Some s) as [s Hs].
  { unfold MarshalTime. destruct (eo_printable _ Henv2) as [H1 H2].
    rewrite (proj2 (Z.leb_le _ _)), (proj2 (Z.ltb_lt _ _)) by lia. by eexists. }
  eexists. split; [unfold json_Message; simpl; by rewrite Hs|].
  eapply (Decode_json_Message 0); [done|done|]. unfold json_Message. simpl. by rewrite Hs.
Qed.
