(* ===== verification/Payloads.v ===== *)
(** * Payload structs of internal/protocol/message.go

    The structs the relay decodes from the Agent, App or command outbox, with
    their decoders, and those it marshals, with the JSON they write (members in
    declaration order, [omitempty] fields left out at their zero value). *)

From S2P Require Import Prelude GoStd GoTime Json Protocol.
#[local] Open Scope string_scope.

(** ** Turn acknowledgement *)

Record TurnAcknowledgedPayload := mkTurnAck { ta_TurnID : string; ta_Status : string }.
Definition zero_TurnAck := mkTurnAck "" "".
Definition dec_TurnAck : Dec TurnAcknowledgedPayload :=
  dec_struct ["turn_id"; "status"] (λ get p,
    let! t := get _ "turn_id" dec_string (ta_TurnID p) in
    let! s := get _ "status" dec_string (ta_Status p) in
    ret (mkTurnAck t s)).

(** ** Projects *)

Record PProject := mkPProject {
  pp_ID : string; pp_Name : string; pp_Path : string; pp_ThreadCount : Z; pp_UpdatedAt : option Z }.
Definition zero_PProject := mkPProject "" "" "" 0 None.
Definition dec_PProject : Dec PProject :=
  dec_struct ["id"; "name"; "path"; "thread_count"; "updated_at"] (λ get p,
    let! i := get _ "id" dec_string (pp_ID p) in
    let! n := get _ "name" dec_string (pp_Name p) in
    let! a := get _ "path" dec_string (pp_Path p) in
    let! c := get _ "thread_count" dec_int64 (pp_ThreadCount p) in
    let! u := get _ "updated_at" (dec_ptr zero_time dec_time) (pp_UpdatedAt p) in
    ret (mkPProject i n a c u)).

Definition dec_ProjectSnapshot : Dec (list PProject) :=
  dec_struct ["projects"] (λ get l,
    get _ "projects" (dec_slice zero_PProject dec_PProject) l).

(** ** Thread history *)

Record ThreadFileChange := mkFileChange { fc_Path : string; fc_Kind : string; fc_Diff : string }.
Definition zero_FileChange := mkFileChange "" "" "".
Definition dec_FileChange : Dec ThreadFileChange :=
  dec_struct ["path"; "kind"; "diff"] (λ get p,
    let! a := get _ "path" dec_string (fc_Path p) in
    let! k := get _ "kind" dec_string (fc_Kind p) in
    let! d := get _ "diff" dec_string (fc_Diff p) in
    ret (mkFileChange a k d)).
Definition json_FileChange (c : ThreadFileChange) : json :=
  JObj (req "path" (JStr (fc_Path c)) ++ req "kind" (JStr (fc_Kind c))
        ++ opt_str "diff" (fc_Diff c))%list.

Record ThreadHistoryItem := mkItem {
  it_ID : string; it_Type : string; it_Role : string; it_Phase : string; it_Status : string;
  it_Text : string; it_Name : string; it_Command : string; it_CWD : string; it_Output : string;
  it_Path : string; it_Query : string; it_ExitCode : option Z; it_DurationMS : option Z;
  it_Changes : list ThreadFileChange; it_Truncated : bool }.
Definition zero_Item := mkItem "" "" "" "" "" "" "" "" "" "" "" "" None None [] false.
Definition dec_Item : Dec ThreadHistoryItem :=
  dec_struct ["id"; "type"; "role"; "phase"; "status"; "text"; "name"; "command"; "cwd"; "output";
              "path"; "query"; "exit_code"; "duration_ms"; "changes"; "truncated"] (λ get i,
    let! f1 := get _ "id" dec_string (it_ID i) in
    let! f2 := get _ "type" dec_string (it_Type i) in
    let! f3 := get _ "role" dec_string (it_Role i) in
    let! f4 := get _ "phase" dec_string (it_Phase i) in
    let! f5 := get _ "status" dec_string (it_Status i) in
    let! f6 := get _ "text" dec_string (it_Text i) in
    let! f7 := get _ "name" dec_string (it_Name i) in
    let! f8 := get _ "command" dec_string (it_Command i) in
    let! f9 := get _ "cwd" dec_string (it_CWD i) in
    let! f10 := get _ "output" dec_string (it_Output i) in
    let! f11 := get _ "path" dec_string (it_Path i) in
    let! f12 := get _ "query" dec_string (it_Query i) in
    let! f13 := get _ "exit_code" (dec_ptr 0%Z dec_int64) (it_ExitCode i) in
    let! f14 := get _ "duration_ms" (dec_ptr 0%Z dec_int64) (it_DurationMS i) in
    let! f15 := get _ "changes" (dec_slice zero_FileChange dec_FileChange) (it_Changes i) in
    let! f16 := get _ "truncated" dec_bool (it_Truncated i) in
    ret (mkItem f1 f2 f3 f4 f5 f6 f7 f8 f9 f10 f11 f12 f13 f14 f15 f16)).
Definition json_Item (i : ThreadHistoryItem) : json :=
  JObj (req "id" (JStr (it_ID i)) ++ req "type" (JStr (it_Type i))
        ++ opt_str "role" (it_Role i) ++ opt_str "phase" (it_Phase i)
        ++ opt_str "status" (it_Status i) ++ opt_str "text" (it_Text i)
        ++ opt_str "name" (it_Name i) ++ opt_str "command" (it_Command i)
        ++ opt_str "cwd" (it_CWD i) ++ opt_str "output" (it_Output i)
        ++ opt_str "path" (it_Path i) ++ opt_str "query" (it_Query i)
        ++ opt_ptr "exit_code" JInt (it_ExitCode i)
        ++ opt_ptr "duration_ms" JInt (it_DurationMS i)
        ++ opt_list "changes" json_FileChange (it_Changes i)
        ++ req "truncated" (JBool (it_Truncated i)))%list.

Record ThreadHistoryTurn := mkTurn {
  tu_ID : string; tu_Status : string; tu_StartedAt : option Z; tu_CompletedAt : option Z;
  tu_DurationMS : option Z; tu_Error : string; tu_Items : list ThreadHistoryItem;
  tu_Truncated : bool }.
Definition zero_Turn := mkTurn "" "" None None None "" [] false.
Definition dec_Turn : Dec ThreadHistoryTurn :=
  dec_struct ["id"; "status"; "started_at"; "completed_at"; "duration_ms"; "error"; "items";
              "truncated"] (λ get t,
    let! f1 := get _ "id" dec_string (tu_ID t) in
    let! f2 := get _ "status" dec_string (tu_Status t) in
    let! f3 := get _ "started_at" (dec_ptr zero_time dec_time) (tu_StartedAt t) in
    let! f4 := get _ "completed_at" (dec_ptr zero_time dec_time) (tu_CompletedAt t) in
    let! f5 := get _ "duration_ms" (dec_ptr 0%Z dec_int64) (tu_DurationMS t) in
    let! f6 := get _ "error" dec_string (tu_Error t) in
    let! f7 := get _ "items" (dec_slice zero_Item dec_Item) (tu_Items t) in
    let! f8 := get _ "truncated" dec_bool (tu_Truncated t) in
    ret (mkTurn f1 f2 f3 f4 f5 f6 f7 f8)).

Record ThreadDetail := mkThread {
  th_ID : string; th_ProjectID : string; th_Title : string; th_Preview : string;
  th_Status : string; th_Source : string; th_CreatedAt : Z; th_UpdatedAt : Z;
  th_Turns : list ThreadHistoryTurn }.
Definition zero_Thread := mkThread "" "" "" "" "" "" zero_time zero_time [].
Definition dec_Thread : Dec ThreadDetail :=
  dec_struct ["id"; "project_id"; "title"; "preview"; "status"; "source"; "created_at";
              "updated_at"; "turns"] (λ get t,
    let! f1 := get _ "id" dec_string (th_ID t) in
    let! f2 := get _ "project_id" dec_string (th_ProjectID t) in
    let! f3 := get _ "title" dec_string (th_Title t) in
    let! f4 := get _ "preview" dec_string (th_Preview t) in
    let! f5 := get _ "status" dec_string (th_Status t) in
    let! f6 := get _ "source" dec_string (th_Source t) in
    let! f7 := get _ "created_at" dec_time (th_CreatedAt t) in
    let! f8 := get _ "updated_at" dec_time (th_UpdatedAt t) in
    let! f9 := get _ "turns" (dec_slice zero_Turn dec_Turn) (th_Turns t) in
    ret (mkThread f1 f2 f3 f4 f5 f6 f7 f8 f9)).

(** ** Bootstrap *)

Record BootstrapBatchPayload := mkBatchPayload {
  bp_CommandID : string; bp_SyncID : string; bp_SnapshotID : string; bp_BatchNo : Z;
  bp_Checksum : string; bp_TotalSessions : Z; bp_ProcessedSessions : Z;
  bp_ReconciliationSafe : bool; bp_Project : option PProject; bp_Thread : option ThreadDetail;
  bp_Done : bool }.
Definition zero_BatchPayload := mkBatchPayload "" "" "" 0 "" 0 0 false None None false.
Definition dec_BatchPayload : Dec BootstrapBatchPayload :=
  dec_struct ["command_id"; "sync_id"; "snapshot_id"; "batch_no"; "checksum"; "total_sessions";
              "processed_sessions"; "reconciliation_safe"; "project"; "thread"; "done"] (λ get b,
    let! f1 := get _ "command_id" dec_string (bp_CommandID b) in
    let! f2 := get _ "sync_id" dec_string (bp_SyncID b) in
    let! f3 := get _ "snapshot_id" dec_string (bp_SnapshotID b) in
    let! f4 := get _ "batch_no" dec_int64 (bp_BatchNo b) in
    let! f5 := get _ "checksum" dec_string (bp_Checksum b) in
    let! f6 := get _ "total_sessions" dec_int64 (bp_TotalSessions b) in
    let! f7 := get _ "processed_sessions" dec_int64 (bp_ProcessedSessions b) in
    let! f8 := get _ "reconciliation_safe" dec_bool (bp_ReconciliationSafe b) in
    let! f9 := get _ "project" (dec_ptr zero_PProject dec_PProject) (bp_Project b) in
    let! f10 := get _ "thread" (dec_ptr zero_Thread dec_Thread) (bp_Thread b) in
    let! f11 := get _ "done" dec_bool (bp_Done b) in
    ret (mkBatchPayload f1 f2 f3 f4 f5 f6 f7 f8 f9 f10 f11)).

Definition json_BootstrapAck (syncID : string) (batchNo : Z) (checksum : string) : json :=
  JObj [("sync_id", JStr syncID); ("batch_no", JInt batchNo); ("checksum", JStr checksum)].

Record BootstrapStartPayload := mkBootstrapStart { bs_CommandID : string; bs_SyncID : string }.
Definition zero_BootstrapStart := mkBootstrapStart "" "".
Definition dec_BootstrapStart : Dec BootstrapStartPayload :=
  dec_struct ["command_id"; "sync_id"] (λ get p,
    let! c := get _ "command_id" dec_string (bs_CommandID p) in
    let! s := get _ "sync_id" dec_string (bs_SyncID p) in
    ret (mkBootstrapStart c s)).
Definition json_BootstrapStart (p : BootstrapStartPayload) : json :=
  JObj [("command_id", JStr (bs_CommandID p)); ("sync_id", JStr (bs_SyncID p))].

(** ** Runs *)

Record TurnStartPayload := mkTurnStart {
  ts_CommandID : string; ts_RunID : string; ts_ProjectID : string; ts_ThreadID : string;
  ts_Prompt : string; ts_PermissionProfileID : string }.
Definition zero_TurnStart := mkTurnStart "" "" "" "" "" "".
Definition dec_TurnStart : Dec TurnStartPayload :=
  dec_struct ["command_id"; "run_id"; "project_id"; "thread_id"; "prompt"; "permission_profile_id"]
  (λ get p,
    let! f1 := get _ "command_id" dec_string (ts_CommandID p) in
    let! f2 := get _ "run_id" dec_string (ts_RunID p) in
    let! f3 := get _ "project_id" dec_string (ts_ProjectID p) in
    let! f4 := get _ "thread_id" dec_string (ts_ThreadID p) in
    let! f5 := get _ "prompt" dec_string (ts_Prompt p) in
    let! f6 := get _ "permission_profile_id" dec_string (ts_PermissionProfileID p) in
    ret (mkTurnStart f1 f2 f3 f4 f5 f6)).
Definition json_TurnStart (p : TurnStartPayload) : json :=
  JObj (req "command_id" (JStr (ts_CommandID p)) ++ req "run_id" (JStr (ts_RunID p))
        ++ req "project_id" (JStr (ts_ProjectID p)) ++ opt_str "thread_id" (ts_ThreadID p)
        ++ req "prompt" (JStr (ts_Prompt p))
        ++ opt_str "permission_profile_id" (ts_PermissionProfileID p))%list.

(** thread_id and turn_id: the cancel command and the turn.started event. *)
Record TurnInterruptPayload := mkTurnRef { tr_ThreadID : string; tr_TurnID : string }.
Definition zero_TurnRef := mkTurnRef "" "".
Definition dec_TurnRef : Dec TurnInterruptPayload :=
  dec_struct ["thread_id"; "turn_id"] (λ get p,
    let! t := get _ "thread_id" dec_string (tr_ThreadID p) in
    let! u := get _ "turn_id" dec_string (tr_TurnID p) in
    ret (mkTurnRef t u)).
Definition json_TurnInterrupt (p : TurnInterruptPayload) : json :=
  JObj [("thread_id", JStr (tr_ThreadID p)); ("turn_id", JStr (tr_TurnID p))].

Record RunAcceptedPayload := mkRunAccepted { ra_CommandID : string; ra_RunID : string }.
Definition zero_RunAccepted := mkRunAccepted "" "".
Definition dec_RunAccepted : Dec RunAcceptedPayload :=
  dec_struct ["command_id"; "run_id"] (λ get p,
    let! c := get _ "command_id" dec_string (ra_CommandID p) in
    let! r := get _ "run_id" dec_string (ra_RunID p) in
    ret (mkRunAccepted c r)).

Definition json_RuntimeAck (runID : string) (sequence : Z) : json :=
  JObj [("run_id", JStr runID); ("agent_sequence", JInt sequence)].

(** A rejection built by the relay: the optional members are empty. *)
Definition json_TurnRejected (code message : string) : json :=
  JObj [("code", JStr code); ("message", JStr message)].

Definition json_AgentStatus (status : string) : json := JObj [("status", JStr status)].
Definition json_ProjectList : json := JObj [].

(** ** Source reads and execution profiles *)

Record SourceReadPayload := mkSourceRead {
  sr_ProjectID : string; sr_Path : string; sr_FocusLine : Z; sr_ContextLines : Z }.
Definition json_SourceRead (p : SourceReadPayload) : json :=
  JObj (req "project_id" (JStr (sr_ProjectID p)) ++ req "path" (JStr (sr_Path p))
        ++ opt_int "focus_line" (sr_FocusLine p) ++ opt_int "context_lines" (sr_ContextLines p))%list.

Record SourceSnapshotPayload := mkSourceSnapshot {
  ss_ProjectID : string; ss_Path : string; ss_Content : string; ss_StartLine : Z; ss_EndLine : Z;
  ss_TotalLines : Z; ss_FocusLine : Z; ss_Truncated : bool; ss_SHA256 : string; ss_ModifiedAt : Z }.
Definition zero_SourceSnapshot := mkSourceSnapshot "" "" "" 0 0 0 0 false "" zero_time.
Definition dec_SourceSnapshot : Dec SourceSnapshotPayload :=
  dec_struct ["project_id"; "path"; "content"; "start_line"; "end_line"; "total_lines";
              "focus_line"; "truncated"; "sha256"; "modified_at"] (λ get p,
    let! f1 := get _ "project_id" dec_string (ss_ProjectID p) in
    let! f2 := get _ "path" dec_string (ss_Path p) in
    let! f3 := get _ "content" dec_string (ss_Content p) in
    let! f4 := get _ "start_line" dec_int64 (ss_StartLine p) in
    let! f5 := get _ "end_line" dec_int64 (ss_EndLine p) in
    let! f6 := get _ "total_lines" dec_int64 (ss_TotalLines p) in
    let! f7 := get _ "focus_line" dec_int64 (ss_FocusLine p) in
    let! f8 := get _ "truncated" dec_bool (ss_Truncated p) in
    let! f9 := get _ "sha256" dec_string (ss_SHA256 p) in
    let! f10 := get _ "modified_at" dec_time (ss_ModifiedAt p) in
    ret (mkSourceSnapshot f1 f2 f3 f4 f5 f6 f7 f8 f9 f10)).

Record SourceReadFailedPayload := mkSourceReadFailed { sf_Code : string; sf_Message : string }.
Definition zero_SourceReadFailed := mkSourceReadFailed "" "".
Definition dec_SourceReadFailed : Dec SourceReadFailedPayload :=
  dec_struct ["code"; "message"] (λ get p,
    let! c := get _ "code" dec_string (sf_Code p) in
    let! m := get _ "message" dec_string (sf_Message p) in
    ret (mkSourceReadFailed c m)).

Record ExecutionProfile := mkProfile { ep_ID : string; ep_Description : string; ep_Allowed : bool }.
Definition zero_Profile := mkProfile "" "" false.
Definition dec_Profile : Dec ExecutionProfile :=
  dec_struct ["id"; "description"; "allowed"] (λ get p,
    let! i := get _ "id" dec_string (ep_ID p) in
    let! d := get _ "description" dec_string (ep_Description p) in
    let! a := get _ "allowed" dec_bool (ep_Allowed p) in
    ret (mkProfile i d a)).

Record ExecutionProfileSnapshotPayload := mkProfileSnapshot {
  es_ProjectID : string; es_DefaultProfileID : string; es_Profiles : list ExecutionProfile }.
Definition zero_ProfileSnapshot := mkProfileSnapshot "" "" [].
Definition dec_ProfileSnapshot : Dec ExecutionProfileSnapshotPayload :=
  dec_struct ["project_id"; "default_profile_id"; "profiles"] (λ get p,
    let! i := get _ "project_id" dec_string (es_ProjectID p) in
    let! d := get _ "default_profile_id" dec_string (es_DefaultProfileID p) in
    let! l := get _ "profiles" (dec_slice zero_Profile dec_Profile) (es_Profiles p) in
    ret (mkProfileSnapshot i d l)).

Definition json_ExecutionProfileList (projectID : string) : json :=
  JObj [("project_id", JStr projectID)].

(** A payload the relay writes is read back unchanged. *)
Lemma TurnStart_roundtrip p : dec_TurnStart (json_TurnStart p) zero_TurnStart = (p, true).
Proof.
  destruct p as [c r pr t q pf]. unfold json_TurnStart, opt_str; simpl.
  destruct (String.eqb_spec t ""), (String.eqb_spec pf ""); subst; reflexivity.
Qed.
