(* ===== verification/AgentPayloads.v ===== *)
(** * Payload structs of internal/protocol/message.go: the conversation

    What an Agent and an App tell each other through the relay: listings,
    the events of a turn, and the App's requests.  The relay passes these on;
    cmd/relayctl, an App, writes the requests and reads the events. *)

From S2P Require Import Prelude GoStd GoTime Json Protocol Payloads.
#[local] Open Scope string_scope.

(** ** The Agent's state *)

Record AgentHelloPayload := mkAgentHello { ah_Name : string; ah_Version : string; ah_Status : string }.
Definition zero_AgentHello := mkAgentHello "" "" "".
Definition dec_AgentHello : Dec AgentHelloPayload :=
  dec_struct ["name"; "version"; "status"] (λ get p,
    let! n := get _ "name" dec_string (ah_Name p) in
    let! v := get _ "version" dec_string (ah_Version p) in
    let! s := get _ "status" dec_string (ah_Status p) in
    ret (mkAgentHello n v s)).

Record AgentStatusPayload := mkAgentStatus {
  as_Status : string; as_ProjectID : string; as_ThreadID : string; as_TurnID : string }.
Definition zero_AgentStatus := mkAgentStatus "" "" "" "".
Definition dec_AgentStatus : Dec AgentStatusPayload :=
  dec_struct ["status"; "project_id"; "thread_id"; "turn_id"] (λ get p,
    let! s := get _ "status" dec_string (as_Status p) in
    let! r := get _ "project_id" dec_string (as_ProjectID p) in
    let! t := get _ "thread_id" dec_string (as_ThreadID p) in
    let! u := get _ "turn_id" dec_string (as_TurnID p) in
    ret (mkAgentStatus s r t u)).

Record AgentCapabilitiesPayload := mkCapabilities {
  ac_Restricted : bool; ac_SandboxMode : string; ac_ApprovalPolicy : string;
  ac_WritableScope : string; ac_NetworkAccess : bool; ac_CanRequestApproval : bool;
  ac_HostProcessControl : bool; ac_UserLibraryWrite : bool; ac_XcodeDeviceControl : bool;
  ac_SupportsPermissionProfiles : bool; ac_SupportsSourceRead : bool }.
Definition zero_Capabilities := mkCapabilities false "" "" "" false false false false false false false.
Definition dec_Capabilities : Dec AgentCapabilitiesPayload :=
  dec_struct ["restricted"; "sandbox_mode"; "approval_policy"; "writable_scope"; "network_access";
              "can_request_approval"; "host_process_control"; "user_library_write";
              "xcode_device_control"; "supports_permission_profiles"; "supports_source_read"] (λ get p,
    let! f1 := get _ "restricted" dec_bool (ac_Restricted p) in
    let! f2 := get _ "sandbox_mode" dec_string (ac_SandboxMode p) in
    let! f3 := get _ "approval_policy" dec_string (ac_ApprovalPolicy p) in
    let! f4 := get _ "writable_scope" dec_string (ac_WritableScope p) in
    let! f5 := get _ "network_access" dec_bool (ac_NetworkAccess p) in
    let! f6 := get _ "can_request_approval" dec_bool (ac_CanRequestApproval p) in
    let! f7 := get _ "host_process_control" dec_bool (ac_HostProcessControl p) in
    let! f8 := get _ "user_library_write" dec_bool (ac_UserLibraryWrite p) in
    let! f9 := get _ "xcode_device_control" dec_bool (ac_XcodeDeviceControl p) in
    let! f10 := get _ "supports_permission_profiles" dec_bool (ac_SupportsPermissionProfiles p) in
    let! f11 := get _ "supports_source_read" dec_bool (ac_SupportsSourceRead p) in
    ret (mkCapabilities f1 f2 f3 f4 f5 f6 f7 f8 f9 f10 f11)).

(** ** Threads *)

Definition json_ThreadList (projectID : string) : json := JObj [("project_id", JStr projectID)].

Record ListedThread := mkListed {
  lt_ID : string; lt_ProjectID : string; lt_Title : string; lt_Preview : string;
  lt_LatestMessagePreview : string; lt_Status : string; lt_Source : string; lt_UpdatedAt : Z }.
Definition zero_Listed := mkListed "" "" "" "" "" "" "" zero_time.
Definition dec_Listed : Dec ListedThread :=
  dec_struct ["id"; "project_id"; "title"; "preview"; "latest_message_preview"; "status"; "source";
              "updated_at"] (λ get t,
    let! f1 := get _ "id" dec_string (lt_ID t) in
    let! f2 := get _ "project_id" dec_string (lt_ProjectID t) in
    let! f3 := get _ "title" dec_string (lt_Title t) in
    let! f4 := get _ "preview" dec_string (lt_Preview t) in
    let! f5 := get _ "latest_message_preview" dec_string (lt_LatestMessagePreview t) in
    let! f6 := get _ "status" dec_string (lt_Status t) in
    let! f7 := get _ "source" dec_string (lt_Source t) in
    let! f8 := get _ "updated_at" dec_time (lt_UpdatedAt t) in
    ret (mkListed f1 f2 f3 f4 f5 f6 f7 f8)).

Record ThreadSnapshotPayload := mkThreadSnapshot { tsn_ProjectID : string; tsn_Threads : list ListedThread }.
Definition zero_ThreadSnapshot := mkThreadSnapshot "" [].
Definition dec_ThreadSnapshot : Dec ThreadSnapshotPayload :=
  dec_struct ["project_id"; "threads"] (λ get p,
    let! i := get _ "project_id" dec_string (tsn_ProjectID p) in
    let! l := get _ "threads" (dec_slice zero_Listed dec_Listed) (tsn_Threads p) in
    ret (mkThreadSnapshot i l)).

Definition json_ThreadRead (projectID threadID : string) : json :=
  JObj [("project_id", JStr projectID); ("thread_id", JStr threadID)].

Record ThreadDetailPayload := mkThreadDetail {
  td_ProjectID : string; td_Thread : ThreadDetail; td_Truncated : bool }.
Definition zero_ThreadDetail := mkThreadDetail "" zero_Thread false.
Definition dec_ThreadDetail : Dec ThreadDetailPayload :=
  dec_struct ["project_id"; "thread"; "truncated"] (λ get p,
    let! i := get _ "project_id" dec_string (td_ProjectID p) in
    let! t := get _ "thread" dec_Thread (td_Thread p) in
    let! b := get _ "truncated" dec_bool (td_Truncated p) in
    ret (mkThreadDetail i t b)).

(** ** The events of a turn *)

Record TurnStartedPayload := mkTurnStarted {
  st_ProjectID : string; st_ThreadID : string; st_TurnID : string; st_StartedAt : Z }.
Definition zero_TurnStarted := mkTurnStarted "" "" "" zero_time.
Definition dec_TurnStarted : Dec TurnStartedPayload :=
  dec_struct ["project_id"; "thread_id"; "turn_id"; "started_at"] (λ get p,
    let! f1 := get _ "project_id" dec_string (st_ProjectID p) in
    let! f2 := get _ "thread_id" dec_string (st_ThreadID p) in
    let! f3 := get _ "turn_id" dec_string (st_TurnID p) in
    let! f4 := get _ "started_at" dec_time (st_StartedAt p) in
    ret (mkTurnStarted f1 f2 f3 f4)).

Record TurnOutputPayload := mkTurnOutput {
  ou_ProjectID : string; ou_ThreadID : string; ou_TurnID : string; ou_Stream : string; ou_Text : string }.
Definition zero_TurnOutput := mkTurnOutput "" "" "" "" "".
Definition dec_TurnOutput : Dec TurnOutputPayload :=
  dec_struct ["project_id"; "thread_id"; "turn_id"; "stream"; "text"] (λ get p,
    let! f1 := get _ "project_id" dec_string (ou_ProjectID p) in
    let! f2 := get _ "thread_id" dec_string (ou_ThreadID p) in
    let! f3 := get _ "turn_id" dec_string (ou_TurnID p) in
    let! f4 := get _ "stream" dec_string (ou_Stream p) in
    let! f5 := get _ "text" dec_string (ou_Text p) in
    ret (mkTurnOutput f1 f2 f3 f4 f5)).

(** An item that starts and one that is completed have the same fields. *)
Record TurnItemPayload := mkTurnItem {
  ti_ProjectID : string; ti_ThreadID : string; ti_TurnID : string; ti_Sequence : Z;
  ti_Item : ThreadHistoryItem }.
Definition zero_TurnItem := mkTurnItem "" "" "" 0 zero_Item.
Definition dec_TurnItem : Dec TurnItemPayload :=
  dec_struct ["project_id"; "thread_id"; "turn_id"; "sequence"; "item"] (λ get p,
    let! f1 := get _ "project_id" dec_string (ti_ProjectID p) in
    let! f2 := get _ "thread_id" dec_string (ti_ThreadID p) in
    let! f3 := get _ "turn_id" dec_string (ti_TurnID p) in
    let! f4 := get _ "sequence" dec_int64 (ti_Sequence p) in
    let! f5 := get _ "item" dec_Item (ti_Item p) in
    ret (mkTurnItem f1 f2 f3 f4 f5)).

Record TurnItemDeltaPayload := mkTurnDelta {
  de_ProjectID : string; de_ThreadID : string; de_TurnID : string; de_Sequence : Z;
  de_ItemID : string; de_Field : string; de_Delta : string }.
Definition zero_TurnDelta := mkTurnDelta "" "" "" 0 "" "" "".
Definition dec_TurnDelta : Dec TurnItemDeltaPayload :=
  dec_struct ["project_id"; "thread_id"; "turn_id"; "sequence"; "item_id"; "field"; "delta"] (λ get p,
    let! f1 := get _ "project_id" dec_string (de_ProjectID p) in
    let! f2 := get _ "thread_id" dec_string (de_ThreadID p) in
    let! f3 := get _ "turn_id" dec_string (de_TurnID p) in
    let! f4 := get _ "sequence" dec_int64 (de_Sequence p) in
    let! f5 := get _ "item_id" dec_string (de_ItemID p) in
    let! f6 := get _ "field" dec_string (de_Field p) in
    let! f7 := get _ "delta" dec_string (de_Delta p) in
    ret (mkTurnDelta f1 f2 f3 f4 f5 f6 f7)).

Record TurnSnapshotPayload := mkTurnSnapshot {
  sp_ProjectID : string; sp_ThreadID : string; sp_TurnID : string; sp_Status : string;
  sp_StartedAt : Z; sp_RecentOutput : list string; sp_LiveItems : list ThreadHistoryItem;
  sp_LastSequence : Z; sp_LiveItemsTruncated : bool }.
Definition zero_TurnSnapshot := mkTurnSnapshot "" "" "" "" zero_time [] [] 0 false.
Definition dec_TurnSnapshot : Dec TurnSnapshotPayload :=
  dec_struct ["project_id"; "thread_id"; "turn_id"; "status"; "started_at"; "recent_output";
              "live_items"; "last_sequence"; "live_items_truncated"] (λ get p,
    let! f1 := get _ "project_id" dec_string (sp_ProjectID p) in
    let! f2 := get _ "thread_id" dec_string (sp_ThreadID p) in
    let! f3 := get _ "turn_id" dec_string (sp_TurnID p) in
    let! f4 := get _ "status" dec_string (sp_Status p) in
    let! f5 := get _ "started_at" dec_time (sp_StartedAt p) in
    let! f6 := get _ "recent_output" (dec_slice "" dec_string) (sp_RecentOutput p) in
    let! f7 := get _ "live_items" (dec_slice zero_Item dec_Item) (sp_LiveItems p) in
    let! f8 := get _ "last_sequence" dec_int64 (sp_LastSequence p) in
    let! f9 := get _ "live_items_truncated" dec_bool (sp_LiveItemsTruncated p) in
    ret (mkTurnSnapshot f1 f2 f3 f4 f5 f6 f7 f8 f9)).

Record TurnInterruptedPayload := mkTurnInterrupted {
  ti'_ProjectID : string; ti'_ThreadID : string; ti'_TurnID : string; ti'_DurationMS : Z }.
Definition zero_TurnInterrupted := mkTurnInterrupted "" "" "" 0.
Definition dec_TurnInterrupted : Dec TurnInterruptedPayload :=
  dec_struct ["project_id"; "thread_id"; "turn_id"; "duration_ms"] (λ get p,
    let! f1 := get _ "project_id" dec_string (ti'_ProjectID p) in
    let! f2 := get _ "thread_id" dec_string (ti'_ThreadID p) in
    let! f3 := get _ "turn_id" dec_string (ti'_TurnID p) in
    let! f4 := get _ "duration_ms" dec_int64 (ti'_DurationMS p) in
    ret (mkTurnInterrupted f1 f2 f3 f4)).

Record TurnCompletedPayload := mkTurnCompleted {
  tc_ProjectID : string; tc_ThreadID : string; tc_TurnID : string; tc_DurationMS : Z;
  tc_Summary : string; tc_ChangedFiles : list string; tc_Diff : string; tc_DiffTruncated : bool }.
Definition zero_TurnCompleted := mkTurnCompleted "" "" "" 0 "" [] "" false.
Definition dec_TurnCompleted : Dec TurnCompletedPayload :=
  dec_struct ["project_id"; "thread_id"; "turn_id"; "duration_ms"; "summary"; "changed_files";
              "diff"; "diff_truncated"] (λ get p,
    let! f1 := get _ "project_id" dec_string (tc_ProjectID p) in
    let! f2 := get _ "thread_id" dec_string (tc_ThreadID p) in
    let! f3 := get _ "turn_id" dec_string (tc_TurnID p) in
    let! f4 := get _ "duration_ms" dec_int64 (tc_DurationMS p) in
    let! f5 := get _ "summary" dec_string (tc_Summary p) in
    let! f6 := get _ "changed_files" (dec_slice "" dec_string) (tc_ChangedFiles p) in
    let! f7 := get _ "diff" dec_string (tc_Diff p) in
    let! f8 := get _ "diff_truncated" dec_bool (tc_DiffTruncated p) in
    ret (mkTurnCompleted f1 f2 f3 f4 f5 f6 f7 f8)).

Record TurnFailedPayload := mkTurnFailed {
  tf_ProjectID : string; tf_ThreadID : string; tf_TurnID : string; tf_Code : string;
  tf_Message : string; tf_DurationMS : Z }.
Definition zero_TurnFailed := mkTurnFailed "" "" "" "" "" 0.
Definition dec_TurnFailed : Dec TurnFailedPayload :=
  dec_struct ["project_id"; "thread_id"; "turn_id"; "code"; "message"; "duration_ms"] (λ get p,
    let! f1 := get _ "project_id" dec_string (tf_ProjectID p) in
    let! f2 := get _ "thread_id" dec_string (tf_ThreadID p) in
    let! f3 := get _ "turn_id" dec_string (tf_TurnID p) in
    let! f4 := get _ "code" dec_string (tf_Code p) in
    let! f5 := get _ "message" dec_string (tf_Message p) in
    let! f6 := get _ "duration_ms" dec_int64 (tf_DurationMS p) in
    ret (mkTurnFailed f1 f2 f3 f4 f5 f6)).

Record TurnRejectedPayload := mkTurnRejected {
  rj_Code : string; rj_Message : string; rj_RequiredCapabilities : list string;
  rj_RecoveryAction : string; rj_ExecutionContext : option AgentCapabilitiesPayload }.
Definition zero_TurnRejected := mkTurnRejected "" "" [] "" None.
Definition dec_TurnRejected : Dec TurnRejectedPayload :=
  dec_struct ["code"; "message"; "required_capabilities"; "recovery_action"; "execution_context"]
  (λ get p,
    let! f1 := get _ "code" dec_string (rj_Code p) in
    let! f2 := get _ "message" dec_string (rj_Message p) in
    let! f3 := get _ "required_capabilities" (dec_slice "" dec_string) (rj_RequiredCapabilities p) in
    let! f4 := get _ "recovery_action" dec_string (rj_RecoveryAction p) in
    let! f5 := get _ "execution_context" (dec_ptr zero_Capabilities dec_Capabilities) (rj_ExecutionContext p) in
    ret (mkTurnRejected f1 f2 f3 f4 f5)).

(** What the relay writes in a rejection is what an App reads. *)
Lemma dec_json_TurnRejected code message :
  dec_TurnRejected (json_TurnRejected code message) zero_TurnRejected
  = (mkTurnRejected code message [] "" None, true).
Proof. unfold dec_TurnRejected, json_TurnRejected. by read_struct. Qed.
