(* ===== verification/RuntimeDB.v ===== *)
(** * The runtime schema (internal/runtime/migrations)

    The seven tables of the [runtime] schema as finite maps keyed by their
    primary keys, with NULL as [None].  The event tables, whose keys are pairs,
    map the resource to the rows of its sequence numbers.  The constraints of
    the schema (primary and foreign keys, unique indexes, checks, the range of
    bigint and integer columns) are enforced by the statements of the stores,
    which are refused when they would break one, and collected in the invariant
    [db_wf].  Timestamps are nanoseconds since the epoch; a timestamptz column
    keeps the microsecond. *)

From S2P Require Import Prelude GoStd GoTime Json.
From S2P Require Import Sql Tables.
#[local] Open Scope string_scope.

(** What a jsonb column stores for a JSON text (PostgreSQL normalises the text,
    and rejects some, such as one with an escaped NUL). *)
Class Jsonb := jsonb : json → option json.

(** A jsonb column that stores every value as it is, for examples. *)
Definition plain_jsonb : Jsonb := λ j, Some j.

(** ** Rows *)

Record project_row := mkProjectRow {
  pr_display_name : string;
  pr_last_seen : option string;
  pr_archived_at : option Z;
  pr_created_at : Z;
  pr_updated_at : Z;
}.

Record session_row := mkSessionRow {
  se_project_id : string;
  se_thread_id : option string;
  se_title : option string;
  se_last_sequence : Z;
  se_key : option string;
  se_hash : option string;
  se_created_at : Z;
  se_updated_at : Z;
  se_last_seen : option string;
  se_archived_at : option Z;
}.

Record run_row := mkRunRow {
  ru_session_id : string;
  ru_turn_id : option string;
  ru_status : string;
  ru_state_version : Z;
  ru_key : option string;
  ru_hash : option string;
  ru_prompt : option string;
  ru_profile : option string;
  ru_cancel_requested_at : option Z;
  ru_persisted : Z;
  ru_final : option Z;
  ru_error_code : option string;
  ru_error_message : option string;
  ru_created_at : Z;
  ru_started_at : option Z;
  ru_finished_at : option Z;
  ru_updated_at : Z;
}.

Record session_event_row := mkSessionEventRow {
  sev_type : string;
  sev_payload : json;
  sev_created_at : Z;
}.

Record run_event_row := mkRunEventRow {
  rev_type : string;
  rev_payload : json;
  rev_occurred_at : Z;
  rev_persisted_at : Z;
}.

Record command_row := mkCommandRow {
  co_type : string;
  co_resource_id : string;
  co_payload : json;
  co_status : string;
  co_attempts : Z;
  co_next_attempt_at : Z;
  co_claimed_by : option string;
  co_claim_expires_at : option Z;
  co_delivered_at : option Z;
  co_last_error : option string;
  co_created_at : Z;
}.

Record sync_row := mkSyncRow {
  sy_status : string;
  sy_key : string;
  sy_snapshot_id : option string;
  sy_last_batch : Z;
  sy_last_checksum : option string;
  sy_item_count : Z;
  sy_error_code : option string;
  sy_error_message : option string;
  sy_created_at : Z;
  sy_updated_at : Z;
  sy_total : Z;
  sy_processed : Z;
  sy_archived_sessions : Z;
  sy_archived_projects : Z;
  sy_reconciled : bool;
}.

Record DB := mkDB {
  projects : gmap string project_row;
  sessions : gmap string session_row;
  runs : gmap string run_row;
  session_events : gmap string (gmap Z session_event_row);
  run_events : gmap string (gmap Z run_event_row);
  outbox : gmap string command_row;
  sync_jobs : gmap string sync_row;
}.

Definition empty_db : DB := mkDB ∅ ∅ ∅ ∅ ∅ ∅ ∅.

Definition set_projects t d :=
  mkDB t (sessions d) (runs d) (session_events d) (run_events d) (outbox d) (sync_jobs d).
Definition set_sessions t d :=
  mkDB (projects d) t (runs d) (session_events d) (run_events d) (outbox d) (sync_jobs d).
Definition set_runs t d :=
  mkDB (projects d) (sessions d) t (session_events d) (run_events d) (outbox d) (sync_jobs d).
Definition set_session_events t d :=
  mkDB (projects d) (sessions d) (runs d) t (run_events d) (outbox d) (sync_jobs d).
Definition set_run_events t d :=
  mkDB (projects d) (sessions d) (runs d) (session_events d) t (outbox d) (sync_jobs d).
Definition set_outbox t d :=
  mkDB (projects d) (sessions d) (runs d) (session_events d) (run_events d) t (sync_jobs d).
Definition set_sync_jobs t d :=
  mkDB (projects d) (sessions d) (runs d) (session_events d) (run_events d) (outbox d) t.

(** The event rows of one resource. *)
Definition rows {A} (t : gmap string (gmap Z A)) (id : string) : gmap Z A := default ∅ (t !! id).

(** ** Vocabulary of the schema *)

Definition run_statuses : list string :=
  ["queued"; "dispatching"; "accepted"; "running"; "waiting_agent"; "recovering"; "finalizing";
   "completed"; "failed"; "canceled"].

Definition isTerminal (status : string) : bool :=
  String.eqb status "completed" || String.eqb status "failed" || String.eqb status "canceled".

(** The statuses the reconciliation treats as live. *)
Definition live_statuses : list string :=
  ["queued"; "dispatching"; "accepted"; "running"; "waiting_agent"; "recovering"; "finalizing"].

Definition session_event_types : list string :=
  ["run.created"; "run.status.changed"; "run.completed"].

Definition command_types : list string := ["run.start"; "run.cancel"; "bootstrap.start"].
Definition command_statuses : list string := ["pending"; "claimed"; "delivered"; "dead"].
Definition sync_statuses : list string := ["queued"; "running"; "completed"; "failed"].
Definition sync_active (s : sync_row) : bool :=
  String.eqb (sy_status s) "queued" || String.eqb (sy_status s) "running".

(** The columns of the unique indexes. *)
Definition run_key_col (r : run_row) : option (string * string) :=
  (λ k, (ru_session_id r, k)) <$> ru_key r.
Definition command_col (c : command_row) : option (string * string) :=
  Some (co_type c, co_resource_id c).
Definition sync_key_col (s : sync_row) : option string := Some (sy_key s).
Definition sync_active_col (s : sync_row) : option unit := if sync_active s then Some () else None.

(** ** The invariant *)

Record db_wf (d : DB) : Prop := {
  (* projects and sessions *)
  wf_session_project : ∀ i s, sessions d !! i = Some s → is_Some (projects d !! se_project_id s);
  wf_session_thread : unique_col se_thread_id (sessions d);
  wf_session_key : unique_col se_key (sessions d);
  wf_session_hash : ∀ i s, sessions d !! i = Some s → (se_key s = None ↔ se_hash s = None);
  (* runs *)
  wf_run_session : ∀ i r, runs d !! i = Some r → is_Some (sessions d !! ru_session_id r);
  wf_run_key : unique_col run_key_col (runs d);
  wf_run_turn : unique_col ru_turn_id (runs d);
  wf_run_hash : ∀ i r, runs d !! i = Some r → (ru_key r = None ↔ ru_hash r = None);
  wf_run_status : ∀ i r, runs d !! i = Some r → ru_status r ∈ run_statuses;
  wf_run_version : ∀ i r, runs d !! i = Some r → (0 < ru_state_version r ≤ int64_max)%Z;
  wf_run_sequences : ∀ i r, runs d !! i = Some r →
    (0 ≤ ru_persisted r)%Z ∧ (∀ f, ru_final r = Some f → 0 < f)%Z;
  (* events *)
  wf_run_event : ∀ i m n e, run_events d !! i = Some m → m !! n = Some e →
    is_Some (runs d !! i) ∧ (0 < n)%Z;
  wf_session_event_session : ∀ i m, session_events d !! i = Some m → is_Some (sessions d !! i);
  (* the session cursor numbers its events without a gap *)
  wf_session_sequence : ∀ i s n, sessions d !! i = Some s →
    is_Some (rows (session_events d) i !! n) ↔ (1 ≤ n ≤ se_last_sequence s)%Z;
  wf_session_cursor : ∀ i s, sessions d !! i = Some s → (0 ≤ se_last_sequence s ≤ int64_max)%Z;
  (* commands *)
  wf_command : unique_col command_col (outbox d);
  wf_command_row : ∀ i c, outbox d !! i = Some c →
    co_type c ∈ command_types ∧ co_status c ∈ command_statuses ∧
    (co_status c = "delivered" → is_Some (co_delivered_at c)) ∧ (0 ≤ co_attempts c)%Z;
  (* sync jobs *)
  wf_sync_key : unique_col sync_key_col (sync_jobs d);
  wf_sync_one : unique_col sync_active_col (sync_jobs d);
  wf_sync_row : ∀ i s, sync_jobs d !! i = Some s →
    sy_status s ∈ sync_statuses ∧ (-1 ≤ sy_last_batch s)%Z ∧ (0 ≤ sy_item_count s)%Z ∧ (0 ≤ sy_total s)%Z
    ∧ (0 ≤ sy_processed s)%Z ∧ (0 ≤ sy_archived_sessions s)%Z ∧ (0 ≤ sy_archived_projects s)%Z;
}.

Lemma empty_db_wf : db_wf empty_db.
Proof.
  split; unfold empty_db, unique_col; simpl; intros *; try (rewrite lookup_empty; done).
Qed.
