(* ===== verification/RuntimeSql.v ===== *)
(** * Statements of the runtime store

    The SQL statements of internal/runtime/postgres.go as functions on the
    tables.  Every write of a row goes through one [put_*] statement per table,
    which enforces that table's constraints; the INSERT and UPDATE forms of the
    source are built on it.  For each, the invariant it preserves. *)

From S2P Require Import Prelude GoStd GoTime Json.
From S2P Require Import Sql Tables RuntimeDB.
#[local] Open Scope string_scope.

(** ** Projects *)

Definition put_project (id : string) (p : project_row) : Stmt DB unit := λ d,
  Ok (tt, set_projects (<[id := p]> (projects d)) d).

(** INSERT INTO runtime.projects ... ON CONFLICT(project_id) DO UPDATE: the
    statement of UpsertProjects ([seen = None]) and of ApplyBootstrapBatch. *)
Definition upsert_project (now : Z) (id name : string) (seen : option string) : Stmt DB unit := λ d,
  match projects d !! id with
  | None => put_project id (mkProjectRow name seen None now now) d
  | Some p =>
      put_project id (mkProjectRow name (match seen with Some s => Some s | None => pr_last_seen p end)
                        None (pr_created_at p) now) d
  end.

Lemma put_project_wf id p d d' :
  db_wf d → put_project id p d = Ok (tt, d') → db_wf d'.
Proof.
  intros [] H. unfold put_project in H. simplify_eq.
  split; simpl; try assumption. intros i s Hs.
  destruct (decide (se_project_id s = id)) as [->|Hne].
  - rewrite lookup_insert_eq; eauto.
  - rewrite lookup_insert_ne by done; eauto.
Qed.

(** ** Sessions *)

Definition put_session (id : string) (s : session_row) : Stmt DB unit := λ d,
  let! _ := ensure (bool_decide (is_Some (projects d !! se_project_id s))) "sessions_project_id_fkey" in
  let! _ := ensure (negb (taken se_thread_id (sessions d) id (se_thread_id s))) "sessions_codex_thread_uidx" in
  let! _ := ensure (negb (taken se_key (sessions d) id (se_key s))) "sessions_idempotency_uidx" in
  let! _ := ensure (same_null (se_key s) (se_hash s)) "sessions_check" in
  let! _ := ensure ((0 <=? se_last_sequence s) && (se_last_sequence s <=? int64_max))%Z "last_session_sequence" in
  Ok (tt, set_sessions (<[id := s]> (sessions d)) d).

Definition update_session (id : string) (f : session_row → session_row) : Stmt DB bool := λ d,
  match sessions d !! id with
  | None => Ok (false, d)
  | Some s => let! r := put_session id (f s) d in Ok (true, r.2)
  end.

(** INSERT INTO runtime.sessions ... ON CONFLICT DO NOTHING *)
Definition insert_session (id : string) (s : session_row) : Stmt DB bool := λ d,
  if bool_decide (is_Some (sessions d !! id))
     || taken se_thread_id (sessions d) id (se_thread_id s)
     || taken se_key (sessions d) id (se_key s)
  then Ok (false, d)
  else let! r := put_session id s d in Ok (true, r.2).

(** A session visible to clients: neither it nor its project is archived. *)
Definition visible_session (d : DB) (s : session_row) : bool :=
  match se_archived_at s, projects d !! se_project_id s with
  | None, Some p => match pr_archived_at p with None => true | Some _ => false end
  | _, _ => false
  end.

Lemma put_session_ok id s d d' :
  put_session id s d = Ok (tt, d') → d' = set_sessions (<[id := s]> (sessions d)) d.
Proof. unfold put_session. intros H. checks H. by simplify_eq. Qed.

(** A session row written together with the event rows its cursor numbers. *)
Lemma put_session_events_wf id s ev d d' :
  db_wf d → put_session id s d = Ok (tt, d') →
  (∀ i, i ≠ id → ev !! i = session_events d !! i) →
  (∀ n, is_Some (rows ev id !! n) ↔ (1 ≤ n ≤ se_last_sequence s)%Z) →
  db_wf (set_session_events ev d').
Proof.
  intros Hwf H Hev Hseq. pose proof (put_session_ok _ _ _ _ H) as ->.
  unfold put_session in H. checks H. clear H. destruct Hwf.
  apply bool_decide_eq_true in C. apply negb_true_iff in C0, C1. apply same_null_spec in C2.
  rewrite andb_true_iff, !Z.leb_le in C3.
  split; simpl; try assumption; try (by apply unique_col_insert);
    try (intros i x Hx; destruct (decide (i = id)) as [->|];
      [rewrite lookup_insert_eq in Hx|rewrite lookup_insert_ne in Hx by done]; simplify_eq; eauto).
  - intros i r Hr. rewrite lookup_insert_is_Some'. eauto.
  - intros i m Hm. rewrite lookup_insert_is_Some'.
    destruct (decide (i = id)) as [->|]; [auto|]. rewrite Hev in Hm by done. eauto.
  - intros i x n Hx. unfold rows. destruct (decide (i = id)) as [->|].
    + rewrite lookup_insert_eq in Hx. simplify_eq. apply Hseq.
    + rewrite lookup_insert_ne in Hx by done. rewrite Hev by done. by apply wf_session_sequence.
Qed.

Lemma put_session_wf id s d d' :
  db_wf d → put_session id s d = Ok (tt, d') →
  (∀ n, is_Some (rows (session_events d) id !! n) ↔ (1 ≤ n ≤ se_last_sequence s)%Z) →
  db_wf d'.
Proof.
  intros Hwf H Hseq. pose proof (put_session_ok _ _ _ _ H) as ->.
  by apply (put_session_events_wf id s (session_events d) d _ Hwf H).
Qed.

(** An update that leaves the cursor alone. *)
Lemma update_session_wf id f d b d' :
  (∀ s, se_last_sequence (f s) = se_last_sequence s) →
  db_wf d → update_session id f d = Ok (b, d') → db_wf d'.
Proof.
  intros Hf Hwf. unfold update_session. destruct (sessions d !! id) as [s|] eqn:Es;
    [|intros; by simplify_eq].
  destruct (put_session id (f s) d) as [[[] d1]|e] eqn:E; simpl; [|done]. intros; simplify_eq.
  eapply put_session_wf; [done..|]. intros n. rewrite Hf. by apply wf_session_sequence.
Qed.

Lemma insert_session_wf id s d b d' :
  se_last_sequence s = 0%Z →
  db_wf d → insert_session id s d = Ok (b, d') → db_wf d'.
Proof.
  intros H0 Hwf. unfold insert_session. case_bool_decide as Hpk; simpl; [intros; by simplify_eq|].
  destruct (taken _ _ _ _ || taken _ _ _ _); [intros; by simplify_eq|].
  destruct (put_session id s d) as [[[] d1]|e] eqn:E; simpl; [|done]. intros; simplify_eq.
  eapply put_session_wf; [done..|]. intros n. rewrite H0. unfold rows.
  destruct (session_events d !! id) as [m|] eqn:Em.
  - by destruct Hpk; eapply wf_session_event_session.
  - simpl. rewrite lookup_empty. split; [by intros []|lia].
Qed.

(** ** Runs *)

Definition put_run (id : string) (r : run_row) : Stmt DB unit := λ d,
  let! _ := ensure (bool_decide (is_Some (sessions d !! ru_session_id r))) "runs_session_id_fkey" in
  let! _ := ensure (negb (taken run_key_col (runs d) id (run_key_col r))) "runs_session_idempotency_uidx" in
  let! _ := ensure (negb (taken ru_turn_id (runs d) id (ru_turn_id r))) "runs_codex_turn_uidx" in
  let! _ := ensure (same_null (ru_key r) (ru_hash r)) "runs_check" in
  let! _ := ensure (bool_decide (ru_status r ∈ run_statuses)) "runs_status_check" in
  let! _ := ensure ((0 <? ru_state_version r) && (ru_state_version r <=? int64_max))%Z "runs_state_version_check" in
  let! _ := ensure (0 <=? ru_persisted r)%Z "runs_persisted_through_sequence_check" in
  let! _ := ensure (match ru_final r with Some f => 0 <? f | None => true end)%Z "runs_final_sequence_check" in
  Ok (tt, set_runs (<[id := r]> (runs d)) d).

Definition insert_run (id : string) (r : run_row) : Stmt DB unit := λ d,
  let! _ := ensure (negb (bool_decide (is_Some (runs d !! id)))) "runs_pkey" in
  put_run id r d.

Definition update_run (id : string) (f : run_row → run_row) : Stmt DB bool := λ d,
  match runs d !! id with
  | None => Ok (false, d)
  | Some r => let! x := put_run id (f r) d in Ok (true, x.2)
  end.

Lemma put_run_ok id r d d' :
  put_run id r d = Ok (tt, d') → d' = set_runs (<[id := r]> (runs d)) d.
Proof. unfold put_run. intros H. checks H. by simplify_eq. Qed.

Lemma insert_run_ok id r d d' :
  insert_run id r d = Ok (tt, d') → runs d !! id = None ∧ d' = set_runs (<[id := r]> (runs d)) d.
Proof.
  unfold insert_run. intros H. checks H. apply put_run_ok in H.
  by apply negb_true_iff, bool_decide_eq_false, eq_None_not_Some in C.
Qed.

Lemma update_run_ok id f d b d' :
  update_run id f d = Ok (b, d') →
  (b = false ∧ runs d !! id = None ∧ d' = d) ∨
  (∃ r, b = true ∧ runs d !! id = Some r ∧ d' = set_runs (<[id := f r]> (runs d)) d).
Proof.
  unfold update_run. destruct (runs d !! id) as [r|]; [|intros; left; by simplify_eq].
  destruct (put_run id (f r) d) as [[[] d1]|] eqn:E; simpl; [|done].
  apply put_run_ok in E as ->. intros; simplify_eq. right. by exists r.
Qed.

Lemma put_run_wf id r d d' :
  db_wf d → put_run id r d = Ok (tt, d') → db_wf d'.
Proof.
  intros Hwf H. pose proof (put_run_ok _ _ _ _ H) as ->.
  unfold put_run in H. checks H. clear H. destruct Hwf.
  apply bool_decide_eq_true in C, C3. apply negb_true_iff in C0, C1.
  apply same_null_spec in C2. rewrite andb_true_iff, Z.ltb_lt, Z.leb_le in C4. apply Z.leb_le in C5.
  assert (∀ f, ru_final r = Some f → 0 < f)%Z as Hfinal by (intros f Hf; rewrite Hf in C6; by apply Z.ltb_lt).
  split; simpl; try assumption; try (by apply unique_col_insert);
    try (intros i x Hx; destruct (decide (i = id)) as [->|];
      [rewrite lookup_insert_eq in Hx|rewrite lookup_insert_ne in Hx by done]; simplify_eq; eauto).
  intros i m n e Hm He. rewrite lookup_insert_is_Some'.
  destruct (wf_run_event i m n e Hm He); auto.
Qed.

Lemma update_run_wf id f d b d' :
  db_wf d → update_run id f d = Ok (b, d') → db_wf d'.
Proof.
  intros Hwf. unfold update_run. destruct (runs d !! id) as [r|]; [|intros; by simplify_eq].
  destruct (put_run id (f r) d) as [[[] d1]|e] eqn:E; simpl; [|done]. intros; simplify_eq.
  by eapply put_run_wf.
Qed.

Lemma insert_run_wf id r d d' :
  db_wf d → insert_run id r d = Ok (tt, d') → db_wf d'.
Proof. intros Hwf H. unfold insert_run in H. checks H. by eapply put_run_wf. Qed.

(** ** Events *)

Section Events.
Context `{!Jsonb}.

(** INSERT INTO runtime.run_events ... ON CONFLICT(run_id,agent_sequence) DO
    NOTHING: whether a row was inserted. *)
Definition insert_run_event (now : Z) (id : string) (n : Z) (type : string) (payload : json)
    (occurred : Z) : Stmt DB bool := λ d,
  match jsonb payload with
  | None => Err (Refused "payload")
  | Some p =>
      let! _ := ensure (0 <? n)%Z "run_events_agent_sequence_check" in
      if bool_decide (is_Some (rows (run_events d) id !! n)) then Ok (false, d)
      else
        let! _ := ensure (bool_decide (is_Some (runs d !! id))) "run_events_run_id_fkey" in
        let row := mkRunEventRow type p (TruncateMicro occurred) now in
        Ok (true, set_run_events (<[id := <[n := row]> (rows (run_events d) id)]> (run_events d)) d)
  end.

Definition insert_session_event (now : Z) (id : string) (n : Z) (type : string) (payload : json)
    : Stmt DB unit := λ d,
  match jsonb payload with
  | None => Err (Refused "payload")
  | Some p =>
      let! _ := ensure (0 <? n)%Z "session_events_session_sequence_check" in
      let! _ := ensure (bool_decide (type ∈ session_event_types)) "session_events_event_type_check" in
      let! _ := ensure (negb (bool_decide (is_Some (rows (session_events d) id !! n)))) "session_events_pkey" in
      let! _ := ensure (bool_decide (is_Some (sessions d !! id))) "session_events_session_id_fkey" in
      let row := mkSessionEventRow type p now in
      Ok (tt, set_session_events
                (<[id := <[n := row]> (rows (session_events d) id)]> (session_events d)) d)
  end.
End Events.

(** UPDATE runtime.sessions SET last_session_sequence=last_session_sequence+1,
    updated_at=now() WHERE session_id=$1 RETURNING last_session_sequence *)
Definition bump_session (now : Z) (id : string) : Stmt DB Z := λ d,
  match sessions d !! id with
  | None => Err ScanError
  | Some s =>
      let n := (se_last_sequence s + 1)%Z in
      let! r := put_session id
        (mkSessionRow (se_project_id s) (se_thread_id s) (se_title s) n (se_key s) (se_hash s)
           (se_created_at s) now (se_last_seen s) (se_archived_at s)) d in
      Ok (n, r.2)
  end.

Lemma insert_run_event_ok `{J : !Jsonb} now id n type payload occurred d b d' :
  insert_run_event now id n type payload occurred d = Ok (b, d') →
  (b = false ∧ d' = d ∧ is_Some (rows (run_events d) id !! n)) ∨
  (∃ p, b = true ∧ jsonb payload = Some p ∧ (0 < n)%Z ∧ is_Some (runs d !! id)
        ∧ rows (run_events d) id !! n = None
        ∧ d' = set_run_events (<[id := <[n := mkRunEventRow type p (TruncateMicro occurred) now]>
                                   (rows (run_events d) id)]> (run_events d)) d).
Proof.
  intros Hst. unfold insert_run_event in Hst. destruct (jsonb payload) as [p|]; [|done].
  checks Hst. apply Z.ltb_lt in C.
  case_bool_decide as Hdup; [naive_solver|]. checks Hst. apply bool_decide_eq_true in C0.
  simplify_eq. right. exists p. rewrite <- eq_None_not_Some in Hdup. naive_solver.
Qed.

Lemma insert_run_event_wf `{J : !Jsonb} now id n type payload occurred d b d' :
  db_wf d → insert_run_event now id n type payload occurred d = Ok (b, d') → db_wf d'.
Proof.
  intros Hwf Hst. apply insert_run_event_ok in Hst as [(_&->&_)|(p&_&_&Hn&Hrun&_&->)]; [done|].
  destruct Hwf. split; simpl; try assumption.
  intros i m k e Hm He. destruct (decide (i = id)) as [->|].
  - rewrite lookup_insert_eq in Hm. simplify_eq. split; [done|].
    destruct (decide (k = n)) as [->|]; [done|]. rewrite lookup_insert_ne in He by done.
    unfold rows in He. destruct (run_events d !! id) as [m|] eqn:Em; simpl in He;
      [|by rewrite lookup_empty in He].
    by eapply wf_run_event.
  - rewrite lookup_insert_ne in Hm by done. eauto.
Qed.

Lemma bump_session_ok now id d n d' :
  bump_session now id d = Ok (n, d') →
  ∃ s, sessions d !! id = Some s ∧ n = (se_last_sequence s + 1)%Z ∧
    let s' := mkSessionRow (se_project_id s) (se_thread_id s) (se_title s) n (se_key s) (se_hash s)
                (se_created_at s) now (se_last_seen s) (se_archived_at s) in
    put_session id s' d = Ok (tt, d') ∧ d' = set_sessions (<[id := s']> (sessions d)) d.
Proof.
  unfold bump_session. destruct (sessions d !! id) as [s|]; [|done].
  destruct (put_session _ _ d) as [[[] d1]|] eqn:Ep; simpl; [|done]. intros; simplify_eq.
  exists s. split; [done|]. split; [done|]. split; [done|]. by apply put_session_ok.
Qed.

Lemma insert_session_event_ok `{J : !Jsonb} now id n type payload d d' :
  insert_session_event now id n type payload d = Ok (tt, d') →
  ∃ p, jsonb payload = Some p ∧ (0 < n)%Z ∧ rows (session_events d) id !! n = None ∧
    d' = set_session_events (<[id := <[n := mkSessionEventRow type p now]>
                                 (rows (session_events d) id)]> (session_events d)) d.
Proof.
  intros Hi. unfold insert_session_event in Hi. destruct (jsonb payload) as [p|]; [|done].
  checks Hi. simplify_eq. exists p. apply Z.ltb_lt in C. apply negb_true_iff, bool_decide_eq_false in C1.
  rewrite <- eq_None_not_Some in C1. done.
Qed.

(** The cursor and its event are advanced together: the numbering stays dense. *)
Lemma append_session_event_wf `{J : !Jsonb} now now' id type payload d n d1 d2 :
  db_wf d → bump_session now id d = Ok (n, d1) →
  insert_session_event now' id n type payload d1 = Ok (tt, d2) → db_wf d2.
Proof.
  intros Hwf Hb Hi. apply bump_session_ok in Hb as (s&Hs&->&Hp&Hd1).
  apply insert_session_event_ok in Hi as (p&_&_&_&->).
  rewrite Hd1 at 1 2; simpl. eapply put_session_events_wf; [done..| |].
  - intros i Hi. simpl. by rewrite lookup_insert_ne.
  - intros n. simpl. unfold rows at 1. rewrite lookup_insert_eq. simpl.
    pose proof (wf_session_sequence d Hwf id s n Hs) as Hn.
    pose proof (wf_session_cursor d Hwf id s Hs).
    rewrite lookup_insert_is_Some, Hn. split; [|destruct (decide (n = se_last_sequence s + 1)%Z)]; lia.
Qed.

(** ** The command outbox *)

Section Commands.
Context `{J : !Jsonb}.

Definition put_command (id : string) (c : command_row) : Stmt DB unit := λ d,
  let! _ := ensure (negb (taken command_col (outbox d) id (command_col c))) "outbox_command_uidx" in
  let! _ := ensure (bool_decide (co_type c ∈ command_types)) "command_outbox_command_type_check" in
  let! _ := ensure (bool_decide (co_status c ∈ command_statuses)) "command_outbox_status_check" in
  let! _ := ensure ((0 <=? co_attempts c) && (co_attempts c <=? int32_max))%Z "command_outbox_attempt_count_check" in
  let! _ := ensure (negb (String.eqb (co_status c) "delivered") || bool_decide (is_Some (co_delivered_at c)))
                   "command_outbox_check" in
  Ok (tt, set_outbox (<[id := c]> (outbox d)) d).

Definition new_command (now : Z) (type resource : string) (payload : json) : command_row :=
  mkCommandRow type resource payload "pending" 0 now None None None None now.

(** INSERT INTO runtime.command_outbox(command_id,command_type,resource_id,payload) *)
Definition insert_command (now : Z) (id type resource : string) (payload : json) : Stmt DB unit := λ d,
  match jsonb payload with
  | None => Err (Refused "payload")
  | Some p =>
      let! _ := ensure (negb (bool_decide (is_Some (outbox d !! id)))) "command_outbox_pkey" in
      put_command id (new_command now type resource p) d
  end.

(** ... ON CONFLICT(command_type,resource_id) DO NOTHING *)
Definition insert_command_once (now : Z) (id type resource : string) (payload : json) : Stmt DB unit := λ d,
  match jsonb payload with
  | None => Err (Refused "payload")
  | Some p =>
      if lookup_by (λ _ c, co_type c = type ∧ co_resource_id c = resource) (outbox d) is Some _
      then Ok (tt, d)
      else insert_command now id type resource payload d
  end.

Definition update_command (id : string) (f : command_row → command_row) : Stmt DB bool := λ d,
  match outbox d !! id with
  | None => Ok (false, d)
  | Some c => let! x := put_command id (f c) d in Ok (true, x.2)
  end.
End Commands.

Lemma put_command_ok id c d d' :
  put_command id c d = Ok (tt, d') → d' = set_outbox (<[id := c]> (outbox d)) d.
Proof. unfold put_command. intros H. checks H. by simplify_eq. Qed.

Lemma put_command_wf id c d d' :
  db_wf d → put_command id c d = Ok (tt, d') → db_wf d'.
Proof.
  intros Hwf H. pose proof (put_command_ok _ _ _ _ H) as ->.
  unfold put_command in H. checks H. clear H. destruct Hwf.
  apply negb_true_iff in C. apply bool_decide_eq_true in C0, C1.
  rewrite andb_true_iff, !Z.leb_le in C2. rewrite orb_true_iff, negb_true_iff in C3.
  rewrite bool_decide_eq_true in C3.
  split; simpl; try assumption; try (by apply unique_col_insert).
  intros i x Hx; destruct (decide (i = id)) as [->|];
    [rewrite lookup_insert_eq in Hx|rewrite lookup_insert_ne in Hx by done]; simplify_eq; [|eauto].
  repeat split; try done; [|lia]. intros Hd. destruct C3 as [C3|]; [|done].
  by rewrite Hd in C3.
Qed.

Lemma insert_command_ok `{J : !Jsonb} now id type resource payload d d' :
  insert_command now id type resource payload d = Ok (tt, d') →
  ∃ p, jsonb payload = Some p ∧ outbox d !! id = None ∧
    put_command id (new_command now type resource p) d = Ok (tt, d') ∧
    d' = set_outbox (<[id := new_command now type resource p]> (outbox d)) d.
Proof.
  intros H. unfold insert_command in H. destruct (jsonb payload) as [p|]; [|done].
  checks H. apply negb_true_iff, bool_decide_eq_false in C. rewrite <- eq_None_not_Some in C.
  exists p. repeat split; try done. by apply put_command_ok.
Qed.

Lemma insert_command_wf `{J : !Jsonb} now id type resource payload d d' :
  db_wf d → insert_command now id type resource payload d = Ok (tt, d') → db_wf d'.
Proof. intros Hwf (p&_&_&H&_)%insert_command_ok. by eapply put_command_wf. Qed.

Lemma insert_command_once_wf `{J : !Jsonb} now id type resource payload d d' :
  db_wf d → insert_command_once now id type resource payload d = Ok (tt, d') → db_wf d'.
Proof.
  intros Hwf H. unfold insert_command_once in H. destruct (jsonb payload); [|done].
  destruct (lookup_by _ _); [by simplify_eq|by eapply insert_command_wf].
Qed.

Lemma update_command_wf id f d b d' :
  db_wf d → update_command id f d = Ok (b, d') → db_wf d'.
Proof.
  intros Hwf. unfold update_command. destruct (outbox d !! id) as [c|]; [|intros; by simplify_eq].
  destruct (put_command id (f c) d) as [[[] d1]|e] eqn:E; simpl; [|done]. intros; simplify_eq.
  by eapply put_command_wf.
Qed.

(** ** Sync jobs *)

Definition put_sync (id : string) (s : sync_row) : Stmt DB unit := λ d,
  let! _ := ensure (negb (taken sync_key_col (sync_jobs d) id (sync_key_col s))) "sync_jobs_idempotency_key_key" in
  let! _ := ensure (negb (taken sync_active_col (sync_jobs d) id (sync_active_col s))) "sync_jobs_one_active_uidx" in
  let! _ := ensure (bool_decide (sy_status s ∈ sync_statuses)) "sync_jobs_status_check" in
  let! _ := ensure ((-1 <=? sy_last_batch s) && (sy_last_batch s <=? int64_max))%Z "sync_jobs_last_committed_batch_no_check" in
  let! _ := ensure ((0 <=? sy_item_count s) && (sy_item_count s <=? int64_max))%Z "sync_jobs_item_count_check" in
  let! _ := ensure ((0 <=? sy_total s) && (sy_total s <=? int64_max))%Z "sync_jobs_total_sessions_check" in
  let! _ := ensure ((0 <=? sy_processed s) && (sy_processed s <=? int64_max))%Z "sync_jobs_processed_sessions_check" in
  let! _ := ensure ((0 <=? sy_archived_sessions s) && (sy_archived_sessions s <=? int64_max))%Z "sync_jobs_archived_sessions_check" in
  let! _ := ensure ((0 <=? sy_archived_projects s) && (sy_archived_projects s <=? int64_max))%Z "sync_jobs_archived_projects_check" in
  Ok (tt, set_sync_jobs (<[id := s]> (sync_jobs d)) d).

Definition insert_sync (id : string) (s : sync_row) : Stmt DB unit := λ d,
  let! _ := ensure (negb (bool_decide (is_Some (sync_jobs d !! id)))) "sync_jobs_pkey" in
  put_sync id s d.

Definition update_sync (id : string) (f : sync_row → sync_row) : Stmt DB bool := λ d,
  match sync_jobs d !! id with
  | None => Ok (false, d)
  | Some s => let! x := put_sync id (f s) d in Ok (true, x.2)
  end.

Lemma put_sync_ok id s d d' :
  put_sync id s d = Ok (tt, d') → d' = set_sync_jobs (<[id := s]> (sync_jobs d)) d.
Proof. unfold put_sync. intros H. checks H. by simplify_eq. Qed.

Lemma put_sync_wf id s d d' :
  db_wf d → put_sync id s d = Ok (tt, d') → db_wf d'.
Proof.
  intros Hwf H. pose proof (put_sync_ok _ _ _ _ H) as ->.
  unfold put_sync in H. checks H. clear H. destruct Hwf.
  apply negb_true_iff in C, C0. apply bool_decide_eq_true in C1.
  rewrite andb_true_iff, !Z.leb_le in C2, C3, C4, C5, C6, C7.
  split; simpl; try assumption; try (by apply unique_col_insert).
  intros i x Hx; destruct (decide (i = id)) as [->|];
    [rewrite lookup_insert_eq in Hx|rewrite lookup_insert_ne in Hx by done]; simplify_eq; [|eauto].
  split_and!; [done|lia..].
Qed.

Lemma insert_sync_wf id s d d' :
  db_wf d → insert_sync id s d = Ok (tt, d') → db_wf d'.
Proof. intros Hwf H. unfold insert_sync in H. checks H. by eapply put_sync_wf. Qed.

Lemma insert_sync_ok id s d d' :
  insert_sync id s d = Ok (tt, d') → sync_jobs d !! id = None ∧ d' = set_sync_jobs (<[id := s]> (sync_jobs d)) d.
Proof.
  unfold insert_sync. intros H. checks H. apply put_sync_ok in H.
  by apply negb_true_iff, bool_decide_eq_false, eq_None_not_Some in C.
Qed.

Lemma update_sync_ok id f d b d' :
  update_sync id f d = Ok (b, d') →
  (b = false ∧ sync_jobs d !! id = None ∧ d' = d) ∨
  (∃ s, b = true ∧ sync_jobs d !! id = Some s ∧ d' = set_sync_jobs (<[id := f s]> (sync_jobs d)) d).
Proof.
  unfold update_sync. destruct (sync_jobs d !! id) as [s|]; [|intros; left; by simplify_eq].
  destruct (put_sync id (f s) d) as [[[] d1]|] eqn:E; simpl; [|done].
  apply put_sync_ok in E as ->. intros; simplify_eq. right. by exists s.
Qed.

Lemma update_sync_wf id f d b d' :
  db_wf d → update_sync id f d = Ok (b, d') → db_wf d'.
Proof.
  intros Hwf. unfold update_sync. destruct (sync_jobs d !! id) as [s|]; [|intros; by simplify_eq].
  destruct (put_sync id (f s) d) as [[[] d1]|e] eqn:E; simpl; [|done]. intros; simplify_eq.
  by eapply put_sync_wf.
Qed.
