(* ===== verification/RuntimeHistory.v ===== *)
(** * What the runtime store never undoes

    [grows d d']: rows are never deleted, the identity of a session, run,
    command or sync job (its idempotency key and request hash, a command's
    content, a session's Codex thread once known) never changes, versions and
    cursors never go back, and session events are append-only.  [good] adds the
    invariant of the schema.  Every statement of the store is [good]; only the
    two statements that advance a session's cursor and write its event are so
    together. *)

From S2P Require Import Prelude GoStd GoTime Json.
From S2P Require Import Sql Tables RuntimeDB RuntimeSql.
#[local] Open Scope string_scope.

Record session_le (s s' : session_row) : Prop := {
  sl_key : se_key s' = se_key s;
  sl_hash : se_hash s' = se_hash s;
  sl_created : se_created_at s' = se_created_at s;
  sl_thread : sticky (se_thread_id s) (se_thread_id s');
  sl_cursor : (se_last_sequence s ≤ se_last_sequence s')%Z;
}.

Record run_le (r r' : run_row) : Prop := {
  rl_key : ru_key r' = ru_key r;
  rl_hash : ru_hash r' = ru_hash r;
  rl_profile : ru_profile r' = ru_profile r;
  rl_version : (ru_state_version r ≤ ru_state_version r')%Z;
}.

Record command_le (c c' : command_row) : Prop := {
  cl_type : co_type c' = co_type c;
  cl_resource : co_resource_id c' = co_resource_id c;
  cl_payload : co_payload c' = co_payload c;
  cl_created : co_created_at c' = co_created_at c;
  cl_attempts : (co_attempts c ≤ co_attempts c')%Z;
}.

Record sync_le (s s' : sync_row) : Prop := {
  yl_key : sy_key s' = sy_key s;
  yl_created : sy_created_at s' = sy_created_at s;
  yl_batch : (sy_last_batch s ≤ sy_last_batch s')%Z;
  yl_items : (sy_item_count s ≤ sy_item_count s')%Z;
  yl_total : (sy_total s ≤ sy_total s')%Z;
  yl_processed : (sy_processed s ≤ sy_processed s')%Z;
  yl_reconciled : sy_reconciled s = true → sy_reconciled s' = true;
}.

#[export] Instance session_le_preorder : PreOrder session_le.
Proof. row_preorder. Qed.
#[export] Instance run_le_preorder : PreOrder run_le.
Proof. row_preorder. Qed.
#[export] Instance command_le_preorder : PreOrder command_le.
Proof. row_preorder. Qed.
#[export] Instance sync_le_preorder : PreOrder sync_le.
Proof. row_preorder. Qed.

Record grows (d d' : DB) : Prop := {
  g_projects : table_le (λ _ _, True) (projects d) (projects d');
  g_sessions : table_le session_le (sessions d) (sessions d');
  g_runs : table_le run_le (runs d) (runs d');
  g_session_events : ∀ i, rows (session_events d) i ⊆ rows (session_events d') i;
  g_outbox : table_le command_le (outbox d) (outbox d');
  g_sync : table_le sync_le (sync_jobs d) (sync_jobs d');
}.

#[export] Instance grows_preorder : PreOrder grows.
Proof.
  split.
  - intros d. split; intros; reflexivity.
  - intros d1 d2 d3 [] []. split; intros; etrans; eauto.
Qed.

Definition good (d d' : DB) : Prop := db_wf d → db_wf d' ∧ grows d d'.

#[export] Instance good_preorder : PreOrder good.
Proof.
  split.
  - intros d Hwf. split; [done|reflexivity].
  - intros d1 d2 d3 H1 H2 Hwf. destruct (H1 Hwf) as [Hwf2 ?]. destruct (H2 Hwf2).
    split; [done|by etrans].
Qed.

(** ** The statements *)

Lemma put_project_good id p : stmt_guar good (put_project id p).
Proof.
  intros d [] d' H Hwf. split; [by eapply put_project_wf|].
  unfold put_project in H. simplify_eq. split; simpl; intros; try reflexivity.
  by apply table_le_insert; [apply _|].
Qed.

Lemma upsert_project_good now id name seen : stmt_guar good (upsert_project now id name seen).
Proof.
  intros d a d' H. unfold upsert_project in H.
  destruct (projects d !! id); by eapply put_project_good.
Qed.

Lemma put_session_grows id s d d' :
  put_session id s d = Ok (tt, d') → (∀ x, sessions d !! id = Some x → session_le x s) → grows d d'.
Proof.
  intros ->%put_session_ok Hle. split; simpl; intros; try reflexivity.
  apply table_le_insert; [apply _|done].
Qed.

Lemma update_session_good id f :
  (∀ s, session_le s (f s)) → (∀ s, se_last_sequence (f s) = se_last_sequence s) →
  stmt_guar good (update_session id f).
Proof.
  intros Hle Hf d b d' H Hwf. split; [by eapply update_session_wf|].
  unfold update_session in H. destruct (sessions d !! id) as [s|] eqn:Es; [|by simplify_eq].
  destruct (put_session id (f s) d) as [[[] d1]|e] eqn:E; simpl in H; [|done]. simplify_eq.
  eapply put_session_grows; [done|]. intros x Hx. rewrite Es in Hx. by simplify_eq.
Qed.

Lemma insert_session_good id s :
  se_last_sequence s = 0%Z → stmt_guar good (insert_session id s).
Proof.
  intros H0 d b d' H Hwf. split; [by eapply insert_session_wf|].
  unfold insert_session in H. case_bool_decide as Hpk; simpl in H; [by simplify_eq|].
  destruct (taken _ _ _ _ || taken _ _ _ _); [by simplify_eq|].
  destruct (put_session id s d) as [[[] d1]|e] eqn:E; simpl in H; [|done]. simplify_eq.
  eapply put_session_grows; [done|]. intros x Hx. destruct Hpk; eauto.
Qed.

Lemma put_run_grows id r d d' :
  put_run id r d = Ok (tt, d') → (∀ x, runs d !! id = Some x → run_le x r) → grows d d'.
Proof.
  intros ->%put_run_ok Hle. split; simpl; intros; try reflexivity.
  apply table_le_insert; [apply _|done].
Qed.

Lemma insert_run_good id r : stmt_guar good (insert_run id r).
Proof.
  intros d [] d' H Hwf. split; [by eapply insert_run_wf|].
  unfold insert_run in H. checks H. apply negb_true_iff, bool_decide_eq_false in C.
  eapply put_run_grows; [done|]. intros x Hx. destruct C; eauto.
Qed.

Lemma update_run_good id f : (∀ r, run_le r (f r)) → stmt_guar good (update_run id f).
Proof.
  intros Hle d b d' H Hwf. split; [by eapply update_run_wf|].
  unfold update_run in H. destruct (runs d !! id) as [r|] eqn:Er; [|by simplify_eq].
  destruct (put_run id (f r) d) as [[[] d1]|e] eqn:E; simpl in H; [|done]. simplify_eq.
  eapply put_run_grows; [done|]. intros x Hx. rewrite Er in Hx. by simplify_eq.
Qed.

Lemma put_command_grows id c d d' :
  put_command id c d = Ok (tt, d') → (∀ x, outbox d !! id = Some x → command_le x c) → grows d d'.
Proof.
  intros ->%put_command_ok Hle. split; simpl; intros; try reflexivity.
  apply table_le_insert; [apply _|done].
Qed.

Lemma update_command_good id f : (∀ c, command_le c (f c)) → stmt_guar good (update_command id f).
Proof.
  intros Hle d b d' H Hwf. split; [by eapply update_command_wf|].
  unfold update_command in H. destruct (outbox d !! id) as [r|] eqn:Er; [|by simplify_eq].
  destruct (put_command id (f r) d) as [[[] d1]|e] eqn:E; simpl in H; [|done]. simplify_eq.
  eapply put_command_grows; [done|]. intros x Hx. rewrite Er in Hx. by simplify_eq.
Qed.

Lemma put_sync_grows id s d d' :
  put_sync id s d = Ok (tt, d') → (∀ x, sync_jobs d !! id = Some x → sync_le x s) → grows d d'.
Proof.
  intros ->%put_sync_ok Hle. split; simpl; intros; try reflexivity.
  apply table_le_insert; [apply _|done].
Qed.

Lemma insert_sync_good id s : stmt_guar good (insert_sync id s).
Proof.
  intros d [] d' H Hwf. split; [by eapply insert_sync_wf|].
  unfold insert_sync in H. checks H. apply negb_true_iff, bool_decide_eq_false in C.
  eapply put_sync_grows; [done|]. intros x Hx. destruct C; eauto.
Qed.

Lemma update_sync_good id f d b d' :
  (∀ s, sync_jobs d !! id = Some s → sync_le s (f s)) → update_sync id f d = Ok (b, d') → good d d'.
Proof.
  intros Hle H Hwf. split; [by eapply update_sync_wf|].
  unfold update_sync in H. destruct (sync_jobs d !! id) as [r|] eqn:Er; [|by simplify_eq].
  destruct (put_sync id (f r) d) as [[[] d1]|e] eqn:E; simpl in H; [|done]. simplify_eq.
  eapply put_sync_grows; [done|]. intros x Hx. rewrite Er in Hx. simplify_eq. by apply Hle.
Qed.

Section Events.
Context `{J : !Jsonb}.

Lemma insert_run_event_good now id n type payload occurred :
  stmt_guar good (insert_run_event now id n type payload occurred).
Proof.
  intros d b d' Hst Hwf. split; [by eapply insert_run_event_wf|].
  apply insert_run_event_ok in Hst as [(_&->&_)|(p&_&_&_&_&_&->)]; [reflexivity|].
  split; simpl; intros; reflexivity.
Qed.

Lemma append_session_event_good now now' id type payload d n d1 u d2 :
  bump_session now id d = Ok (n, d1) →
  insert_session_event now' id n type payload d1 = Ok (u, d2) → good d d2.
Proof.
  destruct u. intros Hb Hi Hwf. split; [by eapply append_session_event_wf|].
  apply bump_session_ok in Hb as (s&Hs&->&Hp&_).
  etrans; [eapply put_session_grows; [exact Hp|]|].
  - intros x Hx. rewrite Hs in Hx. simplify_eq. split; simpl; unfold sticky; auto; lia.
  - apply insert_session_event_ok in Hi as (p&_&_&Hnone&->).
    split; simpl; intros; try reflexivity. unfold rows at 2.
    destruct (decide (i = id)) as [->|]; [rewrite lookup_insert_eq|by rewrite lookup_insert_ne].
    by apply insert_subseteq.
Qed.

Lemma insert_command_good now id type resource payload :
  stmt_guar good (insert_command now id type resource payload).
Proof.
  intros d [] d' H Hwf. split; [by eapply insert_command_wf|].
  apply insert_command_ok in H as (p&_&Hnone&H&_).
  eapply put_command_grows; [done|]. intros x Hx. congruence.
Qed.

Lemma insert_command_once_good now id type resource payload :
  stmt_guar good (insert_command_once now id type resource payload).
Proof.
  intros d [] d' H. unfold insert_command_once in H. destruct (jsonb payload); [|done].
  destruct (lookup_by _ _); [by simplify_eq|by eapply insert_command_good].
Qed.
End Events.

#[export] Hint Resolve put_project_good upsert_project_good insert_session_good
  insert_run_good insert_run_event_good insert_command_good insert_command_once_good
  insert_sync_good : guar.
