(* ===== verification/RunStore.v ===== *)
(** * internal/runtime/postgres.go: projects, sessions, runs and their events

    One definition per method of PostgresStore on projects, sessions, runs and
    event streams.  [now] is the server clock now() of the call's transaction,
    [clock] the relay's time.Now(), and the [r] arguments are the 16 bytes each
    newID reads from crypto/rand. *)

From S2P Require Import Prelude GoStd GoTime Json Payloads.
From S2P Require Import Sql Tables RuntimeDB RuntimeSql RuntimeHistory.
#[local] Open Scope string_scope.

(** The error values of the store. *)
Inductive rt_error :=
| ErrNotFound
| ErrIdempotencyConflict
| ErrPageLimit
| ErrBatchOrder (batch last : Z)
| EDb (e : dberr).

#[export] Instance rt_from_db : FromDb rt_error := EDb.

Notation ROp := (Op DB rt_error).
Notation RTx := (Tx DB rt_error).

(** ** internal/runtime/types.go *)

Record Project := mkProject { p_ID : string; p_DisplayName : string }.

Record Session := mkSession {
  s_ID : string; s_ProjectID : string; s_CodexThreadID : string; s_Title : string;
  s_LastSessionSequence : Z; s_LatestRunStatus : string; s_CreatedAt : Z; s_UpdatedAt : Z }.

Record RunEvent := mkRunEvent {
  re_Sequence : Z; re_Type : string; re_Payload : json; re_OccurredAt : Z }.

Record SessionEvent := mkSessionEvent {
  e_Sequence : Z; e_Type : string; e_Payload : json; e_CreatedAt : Z }.

Record Run := mkRun {
  r_ID : string; r_SessionID : string; r_CodexTurnID : string; r_Status : string;
  r_StateVersion : Z; r_Prompt : string; r_PermissionProfileID : string;
  r_CancelRequestedAt : option Z; r_PersistedThroughSequence : Z; r_FinalSequence : option Z;
  r_ErrorCode : string; r_ErrorMessage : string; r_CreatedAt : Z; r_StartedAt : option Z;
  r_FinishedAt : option Z; r_UpdatedAt : Z; r_Events : list RunEvent }.

(** COALESCE(column,'') and NULLIF(value,'') *)
Definition coalesce (c : option string) : string := default "" c.
Definition nullif (s : string) : option string := if String.eqb s "" then None else Some s.

Definition newID (prefix : string) (random : list Z) : string :=
  prefix +:+ "_" +:+ EncodeToString random.

(** scanRun over the columns of runSelect *)
Definition scanRun (id : string) (r : run_row) : Run :=
  mkRun id (ru_session_id r) (coalesce (ru_turn_id r)) (ru_status r) (ru_state_version r)
    (coalesce (ru_prompt r)) (coalesce (ru_profile r)) (ru_cancel_requested_at r)
    (ru_persisted r) (ru_final r) (coalesce (ru_error_code r)) (coalesce (ru_error_message r))
    (ru_created_at r) (ru_started_at r) (ru_finished_at r) (ru_updated_at r) [].

Definition scanSession (id : string) (s : session_row) : Session :=
  mkSession id (se_project_id s) (coalesce (se_thread_id s)) (coalesce (se_title s))
    (se_last_sequence s) "" (se_created_at s) (se_updated_at s).

Definition scanRunEvent (x : Z * run_event_row) : RunEvent :=
  mkRunEvent x.1 (rev_type x.2) (rev_payload x.2) (rev_occurred_at x.2).
Definition scanSessionEvent (x : Z * session_event_row) : SessionEvent :=
  mkSessionEvent x.1 (sev_type x.2) (sev_payload x.2) (sev_created_at x.2).

Section Store.
Context {J : Jsonb}.

(** ** Projects *)

Definition UpsertProjects (now : Z) (ps : list Project) : ROp unit :=
  match ps with
  | [] => ret tt
  | _ => run_tx (
      let! _ := for_each ps (λ p,
        if String.eqb (TrimSpace (p_ID p)) "" || String.eqb (TrimSpace (p_DisplayName p)) ""
        then ret tt
        else tx_stmt (upsert_project now (p_ID p) (p_DisplayName p) None)) in
      ret (Commit tt))
  end.

(** ** Sessions *)

Record keyedSession := mkKeyed { ks_session : Session; ks_hash : string }.

Definition select_session_by_key (key : string) : Stmt DB (option keyedSession) := λ d,
  match lookup_by (λ _ s, se_key s = Some key ∧ visible_session d s = true) (sessions d) with
  | None => Ok (None, d)
  | Some (id, s) =>
      match se_hash s with
      | Some h => Ok (Some (mkKeyed (scanSession id s) h), d)
      | None => Err ScanError
      end
  end.

Definition sessionByKey (key : string) : ROp keyedSession :=
  let! found := pool_stmt (select_session_by_key key) in
  match found with Some k => ret k | None => fail ErrNotFound end.

(** INSERT ... SELECT ... FROM runtime.projects WHERE project_id=$2 AND
    archived_at IS NULL ON CONFLICT DO NOTHING RETURNING ... *)
Definition insert_new_session (now : Z) (id projectID title key hash : string)
    : Stmt DB (option Session) := λ d,
  match projects d !! projectID with
  | Some p =>
      match pr_archived_at p with
      | None =>
          let row := mkSessionRow projectID None (Some title) 0 (Some key) (Some hash) now now None None in
          let! (inserted, d') := insert_session id row d in
          Ok (if (inserted : bool) then Some (scanSession id row) else None, d')
      | Some _ => Ok (None, d)
      end
  | None => Ok (None, d)
  end.

Definition CreateSession (now : Z) (r : list Z) (projectID title key hash : string)
    : ROp (Session * bool) :=
  let! existing := attempt (sessionByKey key) in
  match existing with
  | Ok existing =>
      if negb (String.eqb hash (ks_hash existing)) then fail ErrIdempotencyConflict
      else ret (ks_session existing, false)
  | Err ErrNotFound =>
      let id := newID "session" r in
      let! item := pool_stmt (insert_new_session now id projectID title key hash) in
      match item with
      | Some item => ret (item, true)
      | None =>
          let! existing := sessionByKey key in
          if negb (String.eqb hash (ks_hash existing)) then fail ErrIdempotencyConflict
          else ret (ks_session existing, false)
      end
  | Err e => fail e
  end.

Definition GetSession (id : string) : ROp Session :=
  let! found := pool_stmt (query (λ d,
    match sessions d !! id with
    | Some s => if visible_session d s then Some (scanSession id s) else None
    | None => None
    end)) in
  match found with Some s => ret s | None => fail ErrNotFound end.

(** ** Event streams *)

Definition ListRunEvents (runID : string) (cursor : Z) : ROp (list RunEvent) :=
  pool_stmt (query (λ d, map scanRunEvent (after cursor (entries (rows (run_events d) runID))))).

Definition ListSessionEvents (sessionID : string) (cursor : Z) : ROp (list SessionEvent) :=
  pool_stmt (query (λ d, map scanSessionEvent (after cursor (entries (rows (session_events d) sessionID))))).

(** The rows a page reads: one more than its size, to know if more follow. *)
Definition page {A} (limit : Z) (l : list A) : list A * bool :=
  let result := take (Z.to_nat (limit + 1)) l in
  let hasMore := (limit <? Z.of_nat (length result))%Z in
  (if hasMore then take (Z.to_nat limit) result else result, hasMore).

Definition ListRunEventsPage (runID : string) (cursor limit : Z) : ROp (list RunEvent * bool) :=
  if (limit <? 1)%Z then fail ErrPageLimit else
  pool_stmt (query (λ d,
    page limit (map scanRunEvent (after cursor (entries (rows (run_events d) runID)))))).

Definition ListSessionEventsPage (sessionID : string) (cursor limit : Z)
    : ROp (list SessionEvent * bool) :=
  if (limit <? 1)%Z then fail ErrPageLimit else
  pool_stmt (query (λ d,
    page limit (map scanSessionEvent (after cursor (entries (rows (session_events d) sessionID)))))).

(** ** Runs *)

Definition GetRun (id : string) (withEvents : bool) : ROp Run :=
  let! item := pool_stmt (query (λ d, scanRun id <$> runs d !! id)) in
  match item with
  | None => fail ErrNotFound
  | Some item =>
      if withEvents then
        let! events := ListRunEvents id 0 in
        ret (mkRun (r_ID item) (r_SessionID item) (r_CodexTurnID item) (r_Status item)
               (r_StateVersion item) (r_Prompt item) (r_PermissionProfileID item)
               (r_CancelRequestedAt item) (r_PersistedThroughSequence item)
               (r_FinalSequence item) (r_ErrorCode item) (r_ErrorMessage item)
               (r_CreatedAt item) (r_StartedAt item) (r_FinishedAt item) (r_UpdatedAt item)
               events)
      else ret item
  end.

(** The next event of a session: the cursor and the row, two statements. *)
Definition append_session_event (now : Z) (sessionID type : string) (payload : json) : RTx Z :=
  let! sequence := tx_stmt (bump_session now sessionID) in
  let! _ := tx_stmt (insert_session_event now sessionID sequence type payload) in
  ret sequence.

Definition run_created_payload (sessionID runID : string) (created : Z) : json :=
  JObj [("occurred_at", JStr (FormatRFC3339Nano created)); ("run_id", JStr runID);
        ("schema_version", JInt 1); ("session_id", JStr sessionID); ("status", JStr "queued")].

Definition run_status_payload (sessionID runID status : string) : json :=
  JObj [("run_id", JStr runID); ("schema_version", JInt 1); ("session_id", JStr sessionID);
        ("status", JStr status)].

Definition runStartCommandPayload
    (commandID runID projectID threadID prompt permissionProfileID : string) : json :=
  JObj [("command_id", JStr commandID); ("permission_profile_id", JStr permissionProfileID);
        ("project_id", JStr projectID); ("prompt", JStr prompt); ("run_id", JStr runID);
        ("thread_id", JStr threadID)].

Definition find_run_by_key (sessionID key : string) (d : DB) : option (string * run_row) :=
  lookup_by (λ _ r, ru_session_id r = sessionID ∧ ru_key r = Some key) (runs d).

Definition queued_run (now : Z) (sessionID prompt profile key hash : string) : run_row :=
  mkRunRow sessionID None "queued" 1 (Some key) (Some hash) (Some prompt) (nullif profile)
    None 0 None None None now None None now.

(** The id and request hash of the run a key already names. *)
Definition select_run_key (sessionID key : string) : Stmt DB (option (string * string)) := λ d,
  match find_run_by_key sessionID key d with
  | None => Ok (None, d)
  | Some (id, r) => match ru_hash r with Some h => Ok (Some (id, h), d) | None => Err ScanError end
  end.

(** The transaction of CreateRun: the new run, or the id of the one that has
    the key. *)
Definition create_run_tx (now : Z) (r1 r2 : list Z)
    (sessionID prompt permissionProfileID key hash : string) : RTx (TxEnd (Run * Z + string)) :=
  let! session := tx_stmt (query (λ d,
    match sessions d !! sessionID with
    | Some s => if visible_session d s then Some (se_project_id s, coalesce (se_thread_id s)) else None
    | None => None
    end)) in
  match session with
  | None => fail ErrNotFound
  | Some (projectID, threadID) =>
      let! existing := tx_stmt (select_run_key sessionID key) in
      match existing with
      | Some (existingID, storedHash) =>
          if negb (String.eqb storedHash hash) then fail ErrIdempotencyConflict
          else ret (Rollback (inr existingID))
      | None =>
          let runID := newID "run" r1 in
          let commandID := newID "cmd" r2 in
          let row := queued_run now sessionID prompt permissionProfileID key hash in
          let! _ := tx_stmt (insert_run runID row) in
          let item := scanRun runID row in
          let! sequence := append_session_event now sessionID "run.created"
                             (run_created_payload sessionID runID (r_CreatedAt item)) in
          let! _ := tx_stmt (insert_command now commandID "run.start" runID
                      (runStartCommandPayload commandID runID projectID threadID prompt
                         permissionProfileID)) in
          ret (Commit (inl (item, sequence)))
      end
  end.

Definition CreateRun (now : Z) (r1 r2 : list Z)
    (sessionID prompt permissionProfileID key hash : string) : ROp (Run * Z * bool) :=
  let! existing := pool_stmt (query (λ d, fst <$> find_run_by_key sessionID key d)) in
  match existing with
  | Some existingID =>
      let! storedHash := pool_stmt (λ d,
        match runs d !! existingID ≫= ru_hash with Some h => Ok (h, d) | None => Err ScanError end) in
      if negb (String.eqb storedHash hash) then fail ErrIdempotencyConflict
      else let! item := GetRun existingID false in ret (item, 0%Z, false)
  | None =>
      let! done := run_tx (create_run_tx now r1 r2 sessionID prompt permissionProfileID key hash) in
      match done with
      | inl (item, sequence) => ret (item, sequence, true)
      | inr existingID => let! item := GetRun existingID false in ret (item, 0%Z, false)
      end
  end.

(** UPDATE runtime.runs SET cancel_requested_at=$2,state_version=state_version+1,
    updated_at=$2 *)
Definition cancel_row (at_ : Z) (r : run_row) : run_row :=
  mkRunRow (ru_session_id r) (ru_turn_id r) (ru_status r) (ru_state_version r + 1)
    (ru_key r) (ru_hash r) (ru_prompt r) (ru_profile r) (Some at_) (ru_persisted r)
    (ru_final r) (ru_error_code r) (ru_error_message r) (ru_created_at r)
    (ru_started_at r) (ru_finished_at r) at_.

Definition run_cancel_payload (id threadID turnID : string) : json :=
  JObj [("run_id", JStr id); ("thread_id", JStr threadID); ("turn_id", JStr turnID)].

(** The Codex thread and turn of a run. *)
Definition select_run_thread (id : string) : Stmt DB (string * string) := λ d,
  match runs d !! id with
  | Some r => match sessions d !! ru_session_id r with
              | Some s => Ok ((coalesce (se_thread_id s), coalesce (ru_turn_id r)), d)
              | None => Err ScanError
              end
  | None => Err ScanError
  end.

(** Nothing is left to cancel. *)
Definition cancel_settled (item : Run) : bool :=
  (if r_CancelRequestedAt item is Some _ then true else false) || isTerminal (r_Status item).

(** The transaction of RequestCancel; [Some item] when there is nothing to do. *)
Definition request_cancel_tx (now clock : Z) (r : list Z) (id : string)
    : RTx (TxEnd (option Run)) :=
  let! item := tx_stmt (query (λ d, scanRun id <$> runs d !! id)) in
  match item with
  | None => fail ErrNotFound
  | Some item =>
      if cancel_settled item then ret (Commit (Some item))
      else
        let! ids := tx_stmt (select_run_thread id) in
        let '(threadID, turnID) := ids in
        let! _ := tx_stmt (update_run id (cancel_row (TruncateMicro clock))) in
        let! _ := tx_stmt (insert_command_once now (newID "cmd" r) "run.cancel" id
                             (run_cancel_payload id threadID turnID)) in
        ret (Commit None)
  end.

Definition RequestCancel (now clock : Z) (r : list Z) (id : string) : ROp Run :=
  let! done := run_tx (request_cancel_tx now clock r id) in
  match done with Some item => ret item | None => GetRun id false end.

(** ** Agent events *)

Definition statusForEvent (event : string) : string * bool :=
  if String.eqb event "run.accepted" then ("accepted", false)
  else if String.eqb event "turn.started" then ("running", false)
  else if String.eqb event "turn.completed" then ("completed", true)
  else if String.eqb event "turn.failed" then ("failed", true)
  else if String.eqb event "turn.interrupted" then ("canceled", true)
  else ("", false).

(** The assignments of the UPDATE that AppendAgentEvent builds. *)
Definition advance_run (now sequence : Z) (eventType turnID : string) (r : run_row) : run_row :=
  let '(status, terminal) := statusForEvent eventType in
  let started := String.eqb eventType "turn.started" in
  let changed := negb (String.eqb status "") in
  mkRunRow (ru_session_id r)
    (if started then Some turnID else ru_turn_id r)
    (if changed then status else ru_status r)
    (if changed then ru_state_version r + 1 else ru_state_version r)%Z
    (ru_key r) (ru_hash r) (ru_prompt r) (ru_profile r) (ru_cancel_requested_at r)
    (Z.max (ru_persisted r) sequence)
    (if terminal then Some sequence else ru_final r)
    (ru_error_code r) (ru_error_message r) (ru_created_at r)
    (if started then match ru_started_at r with None => Some now | s => s end else ru_started_at r)
    (if terminal then Some now else ru_finished_at r)
    now.

Definition set_thread (now : Z) (threadID : string) (s : session_row) : session_row :=
  mkSessionRow (se_project_id s)
    (match se_thread_id s with None => Some threadID | t => t end)
    (se_title s) (se_last_sequence s) (se_key s) (se_hash s) (se_created_at s) now
    (se_last_seen s) (se_archived_at s).

(** UPDATE runtime.sessions ... WHERE session_id=(SELECT session_id FROM
    runtime.runs WHERE run_id=$1) *)
Definition update_session_of_run (runID : string) (f : session_row → session_row) : Stmt DB bool := λ d,
  match runs d !! runID with
  | Some r => update_session (ru_session_id r) f d
  | None => Ok (false, d)
  end.

Definition session_event_type (status : string) : string :=
  if String.eqb status "completed" then "run.completed" else "run.status.changed".

Definition append_event_tx (now clock : Z) (runID : string) (sequence : Z)
    (eventType : string) (payload : RawMessage) (occurred : string) : RTx (TxEnd unit) :=
  let when := match ParseRFC3339 occurred with Some t => t | None => clock end in
  let! inserted := tx_stmt (λ d,
    match payload with
    | Raw p => insert_run_event now runID sequence eventType p when d
    | RawNil => Err (Refused "payload")
    end) in
  if negb inserted then ret (Rollback tt) else
  let '(status, _) := statusForEvent eventType in
  let p := fst (Unmarshal zero_TurnRef dec_TurnRef payload) in
  let! _ := if String.eqb eventType "turn.started"
            then let! _ := tx_stmt (update_session_of_run runID (set_thread now (tr_ThreadID p))) in ret tt
            else ret tt in
  let! _ := tx_stmt (update_run runID (advance_run now sequence eventType (tr_TurnID p))) in
  let! sessionID := tx_stmt (λ d,
    match runs d !! runID with Some r => Ok (ru_session_id r, d) | None => Err ScanError end) in
  let! _ := if negb (String.eqb status "")
            then let! _ := append_session_event now sessionID (session_event_type status)
                             (run_status_payload sessionID runID status) in ret tt
            else ret tt in
  ret (Commit tt).

Definition AppendAgentEvent (now clock : Z) (runID : string) (sequence : Z)
    (eventType : string) (payload : RawMessage) (occurred : string) : ROp Run :=
  let! _ := run_tx (append_event_tx now clock runID sequence eventType payload occurred) in
  GetRun runID false.
End Store.

(** ** Every operation keeps the invariant and the history *)

Section Guarantees.
Context `{J : !Jsonb}.

Lemma UpsertProjects_good now ps : op_guar good (UpsertProjects now ps).
Proof. unfold UpsertProjects. guar. Qed.

Lemma insert_new_session_good now id projectID title key hash :
  stmt_guar good (insert_new_session now id projectID title key hash).
Proof.
  intros d a d' Hst. unfold insert_new_session in Hst.
  destruct (projects d !! projectID) as [p|]; [|by simplify_eq].
  destruct (pr_archived_at p); [by simplify_eq|]. simpl in Hst.
  destruct (insert_session _ _ d) as [[b d1]|] eqn:Ei; simplify_eq.
  eapply insert_session_good; [|exact Ei]. done.
Qed.

Lemma sessionByKey_good key : op_guar good (sessionByKey key).
Proof.
  unfold sessionByKey. guar. unfold select_session_by_key. read.
Qed.
Hint Resolve insert_new_session_good sessionByKey_good : guar.

Lemma CreateSession_good now r projectID title key hash :
  op_guar good (CreateSession now r projectID title key hash).
Proof. unfold CreateSession. guar. Qed.

Lemma GetSession_good id : op_guar good (GetSession id).
Proof. unfold GetSession. guar. Qed.
Lemma ListRunEvents_good id cursor : op_guar good (ListRunEvents id cursor).
Proof. unfold ListRunEvents. guar. Qed.
Lemma ListSessionEvents_good id cursor : op_guar good (ListSessionEvents id cursor).
Proof. unfold ListSessionEvents. guar. Qed.
Lemma ListRunEventsPage_good id cursor limit : op_guar good (ListRunEventsPage id cursor limit).
Proof. unfold ListRunEventsPage. guar. Qed.
Lemma ListSessionEventsPage_good id cursor limit :
  op_guar good (ListSessionEventsPage id cursor limit).
Proof. unfold ListSessionEventsPage. guar. Qed.
Hint Resolve ListRunEvents_good : guar.
Lemma GetRun_good id b : op_guar good (GetRun id b).
Proof. unfold GetRun. guar. Qed.
Hint Resolve GetRun_good : guar.

Lemma append_session_event_tx_good now id type payload :
  tx_guar good (append_session_event now id type payload).
Proof.
  intros d0. unfold append_session_event.
  eapply (triple_bind _ _ _ (λ n d1, ∃ d, good d0 d ∧ bump_session now id d = Ok (n, d1))).
  { apply triple_stmt. eauto. }
  intros n. eapply triple_bind.
  { apply triple_stmt. intros d1 u d2 (d&Hd&Hb) Hi.
    assert (good d0 d2) as Hg by (etrans; [exact Hd|by eapply append_session_event_good]).
    exact Hg. }
  intros []. by apply triple_ret.
Qed.
Hint Resolve append_session_event_tx_good : guar.

Lemma select_run_key_good sessionID key : stmt_guar good (select_run_key sessionID key).
Proof. unfold select_run_key. read. Qed.
Hint Resolve select_run_key_good : guar.

Lemma CreateRun_good now r1 r2 sessionID prompt profile key hash :
  op_guar good (CreateRun now r1 r2 sessionID prompt profile key hash).
Proof. unfold CreateRun, create_run_tx. guar. read. Qed.

Lemma RequestCancel_good now clock r id : op_guar good (RequestCancel now clock r id).
Proof.
  unfold RequestCancel, request_cancel_tx. guar; [unfold select_run_thread; read|].
  apply update_run_good. intros x; split; simpl; lia || done.
Qed.

Lemma advance_run_le now sequence eventType turnID r :
  run_le r (advance_run now sequence eventType turnID r).
Proof.
  unfold advance_run. destruct (statusForEvent eventType) as [status terminal].
  split; simpl; try done. destruct (negb _); lia.
Qed.

Lemma set_thread_le now threadID s : session_le s (set_thread now threadID s).
Proof.
  split; simpl; try done. unfold sticky. destruct (se_thread_id s); auto.
Qed.

Lemma update_session_of_run_good runID f :
  (∀ s, session_le s (f s)) → (∀ s, se_last_sequence (f s) = se_last_sequence s) →
  stmt_guar good (update_session_of_run runID f).
Proof.
  intros Hle Hseq d b d' Hst. unfold update_session_of_run in Hst.
  destruct (runs d !! runID) as [r|]; [|by simplify_eq].
  by eapply (update_session_good (ru_session_id r) f).
Qed.

Lemma AppendAgentEvent_good now clock runID sequence eventType payload occurred :
  op_guar good (AppendAgentEvent now clock runID sequence eventType payload occurred).
Proof.
  unfold AppendAgentEvent, append_event_tx. guar.
  - intros d b d' Hst. destruct payload; [done|]. by eapply insert_run_event_good.
  - apply update_session_of_run_good; [intros; apply set_thread_le|done].
  - apply update_run_good. intros x; apply advance_run_le.
  - read.
Qed.
End Guarantees.

#[export] Hint Resolve UpsertProjects_good CreateSession_good GetSession_good ListRunEvents_good
  ListSessionEvents_good ListRunEventsPage_good ListSessionEventsPage_good GetRun_good
  append_session_event_tx_good CreateRun_good RequestCancel_good AppendAgentEvent_good : guar.
