(* ===== verification/Outbox.v ===== *)
(** * internal/runtime/postgres.go: the command outbox

    Commands are claimed by a worker for a lease of 15 seconds, delivered, or
    released to be tried again after a second.  [locked] are the rows another
    transaction holds, which FOR UPDATE SKIP LOCKED leaves out; commands with
    equal creation times are listed in the order of the table. *)

From S2P Require Import Prelude GoStd GoTime Json Payloads.
From S2P Require Import Sql Tables RuntimeDB RuntimeSql RuntimeHistory RunStore.
#[local] Open Scope string_scope.
#[local] Open Scope Z_scope.

Record Command := mkCommand {
  c_ID : string; c_Type : string; c_ResourceID : string; c_Payload : json }.

Definition lease : Z := 15 * second.
Definition release_delay : Z := 1 * second.

(** (status='pending' OR (status='claimed' AND claim_expires_at<now())) AND
    next_attempt_at<=now() *)
Definition claimable (now : Z) (c : command_row) : bool :=
  (String.eqb (co_status c) "pending" ||
   (String.eqb (co_status c) "claimed" &&
    match co_claim_expires_at c with Some t => t <? now | None => false end))
  && (co_next_attempt_at c <=? now).

Definition created_le (x y : string * command_row) : Prop := co_created_at x.2 ≤ co_created_at y.2.
#[export] Instance created_le_dec : RelDecision created_le.
Proof. intros x y; unfold created_le; apply _. Defined.
#[export] Instance created_le_trans : Transitive created_le.
Proof. intros x y z; unfold created_le; lia. Qed.
#[export] Instance created_le_total : Total created_le.
Proof. intros x y; unfold created_le; lia. Qed.

Definition scanCommand (x : string * command_row) : Command :=
  mkCommand x.1 (co_type x.2) (co_resource_id x.2) (co_payload x.2).

(** The rows of the SELECT, in its order. *)
Definition select_claimable (now : Z) (locked : list string) (limit : Z) (d : DB)
    : list (string * command_row) :=
  take (Z.to_nat limit) (merge_sort created_le
    (filter (λ x, claimable now x.2 = true ∧ x.1 ∉ locked) (map_to_list (outbox d)))).

Definition claim_row (now : Z) (worker : string) (c : command_row) : command_row :=
  mkCommandRow (co_type c) (co_resource_id c) (co_payload c) "claimed" (co_attempts c + 1)
    (co_next_attempt_at c) (Some worker) (Some (now + lease)) (co_delivered_at c)
    (co_last_error c) (co_created_at c).

Definition dispatch_row (now : Z) (r : run_row) : run_row :=
  mkRunRow (ru_session_id r) (ru_turn_id r) "dispatching" (ru_state_version r + 1)
    (ru_key r) (ru_hash r) (ru_prompt r) (ru_profile r) (ru_cancel_requested_at r)
    (ru_persisted r) (ru_final r) (ru_error_code r) (ru_error_message r) (ru_created_at r)
    (ru_started_at r) (ru_finished_at r) now.

(** UPDATE runtime.runs SET status='dispatching',... WHERE run_id=$1 AND status
    IN ('queued','waiting_agent') *)
Definition dispatch_run (now : Z) (id : string) : Stmt DB bool := λ d,
  match runs d !! id with
  | Some r =>
      if String.eqb (ru_status r) "queued" || String.eqb (ru_status r) "waiting_agent"
      then update_run id (dispatch_row now) d else Ok (false, d)
  | None => Ok (false, d)
  end.

Definition claim_tx (now : Z) (worker : string) (locked : list string) (limit : Z)
    : RTx (TxEnd (list Command)) :=
  let! result := tx_stmt (query (λ d, map scanCommand (select_claimable now locked limit d))) in
  let! _ := for_each result (λ item,
    let! _ := tx_stmt (update_command (c_ID item) (claim_row now worker)) in
    if String.eqb (c_Type item) "run.start" then
      let! _ := attempt (tx_stmt (dispatch_run now (c_ResourceID item))) in ret tt
    else ret tt) in
  ret (Commit result).

Definition ClaimCommands (now : Z) (worker : string) (locked : list string) (limit : Z)
    : ROp (list Command) :=
  let limit := if limit <? 1 then 16 else limit in
  run_tx (claim_tx now worker locked limit).

Definition deliver_row (now : Z) (c : command_row) : command_row :=
  mkCommandRow (co_type c) (co_resource_id c) (co_payload c) "delivered" (co_attempts c)
    (co_next_attempt_at c) None None (Some now) (co_last_error c) (co_created_at c).

Definition MarkCommandDelivered (now : Z) (id : string) : ROp unit :=
  let! _ := pool_stmt (update_command id (deliver_row now)) in ret tt.

Definition release_row (now : Z) (code : string) (c : command_row) : command_row :=
  mkCommandRow (co_type c) (co_resource_id c) (co_payload c) "pending" (co_attempts c)
    (now + release_delay) None None (co_delivered_at c) (Some code) (co_created_at c).

Definition ReleaseCommand (now : Z) (id code : string) : ROp unit :=
  let! _ := pool_stmt (update_command id (release_row now code)) in ret tt.

(** ** Every operation keeps the invariant and the history *)

Lemma dispatch_run_good now id : stmt_guar good (dispatch_run now id).
Proof.
  intros d b d' Hst. unfold dispatch_run in Hst. destruct (runs d !! id) as [r|]; [|by simplify_eq].
  destruct (_ || _); [|by simplify_eq].
  eapply (update_run_good id (dispatch_row now)); [|exact Hst].
  intros x; split; simpl; done || lia.
Qed.

Lemma ClaimCommands_good now worker locked limit :
  op_guar good (ClaimCommands now worker locked limit).
Proof.
  unfold ClaimCommands, claim_tx. guar.
  - apply update_command_good. intros c; split; simpl; done || lia.
  - apply dispatch_run_good.
Qed.

Lemma MarkCommandDelivered_good now id : op_guar good (MarkCommandDelivered now id).
Proof.
  unfold MarkCommandDelivered. guar. apply update_command_good. intros c; split; simpl; done || lia.
Qed.

Lemma ReleaseCommand_good now id code : op_guar good (ReleaseCommand now id code).
Proof.
  unfold ReleaseCommand. guar. apply update_command_good. intros c; split; simpl; done || lia.
Qed.

#[export] Hint Resolve ClaimCommands_good MarkCommandDelivered_good ReleaseCommand_good : guar.
