(* ===== verification/Bootstrap.v ===== *)
(** * internal/runtime/postgres.go: sync jobs and the bootstrap import

    CreateSyncJob, GetSyncJob and ApplyBootstrapBatch, with their helpers. *)

From S2P Require Import Prelude GoStd GoTime Json Payloads.
From S2P Require Import Sql Tables RuntimeDB RuntimeSql RuntimeHistory RunStore.
#[local] Open Scope string_scope.

(** ** internal/runtime/types.go *)

Record SyncJob := mkSyncJob {
  sj_ID : string; sj_Status : string; sj_SnapshotID : string; sj_LastCommittedBatchNo : Z;
  sj_ItemCount : Z; sj_TotalSessions : Z; sj_ProcessedSessions : Z; sj_ArchivedSessions : Z;
  sj_ArchivedProjects : Z; sj_ReconciliationApplied : bool; sj_ErrorCode : string;
  sj_ErrorMessage : string; sj_CreatedAt : Z; sj_UpdatedAt : Z }.

Record BootstrapProject := mkBProject { bpr_ID : string; bpr_Name : string }.
Record BootstrapSession := mkBSession {
  bse_ID : string; bse_ProjectID : string; bse_CodexThreadID : string; bse_Title : string }.
Record BootstrapEvent := mkBEvent {
  bev_Sequence : Z; bev_Type : string; bev_Payload : RawMessage; bev_OccurredAt : Z }.
Record BootstrapRun := mkBRun {
  bru_ID : string; bru_SessionID : string; bru_CodexTurnID : string; bru_Status : string;
  bru_Prompt : string; bru_StartedAt : option Z; bru_FinishedAt : option Z;
  bru_Events : list BootstrapEvent }.
Record BootstrapBatch := mkBatch {
  bb_CommandID : string; bb_SyncID : string; bb_SnapshotID : string; bb_BatchNo : Z;
  bb_Checksum : string; bb_TotalSessions : Z; bb_ProcessedSessions : Z;
  bb_ReconciliationSafe : bool; bb_Projects : list BootstrapProject;
  bb_Sessions : list BootstrapSession; bb_Runs : list BootstrapRun; bb_Done : bool }.

(** A row of syncJobSelect *)
Definition scanSyncJob (id : string) (s : sync_row) : SyncJob :=
  mkSyncJob id (sy_status s) (coalesce (sy_snapshot_id s)) (sy_last_batch s) (sy_item_count s)
    (sy_total s) (sy_processed s) (sy_archived_sessions s) (sy_archived_projects s)
    (sy_reconciled s) (coalesce (sy_error_code s)) (coalesce (sy_error_message s))
    (sy_created_at s) (sy_updated_at s).

Definition new_sync (now : Z) (key : string) : sync_row :=
  mkSyncRow "queued" key None (-1) None 0 None None now now 0 0 0 0 false.

(** ** Helpers *)

Definition normalizeImportedStatus (value : string) : string * bool :=
  if String.eqb value "completed" then ("completed", true)
  else if String.eqb value "failed" then ("failed", true)
  else if String.eqb value "interrupted" || String.eqb value "canceled" || String.eqb value "cancelled"
  then ("canceled", true)
  else ("", false).

Definition sameOptionalTime (left right : option Z) : bool :=
  match left, right with
  | Some l, Some r => (TruncateMicro l =? TruncateMicro r)%Z
  | None, None => true
  | _, _ => false
  end.

Definition jsonPayloadEqual (left right : RawMessage) : bool :=
  match left, right with
  | Raw l, Raw r =>
      match to_any l, to_any r with Some a, Some b => any_eqb a b | _, _ => false end
  | _, _ => false
  end.

(** The loop of importedEventsMatch over the stored rows, in order. *)
Fixpoint importedEventsMatch (stored : list (Z * run_event_row)) (expected : list BootstrapEvent) : bool :=
  match stored, expected with
  | [], [] => true
  | (sequence, row) :: stored, want :: expected =>
      if negb (sequence =? bev_Sequence want)%Z || negb (String.eqb (rev_type row) (bev_Type want))
         || negb (TruncateMicro (rev_occurred_at row) =? TruncateMicro (bev_OccurredAt want))%Z
         || negb (jsonPayloadEqual (Raw (rev_payload row)) (bev_Payload want))
      then false
      else importedEventsMatch stored expected
  | _, _ => false
  end.

Section Bootstrap.
Context {J : Jsonb}.

(** ** Sync jobs *)

Definition GetSyncJob (id : string) : ROp SyncJob :=
  let! item := pool_stmt (query (λ d, scanSyncJob id <$> sync_jobs d !! id)) in
  match item with Some j => ret j | None => fail ErrNotFound end.

Definition find_sync_by_key (key : string) (d : DB) : option (string * sync_row) :=
  lookup_by (λ _ s, sy_key s = key) (sync_jobs d).
Definition find_active_sync (d : DB) : option (string * sync_row) :=
  lookup_by (λ _ s, sync_active s = true) (sync_jobs d).

Definition create_sync_tx (now : Z) (id commandID key : string) : RTx (TxEnd (option SyncJob)) :=
  let! _ := tx_stmt (query (λ _, tt)) in  (* pg_advisory_xact_lock *)
  let! found := tx_stmt (query (λ d, find_sync_by_key key d)) in
  match found with
  | Some (i, s) => ret (Commit (Some (scanSyncJob i s)))
  | None =>
      let! active := tx_stmt (query find_active_sync) in
      match active with
      | Some (i, s) => ret (Commit (Some (scanSyncJob i s)))
      | None =>
          let payload := JObj [("command_id", JStr commandID); ("sync_id", JStr id)] in
          let! _ := tx_stmt (insert_sync id (new_sync now key)) in
          let! _ := tx_stmt (insert_command now commandID "bootstrap.start" id payload) in
          ret (Commit None)
      end
  end.

Definition CreateSyncJob (now : Z) (r1 r2 : list Z) (key : string) : ROp (SyncJob * bool) :=
  let id := newID "sync" r1 in
  let! done := run_tx (create_sync_tx now id (newID "cmd" r2) key) in
  match done with
  | Some active => ret (active, false)
  | None => let! item := GetSyncJob id in ret (item, true)
  end.

(** ** One batch *)

Definition import_session (now : Z) (snapshot : string) (ids : gmap string string)
    (v : BootstrapSession) : RTx (gmap string string) :=
  let row := mkSessionRow (bse_ProjectID v) (Some (bse_CodexThreadID v)) (Some (bse_Title v))
               0 None None now now None None in
  let! _ := tx_stmt (insert_session (bse_ID v) row) in
  let! stored :=
    if String.eqb (bse_CodexThreadID v) "" then ret (bse_ID v)
    else tx_stmt (λ d,
      match sessions d !! bse_ID v with
      | Some _ => Ok (bse_ID v, d)
      | None =>
          match lookup_by (λ _ s, se_thread_id s = Some (bse_CodexThreadID v)) (sessions d) with
          | Some (i, _) => Ok (i, d)
          | None => Err ScanError
          end
      end) in
  let! _ := tx_stmt (update_session stored (λ s,
    mkSessionRow (bse_ProjectID v) (se_thread_id s) (Some (bse_Title v)) (se_last_sequence s)
      (se_key s) (se_hash s) (se_created_at s) (se_updated_at s) (Some snapshot) None)) in
  ret (<[bse_ID v := stored]> ids).

(** run_id=$1 OR codex_turn_id=$2 ORDER BY (run_id=$1) DESC LIMIT 1 *)
Definition find_imported_run (r : BootstrapRun) (d : DB) : option (string * run_row) :=
  match runs d !! bru_ID r with
  | Some row => Some (bru_ID r, row)
  | None =>
      if String.eqb (bru_CodexTurnID r) "" then None
      else lookup_by (λ _ x, ru_turn_id x = Some (bru_CodexTurnID r)) (runs d)
  end.

Definition imported_changed (r : BootstrapRun) (status sessionID : string) (stored : run_row)
    (eventsMatch : bool) : bool :=
  let expectedFinal := Z.of_nat (length (bru_Events r)) in
  negb (String.eqb (ru_session_id stored) sessionID) || negb (String.eqb (ru_status stored) status)
  || negb (String.eqb (coalesce (ru_prompt stored)) (bru_Prompt r))
  || negb (sameOptionalTime (ru_started_at stored) (bru_StartedAt r))
  || negb (sameOptionalTime (ru_finished_at stored) (bru_FinishedAt r))
  || negb (ru_persisted stored =? expectedFinal)%Z
  || match ru_final stored with None => true | Some f => negb (f =? expectedFinal)%Z end
  || negb eventsMatch.

Definition reimported_run (now : Z) (r : BootstrapRun) (status sessionID : string) (x : run_row) : run_row :=
  let final := Z.of_nat (length (bru_Events r)) in
  let started := TruncateMicro <$> bru_StartedAt r in
  mkRunRow sessionID (nullif (bru_CodexTurnID r)) status (ru_state_version x + 1) (ru_key x)
    (ru_hash x) (Some (bru_Prompt r)) (ru_profile x) None final (Some final) None None
    (default (ru_created_at x) started) started (TruncateMicro <$> bru_FinishedAt r) now.

Definition imported_run (now : Z) (r : BootstrapRun) (status sessionID : string) : run_row :=
  let final := Z.of_nat (length (bru_Events r)) in
  let started := TruncateMicro <$> bru_StartedAt r in
  mkRunRow sessionID (nullif (bru_CodexTurnID r)) status 1 None None (Some (bru_Prompt r)) None
    None final (Some final) None None (default now started) started
    (TruncateMicro <$> bru_FinishedAt r) now.

Definition delete_run_events (id : string) : Stmt DB unit := λ d,
  Ok (tt, set_run_events (delete id (run_events d)) d).

(** INSERT INTO runtime.run_events without ON CONFLICT *)
Definition insert_imported_event (now : Z) (id : string) (e : BootstrapEvent) : Stmt DB unit := λ d,
  match bev_Payload e with
  | RawNil => Err (Refused "payload")
  | Raw p =>
      match insert_run_event now id (bev_Sequence e) (bev_Type e) p (bev_OccurredAt e) d with
      | Ok (true, d') => Ok (tt, d')
      | Ok (false, _) => Err (Refused "run_events_pkey")
      | Err x => Err x
      end
  end.

Definition import_run (now : Z) (ids : gmap string string) (count : Z) (r : BootstrapRun) : RTx Z :=
  let '(status, terminal) := normalizeImportedStatus (bru_Status r) in
  if negb terminal then ret count else
  let sessionID := default (bru_SessionID r) (ids !! bru_SessionID r) in
  let! found := tx_stmt (query (find_imported_run r)) in
  let! changed :=
    match found with
    | Some (storedRunID, stored) =>
        let! rows := tx_stmt (query (λ d, entries (rows (run_events d) storedRunID))) in
        ret (imported_changed r status sessionID stored (importedEventsMatch rows (bru_Events r)))
    | None => ret true
    end in
  if negb changed then ret (count + 1)%Z else
  let storedRunID := match found with Some (i, _) => i | None => bru_ID r end in
  let! _ :=
    match found with
    | Some _ =>
        let! _ := tx_stmt (update_run storedRunID (reimported_run now r status sessionID)) in
        tx_stmt (delete_run_events storedRunID)
    | None => tx_stmt (insert_run (bru_ID r) (imported_run now r status sessionID))
    end in
  let! _ := for_each (bru_Events r) (λ e, tx_stmt (insert_imported_event now storedRunID e)) in
  let! _ := append_session_event now sessionID (session_event_type status)
              (run_status_payload sessionID storedRunID status) in
  ret (count + 1)%Z.

(** ** Reconciliation *)

Definition session_live (d : DB) (id : string) : bool :=
  if lookup_by (λ _ r, ru_session_id r = id ∧ ru_status r ∈ live_statuses) (runs d)
  then true else false.
Definition project_live (d : DB) (id : string) : bool :=
  if lookup_by (λ i s, se_project_id s = id ∧ session_live d i = true) (sessions d)
  then true else false.

(** updated_at <= (SELECT created_at FROM runtime.sync_jobs WHERE sync_id=$1) *)
Definition before_sync (d : DB) (syncID : string) (updated : Z) : bool :=
  match sync_jobs d !! syncID with Some j => (updated <=? sy_created_at j)%Z | None => false end.

Definition stale_session (d : DB) (syncID snapshot : string) (id : string) (s : session_row) : bool :=
  (if se_thread_id s then true else false) && negb (if se_archived_at s then true else false)
  && negb (bool_decide (se_last_seen s = Some snapshot))
  && before_sync d syncID (se_updated_at s) && negb (session_live d id).

Definition archive_session (now : Z) (s : session_row) : session_row :=
  mkSessionRow (se_project_id s) (se_thread_id s) (se_title s) (se_last_sequence s) (se_key s)
    (se_hash s) (se_created_at s) (se_updated_at s) (se_last_seen s) (Some now).

Definition stale_project (d : DB) (syncID snapshot : string) (id : string) (p : project_row) : bool :=
  negb (if pr_archived_at p then true else false)
  && negb (bool_decide (pr_last_seen p = Some snapshot))
  && before_sync d syncID (pr_updated_at p) && negb (project_live d id).

Definition archive_project (now : Z) (p : project_row) : project_row :=
  mkProjectRow (pr_display_name p) (pr_last_seen p) (Some now) (pr_created_at p) now.

Definition archive_sessions (now : Z) (syncID snapshot : string) : Stmt DB Z := λ d,
  let '(n, m) := update_where (stale_session d syncID snapshot) (archive_session now) (sessions d) in
  Ok (n, set_sessions m d).

Definition archive_projects (now : Z) (syncID snapshot : string) : Stmt DB Z := λ d,
  let '(n, m) := update_where (stale_project d syncID snapshot) (archive_project now) (projects d) in
  Ok (n, set_projects m d).

Definition advance_sync (now : Z) (b : BootstrapBatch) (count archivedSessions archivedProjects : Z)
    (s : sync_row) : sync_row :=
  mkSyncRow (if bb_Done b then "completed" else "running") (sy_key s) (Some (bb_SnapshotID b))
    (bb_BatchNo b) (Some (bb_Checksum b)) (sy_item_count s + count) (sy_error_code s)
    (sy_error_message s) (sy_created_at s) now (Z.max (sy_total s) (bb_TotalSessions b))
    (Z.max (sy_processed s) (bb_ProcessedSessions b)) (sy_archived_sessions s + archivedSessions)
    (sy_archived_projects s + archivedProjects)
    (sy_reconciled s || (bb_Done b && bb_ReconciliationSafe b)).

Definition deliver_bootstrap_row (now : Z) (c : command_row) : command_row :=
  mkCommandRow (co_type c) (co_resource_id c) (co_payload c) "delivered" (co_attempts c)
    (co_next_attempt_at c) None None (Some (default now (co_delivered_at c))) (co_last_error c)
    (co_created_at c).

Definition deliver_bootstrap (now : Z) (commandID syncID : string) : Stmt DB bool := λ d,
  match outbox d !! commandID with
  | Some c =>
      if String.eqb (co_type c) "bootstrap.start" && String.eqb (co_resource_id c) syncID
      then update_command commandID (deliver_bootstrap_row now) d
      else Ok (false, d)
  | None => Ok (false, d)
  end.

(** Projects, sessions and runs of a batch: the number of runs imported. *)
Definition import_batch (now : Z) (b : BootstrapBatch) : RTx Z :=
  let! _ := for_each (bb_Projects b) (λ p,
    tx_stmt (upsert_project now (bpr_ID p) (bpr_Name p) (Some (bb_SnapshotID b)))) in
  let! ids := fold_each (bb_Sessions b) ∅ (import_session now (bb_SnapshotID b)) in
  fold_each (bb_Runs b) 0%Z (import_run now ids).

Definition reconcile (now : Z) (b : BootstrapBatch) : RTx (Z * Z) :=
  if bb_Done b && bb_ReconciliationSafe b && negb (String.eqb (bb_SnapshotID b) "") then
    let! archivedSessions := tx_stmt (archive_sessions now (bb_SyncID b) (bb_SnapshotID b)) in
    let! archivedProjects := tx_stmt (archive_projects now (bb_SyncID b) (bb_SnapshotID b)) in
    ret (archivedSessions, archivedProjects)
  else ret (0%Z, 0%Z).

Definition apply_batch_tx (now : Z) (b : BootstrapBatch) : RTx (TxEnd unit) :=
  let! job := tx_stmt (query (λ d,
    (λ s, (sy_last_batch s, coalesce (sy_last_checksum s))) <$> sync_jobs d !! bb_SyncID b)) in
  match job with
  | None => fail ErrNotFound
  | Some (last, checksum) =>
      if (bb_BatchNo b =? last)%Z && String.eqb (bb_Checksum b) checksum then ret (Rollback tt)
      else if negb (bb_BatchNo b =? last + 1)%Z then fail (ErrBatchOrder (bb_BatchNo b) last)
      else
        let! count := import_batch now b in
        let! (archivedSessions, archivedProjects) := reconcile now b in
        let! _ := tx_stmt (update_sync (bb_SyncID b)
                    (advance_sync now b count archivedSessions archivedProjects)) in
        let! _ := if bb_Done b && negb (String.eqb (bb_CommandID b) "")
                  then let! _ := tx_stmt (deliver_bootstrap now (bb_CommandID b) (bb_SyncID b)) in ret tt
                  else ret tt in
        ret (Commit tt)
  end.

Definition ApplyBootstrapBatch (now : Z) (b : BootstrapBatch) : ROp SyncJob :=
  let! _ := run_tx (apply_batch_tx now b) in
  GetSyncJob (bb_SyncID b).
End Bootstrap.

(** ** Every operation keeps the invariant and the history *)

(** [good], and the sync jobs are left alone. *)
Definition good_import (d d' : DB) : Prop := good d d' ∧ sync_jobs d' = sync_jobs d.

#[export] Instance good_import_preorder : PreOrder good_import.
Proof.
  split; [intros d; split; reflexivity|].
  intros d1 d2 d3 [H1 E1] [H2 E2]. split; [by etrans|congruence].
Qed.

Lemma import_stmt {A} (s : Stmt DB A) :
  stmt_guar good s → (∀ d a d', s d = Ok (a, d') → sync_jobs d' = sync_jobs d) →
  stmt_guar good_import s.
Proof. intros Hg Hf d a d' H. split; eauto. Qed.

Section ImportFrames.
Context `{J : !Jsonb}.

Lemma upsert_project_import now id name seen : stmt_guar good_import (upsert_project now id name seen).
Proof.
  apply import_stmt; [auto with guar|]. intros d a d' H. unfold upsert_project, put_project in H.
  destruct (projects d !! id); by simplify_eq.
Qed.

Lemma insert_session_import id s :
  se_last_sequence s = 0%Z → stmt_guar good_import (insert_session id s).
Proof.
  intros H0. apply import_stmt; [auto with guar|]. intros d a d' H. unfold insert_session in H.
  destruct (_ || _); [by simplify_eq|].
  destruct (put_session id s d) as [[[] d1]|] eqn:E; simpl in H; simplify_eq.
  by apply put_session_ok in E as ->.
Qed.

Lemma update_session_import id f :
  (∀ s, session_le s (f s)) → (∀ s, se_last_sequence (f s) = se_last_sequence s) →
  stmt_guar good_import (update_session id f).
Proof.
  intros Hle Hf. apply import_stmt; [by apply update_session_good|]. intros d a d' H.
  unfold update_session in H. destruct (sessions d !! id) as [s|]; [|by simplify_eq].
  destruct (put_session id (f s) d) as [[[] d1]|] eqn:E; simpl in H; simplify_eq.
  by apply put_session_ok in E as ->.
Qed.

Lemma insert_run_import id r : stmt_guar good_import (insert_run id r).
Proof.
  apply import_stmt; [auto with guar|]. intros d [] d' H. unfold insert_run in H. checks H.
  by apply put_run_ok in H as ->.
Qed.

Lemma update_run_import id f : (∀ r, run_le r (f r)) → stmt_guar good_import (update_run id f).
Proof.
  intros Hle. apply import_stmt; [by apply update_run_good|]. intros d a d' H.
  unfold update_run in H. destruct (runs d !! id) as [s|]; [|by simplify_eq].
  destruct (put_run id (f s) d) as [[[] d1]|] eqn:E; simpl in H; simplify_eq.
  by apply put_run_ok in E as ->.
Qed.

Lemma delete_run_events_import id : stmt_guar good_import (delete_run_events id).
Proof.
  intros d [] d' H. unfold delete_run_events in H. simplify_eq. split; [|done]. intros [].
  split; [|split; simpl; intros; reflexivity].
  split; simpl; try assumption. intros i m n e Hm. apply lookup_delete_Some in Hm as [_ Hm]. eauto.
Qed.

Lemma insert_imported_event_import now id e : stmt_guar good_import (insert_imported_event now id e).
Proof.
  intros d [] d' H. unfold insert_imported_event in H. destruct (bev_Payload e) as [|p]; [done|].
  destruct (insert_run_event _ _ _ _ _ _ d) as [[[] d1]|] eqn:E; simplify_eq.
  split; [by eapply insert_run_event_good|].
  apply insert_run_event_ok in E as [(?&->&_)|(?&_&_&_&_&_&->)]; done.
Qed.

Lemma append_session_event_tx_import now id type payload :
  tx_guar good_import (append_session_event now id type payload).
Proof.
  intros d0. unfold append_session_event.
  eapply (triple_bind _ _ _ (λ n d1, ∃ d, good_import d0 d ∧ bump_session now id d = Ok (n, d1))).
  { apply triple_stmt. eauto. }
  intros n. eapply triple_bind.
  { apply triple_stmt. intros d1 u d2 (d&Hd&Hb) Hi.
    assert (good_import d0 d2) as Hg; [|exact Hg].
    etrans; [exact Hd|]. split; [by eapply append_session_event_good|].
    apply bump_session_ok in Hb as (s&_&_&_&->). destruct u.
    by apply insert_session_event_ok in Hi as (p&_&_&_&->). }
  intros []. by apply triple_ret.
Qed.
End ImportFrames.

#[export] Hint Resolve upsert_project_import insert_run_import delete_run_events_import
  insert_imported_event_import append_session_event_tx_import : guar.

Lemma archive_sessions_import now syncID snapshot :
  stmt_guar good_import (archive_sessions now syncID snapshot).
Proof.
  intros d a d' H. unfold archive_sessions in H.
  set (P := stale_session d syncID snapshot) in *.
  pose proof (λ i s, update_where_Some P (archive_session now) (sessions d) i s) as Hlk.
  destruct (update_where P (archive_session now) (sessions d)) as [n m] eqn:Eu. simplify_eq. simpl in Hlk.
  assert (m = (update_where P (archive_session now) (sessions d)).2) as Hm by by rewrite Eu.
  split; [|done]. intros []. split.
  - split; simpl; try assumption.
    + intros i s (x&Hx&->)%Hlk. destruct (P i x); simpl; eauto.
    + subst m. by apply update_where_unique.
    + subst m. by apply update_where_unique.
    + intros i s (x&Hx&->)%Hlk. destruct (P i x); simpl; eauto.
    + intros i r Hr. rewrite Hm, lookup_update_where. apply fmap_is_Some. eauto.
    + intros i r Hr. rewrite Hm, lookup_update_where. apply fmap_is_Some. eauto.
    + intros i s k (x&Hx&->)%Hlk. destruct (P i x); simpl; eauto.
    + intros i s (x&Hx&->)%Hlk. destruct (P i x); simpl; eauto.
  - split; simpl; intros; try reflexivity. subst m. apply update_where_le; [apply _|].
    intros s; split; simpl; done || by right.
Qed.

Lemma archive_projects_import now syncID snapshot :
  stmt_guar good_import (archive_projects now syncID snapshot).
Proof.
  intros d a d' H. unfold archive_projects in H.
  set (P := stale_project d syncID snapshot) in *. set (f := archive_project now) in *.
  destruct (update_where P f (projects d)) as [n m] eqn:Eu. simplify_eq.
  assert (m = (update_where P f (projects d)).2) as Hm by by rewrite Eu.
  split; [|done]. intros []. split.
  - split; simpl; try assumption.
    intros i s Hs. rewrite Hm, lookup_update_where. apply fmap_is_Some. eauto.
  - split; simpl; intros; try reflexivity. subst m. apply update_where_le; [|done].
    split; repeat intro; auto.
Qed.

#[export] Hint Resolve archive_sessions_import archive_projects_import : guar.
Section Guarantees.
Context `{J : !Jsonb}.

Lemma import_run_import now ids count r : tx_guar good_import (import_run now ids count r).
Proof.
  unfold import_run. guar. apply update_run_import. intros x; split; simpl; done || lia.
Qed.
Lemma import_session_import now snapshot ids v :
  tx_guar good_import (import_session now snapshot ids v).
Proof.
  unfold import_session. guar.
  - by apply insert_session_import.
  - read.
  - apply update_session_import; [|done]. intros s; split; simpl; done || by right.
Qed.
Hint Resolve import_run_import import_session_import : guar.

Lemma import_batch_import now b : tx_guar good_import (import_batch now b).
Proof. unfold import_batch. guar. Qed.
Lemma reconcile_import now b : tx_guar good_import (reconcile now b).
Proof. unfold reconcile. guar. Qed.

Lemma advance_sync_le now b count n m s :
  (bb_BatchNo b = sy_last_batch s + 1)%Z → (0 ≤ count)%Z →
  sync_le s (advance_sync now b count n m s).
Proof. intros Hb Hc. split; simpl; try done; try lia. by intros ->. Qed.

Lemma deliver_bootstrap_good now commandID syncID :
  stmt_guar good (deliver_bootstrap now commandID syncID).
Proof.
  intros d a d' H. unfold deliver_bootstrap in H. destruct (outbox d !! commandID); [|by simplify_eq].
  destruct (_ && _); [|by simplify_eq].
  eapply (update_command_good commandID (deliver_bootstrap_row now)); [|exact H].
  intros x; split; simpl; done || lia.
Qed.

Lemma CreateSyncJob_good now r1 r2 key : op_guar good (CreateSyncJob now r1 r2 key).
Proof. unfold CreateSyncJob, create_sync_tx, GetSyncJob. guar. Qed.
Lemma GetSyncJob_good id : op_guar good (GetSyncJob id).
Proof. unfold GetSyncJob. guar. Qed.

(** The number of runs a batch imports. *)
Lemma import_batch_count now b : returns (import_batch now b) (λ n, (0 ≤ n)%Z).
Proof.
  unfold import_batch. do 2 (apply returns_bind; intros ?).
  apply returns_fold_each; [done|]. intros c r Hc. unfold import_run.
  destruct (normalizeImportedStatus _) as [status []]; simpl; [|by apply returns_ret].
  do 2 (apply returns_bind; intros ?). destruct (negb _); [apply returns_ret; lia|].
  do 3 (apply returns_bind; intros ?). apply returns_ret; lia.
Qed.

Lemma ApplyBootstrapBatch_good now b : op_guar good (ApplyBootstrapBatch now b).
Proof.
  unfold ApplyBootstrapBatch. apply op_guar_bind; [apply _| |intros _; apply GetSyncJob_good].
  apply op_guar_tx; [apply _|]. unfold apply_batch_tx. intros d0.
  eapply (triple_bind _ _ _ (λ job d, good d0 d ∧
    job = (λ s, (sy_last_batch s, coalesce (sy_last_checksum s))) <$> sync_jobs d !! bb_SyncID b)).
  { apply triple_stmt. intros d a d' Hd Hq. unfold query in Hq. by simplify_eq. }
  intros [[last checksum]|]; [|apply triple_fail].
  destruct (_ && _); [apply triple_ret; by intros d [? _]|].
  destruct (Z.eqb_spec (bb_BatchNo b) (last + 1)) as [Hb|]; simpl; [|apply triple_fail].
  set (ready d := good d0 d ∧ ∃ s, sync_jobs d !! bb_SyncID b = Some s ∧ sy_last_batch s = last).
  assert (∀ A (m : RTx A) φ, tx_guar good_import m →
            triple (λ d, ready d ∧ φ) m (λ _ d, ready d ∧ φ)) as Hframe.
  { intros A m φ Hm. split; [apply (Hm empty_db)|]. intros t a t' Ht [[Hg Hs] Hφ] Hr Ht'.
    destruct (Hm (t_db t)) as [_ Hm'].
    destruct (Hm' t a t' Ht (reflexivity _) Hr Ht') as [Hg' Hsync].
    split; [|done]. split; [by etrans|]. by rewrite Hsync. }
  eapply (triple_bind _ _ _ (λ n d, ready d ∧ (0 ≤ n)%Z)).
  { apply triple_returns; [|apply import_batch_count].
    eapply triple_pre, triple_post, (Hframe _ _ True), import_batch_import; [|by intros ?? [? _]].
    intros d [Hg Hs]. split; [|done]. split; [done|]. destruct (sync_jobs d !! bb_SyncID b); simplify_eq/=; eauto. }
  intros count.
  eapply triple_bind; [apply Hframe, reconcile_import|]. intros [n m].
  eapply (triple_bind _ _ _ (λ _ d, good d0 d)).
  { apply triple_stmt. intros d a d' [[Hg (s&Hs&Hl)] Hc] Hst. etrans; [done|].
    eapply update_sync_good; [|exact Hst]. intros x Hx. rewrite Hs in Hx. simplify_eq.
    by apply advance_sync_le. }
  intros _.
  assert (tx_guar good (let! _ := if bb_Done b && negb (String.eqb (bb_CommandID b) "")
                  then let! _ := tx_stmt (deliver_bootstrap now (bb_CommandID b) (bb_SyncID b)) in ret tt
                  else ret tt in ret (Commit tt) : RTx (TxEnd unit))) as Hlast.
  { guar. apply deliver_bootstrap_good. }
  apply Hlast.
Qed.
End Guarantees.
#[export] Hint Resolve CreateSyncJob_good GetSyncJob_good ApplyBootstrapBatch_good : guar.
