(* ===== verification/Listing.v ===== *)
(** * internal/runtime/postgres.go: the listings

    ListProjects, ListSessions and ListRuns: what they show and in which order.
    Text is compared with the database's collation, which the source leaves to
    the deployment. *)

From S2P Require Import Prelude GoStd GoTime Json.
From S2P Require Import Sql Tables RuntimeDB RuntimeSql RuntimeHistory RunStore.
#[local] Open Scope string_scope.

(** The database's collation: [collate a b] when a sorts before b or equals it. *)
Class Collation := collate : string → string → bool.

Class CollationLaws (C : Collation) : Prop := {
  collate_total : ∀ a b, collate a b = true ∨ collate b a = true;
  collate_trans : ∀ a b c, collate a b = true → collate b c = true → collate a c = true;
  collate_antisym : ∀ a b, collate a b = true → collate b a = true → a = b;
}.

Section Listing.
Context {C : Collation}.

(** ORDER BY display_name,project_id *)
Definition project_order (x y : string * project_row) : Prop :=
  if String.eqb (pr_display_name x.2) (pr_display_name y.2) then collate x.1 y.1 = true
  else collate (pr_display_name x.2) (pr_display_name y.2) = true.
#[export] Instance project_order_dec : RelDecision project_order.
Proof. intros x y; unfold project_order; destruct (String.eqb _ _); apply _. Defined.

(** ORDER BY s.updated_at DESC,s.session_id DESC *)
Definition session_order (x y : string * session_row) : Prop :=
  if (se_updated_at x.2 =? se_updated_at y.2)%Z then collate y.1 x.1 = true
  else (se_updated_at y.2 < se_updated_at x.2)%Z.
#[export] Instance session_order_dec : RelDecision session_order.
Proof. intros x y; unfold session_order; destruct (_ =? _)%Z; apply _. Defined.

(** ORDER BY created_at,run_id *)
Definition run_order (x y : string * run_row) : Prop :=
  if (ru_created_at x.2 =? ru_created_at y.2)%Z then collate x.1 y.1 = true
  else (ru_created_at x.2 < ru_created_at y.2)%Z.
#[export] Instance run_order_dec : RelDecision run_order.
Proof. intros x y; unfold run_order; destruct (_ =? _)%Z; apply _. Defined.

Definition ListProjects : ROp (list Project) :=
  pool_stmt (query (λ d,
    map (λ x, mkProject x.1 (pr_display_name x.2))
      (merge_sort project_order
        (filter (λ x, pr_archived_at x.2 = None) (map_to_list (projects d)))))).

Definition runs_of_session (d : DB) (id : string) : list (string * run_row) :=
  merge_sort run_order (filter (λ x, ru_session_id x.2 = id) (map_to_list (runs d))).

(** ORDER BY r.created_at DESC,r.run_id DESC LIMIT 1 *)
Definition latest_run_status (d : DB) (id : string) : string :=
  match last (runs_of_session d id) with Some (_, r) => ru_status r | None => "" end.

Definition listed (d : DB) (projectID : string) (x : string * session_row) : Prop :=
  visible_session d x.2 = true ∧ (projectID = "" ∨ se_project_id x.2 = projectID).
#[export] Instance listed_dec d projectID x : Decision (listed d projectID x).
Proof. unfold listed; apply _. Defined.

Definition with_latest (status : string) (s : Session) : Session :=
  mkSession (s_ID s) (s_ProjectID s) (s_CodexThreadID s) (s_Title s)
    (s_LastSessionSequence s) status (s_CreatedAt s) (s_UpdatedAt s).

Definition ListSessions (projectID : string) : ROp (list Session) :=
  pool_stmt (query (λ d,
    map (λ x, with_latest (latest_run_status d x.1) (scanSession x.1 x.2))
      (merge_sort session_order (filter (listed d projectID) (map_to_list (sessions d)))))).

Definition ListRuns (sessionID : string) : ROp (list Run) :=
  pool_stmt (query (λ d, map (λ x, scanRun x.1 x.2) (runs_of_session d sessionID))).

Lemma ListProjects_good : op_guar good ListProjects.
Proof. unfold ListProjects. guar. Qed.
Lemma ListSessions_good projectID : op_guar good (ListSessions projectID).
Proof. unfold ListSessions. guar. Qed.
Lemma ListRuns_good sessionID : op_guar good (ListRuns sessionID).
Proof. unfold ListRuns. guar. Qed.
End Listing.

#[export] Hint Resolve ListProjects_good ListSessions_good ListRuns_good : guar.
