(* ===== verification/RuntimeStore.v ===== *)
(** * The runtime store as a whole

    The calls of the Store interface (internal/runtime/store.go) on
    PostgresStore, and what holds of any sequence of them, whatever round trips
    fail and whatever other clients of the same kind do in between. *)

From S2P Require Import Prelude GoStd GoTime Json.
From S2P Require Import Sql Tables RuntimeDB RuntimeSql RuntimeHistory RunStore Outbox Bootstrap Listing.
#[local] Open Scope string_scope.

Section Calls.
Context `{J : !Jsonb, C : !Collation}.

(** One call, with what it draws from its environment: clocks and random bytes. *)
Inductive Call :=
| CUpsertProjects (now : Z) (ps : list Project)
| CListProjects
| CCreateSession (now : Z) (r : list Z) (projectID title key hash : string)
| CListSessions (projectID : string)
| CGetSession (id : string)
| CCreateRun (now : Z) (r1 r2 : list Z) (sessionID prompt profile key hash : string)
| CListRuns (sessionID : string)
| CGetRun (id : string) (withEvents : bool)
| CRequestCancel (now clock : Z) (r : list Z) (id : string)
| CClaimCommands (now : Z) (worker : string) (locked : list string) (limit : Z)
| CMarkCommandDelivered (now : Z) (id : string)
| CReleaseCommand (now : Z) (id code : string)
| CAppendAgentEvent (now clock : Z) (runID : string) (sequence : Z) (eventType : string)
    (payload : RawMessage) (occurred : string)
| CListRunEvents (runID : string) (cursor : Z)
| CListRunEventsPage (runID : string) (cursor limit : Z)
| CListSessionEvents (sessionID : string) (cursor : Z)
| CListSessionEventsPage (sessionID : string) (cursor limit : Z)
| CCreateSyncJob (now : Z) (r1 r2 : list Z) (key : string)
| CGetSyncJob (id : string)
| CApplyBootstrapBatch (now : Z) (b : BootstrapBatch).

Definition discard {A} (m : ROp A) : ROp unit := let! _ := m in ret tt.

Definition run_call (c : Call) : ROp unit :=
  match c with
  | CUpsertProjects now ps => discard (UpsertProjects now ps)
  | CListProjects => discard ListProjects
  | CCreateSession now r p t k h => discard (CreateSession now r p t k h)
  | CListSessions p => discard (ListSessions p)
  | CGetSession id => discard (GetSession id)
  | CCreateRun now r1 r2 s p f k h => discard (CreateRun now r1 r2 s p f k h)
  | CListRuns s => discard (ListRuns s)
  | CGetRun id b => discard (GetRun id b)
  | CRequestCancel now clock r id => discard (RequestCancel now clock r id)
  | CClaimCommands now w l n => discard (ClaimCommands now w l n)
  | CMarkCommandDelivered now id => discard (MarkCommandDelivered now id)
  | CReleaseCommand now id code => discard (ReleaseCommand now id code)
  | CAppendAgentEvent now clock r n t p o => discard (AppendAgentEvent now clock r n t p o)
  | CListRunEvents r n => discard (ListRunEvents r n)
  | CListRunEventsPage r n l => discard (ListRunEventsPage r n l)
  | CListSessionEvents s n => discard (ListSessionEvents s n)
  | CListSessionEventsPage s n l => discard (ListSessionEventsPage s n l)
  | CCreateSyncJob now r1 r2 k => discard (CreateSyncJob now r1 r2 k)
  | CGetSyncJob id => discard (GetSyncJob id)
  | CApplyBootstrapBatch now b => discard (ApplyBootstrapBatch now b)
  end.

(** Calls one after the other, each whatever the previous ones returned. *)
Fixpoint run_calls (cs : list Call) (w : World DB) : World DB :=
  match cs with [] => w | c :: cs => run_calls cs (run_call c w).2 end.

Lemma discard_good {A} (m : ROp A) : op_guar good m → op_guar good (discard m).
Proof. intros Hm. unfold discard. apply op_guar_bind; [apply _|done|]. guar. Qed.

Lemma run_call_good c : op_guar good (run_call c).
Proof. destruct c; simpl; apply discard_good; eauto with guar. Qed.

Lemma run_calls_good (cs : list Call) (w : World DB) :
  rely good w → db_wf (w_db w) →
  db_wf (w_db (run_calls cs w)) ∧ grows (w_db w) (w_db (run_calls cs w)).
Proof.
  revert w. induction cs as [|c cs IH]; intros w Hrely Hwf; simpl.
  - split; [done|reflexivity].
  - destruct (run_call_good c w Hrely) as [Hg Hrely'].
    destruct (Hg Hwf) as [Hwf' Hgrows].
    destruct (IH _ Hrely' Hwf') as [Hwf'' Hgrows'].
    split; [done|by etrans].
Qed.

(** C1. Whatever calls are made, whatever round trips to PostgreSQL fail or
    lose their reply, and whatever other clients of the store do between the
    statements and transactions of a call: the invariant of the schema is
    kept (dense session sequences, unique keys, one active sync job, every
    reference resolved), and history only grows (no row is deleted, no
    identity, request hash or command content changes, session events are
    append-only, cursors, versions and batch numbers never go back). *)
Theorem store_invariant (cs : list Call) (w : World DB) :
  rely good w → db_wf (w_db w) →
  db_wf (w_db (run_calls cs w)) ∧ grows (w_db w) (w_db (run_calls cs w)).
Proof. apply run_calls_good. Qed.
End Calls.

Definition byte_collation : Collation := λ a b,
  match String.compare a b with Gt => false | _ => true end.

Definition demo_calls : list Call :=
  [CUpsertProjects 1000 [mkProject "p" "Project"];
   CCreateSession 2000 [1] "p" "title" "key" "hash";
   CCreateSyncJob 3000 [2] [3] "sync-key"]%Z.

Lemma store_invariant_witness :
  db_wf (w_db (run_calls (J := plain_jsonb) (C := byte_collation) demo_calls
                 (mkWorld empty_db [Done; LostReply] [id])))
  ∧ grows empty_db (w_db (run_calls (J := plain_jsonb) (C := byte_collation) demo_calls
                            (mkWorld empty_db [Done; LostReply] [id]))).
Proof.
  apply (store_invariant (J := plain_jsonb) (C := byte_collation) demo_calls
           (mkWorld empty_db [Done; LostReply] [id])).
  - constructor; [intros d; reflexivity|constructor].
  - exact empty_db_wf.
Defined.
