(* ===== verification/RunSpec.v ===== *)
(** * What the run operations do

    Functional specifications of CreateSession, CreateRun, RequestCancel and
    AppendAgentEvent: for every outcome of every round trip, what the database
    is afterwards and what the caller is told. *)

From S2P Require Import Prelude GoStd GoTime Json Payloads.
From S2P Require Import Sql Tables RuntimeDB RuntimeSql RuntimeHistory RunStore.
#[local] Open Scope string_scope.

Definition db_error {A} (r : result rt_error A) : Prop := ∃ e, r = Err (EDb e).

Section Specs.
Context `{J : !Jsonb}.

(** The session a client sees under an id. *)
Definition visible_by_id (d : DB) (id : string) : option session_row :=
  match sessions d !! id with
  | Some s => if visible_session d s then Some s else None
  | None => None
  end.

Definition bumped (now : Z) (s : session_row) : session_row :=
  mkSessionRow (se_project_id s) (se_thread_id s) (se_title s) (se_last_sequence s + 1)
    (se_key s) (se_hash s) (se_created_at s) now (se_last_seen s) (se_archived_at s).

(** The next session event, numbered by the cursor. *)
Definition session_event_appended (now : Z) (id type : string) (p : json) (s : session_row) (d : DB) : DB :=
  set_session_events
    (<[id := <[(se_last_sequence s + 1)%Z := mkSessionEventRow type p now]>
               (rows (session_events d) id)]> (session_events d))
    (set_sessions (<[id := bumped now s]> (sessions d)) d).

Lemma append_session_event_live now id type payload d :
  (∃ e, (append_session_event now id type payload (live d)).1 = Err (EDb e)) ∨
  (∃ s p, sessions d !! id = Some s ∧ jsonb payload = Some p ∧
     append_session_event now id type payload (live d) =
       (Ok (se_last_sequence s + 1)%Z, live (session_event_appended now id type p s d))).
Proof.
  unfold append_session_event. rewrite bind_live, tx_stmt_live.
  destruct (bump_session now id d) as [[n d1]|e] eqn:Eb; [|left; by eexists].
  rewrite bind_live, tx_stmt_live.
  destruct (insert_session_event now id n type payload d1) as [[[] d2]|e] eqn:Ei;
    [|left; by eexists].
  right. apply bump_session_ok in Eb as (s&Hs&->&_&->).
  apply insert_session_event_ok in Ei as (p&Hp&_&_&->). by exists s, p.
Qed.

Lemma GetRun_alone id w res w' :
  w_env w = [] → GetRun id false w = (res, w') →
  w_env w' = [] ∧ w_db w' = w_db w ∧
  (db_error res ∨
   res = match runs (w_db w) !! id with Some x => Ok (scanRun id x) | None => Err ErrNotFound end).
Proof.
  intros Hw H. unfold GetRun in H. alone_step Hw H.
  destruct r as [[item|]|e]; simpl in H; unfold fail in H; simplify_eq/=; (split; [done|split; [done|]]).
  - right. by destruct (runs (w_db w) !! id); simplify_eq/=.
  - right. by destruct (runs (w_db w) !! id); simplify_eq/=.
  - left. destruct E as [x ->]. by eexists.
Qed.

Lemma GetRun_calm id d x :
  runs d !! id = Some x → GetRun id false (calm d) = (Ok (scanRun id x), calm d).
Proof. intros Hx. unfold GetRun. calm_step. by rewrite Hx. Qed.

(** *** CreateRun *)

Definition run_created (now : Z) (runID commandID sessionID prompt profile key hash : string)
    (s : session_row) (p1 p2 : json) (d : DB) : DB :=
  set_outbox (<[commandID := new_command now "run.start" runID p2]> (outbox d))
    (session_event_appended now sessionID "run.created" p1 s
      (set_runs (<[runID := queued_run now sessionID prompt profile key hash]> (runs d)) d)).

Section CreateRun.
Context (now : Z) (r1 r2 : list Z) (sessionID prompt profile key hash : string).
Let runID := newID "run" r1.
Let commandID := newID "cmd" r2.
Let body := create_run_tx now r1 r2 sessionID prompt profile key hash.

Definition created_payloads (s : session_row) (p1 p2 : json) : Prop :=
  jsonb (run_created_payload sessionID runID now) = Some p1 ∧
  jsonb (runStartCommandPayload commandID runID (se_project_id s)
           (coalesce (se_thread_id s)) prompt profile) = Some p2.

Lemma create_run_tx_robust : all_or_nothing body.
Proof. left. unfold body, create_run_tx, append_session_event. robust. Qed.

Lemma create_run_tx_calm d :
  match visible_by_id d sessionID, find_run_by_key sessionID key d with
  | None, _ => reply body d = Err ErrNotFound ∧ committed body d = d
  | Some _, Some (i, r) => committed body d = d ∧
      (db_error (reply body d)
       ∨ (ru_hash r = Some hash ∧ reply body d = Ok (inr i))
       ∨ (ru_hash r ≠ Some hash ∧ reply body d = Err ErrIdempotencyConflict))
  | Some s, None =>
      (db_error (reply body d) ∧ committed body d = d) ∨
      ∃ p1 p2, created_payloads s p1 p2
        ∧ runs d !! runID = None ∧ outbox d !! commandID = None
        ∧ committed body d = run_created now runID commandID sessionID prompt profile key hash s p1 p2 d
        ∧ reply body d = Ok (inl (scanRun runID (queued_run now sessionID prompt profile key hash),
                                  (se_last_sequence s + 1)%Z))
  end.
Proof.
  destruct (body (live d)) as [r t] eqn:H. pose proof H as H0.
  unfold body, create_run_tx in H. unfold created_payloads, runID, commandID in *.
  live_step H. unfold visible_by_id.
  destruct (sessions d !! sessionID) as [s|] eqn:Es; [|by live_end H H0].
  destruct (visible_session d s) eqn:Ev; [|by live_end H H0].
  live_step H. unfold select_run_key in H.
  destruct (find_run_by_key sessionID key d) as [[i x]|] eqn:Ef.
  - destruct (ru_hash x) as [h|] eqn:Eh;
      [|live_end H H0; split; [done|left; by eexists]].
    destruct (String.eqb_spec h hash) as [->|Hne]; simpl in H; live_end H H0;
      (split; [done|]); right; [by left|right; split; [congruence|done]].
  - live_step H.
    destruct (insert_run _ _ d) as [[[] d1]|e] eqn:Ei;
      [|live_end H H0; left; split; [by eexists|done]].
    apply insert_run_ok in Ei as [Hfree ->]. rewrite bind_live in H.
    set (d1 := set_runs _ d) in *.
    destruct (append_session_event_live now sessionID "run.created"
                (run_created_payload sessionID (newID "run" r1) now) d1)
      as [[e He]|(s'&p1&Hs'&Hp1&Hev)].
    { cbn [scanRun r_CreatedAt queued_run ru_created_at] in H.
      destruct (append_session_event _ _ _ _ _) as [re te]. simpl in He. subst re.
      live_end H H0. left. split; [by eexists|done]. }
    cbn [scanRun r_CreatedAt queued_run ru_created_at] in H. rewrite Hev in H.
    simpl in Hs'. rewrite Es in Hs'. simplify_eq. live_step H.
    destruct (insert_command _ _ _ _ _ _) as [[[] d2]|e] eqn:Ec;
      [|live_end H H0; left; split; [by eexists|done]].
    apply insert_command_ok in Ec as (p2&Hp2&Hfree2&_&->).
    live_end H H0. right. exists p1, p2. done.
Qed.

(** What CreateRun may answer and leave behind. *)
Definition create_run_outcome (d : DB) (res : result rt_error (Run * Z * bool)) (d' : DB) : Prop :=
  match find_run_by_key sessionID key d, visible_by_id d sessionID with
  | Some (i, r), _ => d' = d ∧
      (db_error res
       ∨ (ru_hash r = Some hash ∧ res = Ok (scanRun i r, 0%Z, false))
       ∨ (ru_hash r ≠ Some hash ∧ res = Err ErrIdempotencyConflict))
  | None, None => d' = d ∧ (res = Err ErrNotFound ∨ db_error res)
  | None, Some s =>
      (d' = d ∧ db_error res) ∨
      ∃ p1 p2, created_payloads s p1 p2 ∧ runs d !! runID = None ∧ outbox d !! commandID = None
        ∧ d' = run_created now runID commandID sessionID prompt profile key hash s p1 p2 d
        ∧ (db_error res ∨
           res = Ok (scanRun runID (queued_run now sessionID prompt profile key hash),
                     (se_last_sequence s + 1)%Z, true))
  end.

Lemma CreateRun_alone w res w' :
  w_env w = [] → CreateRun now r1 r2 sessionID prompt profile key hash w = (res, w') →
  create_run_outcome (w_db w) res (w_db w').
Proof.
  intros Hw H. unfold CreateRun in H. unfold create_run_outcome. alone_step Hw H.
  destruct r as [[i|]|e].
  - (* the key is found before the transaction *)
    destruct (find_run_by_key sessionID key (w_db w)) as [[i' x]|] eqn:Ef; simplify_eq/=.
    pose proof Ef as Hx. apply lookup_by_Some in Hx as [Hx _].
    alone_step Hw H. rewrite Hd, Hx in E. simpl in E.
    destruct r as [h|e].
    + destruct (ru_hash x) as [h'|] eqn:Eh; [|done]. injection E as <- Hd1.
      destruct (String.eqb_spec h' hash) as [->|Hne]; simpl in H.
      * destruct (GetRun i' false _) as [rg w2] eqn:Eg.
        apply GetRun_alone in Eg as (_&Hd2&Hg); [|done].
        rewrite <- Hd1 in Hd2. rewrite <- Hd1, Hx in Hg.
        destruct Hg as [[e Hg]|Hg]; subst rg; simplify_eq/=; (split; [done|]).
        -- left. by eexists.
        -- right; left. done.
      * unfold fail in H. simplify_eq. split; [congruence|]. right; right. split; congruence.
    + destruct E as [[e' ->] Hd1]. simplify_eq/=. split; [|left; by eexists].
      destruct Hd1 as [->|[a Ha]]; [done|]. destruct (ru_hash x); simplify_eq/=; congruence.
  - destruct (find_run_by_key sessionID key (w_db w)) as [[i' x]|] eqn:Ef; [done|].
    cbn [bind sm_monad] in H. destruct (run_tx _ _) as [rt w2] eqn:Et.
    apply run_tx_alone in Et as (Hw2&Ht); [|done|apply create_run_tx_robust].
    pose proof (create_run_tx_calm (w_db w)) as Hc. rewrite Ef in Hc. rewrite Hd in Ht.
    fold body in Ht.
    destruct (visible_by_id (w_db w) sessionID) as [s|] eqn:Ev.
    + destruct Hc as [[[e Hr] Hc]|(p1&p2&Hp&Hf1&Hf2&Hc&Hr)].
      * left. destruct rt as [a|e']; [destruct Ht; congruence|]. simplify_eq/=.
        split; [|destruct Ht as [[[x ->] _]|[Hr' _]]; [by eexists|exists e; congruence]].
        destruct Ht as [[_ [?|?]]|[_ ?]]; congruence.
      * destruct rt as [a|e'].
        -- destruct Ht as [Hr' Hd']. rewrite Hr in Hr'. simplify_eq/=.
           right. exists p1, p2. split_and!; try done; [congruence|by right].
        -- destruct Ht as [[[x ->] [Hd'|Hd']]|[? _]]; [| |congruence]; simplify_eq/=.
           ++ left. split; [done|by eexists].
           ++ right. exists p1, p2. split_and!; try done; [congruence|left; by eexists].
    + destruct Hc as [Hr Hc]. destruct rt as [a|e']; [destruct Ht; congruence|]. simplify_eq/=.
      destruct Ht as [[[x ->] [?|?]]|[? ?]]; (split; [congruence|]);
        [right; by eexists|right; by eexists|left; congruence].
  - destruct E as [x ->]. simplify_eq/=.
    destruct (find_run_by_key _ _ _) as [[i' y]|]; [|destruct (visible_by_id _ _)].
    + split; [done|left; by eexists].
    + left. split; [done|by eexists].
    + split; [done|right; by eexists].
Qed.

(** C2. CreateRun, whatever round trips fail, with no other client in
    between.  A key the session already uses changes nothing: the same
    request gets its run, another request a conflict.  A session that is
    absent or archived changes nothing.  Otherwise one transaction either
    leaves no trace or adds, together, the queued run, the session event
    that announces it under the session's next number, and the command that
    starts it, addressed by ids and with the project, thread, prompt and
    profile of the request; the caller gets the run and that number, or a
    database error. *)
Theorem CreateRun_spec w res w' :
  w_env w = [] → CreateRun now r1 r2 sessionID prompt profile key hash w = (res, w') →
  create_run_outcome (w_db w) res (w_db w').
Proof. apply CreateRun_alone. Qed.

Lemma find_created s p1 p2 d :
  find_run_by_key sessionID key d = None →
  find_run_by_key sessionID key
    (run_created now runID commandID sessionID prompt profile key hash s p1 p2 d)
  = Some (runID, queued_run now sessionID prompt profile key hash).
Proof.
  intros Hnone. unfold find_run_by_key in *. pose proof (proj1 (lookup_by_None _ _) Hnone) as Hno.
  simpl. apply lookup_by_unique; [by rewrite lookup_insert_eq|done|].
  intros k' v' Hk' HP. destruct (decide (k' = runID)) as [|Hne]; [done|].
  rewrite lookup_insert_ne in Hk' by done. by destruct (Hno k' v').
Qed.
End CreateRun.

(** The answer to the repetition of a request that created a run. *)
Definition created_before (now : Z) (r1 : list Z) (sessionID prompt profile key hash : string) : Run * Z * bool :=
  (scanRun (newID "run" r1) (queued_run now sessionID prompt profile key hash), 0%Z, false).

(** A client that lost the reply of a CreateRun that took effect, and
    repeats it, gets the run it created and changes nothing; so a client that
    retries until it is answered never creates two runs. *)
Lemma CreateRun_retry now r1 r2 sessionID prompt profile key hash w res w' now' r1' r2' :
  w_env w = [] → CreateRun now r1 r2 sessionID prompt profile key hash w = (res, w') →
  w_db w' ≠ w_db w →
  ∃ w2, CreateRun now' r1' r2' sessionID prompt profile key hash (calm (w_db w'))
          = (Ok (created_before now r1 sessionID prompt profile key hash), w2)
        ∧ w_db w2 = w_db w'.
Proof.
  intros Hw H Hne. apply CreateRun_alone in H; [|done]. unfold create_run_outcome in H.
  destruct (find_run_by_key sessionID key (w_db w)) as [[i x]|] eqn:Ef; [by destruct H|].
  destruct (visible_by_id (w_db w) sessionID) as [s|]; [|by destruct H].
  destruct H as [[? _]|(p1&p2&_&_&_&->&_)]; [done|].
  pose proof (find_created now r1 r2 sessionID prompt profile key hash s p1 p2 _ Ef) as Hf.
  set (d' := run_created _ _ _ _ _ _ _ _ _ _ _ _) in *.
  assert (runs d' !! newID "run" r1 = Some (queued_run now sessionID prompt profile key hash)) as Hr
    by (by apply lookup_by_Some in Hf as [? _]).
  exists (calm d'). unfold CreateRun. calm_step. rewrite Hf. simpl fst. cbn [fmap option_fmap option_map].
  calm_step. cbn [fst]. rewrite Hr. cbn -[scanRun GetRun bind]. rewrite String.eqb_refl. cbn [negb].
  rewrite bind_op.
  by rewrite (GetRun_calm _ _ _ Hr).
Qed.

(** *** CreateSession *)

Lemma find_session_by_key d id s key :
  db_wf d → sessions d !! id = Some s → se_key s = Some key →
  ∀ i x, sessions d !! i = Some x → se_key x = Some key → i = id ∧ x = s.
Proof.
  intros Hwf Hs Hk i x Hx Hkx. assert (i = id) as -> by (by eapply (wf_session_key d Hwf)).
  split; [done|congruence].
Qed.

Lemma select_session_by_key_bound d id s h key found d' :
  db_wf d → sessions d !! id = Some s → se_key s = Some key → se_hash s = Some h →
  select_session_by_key key d = Ok (found, d') →
  d' = d ∧ (found = None ∨ found = Some (mkKeyed (scanSession id s) h)).
Proof.
  intros Hwf Hs Hk Hh H. unfold select_session_by_key in H.
  destruct (lookup_by _ _) as [[i x]|] eqn:El; [|simplify_eq; auto].
  apply lookup_by_Some in El as [Hx [Hkx _]].
  destruct (find_session_by_key d id s key Hwf Hs Hk i x Hx Hkx) as [-> ->].
  rewrite Hh in H. simplify_eq. auto.
Qed.

(** A call that reads a bound key, whatever the others do meanwhile: the
    session is still bound, to the same hash. *)
Definition bound (id key h : string) (w : World DB) : Prop :=
  rely good w ∧ db_wf (w_db w) ∧
  ∃ s, sessions (w_db w) !! id = Some s ∧ se_key s = Some key ∧ se_hash s = Some h.

Lemma bound_step {A} (m : ROp A) id key h w :
  op_guar good m → bound id key h w → bound id key h (m w).2.
Proof.
  intros Hm (Hr&Hwf&s&Hs&Hk&Hh). destruct (Hm w Hr) as [Hg Hr'].
  destruct (Hg Hwf) as [Hwf' Hgr]. split; [done|split; [done|]].
  destruct (g_sessions _ _ Hgr id s Hs) as (s'&Hs'&Hle). exists s'.
  split; [done|]. by rewrite (sl_key _ _ Hle), (sl_hash _ _ Hle).
Qed.

Lemma bound_interfere id key h w : bound id key h w → bound id key h (interfere w).
Proof.
  intros (Hr&Hwf&s&Hs&Hk&Hh). destruct (interfere_rely good w Hr) as [Hg Hr'].
  destruct (Hg Hwf) as [Hwf' Hgr]. split; [done|split; [done|]].
  destruct (g_sessions _ _ Hgr id s Hs) as (s'&Hs'&Hle). exists s'.
  split; [done|]. by rewrite (sl_key _ _ Hle), (sl_hash _ _ Hle).
Qed.

Lemma sessionByKey_bound id key h w k w' :
  bound id key h w → sessionByKey key w = (Ok k, w') → s_ID (ks_session k) = id ∧ ks_hash k = h.
Proof.
  intros Hb%bound_interfere H. unfold sessionByKey in H. rewrite bind_op in H. unfold pool_stmt in H.
  destruct Hb as (_&Hwf&s&Hs&Hk&Hh). set (v := interfere w) in *.
  pose proof (select_session_by_key_bound (w_db v) id s h key) as Hsel.
  destruct (select_session_by_key key (w_db v)) as [[found d]|e] eqn:Es.
  - destruct (Hsel _ _ Hwf Hs Hk Hh eq_refl) as [_ Hf].
    destruct (next (w_faults v)) as [[| |] fs]; [|done..].
    destruct Hf as [->| ->]; cbv [ret fail sm_monad] in H; simplify_eq/=; done.
  - by destruct (next (w_faults v)) as [[| |] fs].
Qed.

Lemma insert_new_session_bound now id' projectID title key hash id h w x w' :
  bound id key h w →
  (pool_stmt (insert_new_session now id' projectID title key hash) : ROp _) w = (Ok x, w') → x = None.
Proof.
  intros (_&Hwf&s&Hs&Hk&_)%bound_interfere H. unfold pool_stmt in H. set (v := interfere w) in *.
  destruct (insert_new_session now id' projectID title key hash (w_db v)) as [[y d]|e] eqn:Es;
    destruct (next (w_faults v)) as [[| |] fs]; try done.
  simplify_eq/=. unfold insert_new_session in Es.
  destruct (projects (w_db v) !! projectID) as [p|]; [|by simplify_eq].
  destruct (pr_archived_at p); [by simplify_eq|]. simpl in Es.
  unfold insert_session in Es. case_bool_decide as Hpk; simpl in Es; [by simplify_eq|].
  set (row := mkSessionRow _ _ _ _ _ _ _ _ _ _) in *.
  assert (taken se_key (sessions (w_db v)) id' (Some key) = true) as Htaken.
  { simpl. destruct (taken _ _ _ _) eqn:Et; [done|]. pose proof (proj1 (taken_false _ _ _ _) Et) as Hno.
    exfalso.
    apply (Hno id s Hs); [|done]. intros ->. apply Hpk. eauto. }
  rewrite Htaken in Es. by simplify_eq.
Qed.

(** An idempotency key bound to a session stays bound to it: whatever
    fails, and whatever other clients do before and during the call, a later
    CreateSession with that key creates nothing, can only return that
    session, and only when the request is the one that created it. *)
Lemma CreateSession_idempotent now r projectID title key hash id h w x created w' :
  bound id key h w →
  CreateSession now r projectID title key hash w = (Ok (x, created), w') →
  created = false ∧ s_ID x = id ∧ hash = h.
Proof.
  intros Hb H. unfold CreateSession in H. cbn [bind sm_monad] in H. unfold attempt in H.
  destruct (sessionByKey key w) as [[k|e] w1] eqn:E1.
  - destruct (sessionByKey_bound _ _ _ _ _ _ Hb E1) as [Hid Hh].
    destruct (String.eqb_spec hash (ks_hash k)) as [->|]; simpl in H; unfold fail in H; by simplify_eq.
  - destruct e; simpl in H; try (unfold fail in H; by simplify_eq).
    assert (bound id key h w1) as Hb1.
    { pose proof (bound_step _ _ _ _ _ (sessionByKey_good key) Hb) as Hb1. by rewrite E1 in Hb1. }
    destruct (pool_stmt _ w1) as [[item|e] w2] eqn:E2; [|done].
    pose proof (insert_new_session_bound _ _ _ _ _ _ _ _ _ _ _ Hb1 E2) as ->.
    assert (bound id key h w2) as Hb2.
    { pose proof (bound_step _ _ _ _ _ (op_guar_pool good _ (insert_new_session_good now (newID "session" r)
        projectID title key hash)) Hb1) as Hb2. by rewrite E2 in Hb2. }
    destruct (sessionByKey key w2) as [[k|e] w3] eqn:E3; [|done].
    destruct (sessionByKey_bound _ _ _ _ _ _ Hb2 E3) as [Hid Hh].
    destruct (String.eqb_spec hash (ks_hash k)) as [->|]; simpl in H; unfold fail in H; by simplify_eq.
Qed.
End Specs.
