(* ===== verification/EventSpec.v ===== *)
(** * What the event and cancel operations do

    Functional specifications of AppendAgentEvent and RequestCancel, and the
    consequences the streaming protocol relies on. *)

From S2P Require Import Prelude GoStd GoTime Json Payloads.
From S2P Require Import Sql Tables RuntimeDB RuntimeSql RuntimeHistory RunStore RunSpec.
#[local] Open Scope string_scope.

Section Specs.
Context `{J : !Jsonb}.

(** ** AppendAgentEvent *)

Section Append.
Context (now clock : Z) (runID : string) (sequence : Z) (eventType : string)
        (payload : RawMessage) (occurred : string).

Definition occurred_at : Z := match ParseRFC3339 occurred with Some t => t | None => clock end.
Definition turn_ref : TurnInterruptPayload := fst (Unmarshal zero_TurnRef dec_TurnRef payload).
Definition event_status : string := fst (statusForEvent eventType).

(** The log with the event, under its sequence number. *)
Definition event_logged (p : json) (d : DB) : DB :=
  set_run_events (<[runID := <[sequence := mkRunEventRow eventType p (TruncateMicro occurred_at) now]>
                               (rows (run_events d) runID)]> (run_events d)) d.

(** turn.started names the session's Codex thread, once. *)
Definition thread_recorded (sessionID : string) (d : DB) : DB :=
  if String.eqb eventType "turn.started"
  then set_sessions (alter (set_thread now (tr_ThreadID turn_ref)) sessionID (sessions d)) d
  else d.

Definition run_advanced (r : run_row) (d : DB) : DB :=
  set_runs (<[runID := advance_run now sequence eventType (tr_TurnID turn_ref) r]> (runs d)) d.

(** The event of a run row [r], with the status change it announces. *)
Definition event_applied (r : run_row) (p : json) (d d' : DB) : Prop :=
  let d3 := run_advanced r (thread_recorded (ru_session_id r) (event_logged p d)) in
  if String.eqb event_status "" then d' = d3
  else ∃ s q, sessions d3 !! ru_session_id r = Some s
    ∧ jsonb (run_status_payload (ru_session_id r) runID event_status) = Some q
    ∧ d' = session_event_appended now (ru_session_id r) (session_event_type event_status) q s d3.

Let body := append_event_tx now clock runID sequence eventType payload occurred.

Lemma append_event_tx_robust : all_or_nothing body.
Proof. left. unfold body, append_event_tx, append_session_event. robust. Qed.

Lemma update_session_of_run_ok f d b d' r :
  runs d !! runID = Some r → update_session_of_run runID f d = Ok (b, d') →
  d' = set_sessions (alter f (ru_session_id r) (sessions d)) d.
Proof.
  intros Hr H. unfold update_session_of_run, update_session in H. rewrite Hr in H.
  destruct (sessions d !! ru_session_id r) as [s|] eqn:Es.
  - destruct (put_session _ _ d) as [[[] d1]|] eqn:Ep; simpl in H; [|done].
    apply put_session_ok in Ep as ->. simplify_eq. f_equal. apply map_eq. intros i.
    destruct (decide (i = ru_session_id r)) as [->|].
    + by rewrite lookup_insert_eq, lookup_alter_eq, Es.
    + by rewrite lookup_insert_ne, lookup_alter_ne.
  - simplify_eq. destruct d'; unfold set_sessions; simpl in *. f_equal.
    symmetry. apply map_eq. intros i. destruct (decide (i = ru_session_id r)) as [->|].
    + by rewrite lookup_alter_eq, Es.
    + by rewrite lookup_alter_ne.
Qed.

Lemma thread_step_live r d :
  runs d !! runID = Some r →
  let step := if String.eqb eventType "turn.started"
              then let! _ := tx_stmt (update_session_of_run runID (set_thread now (tr_ThreadID turn_ref))) in ret tt
              else ret tt : RTx unit in
  (∃ e t, step (live d) = (Err (EDb e), t)) ∨
  step (live d) = (Ok tt, live (thread_recorded (ru_session_id r) d)).
Proof.
  intros Hr. unfold thread_recorded. destruct (String.eqb eventType _); [|by right].
  cbv zeta. rewrite bind_live, tx_stmt_live.
  destruct (update_session_of_run _ _ d) as [[b d1]|e] eqn:Eu; [|left; by do 2 eexists].
  right. by rewrite (update_session_of_run_ok _ _ _ _ _ Hr Eu).
Qed.

(** What the announcement of a status adds. *)
Definition announced (sessionID : string) (d d' : DB) : Prop :=
  if String.eqb event_status "" then d' = d
  else ∃ s q, sessions d !! sessionID = Some s
    ∧ jsonb (run_status_payload sessionID runID event_status) = Some q
    ∧ d' = session_event_appended now sessionID (session_event_type event_status) q s d.

Lemma announce_step_live sessionID d :
  let step := if negb (String.eqb event_status "")
              then let! _ := append_session_event now sessionID (session_event_type event_status)
                               (run_status_payload sessionID runID event_status) in ret tt
              else ret tt : RTx unit in
  (∃ e t, step (live d) = (Err (EDb e), t)) ∨
  (∃ d', step (live d) = (Ok tt, live d') ∧ announced sessionID d d').
Proof.
  unfold announced. destruct (String.eqb event_status ""); cbn [negb];
    [right; by exists d|]. rewrite bind_live.
  destruct (append_session_event_live now sessionID (session_event_type event_status)
              (run_status_payload sessionID runID event_status) d) as [[e He]|(s&q&Hs&Hq&->)].
  - left. destruct (append_session_event _ _ _ _ _) as [re te]. simpl in He. subst re. by do 2 eexists.
  - right. eexists. split; [done|]. by exists s, q.
Qed.

Lemma append_event_calm d :
  (db_error (reply body d) ∧ committed body d = d) ∨
  (reply body d = Ok tt ∧ committed body d = d ∧ is_Some (rows (run_events d) runID !! sequence)) ∨
  (∃ p0 p r, reply body d = Ok tt ∧ payload = Raw p0 ∧ jsonb p0 = Some p ∧ runs d !! runID = Some r
     ∧ (0 < sequence)%Z ∧ rows (run_events d) runID !! sequence = None
     ∧ event_applied r p d (committed body d)).
Proof.
  destruct (body (live d)) as [x t] eqn:H. pose proof H as H0.
  unfold body, append_event_tx in H. fold occurred_at turn_ref in H. live_step H.
  destruct (match payload with RawNil => _ | Raw _ => _ end) as [[b d1]|e] eqn:Ei;
    [|live_end H H0; left; split; [by eexists|done]].
  destruct payload as [|p0] eqn:Ep; [done|].
  apply insert_run_event_ok in Ei as [(->&->&Hdup)|(p&->&Hp&Hpos&[r Hr]&Hnew&->)].
  { simpl in H. live_end H H0. right; left. done. }
  change (set_run_events _ d) with (event_logged p d) in H. cbn [negb] in H.
  rewrite (surjective_pairing (statusForEvent eventType)) in H. fold event_status in H.
  rewrite bind_live in H.
  destruct (thread_step_live r (event_logged p d) Hr) as [(e&t1&He)|He]; cbv zeta in He;
    rewrite He in H;
    [live_end H H0; left; split; [by eexists|done]|].
  set (d2 := thread_recorded _ _) in *.
  assert (runs d2 !! runID = Some r) as Hr2.
  { unfold d2, thread_recorded. by destruct (String.eqb eventType _). }
  live_step H. destruct (update_run _ _ d2) as [[u d3]|e] eqn:Eu;
    [|live_end H H0; left; split; [by eexists|done]].
  apply update_run_ok in Eu as [(_&Hnone&_)|(r'&_&Hr'&->)]; [congruence|].
  rewrite Hr2 in Hr'. injection Hr' as <-.
  live_step H. cbn [runs set_runs] in H. rewrite lookup_insert_eq in H.
  assert (ru_session_id (advance_run now sequence eventType (tr_TurnID turn_ref) r) = ru_session_id r)
    as Hsid by (unfold advance_run; by destruct (statusForEvent eventType)).
  rewrite Hsid, bind_live in H.
  destruct (announce_step_live (ru_session_id r) (run_advanced r d2)) as [(e&t1&He2)|(d4&He2&Han)];
    cbv zeta in He2; unfold run_advanced in He2; rewrite He2 in H;
    [live_end H H0; left; split; [by eexists|done]|].
  live_end H H0. right; right. exists p0, p, r. split_and!; try done.
  unfold event_applied. rewrite Hdb. unfold announced in Han. fold d2. exact Han.
Qed.

Lemma event_applied_run r p d d' :
  event_applied r p d d' →
  runs d' = <[runID := advance_run now sequence eventType (tr_TurnID turn_ref) r]> (runs d)
  ∧ run_events d' = run_events (event_logged p d).
Proof.
  unfold event_applied, run_advanced, thread_recorded, session_event_appended.
  destruct (String.eqb event_status ""), (String.eqb eventType "turn.started");
    [intros ->; done..| |]; by intros (s&q&_&_&->).
Qed.

Lemma AppendAgentEvent_alone w res w' :
  w_env w = [] →
  AppendAgentEvent now clock runID sequence eventType payload occurred w = (res, w') →
  (w_db w' = w_db w ∧
     (db_error res ∨ (is_Some (rows (run_events (w_db w)) runID !! sequence) ∧
                      (∀ r, runs (w_db w) !! runID = Some r → res = Ok (scanRun runID r)))))
  ∨ (∃ p0 p r, payload = Raw p0 ∧ jsonb p0 = Some p ∧ runs (w_db w) !! runID = Some r
       ∧ (0 < sequence)%Z ∧ rows (run_events (w_db w)) runID !! sequence = None
       ∧ event_applied r p (w_db w) (w_db w')
       ∧ (db_error res ∨
          res = Ok (scanRun runID (advance_run now sequence eventType (tr_TurnID turn_ref) r)))).
Proof.
  intros Hw H. unfold AppendAgentEvent in H. rewrite bind_op in H. fold body in H.
  destruct (run_tx body w) as [rt w1] eqn:Et.
  apply run_tx_alone in Et as (Hw1&Ht); [|done|apply append_event_tx_robust].
  pose proof (append_event_calm (w_db w)) as Hc.
  destruct rt as [[]|e].
  - destruct Ht as [Hr Hd]. apply GetRun_alone in H as (_&Hd'&Hres); [|done].
    rewrite Hd', Hd in *.
    destruct Hc as [[[e He] _]|[(_&Hdb&Hdup)|(p0&p&r&_&Hp0&Hp&Hrun&Hpos&Hnew&Happ)]]; [congruence| |].
    + left. rewrite Hdb in *. split; [done|]. destruct Hres as [?|Hres]; [by left|right].
      split; [done|]. intros r Hr'. by rewrite Hr' in Hres.
    + right. exists p0, p, r. split_and!; try done.
      destruct (event_applied_run _ _ _ _ Happ) as [Hruns _].
      rewrite Hruns, lookup_insert_eq in Hres. done.
  - simplify_eq. destruct Ht as [[[x ->] Hd]|[Hr Hd]].
    + destruct Hd as [Hd|Hd]; rewrite Hd; [left; split; [done|left; by eexists]|].
      destruct Hc as [[_ Hdb]|[(_&Hdb&_)|(p0&p&r&_&Hp0&Hp&Hrun&Hpos&Hnew&Happ)]].
      * left. split; [done|left; by eexists].
      * left. split; [done|left; by eexists].
      * right. exists p0, p, r. split_and!; try done. left. by eexists.
    + left. split; [done|]. destruct Hc as [[[x Hx] _]|[(Hx&_)|(p0&p&r&Hx&_)]]; [|congruence..].
      left. exists x. congruence.
Qed.

(** C3. AppendAgentEvent, whatever round trips fail, with no other client in
    between.  An event already stored under its run and sequence number
    changes nothing, so a replay is harmless; the caller gets the run as it
    is.  A new event is stored in one transaction together with the run row
    it advances, the Codex thread that turn.started names, and, when the
    event changes the run's status, the session event that announces it; or
    nothing is stored and the caller is told of a database error.  A reply
    without an error carries the run as stored. *)
Theorem AppendAgentEvent_spec w res w' :
  w_env w = [] →
  AppendAgentEvent now clock runID sequence eventType payload occurred w = (res, w') →
  (w_db w' = w_db w ∧
     (db_error res ∨ (is_Some (rows (run_events (w_db w)) runID !! sequence) ∧
                      (∀ r, runs (w_db w) !! runID = Some r → res = Ok (scanRun runID r)))))
  ∨ (∃ p0 p r, payload = Raw p0 ∧ jsonb p0 = Some p ∧ runs (w_db w) !! runID = Some r
       ∧ (0 < sequence)%Z ∧ rows (run_events (w_db w)) runID !! sequence = None
       ∧ event_applied r p (w_db w) (w_db w')
       ∧ (db_error res ∨
          res = Ok (scanRun runID (advance_run now sequence eventType (tr_TurnID turn_ref) r)))).
Proof.
  intros Hw H. apply AppendAgentEvent_alone in H; done.
Qed.
End Append.

(** ** RequestCancel *)

Section Cancel.
Context (now clock : Z) (random : list Z) (id : string).

Definition has_cancel_command (d : DB) : bool :=
  if lookup_by (λ _ c, co_type c = "run.cancel" ∧ co_resource_id c = id) (outbox d) is Some _
  then true else false.

(** The request is on the run and there is a command for the Agent, once. *)
Definition cancel_recorded (r : run_row) (p : json) (d : DB) : DB :=
  let d1 := set_runs (<[id := cancel_row (TruncateMicro clock) r]> (runs d)) d in
  if has_cancel_command d then d1
  else set_outbox (<[newID "cmd" random := new_command now "run.cancel" id p]> (outbox d)) d1.

Definition cancel_outcome (d : DB) (res : result rt_error Run) (d' : DB) : Prop :=
  match runs d !! id with
  | None => d' = d ∧ (res = Err ErrNotFound ∨ db_error res)
  | Some r =>
      if cancel_settled (scanRun id r) then d' = d ∧ (res = Ok (scanRun id r) ∨ db_error res)
      else (d' = d ∧ db_error res) ∨
        ∃ s p, sessions d !! ru_session_id r = Some s
          ∧ jsonb (run_cancel_payload id (coalesce (se_thread_id s)) (coalesce (ru_turn_id r))) = Some p
          ∧ d' = cancel_recorded r p d
          ∧ (db_error res ∨ res = Ok (scanRun id (cancel_row (TruncateMicro clock) r)))
  end.

Let body := request_cancel_tx now clock random id.

Lemma request_cancel_tx_robust : all_or_nothing body.
Proof. left. unfold body, request_cancel_tx. robust. Qed.

Lemma insert_command_once_ok cid payload d d' :
  insert_command_once now cid "run.cancel" id payload d = Ok (tt, d') →
  ∃ p, jsonb payload = Some p ∧
    d' = if has_cancel_command d then d
         else set_outbox (<[cid := new_command now "run.cancel" id p]> (outbox d)) d.
Proof.
  unfold insert_command_once, has_cancel_command. destruct (jsonb payload) as [p|] eqn:Hp; [|done].
  destruct (lookup_by _ _); intros H; [exists p; by simplify_eq|].
  apply insert_command_ok in H as (q&Hq&_&_&->). rewrite Hp in Hq. simplify_eq. by exists q.
Qed.

Lemma request_cancel_calm d :
  match runs d !! id with
  | None => reply body d = Err ErrNotFound ∧ committed body d = d
  | Some r =>
      if cancel_settled (scanRun id r)
      then reply body d = Ok (Some (scanRun id r)) ∧ committed body d = d
      else (db_error (reply body d) ∧ committed body d = d) ∨
        ∃ s p, sessions d !! ru_session_id r = Some s
          ∧ jsonb (run_cancel_payload id (coalesce (se_thread_id s)) (coalesce (ru_turn_id r))) = Some p
          ∧ reply body d = Ok None ∧ committed body d = cancel_recorded r p d
  end.
Proof.
  destruct (body (live d)) as [x t] eqn:H. pose proof H as H0.
  unfold body, request_cancel_tx in H. live_step H.
  destruct (runs d !! id) as [r|] eqn:Hr; cbn [fmap option_fmap option_map] in H; [|by live_end H H0].
  destruct (cancel_settled (scanRun id r)) eqn:Ec; [by live_end H H0|].
  live_step H. unfold select_run_thread in H. rewrite Hr in H.
  destruct (sessions d !! ru_session_id r) as [s|] eqn:Hs;
    [|live_end H H0; left; split; [by eexists|done]].
  cbv beta iota in H. live_step H. destruct (update_run _ _ d) as [[u d1]|e] eqn:Eu;
    [|live_end H H0; left; split; [by eexists|done]].
  apply update_run_ok in Eu as [(_&Hnone&_)|(r'&_&Hr'&->)]; [congruence|].
  rewrite Hr in Hr'. injection Hr' as <-. live_step H.
  destruct (insert_command_once _ _ _ _ _ _) as [[[] d2]|e] eqn:Ei;
    [|live_end H H0; left; split; [by eexists|done]].
  apply insert_command_once_ok in Ei as (p&Hp&->). live_end H H0.
  right. by exists s, p.
Qed.

(** C33. RequestCancel, whatever round trips fail, with no other client in
    between.  A run that is absent is reported so; a run that ended or whose
    cancellation is already requested is returned as it is.  Otherwise one
    transaction marks the run and leaves the Agent one run.cancel command with
    the run's thread and turn, or leaves no trace; the caller gets the marked
    run or a database error.  The run's status is not touched. *)
Theorem RequestCancel_spec w res w' :
  w_env w = [] → RequestCancel now clock random id w = (res, w') →
  cancel_outcome (w_db w) res (w_db w').
Proof.
  intros Hw H. unfold RequestCancel in H. rewrite bind_op in H. fold body in H.
  destruct (run_tx body w) as [rt w1] eqn:Et.
  apply run_tx_alone in Et as (Hw1&Ht); [|done|apply request_cancel_tx_robust].
  pose proof (request_cancel_calm (w_db w)) as Hc. unfold cancel_outcome.
  destruct (runs (w_db w) !! id) as [r|] eqn:Hr; [destruct (cancel_settled _)|].
  - destruct Hc as [Hc Hd]. destruct rt as [a|e].
    + destruct Ht as [Ha Hd']. rewrite Hc in Ha. simplify_eq/=. split; [congruence|by left].
    + simplify_eq/=. destruct Ht as [[[x ->] [?|?]]|[? ?]]; [| |congruence];
        (split; [congruence|right; by eexists]).
  - destruct Hc as [[[x Hx] Hd]|(s&p&Hs&Hp&Hc&Hd)].
    + left. destruct rt as [a|e]; [destruct Ht; congruence|]. simplify_eq.
      destruct Ht as [[[y ->] [?|?]]|[? ?]]; (split; [congruence|]);
        [by eexists|by eexists|exists x; congruence].
    + destruct rt as [a|e].
      * destruct Ht as [Ha Hd']. rewrite Hc in Ha. injection Ha as <-.
        apply GetRun_alone in H as (_&Hd2&Hres); [|done]. right. exists s, p.
        rewrite Hd2, Hd', Hd in *. split_and!; try done.
        assert (runs (cancel_recorded r p (w_db w)) !! id = Some (cancel_row (TruncateMicro clock) r)) as Hl
          by (unfold cancel_recorded; destruct (has_cancel_command _); simpl; by rewrite lookup_insert_eq).
        by rewrite Hl in Hres.
      * simplify_eq. destruct Ht as [[[x ->] [Hd'|Hd']]|[? _]]; [| |congruence].
        -- left. split; [done|by eexists].
        -- right. exists s, p. split_and!; try done; [congruence|left; by eexists].
  - destruct Hc as [Hc Hd]. destruct rt as [a|e]; [destruct Ht; congruence|]. simplify_eq/=.
    destruct Ht as [[[x ->] [?|?]]|[? ?]]; (split; [congruence|]);
      [right; by eexists|right; by eexists|left; congruence].
Qed.
End Cancel.
End Specs.
