(* ===== verification/OutboxSpec.v ===== *)
(** * What the outbox promises

    The functional specification of ClaimCommands, and the lease: a command
    that a worker has claimed is handed to no other worker before its lease
    ends, whatever the clients of the store do meanwhile. *)

From S2P Require Import Prelude GoStd GoTime Json Payloads.
From S2P Require Import Sql Tables RuntimeDB RuntimeSql RuntimeHistory RunStore Outbox Bootstrap Listing RuntimeStore RunSpec.
#[local] Open Scope string_scope.

(** ** The rows a claim selects *)

Section Select.
Context (now : Z) (locked : list string) (limit : Z) (d : DB).

(** All the rows the SELECT could return, in order. *)
Definition claim_candidates : list (string * command_row) :=
  merge_sort created_le
    (filter (λ x, claimable now x.2 = true ∧ x.1 ∉ locked) (map_to_list (outbox d))).

Lemma candidates_elem x :
  x ∈ claim_candidates ↔ outbox d !! x.1 = Some x.2 ∧ claimable now x.2 = true ∧ x.1 ∉ locked.
Proof.
  unfold claim_candidates. rewrite merge_sort_Permutation, list_elem_of_filter.
  destruct x as [i c]. rewrite elem_of_map_to_list. simpl. tauto.
Qed.

Lemma selected_elem x :
  x ∈ select_claimable now locked limit d →
  outbox d !! x.1 = Some x.2 ∧ claimable now x.2 = true ∧ x.1 ∉ locked.
Proof. intros Hx. apply candidates_elem. by eapply subseteq_take. Qed.

Lemma selected_NoDup : NoDup (select_claimable now locked limit d).*1.
Proof.
  apply NoDup_fmap_fst.
  - intros i c1 c2 H1%selected_elem H2%selected_elem. simpl in *. destruct H1, H2. congruence.
  - eapply sublist_NoDup; [|apply sublist_take]. rewrite merge_sort_Permutation.
    apply NoDup_filter, NoDup_map_to_list.
Qed.

(** Oldest first, and no older candidate is left behind. *)
Lemma selected_oldest x y :
  x ∈ claim_candidates → x ∉ select_claimable now locked limit d →
  y ∈ select_claimable now locked limit d → created_le y x.
Proof.
  intros Hx Hnx Hy. pose proof (StronglySorted_merge_sort created_le
    (filter (λ x, claimable now x.2 = true ∧ x.1 ∉ locked) (map_to_list (outbox d)))) as Hs.
  fold claim_candidates in Hs. unfold select_claimable in *. fold claim_candidates in Hnx, Hy.
  rewrite <- (take_drop (Z.to_nat limit) claim_candidates) in Hs, Hx.
  apply elem_of_app in Hx as [Hx|Hx]; [done|].
  by eapply StronglySorted_app_1_elem_of.
Qed.

Lemma selected_full x :
  x ∈ claim_candidates → x ∉ select_claimable now locked limit d →
  length (select_claimable now locked limit d) = Z.to_nat limit.
Proof.
  unfold select_claimable. fold claim_candidates. intros Hx Hnx. rewrite length_take.
  destruct (Nat.le_gt_cases (Z.to_nat limit) (length claim_candidates)); [lia|].
  rewrite take_ge in Hnx by lia. done.
Qed.
End Select.

(** ** ClaimCommands *)

Section Claim.
Context (now : Z) (worker : string).

(** The run of a claimed run.start that still waits is being dispatched. *)
Definition dispatched (r : run_row) : run_row :=
  if String.eqb (ru_status r) "queued" || String.eqb (ru_status r) "waiting_agent"
  then dispatch_row now r else r.

Definition starts (items : list (string * command_row)) (run : string) : bool :=
  existsb (λ x, String.eqb (co_type x.2) "run.start" && String.eqb (co_resource_id x.2) run) items.

(** The items are claimed, the runs they start are dispatched, and nothing else
    moves. *)
Record claimed (items : list (string * command_row)) (d d' : DB) : Prop := {
  cl_outbox : ∀ i, outbox d' !! i =
    (if bool_decide (i ∈ items.*1) then claim_row now worker else id) <$> outbox d !! i;
  cl_runs : ∀ r, runs d' !! r = (if starts items r then dispatched else id) <$> runs d !! r;
  cl_frame : d' = set_outbox (outbox d') (set_runs (runs d') d);
}.

Lemma claimed_nil d : claimed [] d d.
Proof.
  split; [intros i|intros r|by destruct d]; cbn; by destruct (_ !! _).
Qed.

(** Every item is a row of the table, under its own key. *)
Definition items_of (items : list (string * command_row)) (d : DB) : Prop :=
  NoDup items.*1 ∧ ∀ x, x ∈ items → outbox d !! x.1 = Some x.2.

Definition claim_one (x : string * command_row) (d : DB) : DB :=
  let d1 := set_outbox (<[x.1 := claim_row now worker x.2]> (outbox d)) d in
  if String.eqb (co_type x.2) "run.start"
  then set_runs (alter dispatched (co_resource_id x.2) (runs d1)) d1 else d1.

Lemma claim_one_items x items d :
  items_of (x :: items) d → items_of items (claim_one x d).
Proof.
  intros [Hnd Hin]. rewrite fmap_cons, NoDup_cons in Hnd. destruct Hnd as [Hx Hnd].
  split; [done|]. intros y Hy. unfold claim_one.
  assert (outbox d !! y.1 = Some y.2) as Hl by (apply Hin; by right).
  assert (y.1 ≠ x.1) as Hne by (intros E; apply Hx; rewrite <- E; apply list_elem_of_fmap; eauto).
  destruct (String.eqb _ _); simpl; by rewrite lookup_insert_ne.
Qed.

Lemma dispatched_twice r : dispatched (dispatched r) = dispatched r.
Proof. unfold dispatched at 2 3. by destruct (_ || _) eqn:E; [|unfold dispatched; rewrite E]. Qed.

Lemma claimed_cons x items d d' :
  items_of (x :: items) d → claimed items (claim_one x d) d' → claimed (x :: items) d d'.
Proof.
  intros [Hnd Hin] [Ho Hr Hf]. rewrite fmap_cons, NoDup_cons in Hnd. destruct Hnd as [Hx _].
  assert (outbox d !! x.1 = Some x.2) as Hl by (apply Hin; by left).
  split.
  - intros i. rewrite Ho.
    assert (outbox (claim_one x d) = <[x.1 := claim_row now worker x.2]> (outbox d)) as ->
      by (unfold claim_one; by destruct (String.eqb _ _)).
    destruct (decide (i = x.1)) as [->|Hne].
    + rewrite lookup_insert_eq, Hl. rewrite bool_decide_eq_false_2 by done.
      rewrite bool_decide_eq_true_2 by (rewrite fmap_cons; by left). done.
    + rewrite lookup_insert_ne by done. rewrite fmap_cons.
      rewrite (bool_decide_ext (i ∈ x.1 :: items.*1) (i ∈ items.*1)); [done|].
      rewrite elem_of_cons. naive_solver.
  - intros r. rewrite Hr. unfold claim_one, starts. simpl. fold (starts items r).
    destruct (String.eqb (co_type x.2) "run.start"); simpl; [|done].
    destruct (String.eqb_spec (co_resource_id x.2) r) as [->|Hne].
    + rewrite lookup_alter_eq. simpl. destruct (runs d !! r) as [v|]; simpl; [|done].
      destruct (starts items r); simpl; [by rewrite dispatched_twice|done].
    + by rewrite lookup_alter_ne.
  - rewrite Hf. unfold claim_one. by destruct (String.eqb _ _).
Qed.

Lemma dispatch_run_ok id d b d' :
  dispatch_run now id d = Ok (b, d') → d' = set_runs (alter dispatched id (runs d)) d.
Proof.
  unfold dispatch_run. intros H.
  assert (∀ r, runs d !! id = Some r → dispatched r = r → alter dispatched id (runs d) = runs d) as Hsame.
  { intros r Hr Hd. apply map_eq. intros i. destruct (decide (i = id)) as [->|].
    - rewrite lookup_alter_eq, Hr. simpl. by rewrite Hd.
    - by rewrite lookup_alter_ne. }
  destruct (runs d !! id) as [r|] eqn:Hr.
  - destruct (_ || _) eqn:E.
    + apply update_run_ok in H as [(_&Hn&_)|(r'&_&Hr'&->)]; [congruence|].
      rewrite Hr in Hr'. injection Hr' as <-. f_equal. apply map_eq. intros i.
      destruct (decide (i = id)) as [->|].
      * rewrite lookup_insert_eq, lookup_alter_eq, Hr. simpl. unfold dispatched. by rewrite E.
      * by rewrite lookup_insert_ne, lookup_alter_ne.
    + simplify_eq. rewrite (Hsame r eq_refl); [by destruct d'|]. unfold dispatched. by rewrite E.
  - simplify_eq. assert (alter dispatched id (runs d') = runs d') as ->; [|by destruct d'].
    apply map_eq. intros i. destruct (decide (i = id)) as [->|].
    + by rewrite lookup_alter_eq, Hr.
    + by rewrite lookup_alter_ne.
Qed.

Definition claim_step (item : Command) : RTx unit :=
  let! _ := tx_stmt (update_command (c_ID item) (claim_row now worker)) in
  if String.eqb (c_Type item) "run.start" then
    let! _ := attempt (tx_stmt (dispatch_run now (c_ResourceID item))) in ret tt
  else ret tt.

Lemma claim_step_robust item : robust false (claim_step item).
Proof. unfold claim_step. robust. Qed.

(** One item, when no round trip fails: done, refused, or (when the ignored
    statement is refused) done in a transaction that can only fail. *)
Lemma claim_step_live x d :
  outbox d !! x.1 = Some x.2 →
  let m := claim_step (scanCommand x) (live d) in
  m = (Ok tt, live (claim_one x d)) ∨ db_error m.1 ∨ (m.1 = Ok tt ∧ t_ok m.2 = false).
Proof.
  intros Hx. cbv zeta. unfold claim_step. rewrite bind_live, tx_stmt_live. simpl.
  unfold update_command. rewrite Hx.
  destruct (put_command x.1 (claim_row now worker x.2) d) as [[[] d1]|e] eqn:Ep; simpl;
    [|right; left; by eexists].
  apply put_command_ok in Ep as ->. unfold claim_one.
  destruct (String.eqb (co_type x.2) "run.start"); [|by left].
  unfold attempt. rewrite tx_stmt_live.
  destruct (dispatch_run now (co_resource_id x.2) _) as [[b d2]|e] eqn:Ed; simpl.
  - left. by apply dispatch_run_ok in Ed as ->.
  - right; right. done.
Qed.

Lemma claim_loop_live items d :
  items_of items d →
  let m := for_each (map scanCommand items) claim_step (live d) in
  (∃ d', m = (Ok tt, live d') ∧ claimed items d d') ∨ db_error m.1 ∨ (m.1 = Ok tt ∧ t_ok m.2 = false).
Proof.
  cbv zeta. revert d. induction items as [|x items IH]; intros d Hi.
  { left. exists d. split; [done|apply claimed_nil]. }
  change (for_each (map scanCommand (x :: items)) claim_step (live d)) with
    ((let! _ := claim_step (scanCommand x) in for_each (map scanCommand items) claim_step : RTx unit) (live d)).
  rewrite bind_live.
  assert (outbox d !! x.1 = Some x.2) as Hx by (apply Hi; by left).
  destruct (claim_step_live x d Hx) as [->|[[e He]|[He Hd]]].
  - destruct (IH _ (claim_one_items _ _ _ Hi)) as [(d'&->&Hc)|[He|He]]; [|by right; left|by right; right].
    left. exists d'. split; [done|]. by apply claimed_cons.
  - right; left. destruct (claim_step _ _) as [r t]. simpl in He. subst r. by eexists.
  - right. destruct (claim_step _ _) as [r t]. simpl in *. subst r.
    destruct (robust_for_each false (map scanCommand items) claim_step claim_step_robust) as [Hdead _].
    destruct (Hdead t Hd) as [Hd' Hr]. destruct (Hr eq_refl) as [Hok|[y Hy]].
    + right. split; [|done]. by destruct (for_each _ _ _) as [[[]|] ?].
    + left. exists y. by destruct (for_each _ _ _).
Qed.

Section Tx.
Context (locked : list string) (limit : Z).
Let body := claim_tx now worker locked limit.

Lemma claim_tx_all_or_nothing : all_or_nothing body.
Proof.
  right. split; [unfold body, claim_tx; robust|]. intros t. unfold body, claim_tx. cbn [bind sm_monad].
  destruct (tx_stmt _ t) as [[items|e] t1]; [|done].
  destruct (for_each _ _ t1) as [[[]|e] t2]; done.
Qed.

Lemma claim_tx_calm d :
  let items := select_claimable now locked limit d in
  (db_error (reply body d) ∧ committed body d = d) ∨
  (reply body d = Ok (map scanCommand items) ∧ claimed items d (committed body d)).
Proof.
  cbv zeta. set (items := select_claimable now locked limit d).
  assert (items_of items d) as Hi.
  { split; [apply selected_NoDup|]. intros x Hx. by apply selected_elem in Hx as [? _]. }
  destruct (body (live d)) as [r t] eqn:H. pose proof H as H0.
  unfold body, claim_tx in H. live_step H. fold items in H. cbv beta iota in H.
  cbn [bind sm_monad] in H. change (λ item : Command, _) with claim_step in H.
  destruct (claim_loop_live items d Hi) as [(d'&He&Hc)|[[e He]|[He Hd]]].
  - rewrite He in H. live_end H H0. right. by rewrite Hdb.
  - left. destruct (for_each _ _ _) as [r1 t1]. simpl in He. subst r1. live_end H H0.
    split; [by eexists|done].
  - left. destruct (for_each _ _ _) as [r1 t1]. simpl in *. subst r1. injection H as <- <-.
    unfold reply, committed, run_tx, calm. simpl. change (mkTx d true []) with (live d).
    rewrite H0, Hd. destruct (next _). split; [by eexists|done].
Qed.
End Tx.

Lemma ClaimCommands_alone locked limit w res w' :
  w_env w = [] → ClaimCommands now worker locked limit w = (res, w') →
  let items := select_claimable now locked (if (limit <? 1)%Z then 16 else limit)%Z (w_db w) in
  (w_db w' = w_db w ∧ db_error res) ∨
  (claimed items (w_db w) (w_db w') ∧ (res = Ok (map scanCommand items) ∨ db_error res)).
Proof.
  intros Hw H. cbv zeta. unfold ClaimCommands in H. set (n := (if (limit <? 1)%Z then _ else _)) in *.
  apply run_tx_alone in H as (_&H); [|done|apply claim_tx_all_or_nothing].
  destruct (claim_tx_calm locked n (w_db w)) as [[[e He] Hd]|[Hr Hc]]; destruct res as [a|x].
  - destruct H. congruence.
  - left. destruct H as [[[y ->] [?|?]]|[? ?]]; (split; [congruence|]); [by eexists..|exists e; congruence].
  - destruct H as [Ha ->]. right. split; [done|]. left. congruence.
  - destruct H as [[[y ->] [Hd|Hd]]|[? _]]; [| |congruence].
    + left. split; [done|by eexists].
    + right. rewrite Hd. split; [done|right; by eexists].
Qed.

(** C32. ClaimCommands, whatever round trips fail, with no other client in
    between: either nothing happened and the worker is told of a database
    error, or one transaction claimed for it exactly the oldest claimable
    commands that nobody holds, at most [limit] (16 when not positive), for 15
    seconds, and marked the waiting runs they start as dispatching; then the
    worker gets those commands, or, if the reply is lost, an error. *)
Theorem ClaimCommands_spec locked limit w res w' :
  w_env w = [] → ClaimCommands now worker locked limit w = (res, w') →
  let items := select_claimable now locked (if (limit <? 1)%Z then 16 else limit)%Z (w_db w) in
  (w_db w' = w_db w ∧ db_error res) ∨
  (claimed items (w_db w) (w_db w') ∧ (res = Ok (map scanCommand items) ∨ db_error res)).
Proof. apply ClaimCommands_alone. Qed.
End Claim.

(** ** The lease *)

Section Lease.
Context `{J : !Jsonb, C : !Collation} (i : string) (T : Z).

(** The command is done, or in the hands of a worker until [T]. *)
Definition held_row (c : command_row) : Prop :=
  co_status c = "delivered" ∨
  (co_status c = "claimed" ∧ ∃ t, co_claim_expires_at c = Some t ∧ (T ≤ t)%Z).
Definition held (d : DB) : Prop := ∃ c, outbox d !! i = Some c ∧ held_row c.
Notation keeps := (preserves held).

Lemma held_not_claimable now c : (now ≤ T)%Z → held_row c → claimable now c = false.
Proof.
  intros Hn [H|[H (t&Ht&Hle)]]; unfold claimable; rewrite H; [done|]. simpl. rewrite Ht.
  by destruct (Z.ltb_spec t now); [lia|].
Qed.

Lemma keeps_frame {A} (s : Stmt DB A) :
  (∀ d a d', s d = Ok (a, d') → outbox d' = outbox d) → stmt_guar keeps s.
Proof. intros Hs d a d' H (c&Hc&Hh). exists c. by rewrite (Hs d a d' H). Qed.

Lemma keeps_insert now id type resource payload :
  stmt_guar keeps (insert_command now id type resource payload).
Proof.
  intros d [] d' (p&_&Hnone&_&->)%insert_command_ok (c&Hc&Hh). exists c. simpl.
  rewrite lookup_insert_ne; [done|congruence].
Qed.

Lemma keeps_update id f :
  (id = i → ∀ c, held_row c → held_row (f c)) → stmt_guar keeps (update_command id f).
Proof.
  intros Hf d b d' H (c&Hc&Hh). unfold update_command in H.
  destruct (outbox d !! id) as [x|] eqn:Hx; [|simplify_eq; by exists c].
  destruct (put_command id (f x) d) as [[[] d1]|] eqn:Ep; simpl in H; [|done]. simplify_eq.
  apply put_command_ok in Ep as ->. simpl. destruct (decide (id = i)) as [->|].
  - exists (f x). simpl. rewrite lookup_insert_eq. split; [done|].
    assert (x = c) as -> by congruence. auto.
  - exists c. simpl. by rewrite lookup_insert_ne.
Qed.

Lemma deliver_held now id : stmt_guar keeps (update_command id (deliver_row now)).
Proof. apply keeps_update. intros _ c _. by left. Qed.
Lemma deliver_bootstrap_held now id syncID : stmt_guar keeps (deliver_bootstrap now id syncID).
Proof.
  intros d b d' H. unfold deliver_bootstrap in H. destruct (outbox d !! id); [|by simplify_eq].
  destruct (_ && _); [|by simplify_eq].
  eapply (keeps_update id (deliver_bootstrap_row now)); [|exact H]. intros _ x _. by left.
Qed.
Lemma insert_once_held now id type resource payload :
  stmt_guar keeps (insert_command_once now id type resource payload).
Proof.
  intros d [] d' H. unfold insert_command_once in H. destruct (jsonb payload); [|done].
  destruct (lookup_by _ _); [by simplify_eq|by eapply keeps_insert].
Qed.
End Lease.

(** A statement on the other tables. *)
Ltac other_table :=
  apply keeps_frame; let d := fresh "d" in let a := fresh "a" in let d' := fresh "d'" in
  let H := fresh "H" in intros d a d' H;
  unfold upsert_project, put_project, insert_new_session, insert_session, update_session_of_run,
    update_session, bump_session, put_session, dispatch_run, insert_run, update_run, put_run,
    insert_imported_event, insert_run_event, insert_session_event, insert_sync, update_sync, put_sync,
    archive_sessions, archive_projects, delete_run_events, select_session_by_key, select_run_key,
    select_run_thread, query, ensure in H;
  repeat (case_match; simplify_eq/=); done.

Section LeaseCalls.
Context `{J : !Jsonb, C : !Collation} (i : string) (T : Z).
Notation held := (held i T).
Notation keeps := (preserves held).

Lemma selected_free now locked limit d :
  (now ≤ T)%Z → held d → i ∉ map c_ID (map scanCommand (select_claimable now locked limit d)).
Proof.
  intros Hn (c&Hc&Hh) Hin. apply list_elem_of_fmap in Hin as (x&->&Hx).
  apply list_elem_of_fmap in Hx as (y&->&Hy). apply selected_elem in Hy as (Hy&Hcl&_). simpl in *.
  assert (y.2 = c) as E by congruence. rewrite E, (held_not_claimable T now c Hn Hh) in Hcl. done.
Qed.

Lemma claim_step_dead now worker items t :
  t_ok t = false → t_ok (for_each items (claim_step now worker) t).2 = false.
Proof.
  intros Ht. destruct (robust_for_each false items _ (claim_step_robust now worker)) as [Hd _].
  by apply Hd.
Qed.

Lemma claim_held now worker locked limit :
  (now ≤ T)%Z → op_guar keeps (ClaimCommands now worker locked limit).
Proof.
  intros Hn. unfold ClaimCommands. apply op_guar_tx; [apply _|]. intros d0. unfold claim_tx.
  eapply (triple_bind _ _ _ (λ items d, (held d0 → i ∉ map c_ID items) ∧ keeps d0 d)).
  { apply triple_stmt. intros d a d' Hd Hq. unfold query in Hq. simplify_eq. split; [|done].
    intros H0. apply selected_free; auto. }
  intros items. eapply (triple_bind _ _ _ (λ _, keeps d0)); [|intros; by apply triple_ret].
  change (λ item : Command, _) with (claim_step now worker).
  apply triple_pure; [apply claim_step_dead|]. intros Hfree. apply triple_for_each_in. intros x Hx.
  unfold claim_step. eapply (triple_bind _ _ _ (λ _, keeps d0)).
  { apply triple_stmt. intros d a d' Hd Hst H0. eapply (keeps_update i T); [|exact Hst|by apply Hd].
    intros E. destruct (Hfree H0). apply list_elem_of_fmap. by exists x. }
  intros _. destruct (String.eqb _ _); [|by apply triple_ret].
  eapply (triple_bind _ _ _ (λ _, keeps d0)); [|intros; by apply triple_ret].
  apply triple_attempt_stmt. intros d a d' Hd Hst H0.
  assert (stmt_guar keeps (dispatch_run now (c_ResourceID x))) as Hk by other_table.
  eapply Hk; [exact Hst|by apply Hd].
Qed.

(** A command in the hands of a worker is not among those a claim returns. *)
Lemma claim_skips now worker locked limit w cmds w' :
  (now ≤ T)%Z → rely keeps w → held (w_db w) →
  ClaimCommands now worker locked limit w = (Ok cmds, w') → i ∉ map c_ID cmds.
Proof.
  intros Hn Hw Hh H. unfold ClaimCommands in H.
  set (n := (if (limit <? 1)%Z then _ else _)) in *.
  destruct (interfere_rely keeps w Hw) as [Hi _].
  assert (triple held (claim_tx now worker locked n)
    (λ x _, match x with Commit l | Rollback l => i ∉ map c_ID l end)) as Ht.
  { unfold claim_tx. eapply (triple_bind _ _ _ (λ items _, i ∉ map c_ID items)).
    { apply triple_stmt. intros d a d' Hd Hq. unfold query in Hq. simplify_eq.
      by apply selected_free. }
    intros items. eapply (triple_bind _ _ _ (λ _ _, i ∉ map c_ID items));
      [|intros; apply triple_ret; by intros]. change (λ item : Command, _) with (claim_step now worker).
    split; [apply claim_step_dead|done]. }
  destruct (run_tx_triple held _ _ w (claim_tx_all_or_nothing now worker locked n) Ht (Hi Hh))
    as [_ Hres].
  rewrite H in Hres. destruct (Hres cmds eq_refl) as [|[_ [d' ?]]]; done.
Qed.

(** The calls of a period that ends before [T] and that do not give the command
    back. *)
Definition within_lease (c : Call) : Prop :=
  match c with
  | CReleaseCommand _ id _ => id ≠ i
  | CClaimCommands now _ _ _ => (now ≤ T)%Z
  | _ => True
  end.

Lemma import_held now b : tx_guar keeps (import_batch now b).
Proof.
  unfold import_batch, import_session, import_run, append_session_event. guar; other_table.
Qed.

Lemma apply_held now b : op_guar keeps (ApplyBootstrapBatch now b).
Proof.
  unfold ApplyBootstrapBatch, GetSyncJob, apply_batch_tx, reconcile.
  pose proof (import_held now b). guar; try other_table. apply deliver_bootstrap_held.
Qed.

Lemma create_run_held now r1 r2 s p f k h : op_guar keeps (CreateRun now r1 r2 s p f k h).
Proof.
  unfold CreateRun, GetRun, ListRunEvents, create_run_tx, append_session_event.
  guar; try other_table. apply keeps_insert.
Qed.

Lemma append_event_held now clk r n t p o : op_guar keeps (AppendAgentEvent now clk r n t p o).
Proof.
  unfold AppendAgentEvent, GetRun, ListRunEvents, append_event_tx, append_session_event.
  guar; other_table.
Qed.

Lemma cancel_held now clk r id : op_guar keeps (RequestCancel now clk r id).
Proof.
  unfold RequestCancel, GetRun, ListRunEvents, request_cancel_tx.
  guar; try other_table. apply insert_once_held.
Qed.

Lemma create_sync_held now r1 r2 k : op_guar keeps (CreateSyncJob now r1 r2 k).
Proof.
  unfold CreateSyncJob, GetSyncJob, create_sync_tx.
  guar; try other_table. apply keeps_insert.
Qed.

Lemma call_held c : within_lease c → op_guar keeps (run_call c).
Proof.
  assert (∀ A (m : ROp A), op_guar keeps m → op_guar keeps (discard m)) as Hd.
  { intros A m Hm. unfold discard. apply op_guar_bind; [apply _|done|]. guar. }
  destruct c; simpl; intros Hc; apply Hd;
    eauto using claim_held, apply_held, create_run_held, append_event_held, cancel_held, create_sync_held;
    unfold UpsertProjects, ListProjects, CreateSession, sessionByKey, ListSessions, GetSession, ListRuns,
      GetRun, ListRunEvents, ListRunEventsPage, ListSessionEvents, ListSessionEventsPage, GetSyncJob,
      MarkCommandDelivered, ReleaseCommand;
    guar; try other_table.
  - apply deliver_held.
  - by apply keeps_update.
Qed.

Lemma calls_held cs w :
  Forall within_lease cs → rely keeps w → held (w_db w) →
  rely keeps (run_calls cs w) ∧ held (w_db (run_calls cs w)).
Proof.
  intros Hcs. revert w. induction Hcs as [|c cs Hc _ IH]; intros w Hw Hh; simpl; [done|].
  destruct (call_held c Hc w Hw) as [Hk Hw']. apply IH; [done|by apply Hk].
Qed.
End LeaseCalls.

(** The claim itself puts the command in the worker's hands. *)
Lemma claimed_held now worker locked limit w0 cmds w i :
  w_env w0 = [] → ClaimCommands now worker locked limit w0 = (Ok cmds, w) → i ∈ map c_ID cmds →
  held i (now + lease)%Z (w_db w).
Proof.
  intros Hw H Hi. unfold ClaimCommands in H. set (n := (if (limit <? 1)%Z then _ else _)) in *.
  apply run_tx_alone in H as (_&Hr&Hd); [|done|apply claim_tx_all_or_nothing].
  destruct (claim_tx_calm now worker locked n (w_db w0)) as [[[e He] _]|[Hr' Hc]]; [congruence|].
  rewrite Hr in Hr'. simplify_eq. rewrite Hd.
  apply list_elem_of_fmap in Hi as (x&->&Hx). apply list_elem_of_fmap in Hx as (y&->&Hy).
  pose proof (cl_outbox _ _ _ _ _ Hc y.1) as Ho.
  rewrite bool_decide_eq_true_2 in Ho by (apply list_elem_of_fmap; eauto).
  apply selected_elem in Hy as (Hl&_). rewrite Hl in Ho.
  eexists. split; [exact Ho|]. right. split; [done|]. by eexists.
Qed.

(** C29. The lease.  A command that a worker got from ClaimCommands at time [now]
    is handed to no worker before [now] + 15 seconds unless it is released:
    whatever calls are made meanwhile, whatever fails, and whatever the other
    clients of the database do as long as they too respect the lease, a claim
    made within the lease does not return it.  A delivered command is never
    handed out again. *)
Theorem claim_lease_exclusive `{J : !Jsonb, C : !Collation}
    now worker locked limit w0 cmds w i v cs now' worker' locked' limit' cmds' w' :
  w_env w0 = [] → ClaimCommands now worker locked limit w0 = (Ok cmds, w) → i ∈ map c_ID cmds →
  w_db v = w_db w → rely (preserves (held i (now + lease)%Z)) v →
  Forall (within_lease i (now + lease)%Z) cs → (now' ≤ now + lease)%Z →
  ClaimCommands now' worker' locked' limit' (run_calls cs v) = (Ok cmds', w') →
  i ∉ map c_ID cmds'.
Proof.
  intros Hw0 H Hi Hv Hrely Hcs Hn H'.
  pose proof (claimed_held _ _ _ _ _ _ _ _ Hw0 H Hi) as Hh. rewrite <- Hv in Hh.
  destruct (calls_held i _ cs v Hcs Hrely Hh) as [Hr Hh']. by eapply claim_skips.
Qed.
