(* ===== verification/Threads.v ===== *)
(** * Programs in atomic steps

    A handler that is written over any monad with [atomic] is at once a function
    of the state, run alone, and a [Prog], of which other threads' steps can come
    between any two atoms.  An atom is one call that the program serialises: a
    registry call under its mutex, a channel operation, the cancelling of a
    context. *)

From S2P Require Import Prelude.

Class Atomic (S : Type) (M : Type → Type) : Type := atomic : ∀ {A}, St S A → M A.

#[export] Instance atomic_st (S : Type) : Atomic S (St S) := λ A m, m.

(** What a thread has still to do. *)
Inductive Prog (S A : Type) : Type :=
| Finished (a : A)
| Atom {B : Type} (m : St S B) (k : B → Prog S A).
Arguments Finished {S A} a.
Arguments Atom {S A B} m k.

Fixpoint pbind {S A B} (P : Prog S A) (K : A → Prog S B) : Prog S B :=
  match P with
  | Finished a => K a
  | Atom m k => Atom m (λ b, pbind (k b) K)
  end.
#[export] Instance prog_monad (S : Type) : SeqMonad (Prog S) := {| ret A a := Finished a; bind A B P K := pbind P K |}.
#[export] Instance atomic_prog (S : Type) : Atomic S (Prog S) := λ A m, Atom m Finished.

(** One atom. *)
Definition next {S A} (P : Prog S A) (s : S) : option (Prog S A * S) :=
  match P with Finished _ => None | Atom m k => let '(b, s') := m s in Some (k b, s') end.

(** All of them, with nothing between. *)
Fixpoint run {S A} (P : Prog S A) : St S A :=
  match P with Finished a => ret a | Atom m k => let! b := m in run (k b) end.

(** ** A program run alone is the function *)

Definition same {S A} (P : Prog S A) (m : St S A) : Prop := ∀ s, run P s = m s.

Section Same.
Context {S : Type}.
Lemma same_ret {A} (a : A) : same (S := S) (ret a) (ret a).
Proof. done. Qed.
Lemma same_atomic {A} (m : St S A) : same (atomic m) (atomic m).
Proof. intros s. unfold atomic, atomic_prog, atomic_st. cbn. by destruct (m s). Qed.
Lemma same_bind {A B} (P : Prog S A) (m : St S A) (K : A → Prog S B) (k : A → St S B) :
  same P m → (∀ a, same (K a) (k a)) → same (let! a := P in K a) (let! a := m in k a).
Proof.
  intros HP HK s. cbn [bind prog_monad st_monad]. rewrite <- (HP s). clear HP. revert s.
  induction P as [a|C n c IH]; intros s; cbn [pbind run bind ret st_monad]; [apply HK|].
  destruct (n s) as [x s1]. apply IH.
Qed.
End Same.

(** The steps of [run], one atom at a time. *)
Lemma run_steps {S A} (P : Prog S A) (s : S) :
  ∃ n, Nat.iter n (λ o, o ≫= λ '(P, s), next P s) (Some (P, s)) = Some (Finished (run P s).1, (run P s).2).
Proof.
  revert s. induction P as [a|B m k IH]; intros s; [by exists 0%nat|].
  destruct (m s) as [b s1] eqn:E. destruct (IH b s1) as [n Hn]. exists (Datatypes.S n).
  rewrite Nat.iter_succ_r. cbn [mbind option_bind next]. rewrite E. rewrite Hn. cbn [run bind st_monad]. by rewrite E.
Qed.

(** ** What a thread is bound to do

    Whatever the others do between its atoms, [P] comes to an atom that leaves a
    state in [X]. *)
Fixpoint bound {S A} (X : S → Prop) (P : Prog S A) : Prop :=
  match P with
  | Finished _ => False
  | Atom m k => (∀ s, X (m s).2) ∨ (∀ s, bound X (k (m s).1))
  end.
(** Its next atom does. *)
Definition bound_next {S A} (X : S → Prop) (P : Prog S A) : Prop :=
  match P with Finished _ => False | Atom m _ => ∀ s, X (m s).2 end.

Lemma bound_bind {S A B} (X : S → Prop) (P : Prog S A) (K : A → Prog S B) : bound X P → bound X (let! a := P in K a).
Proof.
  cbn [bind prog_monad]. induction P as [a|C m k IH]; [done|]. cbn [pbind bound]. intros [H|H]; [by left|right].
  intros s. by apply IH.
Qed.
