(* ===== verification/Hub.v ===== *)
(** * internal/hub/registry.go and the peers of internal/websocket/handler.go

    The registry of the current App and Agent connections with the cached Agent
    state, and the WebSocket peers: a bounded outbound queue and a close flag.
    A peer is named by its connection id.  Registry calls hold its mutex, so
    each is one step. *)

From S2P Require Import Prelude GoStd GoTime Json Protocol Payloads.
#[local] Open Scope string_scope.

(** ** Peers *)

Record Peer := mkPeer {
  peer_role : string;
  peer_queue : list Message;  (** outbound, oldest first *)
  peer_closed : bool;         (** the connection's context is cancelled *)
}.

Inductive send_error := ErrSendQueueFull | ErrClosed.

(** ** The registry *)

Record Registry := mkRegistry {
  reg_app : option Z;
  reg_agent : option Z;
  agentHello : option Message;
  agentStatus : option Message;
  agentCapabilities : option Message;
  lastTurnAck : TurnAcknowledgedPayload;
}.

Definition NewRegistry : Registry := mkRegistry None None None None None zero_TurnAck.

Record HubState := mkHub {
  hub_peers : gmap Z Peer;
  hub_registry : Registry;
  hub_capacity : nat;       (** WriteQueueSize *)
  hub_coins : list bool;    (** how Go's select resolves when several cases are ready *)
  hub_env : Env;
}.

Definition set_peers t h := mkHub t (hub_registry h) (hub_capacity h) (hub_coins h) (hub_env h).
Definition set_registry r h := mkHub (hub_peers h) r (hub_capacity h) (hub_coins h) (hub_env h).
Definition set_coins c h := mkHub (hub_peers h) (hub_registry h) (hub_capacity h) c (hub_env h).
Definition set_env e h := mkHub (hub_peers h) (hub_registry h) (hub_capacity h) (hub_coins h) e.

Definition role_of (id : Z) (h : HubState) : string :=
  match hub_peers h !! id with Some p => peer_role p | None => "" end.

Definition enqueue (m : Message) (p : Peer) : Peer :=
  mkPeer (peer_role p) (peer_queue p ++ [m]) (peer_closed p).
Definition close_peer (p : Peer) : Peer := mkPeer (peer_role p) (peer_queue p) true.

(** peer.Send: a select over the queue, the context and a default.  A closed
    peer with room may accept or refuse. *)
Definition Send (id : Z) (m : Message) : St HubState (option send_error) := λ h,
  match hub_peers h !! id with
  | None => (Some ErrClosed, h)
  | Some p =>
      let room := (length (peer_queue p) <? hub_capacity h)%nat in
      let accept h := (None, set_peers (<[id := enqueue m p]> (hub_peers h)) h) in
      match room, peer_closed p with
      | true, false => accept h
      | true, true =>
          match hub_coins h with
          | true :: coins => accept (set_coins coins h)
          | _ :: coins => (Some ErrClosed, set_coins coins h)
          | [] => (Some ErrClosed, h)
          end
      | false, true => (Some ErrClosed, h)
      | false, false => (Some ErrSendQueueFull, h)
      end
  end.

(** peer.Close: cancels the context, once. *)
Definition Close (id : Z) : St HubState unit := λ h,
  (tt, set_peers (alter close_peer id (hub_peers h)) h).

(** What writeLoop does when it takes a message: one that json.Marshal refuses
    (its time has no RFC 3339 form in its zone) or that is too large is dropped,
    a failed write closes the peer.  Returns the frame that was written; [zone]
    is the offset a message's OccurredAt came with. *)
Definition write_message (zone : Message → Z) (size : json → Z) (max : Z) (write_ok : bool) (id : Z)
    : St HubState (option json) := λ h,
  match hub_peers h !! id with
  | Some (mkPeer role (m :: queue) closed) =>
      let h := set_peers (<[id := mkPeer role queue closed]> (hub_peers h)) h in
      match json_Message (zone m) m with
      | None => (None, h)
      | Some data =>
          if (max <? size data)%Z then (None, h)
          else if write_ok then (Some data, h)
          else (None, snd (Close id h))
      end
  | _ => (None, h)
  end.

(** The ping case of writeLoop. *)
Definition ping (ping_ok : bool) (id : Z) : St HubState unit :=
  if ping_ok then ret tt else Close id.

(** Registry.Replace: the peer it replaces. *)
Definition Replace (id : Z) (role : string) (r : Registry) : option Z * Registry :=
  if String.eqb role RoleApp then
    (reg_app r, mkRegistry (Some id) (reg_agent r) (agentHello r) (agentStatus r)
                  (agentCapabilities r) (lastTurnAck r))
  else if String.eqb role RoleAgent then
    (reg_agent r, mkRegistry (reg_app r) (Some id) None None None (lastTurnAck r))
  else (None, r).

(** Registry.Remove: whether the peer was the current one of its role. *)
Definition Remove (id : Z) (role : string) (r : Registry) : bool * Registry :=
  if String.eqb role RoleApp then
    if bool_decide (reg_app r = Some id) then
      (true, mkRegistry None (reg_agent r) (agentHello r) (agentStatus r)
               (agentCapabilities r) (lastTurnAck r))
    else (false, r)
  else if String.eqb role RoleAgent then
    if bool_decide (reg_agent r = Some id) then
      (true, mkRegistry (reg_app r) None None None None (lastTurnAck r))
    else (false, r)
  else (false, r).

(** Registry.Peer *)
Definition current (role : string) (r : Registry) : option Z :=
  if String.eqb role RoleAgent then reg_agent r
  else if String.eqb role RoleApp then reg_app r
  else None.

Definition RememberAgentState (m : Message) (r : Registry) : Registry :=
  if String.eqb (m_Type m) TypeAgentHello then
    mkRegistry (reg_app r) (reg_agent r) (Some m) (agentStatus r) (agentCapabilities r) (lastTurnAck r)
  else if String.eqb (m_Type m) TypeAgentStatus then
    mkRegistry (reg_app r) (reg_agent r) (agentHello r) (Some m) (agentCapabilities r) (lastTurnAck r)
  else if String.eqb (m_Type m) TypeAgentCapabilities then
    mkRegistry (reg_app r) (reg_agent r) (agentHello r) (agentStatus r) (Some m) (lastTurnAck r)
  else r.

Definition RememberAppState (m : Message) (r : Registry) : Registry :=
  if negb (String.eqb (m_Type m) TypeTurnAcknowledged) then r else
  let '(payload, ok) := PayloadAs zero_TurnAck dec_TurnAck m in
  if negb ok || String.eqb (ta_TurnID payload) "" then r
  else mkRegistry (reg_app r) (reg_agent r) (agentHello r) (agentStatus r) (agentCapabilities r) payload.

(** The cached messages, in a fixed order. *)
Definition AgentState (r : Registry) : list Message :=
  (option_list (agentHello r) ++ option_list (agentStatus r) ++ option_list (agentCapabilities r))%list.

Record Snapshot := mkSnapshot {
  sn_AppConnected : bool;
  sn_AgentConnected : bool;
  sn_AppConnectionID : Z;
  sn_LastTurnAcknowledged : string;
  sn_LastTurnAcknowledgedStatus : string;
}.

(** Registry.Snapshot *)
Definition TakeSnapshot (r : Registry) : Snapshot :=
  mkSnapshot (if reg_app r then true else false) (if reg_agent r then true else false)
    (default 0%Z (reg_app r)) (ta_TurnID (lastTurnAck r)) (ta_Status (lastTurnAck r)).

Definition with_registry {A} (f : Registry → A * Registry) : St HubState A := λ h,
  let '(a, r) := f (hub_registry h) in (a, set_registry r h).

(** The part of Registry.CloseAll that holds the mutex: the App and the Agent it
    closes then. *)
Definition TakeAll (r : Registry) : (option Z * option Z) * Registry :=
  ((reg_app r, reg_agent r), mkRegistry None None None None None (lastTurnAck r)).

(** ServeRole up to Connect: a new peer with a fresh id (h.nextID.Add(1)). *)
Definition accept (id : Z) (role : string) : St HubState unit :=
  modify (λ h, set_peers (<[id := mkPeer role [] false]> (hub_peers h)) h).

(** ** Facts about peers *)

(** An operation that only touches queues and flags of peers leaves their
    roles and the registry alone. *)
Record peers_kept (h h' : HubState) : Prop := {
  pk_registry : hub_registry h' = hub_registry h;
  pk_capacity : hub_capacity h' = hub_capacity h;
  pk_roles : ∀ id, peer_role <$> hub_peers h' !! id = peer_role <$> hub_peers h !! id;
  pk_closed : ∀ id p, hub_peers h !! id = Some p → peer_closed p = true →
    ∃ p', hub_peers h' !! id = Some p' ∧ peer_closed p' = true;
}.

#[export] Instance peers_kept_preorder : PreOrder peers_kept.
Proof.
  split.
  - intros h. split; eauto.
  - intros h1 h2 h3 [A1 A2 A3 A4] [B1 B2 B3 B4]. split; [congruence|congruence| |].
    + intros id. by rewrite B3.
    + intros id p Hp Hc. destruct (A4 id p Hp Hc) as (p'&Hp'&Hc'). eauto.
Qed.

Lemma peers_kept_alter h id f :
  (∀ p, peer_role (f p) = peer_role p) → (∀ p, peer_closed p = true → peer_closed (f p) = true) →
  peers_kept h (set_peers (alter f id (hub_peers h)) h).
Proof.
  intros Hr Hc. split; simpl; try done.
  - intros i. destruct (decide (i = id)) as [->|].
    + rewrite lookup_alter_eq. destruct (hub_peers h !! id); simpl; by rewrite ?Hr.
    + by rewrite lookup_alter_ne.
  - intros i p Hp Hcl. destruct (decide (i = id)) as [->|].
    + rewrite lookup_alter_eq, Hp. simpl. eauto.
    + rewrite lookup_alter_ne by done. eauto.
Qed.

Lemma Close_kept id h : peers_kept h (Close id h).2.
Proof. by apply peers_kept_alter. Qed.

Lemma Close_closes id h p :
  hub_peers h !! id = Some p → hub_peers (Close id h).2 !! id = Some (close_peer p).
Proof. intros Hp. simpl. by rewrite lookup_alter_eq, Hp. Qed.

(** What Send does: the message is last in the queue, or nothing changes. *)
Lemma Send_cases id m h r h' :
  Send id m h = (r, h') →
  hub_env h' = hub_env h ∧
  ((r = None ∧ ∃ p, hub_peers h !! id = Some p ∧ (length (peer_queue p) < hub_capacity h)%nat ∧
       hub_peers h' = <[id := enqueue m p]> (hub_peers h) ∧ hub_registry h' = hub_registry h
       ∧ hub_capacity h' = hub_capacity h)
   ∨ (r ≠ None ∧ hub_peers h' = hub_peers h ∧ hub_registry h' = hub_registry h
      ∧ hub_capacity h' = hub_capacity h)).
Proof.
  unfold Send. destruct (hub_peers h !! id) as [p|] eqn:Ep; [|intros; simplify_eq; split; [done|by right]].
  destruct (Nat.ltb_spec (length (peer_queue p)) (hub_capacity h)), (peer_closed p).
  all: try (destruct (hub_coins h) as [|[] coins]); intros; simplify_eq/=; (split; [done|]);
    first [by right | left; split; [done|]; exists p; by split_and!].
Qed.

Lemma Send_kept id m h : peers_kept h (Send id m h).2.
Proof.
  destruct (Send id m h) as [r h'] eqn:E.
  apply Send_cases in E as (_&[(_&p&Hp&_&Hps&Hr&Hc)|(_&Hps&Hr&Hc)]); simpl.
  - split; [done..| |]; rewrite Hps.
    + intros i. destruct (decide (i = id)) as [->|].
      * by rewrite lookup_insert_eq, Hp.
      * by rewrite lookup_insert_ne.
    + intros i q Hq Hcl. destruct (decide (i = id)) as [->|].
      * rewrite lookup_insert_eq. simplify_eq. by eexists.
      * rewrite lookup_insert_ne by done. eauto.
  - split; rewrite ?Hps; eauto.
Qed.

(** The outbound queues never exceed their capacity. *)
Definition queues_bounded (h : HubState) : Prop :=
  map_Forall (λ _ p, (length (peer_queue p) ≤ hub_capacity h)%nat) (hub_peers h).

Lemma Send_bounded id m h : queues_bounded h → queues_bounded (Send id m h).2.
Proof.
  unfold queues_bounded. intros Hb. destruct (Send id m h) as [r h'] eqn:E.
  apply Send_cases in E as (_&[(_&p&Hp&Hlt&Hps&_&Hc)|(_&Hps&_&Hc)]); simpl; rewrite Hps, Hc; [|done].
  apply map_Forall_insert_2; [|done]. simpl. rewrite length_app. simpl. lia.
Qed.

Lemma Close_bounded id h : queues_bounded h → queues_bounded (Close id h).2.
Proof.
  unfold queues_bounded, Close; simpl. intros Hb i p Hp.
  apply lookup_alter_Some in Hp as [(->&q&Hq&->)|[_ Hp]]; [by apply (Hb i q)|by apply (Hb i p)].
Qed.

(** ** A connection with room *)

(** The current connection of a role is open and has room. *)
Definition ready (role : string) (id : Z) (p : Peer) (h : HubState) : Prop :=
  current role (hub_registry h) = Some id ∧ hub_peers h !! id = Some p ∧ peer_role p = role
  ∧ peer_closed p = false ∧ (length (peer_queue p) < hub_capacity h)%nat.

Lemma Send_ready role id p m h :
  ready role id p h → Send id m h = (None, set_peers (<[id := enqueue m p]> (hub_peers h)) h).
Proof.
  intros (_&Hp&_&Hc&Hl). unfold Send. rewrite Hp, Hc. by rewrite (proj2 (Nat.ltb_lt _ _) Hl).
Qed.

(** A registry that names the same connections. *)
Lemma ready_registry role id p h r :
  ready role id p h → reg_app r = reg_app (hub_registry h) → reg_agent r = reg_agent (hub_registry h) →
  ready role id p (set_registry r h).
Proof. intros (Hc&H) Ha Hg. split; [|exact H]. simpl. unfold current in *. by rewrite Ha, Hg. Qed.

Lemma RememberAppState_regs m r :
  reg_app (RememberAppState m r) = reg_app r ∧ reg_agent (RememberAppState m r) = reg_agent r.
Proof. unfold RememberAppState. by repeat case_match. Qed.
Lemma RememberAgentState_regs m r :
  reg_app (RememberAgentState m r) = reg_app r ∧ reg_agent (RememberAgentState m r) = reg_agent r.
Proof. unfold RememberAgentState. by repeat case_match. Qed.

(** One message more in a queue, and nothing else of the connections. *)
Definition queued (id : Z) (p : Peer) (m : Message) (h h' : HubState) : Prop :=
  hub_peers h' = <[id := enqueue m p]> (hub_peers h)
  ∧ reg_app (hub_registry h') = reg_app (hub_registry h) ∧ reg_agent (hub_registry h') = reg_agent (hub_registry h)
  ∧ hub_capacity h' = hub_capacity h.

Lemma ready_queued role id p i q m h h' :
  queued i q m h h' → i ≠ id → ready role id p h → ready role id p h'.
Proof.
  intros (Hp&Ha&Hg&Hc) Hne (Hcur&Hid&Hr&Hcl&Hl).
  split; [unfold current in *; by rewrite Ha, Hg|]. rewrite Hp, Hc, lookup_insert_ne by done. by split_and!.
Qed.
