(* ===== verification/Router.v ===== *)
(** * internal/router/router.go and the read loop of internal/websocket/handler.go

    The router is generic in its Observer, as in Go: a record of callbacks over
    the hub and the observer's own state.  The handlers are written over any
    monad with atomic steps ([Threads]): every call of the registry, of a peer
    and of the observer is one, and other connections' handlers run between
    them. *)

From S2P Require Import Prelude Threads GoStd GoTime Json Protocol Envelope Payloads Hub.
#[local] Open Scope string_scope.

Definition relay_sender : Sender := mkSender "relay" "local-relay".

Section Router.
Context {O : Type}.

Definition RState : Type := HubState * O.
Definition RSt := St RState.

Definition on_hub {A} (m : St HubState A) : RSt A := λ s,
  let '(a, h) := m s.1 in (a, (h, s.2)).

(** type Observer interface; AgentMessageForwarded is optional. *)
Record Observer := mkObserver {
  AgentConnected : Z → RSt unit;
  AgentDisconnected : Z → RSt unit;
  AgentMessage : Z → Message → RSt bool;
  AgentMessageForwarded : option (Z → Message → RSt unit);
}.

Definition new_message (type traceID : string) (sender : Sender) (payload : json)
    : St HubState (result invalid Message) := λ h,
  let '(m, env) := NewMessage type traceID sender payload (hub_env h) in (m, set_env env h).

Section Handlers.
Context {M : Type → Type} `{SM : !SeqMonad M, AM : !Atomic RState M}.

(** One step of the hub. *)
Definition hub {A} (m : St HubState A) : M A := atomic (on_hub m).

Definition Reject (id : Z) (traceID code message : string) : M unit :=
  let! rejection := hub (new_message TypeTurnRejected traceID relay_sender (json_TurnRejected code message)) in
  match rejection with
  | Err _ => ret tt
  | Ok rejection =>
      let! err := hub (Send id rejection) in
      match err with Some _ => hub (Close id) | None => ret tt end
  end.

Definition sendAgentOffline (id : Z) (traceID : string) : M unit :=
  let! message := hub (new_message TypeAgentStatus traceID relay_sender (json_AgentStatus "offline")) in
  match message with
  | Err _ => ret tt
  | Ok message =>
      let! err := hub (Send id message) in
      match err with Some _ => hub (Close id) | None => ret tt end
  end.

(** Replay the cached Agent state; a full queue closes the peer. *)
Fixpoint send_states (id : Z) (ms : list Message) : M unit :=
  match ms with
  | [] => ret tt
  | m :: ms =>
      let! err := hub (Send id m) in
      match err with Some _ => hub (Close id) | None => send_states id ms end
  end.

(** Registry.CloseAll *)
Definition CloseAll : M unit :=
  let! taken := hub (with_registry TakeAll) in
  let! _ := match taken.1 with Some id => hub (Close id) | None => ret tt end in
  match taken.2 with Some id => hub (Close id) | None => ret tt end.

Context (observer : option Observer).

Definition notify_connected (id : Z) (role : string) : M unit :=
  match observer with
  | Some ob => if String.eqb role RoleAgent then atomic (AgentConnected ob id) else ret tt
  | None => ret tt
  end.

Definition Connect (id : Z) (role : string) : M unit :=
  let! old := hub (with_registry (Replace id role)) in
  let! _ := match old with Some o => hub (Close o) | None => ret tt end in
  let! _ := notify_connected id role in
  if negb (String.eqb role RoleApp) then ret tt else
  let! agent := hub (gets (λ h, current RoleAgent (hub_registry h))) in
  match agent with
  | None => sendAgentOffline id "agent"
  | Some _ =>
      let! states := hub (gets (λ h, AgentState (hub_registry h))) in
      send_states id states
  end.

Definition Disconnect (id : Z) (role : string) : M unit :=
  let! removed := hub (with_registry (Remove id role)) in
  if negb removed then ret tt else
  if String.eqb role RoleAgent then
    let! _ := match observer with Some ob => atomic (AgentDisconnected ob id) | None => ret tt end in
    let! app := hub (gets (λ h, current RoleApp (hub_registry h))) in
    match app with
    | Some app => sendAgentOffline app "agent"
    | None => ret tt
    end
  else ret tt.

Definition other_role (role : string) : string :=
  if String.eqb role RoleAgent then RoleApp else RoleAgent.

(** The part of Handle after the observer declined the message. *)
Definition forward (id : Z) (role : string) (message : Message) : M unit :=
  let! _ := hub (modify (λ h, set_registry
    (if String.eqb role RoleAgent then RememberAgentState message (hub_registry h)
     else RememberAppState message (hub_registry h)) h)) in
  let! target := hub (gets (λ h, current (other_role role) (hub_registry h))) in
  match target with
  | None =>
      if String.eqb role RoleApp then
        if String.eqb (m_Type message) TypeTurnAcknowledged then ret tt
        else Reject id (m_TraceID message) "AGENT_OFFLINE" "Mac Agent is not connected"
      else ret tt
  | Some target =>
      let! err := hub (Send target message) in
      match err with
      | Some _ =>
          let! _ := hub (Close target) in
          if String.eqb role RoleApp then
            Reject id (m_TraceID message) "INTERNAL_ERROR" "Mac Agent connection is unavailable"
          else ret tt
      | None =>
          match observer with
          | Some ob =>
              if String.eqb role RoleAgent then
                match AgentMessageForwarded ob with Some f => atomic (f id message) | None => ret tt end
              else ret tt
          | None => ret tt
          end
      end
  end.

Definition Handle (id : Z) (role : string) (message : Message) : M unit :=
  if negb (AllowedFrom role (m_Type message)) then
    Reject id (m_TraceID message) "MESSAGE_INVALID" "message type is not allowed from this connection"
  else
    let message := with_sender message (CanonicalSender role) in
    let! consumed := match observer with
                     | Some ob => if String.eqb role RoleAgent then atomic (AgentMessage ob id message) else ret false
                     | None => ret false
                     end in
    if (consumed : bool) then ret tt else forward id role message.

(** What the read loop of ServeRole reads. *)
Inductive Frame :=
| BinaryFrame
| TextFrame (value : option json)  (** the JSON value of the text, if it is one *)
| ReadError.

(** err.Error(), whose text encoding/json and fmt determine. *)
Context (error_text : invalid → string).

(** One turn of the loop: whether it goes on. *)
Definition read_frame (id : Z) (role : string) (f : Frame) : M bool :=
  match f with
  | ReadError => ret false
  | BinaryFrame =>
      let! _ := Reject id "message" "MESSAGE_INVALID" "only WebSocket text messages are supported" in
      ret true
  | TextFrame v =>
      match Decode v with
      | Err e => let! _ := Reject id "message" "MESSAGE_INVALID" (error_text e) in ret true
      | Ok message => let! _ := Handle id role message in ret true
      end
  end.

(** The deferred end of ServeRole. *)
Definition end_connection (id : Z) (role : string) : M unit :=
  let! _ := hub (Close id) in Disconnect id role.

(** ServeRole with a new peer up to its read loop, and with what a frame makes
    of it: whether it reads on. *)
Definition ServeRole (id : Z) (role : string) : M bool :=
  let! _ := Connect id role in ret true.
Definition read_turn (id : Z) (role : string) (f : Frame) : M bool :=
  let! more := read_frame id role f in
  if (more : bool) then ret true else let! _ := end_connection id role in ret false.
End Handlers.
End Router.

Arguments RState : clear implicits.
Arguments RSt : clear implicits.
Arguments Observer : clear implicits.

(** ** Messages the relay itself writes *)

Definition from_relay (m : Message) : Prop := Kind (m_Sender m) = "relay" ∧ well_formed m.

Lemma NewMessage_sender type traceID sender payload env m env' :
  NewMessage type traceID sender payload env = (Ok m, env') →
  m_Sender m = sender ∧ m_Type m = type ∧ m_Payload m = Raw payload ∧ well_formed m.
Proof.
  intros [Hb Hw]%NewMessage_Ok. unfold build_message in Hb.
  destruct (if String.eqb traceID "" then _ else _) as [t env1].
  destruct (draw env1) as [i env2]. by simplify_eq.
Qed.

(** Peers are closed and messages satisfying [Q] appended to their queues. *)
Record hub_sends (Q : Z → Message → Prop) (h h' : HubState) : Prop := {
  hs_kept : peers_kept h h';
  hs_queues : ∀ id p', hub_peers h' !! id = Some p' → ∃ p ms,
    hub_peers h !! id = Some p ∧ peer_queue p' = (peer_queue p ++ ms)%list ∧ Forall (Q id) ms;
  hs_bounded : queues_bounded h → queues_bounded h';
}.

#[export] Instance hub_sends_preorder Q : PreOrder (hub_sends Q).
Proof.
  split.
  - intros h. split; [reflexivity| |done]. intros id p Hp. exists p, []. by rewrite app_nil_r.
  - intros h1 h2 h3 [K1 Q1 B1] [K2 Q2 B2]. split; [by etrans| |auto]. intros id p3 Hp3.
    destruct (Q2 id p3 Hp3) as (p2&ms2&Hp2&->&Hms2).
    destruct (Q1 id p2 Hp2) as (p1&ms1&Hp1&->&Hms1).
    exists p1, (ms1 ++ ms2)%list. split_and!; [done|by rewrite app_assoc|by apply Forall_app].
Qed.

Lemma hub_sends_mono (Q Q' : Z → Message → Prop) h h' :
  (∀ id m, Q id m → Q' id m) → hub_sends Q h h' → hub_sends Q' h h'.
Proof.
  intros HQ [K Hq B]. split; [done| |done]. intros id p' Hp'.
  destruct (Hq id p' Hp') as (p&ms&Hp&Hms&HF). exists p, ms. split_and!; try done.
  eapply Forall_impl; [done|]. eauto.
Qed.

Lemma hub_sends_peers Q h h' :
  hub_peers h' = hub_peers h → hub_registry h' = hub_registry h → hub_capacity h' = hub_capacity h →
  hub_sends Q h h'.
Proof.
  intros Hp Hr Hc. split; [split; rewrite ?Hp; eauto| |unfold queues_bounded; by rewrite Hp, Hc].
  intros id p. rewrite Hp. intros Hp'. exists p, []. by rewrite app_nil_r.
Qed.

Lemma Close_sends Q id h : hub_sends Q h (Close id h).2.
Proof.
  split; [apply Close_kept| |apply Close_bounded]. simpl. intros i p' Hp'.
  destruct (decide (i = id)) as [->|].
  - rewrite lookup_alter_eq in Hp'. destruct (hub_peers h !! id) as [p|]; simplify_eq/=.
    exists p, []. by rewrite app_nil_r.
  - rewrite lookup_alter_ne in Hp' by done. exists p', []. by rewrite app_nil_r.
Qed.

Lemma Send_sends (Q : Z → Message → Prop) id m h : Q id m → hub_sends Q h (Send id m h).2.
Proof.
  intros Hm. split; [apply Send_kept| |apply Send_bounded]. destruct (Send id m h) as [r h'] eqn:E. simpl.
  apply Send_cases in E as (_&[(_&p&Hp&_&Hps&_)|(_&Hps&_)]); rewrite Hps; intros i p' Hp'.
  - destruct (decide (i = id)) as [->|].
    + rewrite lookup_insert_eq in Hp'. simplify_eq. exists p, [m]. auto.
    + rewrite lookup_insert_ne in Hp' by done. exists p', []. by rewrite app_nil_r.
  - exists p', []. by rewrite app_nil_r.
Qed.

(** The relay only appends its own messages to queues, and closes peers. *)
Definition relay_sends : relation HubState := hub_sends (λ _, from_relay).

#[export] Instance relay_sends_preorder : PreOrder relay_sends.
Proof. unfold relay_sends. apply _. Qed.

(** ** Guarantees of state-passing operations *)

Definition st_guar {S A} (R : relation S) (m : St S A) : Prop := ∀ s, R s (m s).2.

Section StGuar.
Context {S : Type} (R : relation S) `{!PreOrder R}.
Lemma st_guar_ret {A} (a : A) : st_guar R (ret a).
Proof. intros s; reflexivity. Qed.
Lemma st_guar_bind {A B} (m : St S A) (k : A → St S B) :
  st_guar R m → (∀ a, st_guar R (k a)) → st_guar R (let! a := m in k a).
Proof.
  intros Hm Hk s. simpl. specialize (Hm s). destruct (m s) as [a s']. etrans; [done|apply Hk].
Qed.
Lemma st_guar_gets {A} (f : S → A) : st_guar R (gets f).
Proof. intros s; reflexivity. Qed.
Lemma st_guar_each {A} (l : list A) (f : A → St S unit) :
  (∀ x, st_guar R (f x)) → st_guar R (st_each l f).
Proof.
  intros Hf. induction l as [|x l IH]; [apply st_guar_ret|]. apply st_guar_bind; auto.
Qed.
End StGuar.

Ltac st_guar :=
  repeat (intros; lazymatch goal with
    | |- st_guar _ (match ?x with _ => _ end) => destruct x eqn:?
    | |- st_guar _ (bind _ _) => apply st_guar_bind; [apply _| |]
    | |- st_guar _ (ret _) => apply st_guar_ret; apply _
    | |- st_guar _ (gets _) => apply st_guar_gets; apply _
    | |- st_guar _ (st_each _ _) => apply st_guar_each; [apply _|]
    | |- _ => solve [eauto with st_guar]
    end).
Create HintDb st_guar.

Lemma Close_guar Q id : st_guar (hub_sends Q) (Close id).
Proof. intros h. apply Close_sends. Qed.

(** Build a relay message and send it. *)
Lemma new_message_guar {A} Q type traceID sender payload (k : result invalid Message → St HubState A) :
  (∀ e, st_guar (hub_sends Q) (k (Err e))) →
  (∀ m, m_Sender m = sender → m_Type m = type → m_Payload m = Raw payload → well_formed m →
     st_guar (hub_sends Q) (k (Ok m))) →
  st_guar (hub_sends Q) (let! r := new_message type traceID sender payload in k r).
Proof.
  intros Herr Hok h. simpl. unfold new_message.
  destruct (NewMessage type traceID sender payload (hub_env h)) as [[m|e] env] eqn:E.
  - apply NewMessage_sender in E as (Hs&Ht&Hp&Hw). etrans; [|by apply Hok]. by apply hub_sends_peers.
  - etrans; [|apply Herr]. by apply hub_sends_peers.
Qed.

(** What the router relies on of its observer: it only appends relay messages
    to queues, and never touches the registry. *)
Class ObserverLaws {O} (ob : Observer O) : Prop := {
  law_connected : ∀ id s, relay_sends s.1 (AgentConnected ob id s).2.1;
  law_disconnected : ∀ id s, relay_sends s.1 (AgentDisconnected ob id s).2.1;
  law_message : ∀ id m s, relay_sends s.1 (AgentMessage ob id m s).2.1;
  law_forwarded : ∀ f id m s, AgentMessageForwarded ob = Some f → relay_sends s.1 (f id m s).2.1;
}.

