(* ===== verification/HubSafety.v ===== *)
(** * The hub while its connections come, speak and end together

    The handlers of all connections run at once, one registry or peer call at a
    time in any order.  In every state they reach, queues hold vetted messages,
    and an open connection is the registered one, or its handler has yet to
    register it, or a handler is bound to close it. *)

From S2P Require Import Prelude Threads GoStd GoTime Json Protocol Envelope Payloads Hub Router.
#[local] Open Scope string_scope.

(** ** The invariant of the hub *)

(** A message the router passes on from a connection of the given role. *)
Definition from_role (role : string) (m : Message) : Prop :=
  m_Sender m = CanonicalSender role ∧ AllowedFrom role (m_Type m) = true ∧ well_formed m.

Record hub_ok (h : HubState) : Prop := {
  ok_roles : ∀ id p, hub_peers h !! id = Some p → peer_role p = RoleApp ∨ peer_role p = RoleAgent;
  ok_current : ∀ role id, current role (hub_registry h) = Some id →
    ∃ p, hub_peers h !! id = Some p ∧ peer_role p = role;
  (* what a peer is sent: relay messages, and vetted messages of the other role *)
  ok_queue : ∀ id p m, hub_peers h !! id = Some p → m ∈ peer_queue p →
    from_relay m ∨ from_role (other_role (peer_role p)) m;
  ok_cached : ∀ m, m ∈ AgentState (hub_registry h) → from_role RoleAgent m;
  ok_bounded : queues_bounded h;
}.

(** Peers come, keep their role, and once closed stay closed. *)
Record grows (h h' : HubState) : Prop := {
  gr_peers : ∀ id p, hub_peers h !! id = Some p →
    ∃ p', hub_peers h' !! id = Some p' ∧ peer_role p' = peer_role p ∧ (peer_closed p = true → peer_closed p' = true);
  gr_capacity : hub_capacity h' = hub_capacity h;
}.
#[export] Instance grows_preorder : PreOrder grows.
Proof.
  split; [by intros h; split; eauto|]. intros h1 h2 h3 [A1 A2] [B1 B2]. split; [|congruence].
  intros id p Hp. destruct (A1 id p Hp) as (q&Hq&?&?). destruct (B1 id q Hq) as (r&Hr&?&?).
  exists r. split_and!; [done|congruence|auto].
Qed.
(** And none come. *)
Definition steady (h h' : HubState) : Prop :=
  grows h h' ∧ ∀ id p', hub_peers h' !! id = Some p' → ∃ p, hub_peers h !! id = Some p.

Lemma kept_steady h h' : peers_kept h h' → steady h h'.
Proof.
  intros [Kr Kc Kro Kcl]. split; [split; [|done]|].
  - intros id p Hp. specialize (Kro id). rewrite Hp in Kro. destruct (hub_peers h' !! id) as [p'|] eqn:Hp'; simplify_eq/=.
    exists p'. split_and!; [done|congruence|]. intros Hc. destruct (Kcl id p Hp Hc) as (q&Hq&?). by simplify_eq.
  - intros id p' Hp'. specialize (Kro id). rewrite Hp' in Kro. destruct (hub_peers h !! id); [eauto|done].
Qed.

Definition has_role (id : Z) (role : string) (h : HubState) : Prop := ∃ p, hub_peers h !! id = Some p ∧ peer_role p = role.
Definition is_closed (id : Z) (h : HubState) : Prop := ∀ p, hub_peers h !! id = Some p → peer_closed p = true.
Definition closed (id : Z) (h : HubState) : Prop := ∃ p, hub_peers h !! id = Some p ∧ peer_closed p = true.

Lemma has_role_grows id role h h' : grows h h' → has_role id role h → has_role id role h'.
Proof. intros [Hg _] (p&Hp&<-). destruct (Hg id p Hp) as (q&?&?&_). by exists q. Qed.
Lemma closed_grows id h h' : grows h h' → closed id h → closed id h'.
Proof. intros [Hg _] (p&Hp&Hc). destruct (Hg id p Hp) as (q&?&_&?). exists q. auto. Qed.
Lemma closed_is id h : closed id h → is_closed id h.
Proof. intros (p&Hp&Hc) q Hq. by simplify_eq. Qed.
Lemma is_closed_steady id h h' : steady h h' → is_closed id h → is_closed id h'.
Proof.
  intros [[Hg _] Hn] Hc p' Hp'. destruct (Hn id p' Hp') as [p Hp]. destruct (Hg id p Hp) as (q&Hq&_&Hcl).
  simplify_eq. by apply Hcl, Hc.
Qed.

(** *** Operations that keep it *)

Lemma relay_sends_ok h h' : relay_sends h h' → hub_ok h → hub_ok h'.
Proof.
  intros [[Kr Kc Kro Kcl] Q Hb] [Iroles Icur Iqueue Icache Ibound].
  split; [| | |by rewrite Kr|auto].
  - intros id p' Hp'. destruct (Q id p' Hp') as (p&ms&Hp&_&_).
    specialize (Kro id). rewrite Hp, Hp' in Kro. simplify_eq/=. rewrite Kro. eauto.
  - intros role id. rewrite Kr. intros Hcur. destruct (Icur role id Hcur) as (p&Hp&Hr).
    specialize (Kro id). rewrite Hp in Kro. destruct (hub_peers h' !! id) as [p'|] eqn:Hp'; simplify_eq/=.
    eexists. split; [done|congruence].
  - intros id p' m Hp' Hm. destruct (Q id p' Hp') as (p&ms&Hp&Hq&Hms).
    specialize (Kro id). rewrite Hp, Hp' in Kro. simplify_eq/=. rewrite Kro.
    rewrite Hq in Hm. apply elem_of_app in Hm as [Hm|Hm]; [eauto|].
    left. by eapply Forall_forall in Hms.
Qed.

(** Passing on a vetted message of the other role. *)
Lemma Send_ok id role m h :
  hub_ok h → has_role id role h → from_role (other_role role) m → hub_ok (Send id m h).2.
Proof.
  intros Hok (p&Hp&<-) Hm. pose proof (Send_bounded id m h (ok_bounded h Hok)) as Hb.
  destruct Hok as [Iroles Icur Iqueue Icache Ibound].
  destruct (Send id m h) as [r h'] eqn:E. simpl in *.
  apply Send_cases in E as (_&[(_&q&Hq&_&Hps&Hr&Hc)|(_&Hps&Hr&Hc)]).
  - simplify_eq. split; [| | |by rewrite Hr|done]; rewrite ?Hps, ?Hr.
    + intros i x Hx. apply lookup_insert_Some in Hx as [[-> <-]|[_ Hx]]; eauto. by apply (Iroles i p).
    + intros role i Hcur. destruct (Icur role i Hcur) as (x&Hx&Hrole).
      destruct (decide (i = id)) as [->|].
      * rewrite lookup_insert_eq. eexists. split; [done|]. simpl. congruence.
      * rewrite lookup_insert_ne by done. eauto.
    + intros i x m' Hx Hm'. apply lookup_insert_Some in Hx as [[-> <-]|[_ Hx]]; [|eauto].
      simpl in Hm'. apply elem_of_app in Hm' as [Hm'| ->%list_elem_of_singleton]; simpl.
      * by apply (Iqueue i p).
      * by right.
  - by split; rewrite ?Hps, ?Hr.
Qed.

(** A registry that names no other connections and has vetted cached messages. *)
Lemma set_registry_ok r h :
  hub_ok h → (∀ role id, current role r = Some id → current role (hub_registry h) = Some id ∨ has_role id role h) →
  (∀ m, m ∈ AgentState r → from_role RoleAgent m) → hub_ok (set_registry r h).
Proof.
  intros [Iroles Icur Iqueue Icache Ibound] Hc Hst. split; simpl; try done.
  intros o i Hi. destruct (Hc o i Hi) as [?|?]; [by apply Icur|done].
Qed.

Lemma Remember_ok role m h :
  hub_ok h → (role = RoleAgent → from_role RoleAgent m) →
  let r := if String.eqb role RoleAgent then RememberAgentState m (hub_registry h) else RememberAppState m (hub_registry h) in
  hub_ok (set_registry r h) ∧ ∀ o, current o r = current o (hub_registry h).
Proof.
  intros Hok Hm r. set (r0 := hub_registry h) in *.
  assert (reg_app r = reg_app r0 ∧ reg_agent r = reg_agent r0) as [Ha Hg].
  { unfold r. destruct (String.eqb role RoleAgent); [apply RememberAgentState_regs|apply RememberAppState_regs]. }
  assert (∀ o, current o r = current o r0) as Hc by (intros o; unfold current; by rewrite Ha, Hg).
  split; [|done]. apply set_registry_ok; [done|intros o i; rewrite Hc; auto|].
  pose proof (ok_cached h Hok) as Hcached. fold r0 in Hcached. intros x Hx. unfold r in Hx.
  destruct (String.eqb_spec role RoleAgent) as [->|_].
  - specialize (Hm eq_refl). unfold RememberAgentState, AgentState in *.
    repeat case_match; simpl in *; rewrite ?elem_of_app in *; set_solver.
  - apply Hcached. unfold RememberAppState, AgentState in *. repeat case_match; simplify_eq/=; done.
Qed.

Lemma write_message_ok zone size max ok id h :
  hub_ok h → hub_ok (write_message zone size max ok id h).2 ∧ steady h (write_message zone size max ok id h).2
    ∧ hub_registry (write_message zone size max ok id h).2 = hub_registry h.
Proof.
  intros Hok. assert (steady h h) as Hrefl by (split; [reflexivity|eauto]). unfold write_message.
  destruct (hub_peers h !! id) as [[role [|m queue] closed]|] eqn:Hp; [done| |done].
  set (h1 := set_peers _ h).
  assert (steady h h1) as Hst.
  { split; [split; [|done]|].
    - intros i p Hi. simpl. destruct (decide (i = id)) as [->|].
      + rewrite lookup_insert_eq. simplify_eq. by eexists.
      + rewrite lookup_insert_ne by done. by exists p.
    - intros i p Hi. simpl in Hi. apply lookup_insert_Some in Hi as [[-> <-]|[_ Hi]]; eauto. }
  assert (hub_ok h1) as Hok1.
  { destruct Hok as [Iroles Icur Iqueue Icache Ibound]. unfold h1. split; simpl; try done.
    - intros i p Hi. apply lookup_insert_Some in Hi as [[-> <-]|[_ Hi]]; [|eauto]. by apply (Iroles i _ Hp).
    - intros o i Hc. destruct (Icur o i Hc) as (q&Hq&Hr). destruct (decide (i = id)) as [->|].
      + rewrite lookup_insert_eq. eexists. split; [done|]. by simplify_eq.
      + rewrite lookup_insert_ne by done. eauto.
    - intros i p x Hi Hx. apply lookup_insert_Some in Hi as [[-> <-]|[_ Hi]]; [|eauto].
      apply (Iqueue i _ x Hp). by right.
    - intros i p Hi. simpl in Hi |- *. apply lookup_insert_Some in Hi as [[-> <-]|[_ Hi]]; [|by apply (Ibound i p)].
      specialize (Ibound i _ Hp). simpl in *. lia. }
  destruct (json_Message (zone m) m) as [data|]; [|done].
  destruct (max <? size data)%Z; [done|]. destruct ok; [done|]. split_and!; [|split|done].
  - by eapply relay_sends_ok; [apply Close_sends|].
  - etrans; [apply Hst|apply kept_steady, Close_kept].
  - intros i p' Hp'. destruct (kept_steady _ _ (Close_kept id h1)) as [_ Hn]. destruct (Hn i p' Hp') as [p1 Hp1].
    by apply Hst in Hp1.
Qed.

Definition valid_role (role : string) : Prop := role = RoleApp ∨ role = RoleAgent.

Lemma current_Replace id role r :
  valid_role role → (Replace id role r).1 = current role r ∧ current role (Replace id role r).2 = Some id
    ∧ (∀ o, o ≠ role → current o (Replace id role r).2 = current o r)
    ∧ (∀ m, m ∈ AgentState (Replace id role r).2 → m ∈ AgentState r).
Proof.
  intros [->| ->]; unfold Replace; simpl; split_and!; try done.
  - intros o Ho. unfold current. destruct (String.eqb_spec o RoleAgent); [done|]. by destruct (String.eqb_spec o RoleApp).
  - intros o Ho. unfold current. by destruct (String.eqb_spec o RoleAgent).
  - intros m Hm. unfold AgentState in Hm. simpl in Hm. by apply elem_of_nil in Hm.
Qed.

Lemma current_Remove id role r :
  (∀ o i, current o (Remove id role r).2 = Some i → current o r = Some i)
  ∧ (∀ o i, current o r = Some i → i ≠ id → current o (Remove id role r).2 = Some i)
  ∧ (∀ m, m ∈ AgentState (Remove id role r).2 → m ∈ AgentState r).
Proof.
  unfold Remove. destruct (String.eqb role RoleApp); [|destruct (String.eqb role RoleAgent)].
  1,2: case_bool_decide; [|done]; split_and!; unfold current; simpl.
  - intros o i. by repeat case_match.
  - intros o i. repeat case_match; congruence.
  - done.
  - intros o i. by repeat case_match.
  - intros o i. repeat case_match; congruence.
  - intros m Hm. by apply elem_of_nil in Hm.
  - done.
Qed.

(** ** Handlers *)

Section Programs.
Context {O : Type}.
Notation P := (Prog (RState O)).

(** [safe Q p h]: from [h] on, with any steps of others between, every atom of
    [p] keeps the invariant and all peers, and takes a connection out of the
    registry only if it is closed or what remains of [p] is bound to close it;
    and [p] ends with a result and a state in [Q]. *)
Fixpoint safe {A} (Q : A → HubState → Prop) (p : P A) (h : HubState) : Prop :=
  match p with
  | Finished a => Q a h
  | Atom m k => ∀ s, grows h s.1 → hub_ok s.1 →
      let r := m s in
      hub_ok r.2.1 ∧ steady s.1 r.2.1
      ∧ (∀ role id, current role (hub_registry s.1) = Some id →
           current role (hub_registry r.2.1) = Some id ∨ is_closed id r.2.1
           ∨ bound (λ s, is_closed id s.1) (k r.1))
      ∧ safe Q (k r.1) r.2.1
  end.

Lemma safe_bind {A B} (Q : B → HubState → Prop) (p : P A) (K : A → P B) h :
  safe (λ a h, safe Q (K a) h) p h → safe Q (let! a := p in K a) h.
Proof.
  cbn [bind prog_monad]. revert h. induction p as [a|C m k IH]; intros h; [done|].
  cbn [safe pbind]. intros H s Hg Hok. destruct (H s Hg Hok) as (H1&H2&H3&H4). split_and!; [done..| |by apply IH].
  intros role id Hc. destruct (H3 role id Hc) as [?|[?|?]]; auto. right. right. by apply (bound_bind _ (k (m s).1) K).
Qed.
Lemma safe_ret {A} (Q : A → HubState → Prop) (a : A) h : Q a h → safe Q (ret a) h.
Proof. done. Qed.

(** One atom that leaves the registered connections alone. *)
Lemma safe_atomic {A} (Q : A → HubState → Prop) (m : RSt O A) h :
  (∀ s, grows h s.1 → hub_ok s.1 → let r := m s in
     hub_ok r.2.1 ∧ steady s.1 r.2.1 ∧ (∀ role, current role (hub_registry r.2.1) = current role (hub_registry s.1))
     ∧ Q r.1 r.2.1) →
  safe Q (atomic m) h.
Proof.
  intros H s Hg Hok. destruct (H s Hg Hok) as (?&?&Hc&?). split_and!; [done..| |done]. intros role id. rewrite Hc. auto.
Qed.

Lemma relay_sends_step h h' : relay_sends h h' → hub_ok h →
  hub_ok h' ∧ steady h h' ∧ ∀ role, current role (hub_registry h') = current role (hub_registry h).
Proof.
  intros Hs Hok. split_and!; [by eapply relay_sends_ok|apply kept_steady, Hs|].
  intros role. by rewrite (pk_registry _ _ (hs_kept _ _ _ Hs)).
Qed.

Lemma safe_sends {A} (Q : A → HubState → Prop) (m : RSt O A) h :
  (∀ s, relay_sends s.1 (m s).2.1) → (∀ a h', grows h h' → Q a h') → safe Q (atomic m) h.
Proof.
  intros Hm HQ. apply safe_atomic. intros s Hg Hok r.
  destruct (relay_sends_step s.1 r.2.1 (Hm s) Hok) as (?&[? ?]&?). split_and!; try done. apply HQ. by etrans.
Qed.
Lemma hub_sends_relay {A} (m : St HubState A) (s : RState O) : st_guar relay_sends m → relay_sends s.1 (on_hub m s).2.1.
Proof. intros Hm. unfold on_hub. specialize (Hm s.1). by destruct (m s.1). Qed.

Lemma safe_gets {A} (Q : A → HubState → Prop) (f : HubState → A) h :
  (∀ h', grows h h' → hub_ok h' → Q (f h') h') → safe Q (hub (gets f)) h.
Proof.
  intros HQ. apply safe_atomic. intros s Hg Hok. cbn. split_and!; [done|split; [reflexivity|eauto]|done|by apply HQ].
Qed.
Lemma safe_close (Q : unit → HubState → Prop) id h :
  (∀ h', grows h h' → Q tt h') → safe Q (hub (Close id)) h.
Proof. intros HQ. apply safe_sends; [|intros []; apply HQ]. intros s. apply hub_sends_relay, Close_guar. Qed.
Lemma safe_send_relay (Q : option send_error → HubState → Prop) id m h :
  from_relay m → (∀ e h', grows h h' → Q e h') → safe Q (hub (Send id m)) h.
Proof.
  intros Hm HQ. apply safe_sends; [|done]. intros s. apply hub_sends_relay. intros h'.
  by apply (Send_sends (λ _, from_relay)).
Qed.
(** A vetted message to a connection of the other role. *)
Lemma safe_send_vetted (Q : option send_error → HubState → Prop) id role m h :
  has_role id role h → from_role (other_role role) m → (∀ e h', grows h h' → Q e h') → safe Q (hub (Send id m)) h.
Proof.
  intros Hid Hm HQ. apply safe_atomic. intros s Hg Hok r.
  assert (r.2.1 = (Send id m s.1).2) as E by (unfold r, on_hub; by destruct (Send id m s.1)). rewrite !E.
  pose proof (kept_steady _ _ (Send_kept id m s.1)) as [Hs1 Hs2]. split_and!; [|done|by rewrite (pk_registry _ _ (Send_kept id m s.1))|].
  - eapply Send_ok; [done| |done]. by eapply has_role_grows.
  - apply HQ. by etrans.
Qed.

(** Something the relay says. *)
Lemma safe_say (Q : unit → HubState → Prop) id type traceID payload h :
  (∀ h', grows h h' → Q tt h') →
  safe Q (let! r := hub (new_message type traceID relay_sender payload) in
          match r with
          | Err _ => ret tt
          | Ok m => let! err := hub (Send id m) in match err with Some _ => hub (Close id) | None => ret tt end
          end) h.
Proof.
  intros HQ. apply safe_bind, safe_atomic. intros s Hg Hok r.
  assert (r = ((NewMessage type traceID relay_sender payload (hub_env s.1)).1,
               (set_env (NewMessage type traceID relay_sender payload (hub_env s.1)).2 s.1, s.2))) as ->
    by (unfold r, on_hub, new_message; by destruct (NewMessage _ _ _ _ _)).
  destruct (NewMessage type traceID relay_sender payload (hub_env s.1)) as [[m|e] env] eqn:E; cbn [fst snd].
  all: assert (relay_sends s.1 (set_env env s.1)) as Hsend by (by apply hub_sends_peers);
    destruct (relay_sends_step _ _ Hsend Hok) as (?&[? ?]&?); (split_and!; [done..|]).
  - apply NewMessage_sender in E as (Hs&_&_&Hw). apply safe_bind, safe_send_relay; [by split; [rewrite Hs|]|].
    intros [e|] h' Hh'.
    + apply safe_close. intros h2 Hh2. apply HQ. etrans; [exact Hg|]. etrans; [done|]. by etrans.
    + apply safe_ret, HQ. etrans; [exact Hg|]. by etrans.
  - apply safe_ret, HQ. by etrans.
Qed.

Lemma Reject_safe Q id traceID code message h : (∀ h', grows h h' → Q tt h') → safe Q (Reject id traceID code message) h.
Proof. apply safe_say. Qed.
Lemma sendAgentOffline_safe Q id traceID h : (∀ h', grows h h' → Q tt h') → safe Q (sendAgentOffline id traceID) h.
Proof. apply safe_say. Qed.

Lemma send_states_safe (Q : unit → HubState → Prop) id ms h :
  has_role id RoleApp h → Forall (from_role RoleAgent) ms → (∀ h', grows h h' → Q tt h') → safe Q (send_states id ms) h.
Proof.
  intros Hid Hms. revert h Hid. induction Hms as [|m ms Hm _ IH]; intros h Hid HQ; [by apply HQ|].
  cbn [send_states]. apply safe_bind. eapply safe_send_vetted; [exact Hid|done|]. intros [e|] h' Hg.
  - apply safe_close. intros h2 Hg2. apply HQ. by etrans.
  - apply IH; [by eapply has_role_grows|]. intros h2 Hg2. apply HQ. by etrans.
Qed.

(** The registry gives up connections that the rest of the program closes. *)
Lemma safe_registry {A B} (Q : B → HubState → Prop) (f : Registry → A * Registry) (K : A → P B) h :
  (∀ h', grows h h' → hub_ok h' →
     let r := f (hub_registry h') in
     hub_ok (set_registry r.2 h')
     ∧ (∀ role id, current role (hub_registry h') = Some id →
          current role r.2 = Some id ∨ is_closed id h' ∨ bound (λ s, is_closed id s.1) (K r.1))
     ∧ safe Q (K r.1) (set_registry r.2 h')) →
  safe Q (let! a := hub (with_registry f) in K a) h.
Proof.
  intros H s Hg Hok. specialize (H s.1 Hg Hok). cbn [bind prog_monad pbind]. unfold on_hub, with_registry.
  destruct (f (hub_registry s.1)) as [a r]. cbn [fst snd] in *. destruct H as (H1&H2&H3).
  split_and!; [done| |done|done]. split; [by split; [intros id p Hp; exists p|]|]. intros id p Hp. by exists p.
Qed.

Lemma bound_hub_close (o : Z) : bound (λ s : RState O, is_closed o s.1) (hub (Close o) : P unit).
Proof.
  left. intros s p. unfold on_hub. cbn. intros Hp. apply lookup_alter_Some in Hp as [(_&q&_&->)|[? _]]; done.
Qed.
Lemma bound_close {A} (o : Z) (K : unit → P A) : bound (λ s : RState O, is_closed o s.1) (let! u := hub (Close o) in K u).
Proof. apply bound_bind, bound_hub_close. Qed.
Lemma bound_after {A B} X (p : P A) (K : A → P B) : (∀ a, bound X (K a)) → bound X (let! a := p in K a).
Proof.
  intros HK. cbn [bind prog_monad]. induction p as [a|C m k IH]; [apply HK|]. right. intros s. apply IH.
Qed.

(** A connection that is to be closed, if there is one. *)
Lemma safe_close_opt {A} (Q : A → HubState → Prop) (o : option Z) (K : unit → P A) h :
  (∀ h', grows h h' → safe Q (K tt) h') →
  safe Q (let! u := match o with Some i => hub (Close i) | None => ret tt end in K u) h.
Proof. intros HQ. apply safe_bind. destruct o as [i|]; [by apply safe_close|by apply HQ]. Qed.

Lemma CloseAll_safe h : safe (λ _ _, True) CloseAll h.
Proof.
  unfold CloseAll. apply safe_registry. intros h' Hg Hok. cbn. split_and!.
  - apply set_registry_ok; [done| |by intros m Hm%elem_of_nil].
    intros role id Hc. unfold current in Hc. by repeat case_match.
  - intros role id Hc. right. right. unfold current in Hc.
    destruct (String.eqb role RoleAgent); [|destruct (String.eqb role RoleApp); [|done]]; rewrite Hc.
    + apply bound_after. intros _. apply bound_hub_close.
    + apply bound_close.
  - apply safe_close_opt. intros h2 _. destruct (reg_agent _); [by apply safe_close|done].
Qed.

Context (observer : option (Observer O)) (error_text : invalid → string).
Definition observer_laws : Prop := match observer with Some ob => ObserverLaws ob | None => True end.
Context (Hlaws : observer_laws).

(** A callback of the observer, if there is one. *)
Lemma safe_observed {A} (Q : A → HubState → Prop) (f : Observer O → RSt O A) (d : A) (b : bool) h :
  (∀ ob s, ObserverLaws ob → observer = Some ob → relay_sends s.1 (f ob s).2.1) → (∀ a h', grows h h' → Q a h') →
  safe Q (match observer with Some ob => if b then atomic (f ob) else ret d | None => ret d end) h.
Proof.
  intros Hf HQ. unfold observer_laws in Hlaws. destruct observer as [ob|]; [|by apply HQ].
  destruct b; [|by apply HQ]. apply safe_sends; [|done]. intros s. by apply Hf.
Qed.

Lemma Connect_safe id role h : valid_role role → has_role id role h → safe (λ _ _, True) (Connect observer id role) h.
Proof.
  intros Hrole Hid. unfold Connect. apply safe_registry. intros h' Hg Hok r.
  destruct (current_Replace id role (hub_registry h') Hrole) as (Hold&Hnew&Hothers&Hst). fold r in Hold, Hnew, Hothers, Hst.
  pose proof (has_role_grows _ _ _ _ Hg Hid) as Hid'. split_and!.
  - apply set_registry_ok; [done| |].
    + intros o i Hc. destruct (decide (o = role)) as [->|]; [right; congruence|left]. by rewrite <- Hothers.
    + intros m Hm. by apply (ok_cached h' Hok), Hst.
  - intros o i Hc. destruct (decide (o = role)) as [->|]; [|left; by rewrite Hothers]. right. right.
    rewrite Hold, Hc. apply bound_close.
  - apply safe_close_opt. intros h2 Hg2. apply safe_bind.
    apply (safe_observed _ (λ ob, AgentConnected ob id) tt); [intros ob s Ho _; by apply law_connected|].
    intros [] h3 Hg3. destruct (negb (String.eqb role RoleApp)) eqn:Er; [done|].
    apply negb_false_iff, String.eqb_eq in Er as ->.
    assert (has_role id RoleApp h3) as Hid3.
    { eapply has_role_grows; [exact Hg3|]. eapply has_role_grows; [exact Hg2|]. exact Hid'. }
    apply safe_bind, safe_gets. intros h4 Hg4 Hok4.
    destruct (current RoleAgent (hub_registry h4)); [|by apply sendAgentOffline_safe].
    apply safe_bind, safe_gets. intros h5 Hg5 Hok5. apply send_states_safe; [|by apply Forall_forall, ok_cached|done].
    eapply has_role_grows; [exact Hg5|]. by eapply has_role_grows.
Qed.

Lemma Disconnect_safe id role h : closed id h → safe (λ _ _, True) (Disconnect observer id role) h.
Proof.
  intros Hid. unfold Disconnect. apply safe_registry. intros h' Hg Hok r.
  destruct (current_Remove id role (hub_registry h')) as (Hsub&Hothers&Hst). fold r in Hsub, Hothers, Hst. split_and!.
  - apply set_registry_ok; [done|intros o i Hc; left; by apply Hsub|]. intros m Hm. by apply (ok_cached h' Hok), Hst.
  - intros o i Hc. destruct (decide (i = id)) as [->|]; [right; left|left; by apply Hothers].
    eapply closed_is, closed_grows; [exact Hg|done].
  - destruct (negb r.1); [done|]. destruct (String.eqb role RoleAgent); [|done].
    apply safe_bind. apply (safe_observed _ (λ ob, AgentDisconnected ob id) tt true);
      [intros ob s Ho _; by apply law_disconnected|].
    intros [] h2 _. apply safe_bind, safe_gets. intros h3 _ _.
    destruct (current RoleApp (hub_registry h3)); [by apply sendAgentOffline_safe|done].
Qed.

Lemma end_connection_safe id role h : has_role id role h → safe (λ _ _, True) (end_connection observer id role) h.
Proof.
  intros Hid. unfold end_connection. apply safe_bind, safe_atomic. intros s Hg Hok r.
  assert (r.2.1 = (Close id s.1).2) as E by done. rewrite !E.
  destruct (relay_sends_step _ _ (Close_sends (λ _, from_relay) id s.1) Hok) as (?&Hst&?). split_and!; [done..|].
  apply Disconnect_safe. destruct (has_role_grows _ _ _ _ Hg Hid) as (p&Hp&_).
  exists (close_peer p). split; [by apply Close_closes|done].
Qed.

Lemma forward_safe (Q : unit → HubState → Prop) id role m h :
  valid_role role → from_role role m → (∀ h', grows h h' → Q tt h') → safe Q (forward observer id role m) h.
Proof.
  intros Hrole Hm HQ. unfold forward. apply safe_bind, safe_atomic. intros s Hg Hok. cbn [on_hub modify fst snd].
  destruct (Remember_ok role m s.1 Hok) as [Hok1 Hcur]; [by intros ->|].
  split_and!; [done|split; [split; [intros i p Hp; by exists p|done]|eauto]|exact Hcur|].
  set (h1 := set_registry _ _). assert (grows h h1) as Hg1.
  { etrans; [exact Hg|]. split; [|done]. intros i p Hp. by exists p. }
  apply safe_bind, safe_gets. intros h2 Hg2 Hok2.
  assert (∀ h', grows h2 h' → Q tt h') as HQ2 by (intros h' Hg'; apply HQ; etrans; [exact Hg1|]; by etrans).
  destruct (current (other_role role) (hub_registry h2)) as [target|] eqn:Et.
  - apply safe_bind. eapply (safe_send_vetted _ target (other_role role)).
    + destruct (ok_current h2 Hok2 _ _ Et) as (p&Hp&Hr). by exists p.
    + by destruct Hrole as [->| ->].
    + intros [e|] h3 Hg3.
      * apply safe_bind, safe_close. intros h4 Hg4.
        assert (∀ h', grows h4 h' → Q tt h') as HQ4 by (intros h' Hg'; apply HQ2; etrans; [exact Hg3|]; by etrans).
        destruct (String.eqb role RoleApp); [by apply Reject_safe|by apply HQ4].
      * assert (∀ h', grows h3 h' → Q tt h') as HQ3 by (intros h' Hg'; apply HQ2; by etrans).
        unfold observer_laws in Hlaws. destruct observer as [ob|]; [|by apply HQ3].
        destruct (String.eqb role RoleAgent); [|by apply HQ3].
        destruct (AgentMessageForwarded ob) as [f|] eqn:Ef; [|by apply HQ3].
        apply safe_sends; [intros s'; by eapply law_forwarded|intros []; apply HQ3].
  - destruct (String.eqb role RoleApp); [|by apply HQ2]. destruct (String.eqb (m_Type m) _); [by apply HQ2|].
    by apply Reject_safe.
Qed.

Lemma Handle_safe (Q : unit → HubState → Prop) id role m h :
  valid_role role → well_formed m → (∀ h', grows h h' → Q tt h') → safe Q (Handle observer id role m) h.
Proof.
  intros Hrole Hw HQ. unfold Handle. destruct (AllowedFrom role (m_Type m)) eqn:Ea; cbn [negb]; [|by apply Reject_safe].
  apply safe_bind. apply (safe_observed _ (λ ob, AgentMessage ob id (with_sender m (CanonicalSender role))) false
                           (String.eqb role RoleAgent)); [intros ob s Ho _; by apply law_message|].
  intros [|] h' Hg; [by apply HQ|]. apply forward_safe; [done| |intros h2 Hg2; apply HQ; by etrans].
  split; [done|]. split; [done|]. destruct (CanonicalSender_named role). by apply with_sender_well_formed.
Qed.

Lemma read_frame_safe (Q : bool → HubState → Prop) id role f h :
  valid_role role → (∀ b h', grows h h' → Q b h') → safe Q (read_frame observer error_text id role f) h.
Proof.
  intros Hrole HQ. unfold read_frame. destruct f as [|v|]; [| |by apply HQ].
  - apply safe_bind, Reject_safe. intros h' Hg. by apply HQ.
  - pose proof (Decode_well_formed v) as Hdec. destruct (Decode v) as [m|e].
    + apply safe_bind, Handle_safe; [done|by apply Hdec|]. intros h' Hg. by apply HQ.
    + apply safe_bind, Reject_safe. intros h' Hg. by apply HQ.
Qed.

Lemma read_turn_safe id role f h :
  valid_role role → has_role id role h → safe (λ _ _, True) (read_turn observer error_text id role f) h.
Proof.
  intros Hrole Hid. unfold read_turn. apply safe_bind, read_frame_safe; [done|]. intros [|] h' Hg; [done|].
  apply safe_bind. assert (safe (λ _ _, True) (end_connection observer id role) h') as H
    by (by eapply end_connection_safe, has_role_grows). exact H.
Qed.
Lemma ServeRole_safe id role h : valid_role role → has_role id role h → safe (λ _ _, True) (ServeRole observer id role) h.
Proof. intros Hrole Hid. unfold ServeRole. apply safe_bind. by apply Connect_safe. Qed.
End Programs.

(** *** Run alone, they are functions of the state *)

Ltac same :=
  repeat lazymatch goal with
    | |- same (match ?x with _ => _ end) _ => destruct x
    | |- same (bind _ _) _ => apply same_bind; [|intros ?]
    | |- same (ret _) _ => apply same_ret
    | |- same (atomic _) _ => apply same_atomic
    | |- same (hub _) _ => apply same_atomic
    | |- _ => solve [auto with same]
    end.
Create HintDb same.

Section Alone.
Context {O : Type} (observer : option (Observer O)) (error_text : invalid → string).

Lemma Reject_same id traceID code message : same (S := RState O) (Reject id traceID code message) (Reject id traceID code message).
Proof. unfold Reject. same. Qed.
Lemma sendAgentOffline_same id traceID : same (S := RState O) (sendAgentOffline id traceID) (sendAgentOffline id traceID).
Proof. unfold sendAgentOffline. same. Qed.
Lemma send_states_same id ms : same (S := RState O) (send_states id ms) (send_states id ms).
Proof. induction ms; cbn [send_states]; same. Qed.
Hint Resolve Reject_same sendAgentOffline_same send_states_same : same.
Lemma Connect_same id role : same (Connect observer id role) (Connect observer id role).
Proof. unfold Connect, notify_connected. same. Qed.
Lemma Disconnect_same id role : same (Disconnect observer id role) (Disconnect observer id role).
Proof. unfold Disconnect. same. Qed.
Lemma Handle_same id role m : same (Handle observer id role m) (Handle observer id role m).
Proof. unfold Handle, forward. same. Qed.
Hint Resolve Connect_same Disconnect_same Handle_same : same.
Lemma ServeRole_same id role : same (ServeRole observer id role) (ServeRole observer id role).
Proof. unfold ServeRole. same. Qed.
Lemma read_turn_same id role f : same (read_turn observer error_text id role f) (read_turn observer error_text id role f).
Proof. unfold read_turn, read_frame, end_connection. same. Qed.
End Alone.

(** ** Reachable states *)

Section Reach.
Context {O : Type} (observer : option (Observer O)) (error_text : invalid → string)
        (zone : Message → Z) (size : json → Z) (max : Z).

(** A handler at work: of a connection, whose result is whether it reads on, or
    of the server. *)
Record Thread := mkThread { tr_conn : option (Z * string); tr_prog : Prog (RState O) bool }.
Definition Hub : Type := RState O * list Thread.

(** Connections are accepted, their handlers do what is next, take the next
    frame or the end of the connection, the write loops take messages, pings and
    writes fail, the server closes all connections, and the observer acts on its
    own. *)
Inductive hub_step : Hub → Hub → Prop :=
| step_accept id role s ts :
    valid_role role → hub_peers s.1 !! id = None →
    hub_step (s, ts) ((on_hub (accept id role) s).2, (ts ++ [mkThread (Some (id, role)) (ServeRole observer id role)])%list)
| step_next i t p' s s' ts :
    ts !! i = Some t → next (tr_prog t) s = Some (p', s') →
    hub_step (s, ts) (s', <[i := mkThread (tr_conn t) p']> ts)
| step_frame i id role f s ts :
    ts !! i = Some (mkThread (Some (id, role)) (Finished true)) →
    hub_step (s, ts) (s, <[i := mkThread (Some (id, role)) (read_turn observer error_text id role f)]> ts)
| step_write ok id s ts : hub_step (s, ts) ((on_hub (write_message zone size max ok id) s).2, ts)
| step_ping ok id s ts : hub_step (s, ts) ((on_hub (ping ok id) s).2, ts)
| step_close_all s ts : hub_step (s, ts) (s, (ts ++ [mkThread None (let! _ := CloseAll in ret false)])%list)
| step_background s s' ts : relay_sends s.1 s'.1 → hub_step (s, ts) (s', ts).

(** What a handler at work is about to do for a connection: register it, or
    close it whatever comes between. *)
Definition registers (id : Z) (role : string) (t : Thread) : Prop :=
  bound_next (λ s : RState O, current role (hub_registry s.1) = Some id) (tr_prog t).
Definition closes (id : Z) (t : Thread) : Prop := bound (λ s : RState O, is_closed id s.1) (tr_prog t).
Definition idle (t : Thread) : Prop := ∃ b, tr_prog t = Finished b.

(** A handler that nothing interrupts does what its function says. *)
Lemma alone_steps i conn p s ts :
  ts !! i = Some (mkThread conn p) →
  rtc hub_step (s, ts) ((run p s).2, <[i := mkThread conn (Finished (run p s).1)]> ts).
Proof.
  revert s ts. induction p as [b|B m k IH]; intros s ts Hi.
  - cbn [run ret st_monad fst snd]. rewrite list_insert_id by done. reflexivity.
  - cbn [run bind st_monad]. destruct (m s) as [a s1] eqn:Em. eapply rtc_l.
    + eapply (step_next i (mkThread conn (Atom m k))); [done|]. cbn. by rewrite Em.
    + cbn [tr_conn]. specialize (IH a s1 (<[i := mkThread conn (k a)]> ts)). rewrite list_insert_insert_eq in IH.
      apply IH, list_lookup_insert_eq. by eapply lookup_lt_Some.
Qed.
(** A connection from its handshake to its read loop. *)
Definition open_connection (id : Z) (role : string) : RSt O bool :=
  let! _ := on_hub (accept id role) in ServeRole observer id role.
Lemma ServeRole_alone id role s ts :
  valid_role role → hub_peers s.1 !! id = None →
  let r := open_connection id role s in
  rtc hub_step (s, ts) (r.2, (ts ++ [mkThread (Some (id, role)) (Finished r.1)])%list).
Proof.
  intros Hrole Hf r. eapply rtc_l; [by apply (step_accept id role)|].
  pose proof (alone_steps (length ts) (Some (id, role)) (ServeRole observer id role) (on_hub (accept id role) s).2
                (ts ++ [mkThread (Some (id, role)) (ServeRole observer id role)])) as H.
  rewrite (ServeRole_same observer id role (on_hub (accept id role) s).2) in H.
  rewrite insert_app_r_alt, Nat.sub_diag in H by done. cbn [list_insert] in H. apply H.
  rewrite lookup_app_r, Nat.sub_diag by done. done.
Qed.
Lemma read_turn_alone i id role f s ts :
  ts !! i = Some (mkThread (Some (id, role)) (Finished true)) →
  let r := read_turn (M := RSt O) observer error_text id role f s in
  rtc hub_step (s, ts) (r.2, <[i := mkThread (Some (id, role)) (Finished r.1)]> ts).
Proof.
  intros Hi r. eapply rtc_l; [by apply (step_frame i id role f)|].
  pose proof (alone_steps i (Some (id, role)) (read_turn observer error_text id role f) s
                (<[i := mkThread (Some (id, role)) (read_turn observer error_text id role f)]> ts)) as H.
  rewrite (read_turn_same observer error_text id role f s), list_insert_insert_eq in H. apply H, list_lookup_insert_eq.
  by eapply lookup_lt_Some.
Qed.

Context (Hlaws : observer_laws observer).

Definition thread_ok (h : HubState) (t : Thread) : Prop :=
  (match tr_conn t with Some (id, role) => valid_role role ∧ has_role id role h | None => True end)
  ∧ ∃ h0, grows h0 h ∧ safe (λ _ _, True) (tr_prog t) h0.

Definition attended (h : HubState) (ts : list Thread) (id : Z) (role : string) : Prop :=
  current role (hub_registry h) = Some id ∨ Exists (registers id role) ts ∨ Exists (closes id) ts.

Record hub_inv (c : Hub) : Prop := {
  hi_ok : hub_ok c.1.1;
  hi_threads : Forall (thread_ok c.1.1) c.2;
  hi_open : ∀ id p, hub_peers c.1.1 !! id = Some p → peer_closed p = false → attended c.1.1 c.2 id (peer_role p);
}.

Lemma thread_ok_grows h h' t : grows h h' → thread_ok h t → thread_ok h' t.
Proof.
  intros Hg [Hc (h0&Hg0&Hs)]. split; [|exists h0; split; [by etrans|done]].
  destruct (tr_conn t) as [[id role]|]; [|done]. destruct Hc as [? Hr]. split; [done|by eapply has_role_grows].
Qed.

(** Steps that no handler takes. *)
Lemma quiet_step s s' ts :
  hub_inv (s, ts) → hub_ok s'.1 → steady s.1 s'.1 →
  (∀ role, current role (hub_registry s'.1) = current role (hub_registry s.1)) → hub_inv (s', ts).
Proof.
  intros [Hok Hts Hopen] Hok' [Hg Hn] Hcur. split; [done| |].
  - eapply Forall_impl; [exact Hts|]. intros t. by apply thread_ok_grows.
  - intros id p' Hp' Ho. destruct (Hn id p' Hp') as [p Hp]. destruct Hg as [Hg _].
    destruct (Hg id p Hp) as (q&Hq&Hr&Hc). cbn in *. simplify_eq. rewrite Hr. unfold attended. rewrite Hcur.
    apply (Hopen id p Hp). destruct (peer_closed p); [by rewrite Hc in Ho|done].
Qed.
Lemma sends_step s s' ts : hub_inv (s, ts) → relay_sends s.1 s'.1 → hub_inv (s', ts).
Proof.
  intros Hi Hs. destruct (relay_sends_step s.1 s'.1 Hs (hi_ok _ Hi)) as (?&?&?). by eapply quiet_step.
Qed.

(** A handler that comes, or goes on from where it was idle. *)
Lemma attended_app h ts t id role : attended h ts id role → attended h (ts ++ [t])%list id role.
Proof. unfold attended. rewrite !Exists_app. naive_solver. Qed.
Lemma Exists_insert {A} (X : A → Prop) (l : list A) i x y :
  l !! i = Some x → Exists X l → X x ∨ Exists X (<[i := y]> l).
Proof.
  intros Hi [z [Hz HX]]%Exists_exists. apply list_elem_of_lookup in Hz as [j Hj].
  destruct (decide (i = j)) as [->|Hne]; [left; by simplify_eq|right].
  apply Exists_exists. exists z. split; [|done]. apply list_elem_of_lookup. exists j. by rewrite list_lookup_insert_ne.
Qed.
Lemma Exists_inserted {A} (X : A → Prop) (l : list A) i x y : l !! i = Some x → X y → Exists X (<[i := y]> l).
Proof.
  intros Hi HX. apply Exists_exists. exists y. split; [|done]. apply list_elem_of_lookup. exists i.
  apply list_lookup_insert_eq. by eapply lookup_lt_Some.
Qed.

Lemma accept_ok id role h :
  valid_role role → hub_peers h !! id = None → hub_ok h →
  hub_ok (accept id role h).2 ∧ grows h (accept id role h).2.
Proof.
  intros Hrole Hfresh [Iroles Icur Iqueue Icache Ibound].
  assert (∀ i p, <[id:=mkPeer role [] false]> (hub_peers h) !! i = Some p →
            (i = id ∧ p = mkPeer role [] false) ∨ (i ≠ id ∧ hub_peers h !! i = Some p)) as Hlk.
  { intros i p. rewrite lookup_insert_Some. naive_solver. }
  assert (∀ i p, hub_peers h !! i = Some p → <[id:=mkPeer role [] false]> (hub_peers h) !! i = Some p) as Hold.
  { intros i p Hp. rewrite lookup_insert_ne; [done|congruence]. }
  split; [|split; [intros i p Hp; exists p; by split_and!; [apply Hold|..]|done]].
  split; cbn.
  - intros i p [[-> ->]|[_ Hp]]%Hlk; [done|by eapply Iroles].
  - intros o i Hc. destruct (Icur o i Hc) as (p&Hp&Hr). eauto.
  - intros i p m [[-> ->]|[_ Hp]]%Hlk Hm; [by apply elem_of_nil in Hm|eauto].
  - done.
  - intros i p [[-> ->]|[_ Hp]]%Hlk; [cbn; lia|by apply (Ibound i p)].
Qed.

Lemma ServeRole_registers id role : valid_role role → registers id role (mkThread (Some (id, role)) (ServeRole observer id role)).
Proof.
  intros Hrole s. unfold on_hub, with_registry. destruct (current_Replace id role (hub_registry s.1) Hrole) as (_&H&_).
  by destruct (Replace id role (hub_registry s.1)).
Qed.

Lemma accept_inv id role s ts :
  valid_role role → hub_peers s.1 !! id = None → hub_inv (s, ts) →
  hub_inv ((on_hub (accept id role) s).2, (ts ++ [mkThread (Some (id, role)) (ServeRole observer id role)])%list).
Proof.
  intros Hrole Hfresh [Hok Hts Hopen]. destruct (accept_ok id role s.1 Hrole Hfresh Hok) as [Hok' Hg].
  assert (has_role id role (accept id role s.1).2) as Hid.
  { exists (mkPeer role [] false). cbn. by rewrite lookup_insert_eq. }
  split; [exact Hok'| |].
  - apply Forall_app. split; [eapply Forall_impl; [exact Hts|]; intros t; by apply thread_ok_grows|].
    apply Forall_singleton. split; [by split|]. exists (accept id role s.1).2. split; [reflexivity|].
    by apply ServeRole_safe.
  - intros i p Hp Ho. cbn in Hp. apply lookup_insert_Some in Hp as [[<- <-]|[_ Hp]].
    + right. left. apply Exists_app. right. by apply Exists_cons_hd, ServeRole_registers.
    + apply attended_app. by apply (Hopen i p Hp Ho).
Qed.

Lemma next_inv i t p' s s' ts :
  ts !! i = Some t → next (tr_prog t) s = Some (p', s') → hub_inv (s, ts) →
  hub_inv (s', <[i := mkThread (tr_conn t) p']> ts).
Proof.
  intros Hi Hn [Hok Hts Hopen]. pose proof Hts as Hall. rewrite Forall_lookup in Hall.
  destruct (Hall i t Hi) as [Hconn (h0&Hg0&Hs)]. destruct t as [conn [b|B m k]]; cbn in Hn; [done|].
  destruct (m s) as [a s1] eqn:Em. injection Hn as <- <-. cbn [tr_conn tr_prog] in *.
  specialize (Hs s Hg0 Hok). rewrite Em in Hs. destruct Hs as (Hok'&Hst&Hkeep&Hs). cbn [fst snd] in *.
  split; cbn [fst snd]; [done| |].
  - apply Forall_insert.
    + eapply Forall_impl; [exact Hts|]. intros t. apply thread_ok_grows, Hst.
    + split; [|exists s1.1; split; [reflexivity|done]]. destruct conn as [[id role]|]; [|done].
      destruct Hconn as [? Hr]. split; [done|]. eapply has_role_grows; [apply Hst|done].
  - intros id p1 Hp1 Ho. destruct Hst as [[Hg _] Hnew]. destruct (Hnew id p1 Hp1) as [p Hp].
    destruct (Hg id p Hp) as (q&Hq&Hr&Hc). simplify_eq. rewrite Hr.
    assert (peer_closed p = false) as Hpo by (destruct (peer_closed p); [by rewrite Hc in Ho|done]).
    assert (¬ is_closed id s1.1) as Hnc by (intros H; rewrite (H _ Hp1) in Ho; done).
    destruct (Hopen id p Hp Hpo) as [Hcur|[Hreg|Hcl]].
    + destruct (Hkeep _ _ Hcur) as [?|[?|?]]; [by left|done|]. right. right. by eapply Exists_inserted.
    + destruct (Exists_insert _ _ _ _ (mkThread conn (k a)) Hi Hreg) as [Hm|?]; [|by right; left].
      left. specialize (Hm s). by rewrite Em in Hm.
    + destruct (Exists_insert _ _ _ _ (mkThread conn (k a)) Hi Hcl) as [[Hm|Hk]|?]; [| |by right; right].
      * specialize (Hm s). by rewrite Em in Hm.
      * right. right. eapply Exists_inserted; [exact Hi|]. specialize (Hk s). by rewrite Em in Hk.
Qed.

(** An idle handler does nothing for a connection. *)
Lemma idle_inv i t t' s ts :
  ts !! i = Some t → idle t → thread_ok s.1 t' → hub_inv (s, ts) → hub_inv (s, <[i := t']> ts).
Proof.
  intros Hi [b Hb] Ht' [Hok Hts Hopen]. split; [done|by apply Forall_insert|].
  intros id p Hp Ho. unfold attended. destruct (Hopen id p Hp Ho) as [?|[H|H]]; [by left| |];
    destruct (Exists_insert _ _ _ _ t' Hi H) as [Hm|?]; auto; unfold registers, closes in Hm; by rewrite Hb in Hm.
Qed.

Lemma hub_step_inv c c' : hub_step c c' → hub_inv c → hub_inv c'.
Proof.
  intros Hstep Hinv. pose proof (hi_ok _ Hinv) as Hok. destruct Hstep as
    [id role s ts Hrole Hf|i t p' s s' ts Hi Hn|i id role f s ts Hi|ok id s ts|ok id s ts|s ts|s s' ts Hb].
  - by apply accept_inv.
  - by eapply next_inv.
  - pose proof (hi_threads _ Hinv) as Hts. rewrite Forall_lookup in Hts. destruct (Hts i _ Hi) as [[Hrole Hid] _].
    eapply idle_inv; [exact Hi|by eexists| |done]. split; [by split|]. exists s.1. split; [reflexivity|].
    by apply read_turn_safe.
  - destruct (write_message_ok zone size max ok id s.1 Hok) as (H1&H2&H3).
    assert ((on_hub (write_message zone size max ok id) s).2.1 = (write_message zone size max ok id s.1).2) as E
      by (unfold on_hub; by destruct (write_message zone size max ok id s.1)).
    eapply quiet_step; [exact Hinv|rewrite E..]; [done|done|intros role; by rewrite H3].
  - eapply sends_step; [exact Hinv|]. apply hub_sends_relay. destruct ok; [apply st_guar_ret; apply _|apply Close_guar].
  - destruct Hinv as [_ Hts Hopen]. split; [done| |intros id p Hp Ho; apply attended_app; by apply Hopen].
    apply Forall_app. split; [done|]. apply Forall_singleton. split; [done|]. exists s.1. split; [reflexivity|].
    apply safe_bind. exact (CloseAll_safe (O := O) s.1).
  - by eapply sends_step.
Qed.

(** The hub before any connection. *)
Definition initial_hub (c : Hub) : Prop := hub_peers c.1.1 = ∅ ∧ hub_registry c.1.1 = NewRegistry ∧ c.2 = [].

Lemma hub_initial_inv c : initial_hub c → hub_inv c.
Proof.
  destruct c as [s ts]. unfold initial_hub. cbn. intros (Hp&Hr&->). split; [|done|]; cbn.
  - split; rewrite ?Hp, ?Hr.
    + intros id p. by rewrite lookup_empty.
    + intros o i Hc. unfold current in Hc. by repeat case_match.
    + intros id p m. by rewrite lookup_empty.
    + intros m Hm. by apply elem_of_nil in Hm.
    + unfold queues_bounded. rewrite Hp. apply map_Forall_empty.
  - intros id p. by rewrite Hp, lookup_empty.
Qed.

Lemma hub_reachable_inv c c' : initial_hub c → rtc hub_step c c' → hub_inv c'.
Proof.
  intros Hi%hub_initial_inv Hr. revert Hi. induction Hr as [|c1 c2 c3 Hstep _ IH]; [done|].
  intros Hok. apply IH. by eapply hub_step_inv.
Qed.

(** C5. Provenance: in every reachable state, whatever peers send and however
    the handlers interleave, each message waiting for a peer was written by the
    relay itself, or came from the other role with a type that role may send and
    with that role's canonical sender: an App cannot impersonate the Agent or
    the relay, cannot inject Agent events, and cannot make the Agent read a
    source file. *)
Theorem hub_provenance c c' id p m :
  initial_hub c → rtc hub_step c c' →
  hub_peers c'.1.1 !! id = Some p → m ∈ peer_queue p →
  Kind (m_Sender m) = "relay" ∨
  (m_Sender m = CanonicalSender (other_role (peer_role p)) ∧
   AllowedFrom (other_role (peer_role p)) (m_Type m) = true ∧
   (peer_role p = RoleAgent → m_Type m ≠ TypeSourceRead)).
Proof.
  intros Hi Hr Hp Hm.
  destruct (ok_queue _ (hi_ok _ (hub_reachable_inv c c' Hi Hr)) id p m Hp Hm) as [[? _]|(Hs&Ha&_)]; [by left|].
  right. split; [done|split; [done|]]. intros Hrole Ht. rewrite Hrole, Ht in Ha. done.
Qed.

(** C6. One connection per role: in every reachable state, however the handlers
    interleave, an open connection is the one the registry names for its role,
    or its handler is about to register it, or a handler is bound to close it,
    whatever comes between; so that when no handler is at work at most one
    connection per role is open, the registered one.  The registry only names
    connections of the right role, and no outbound queue exceeds its bound. *)
Theorem hub_single_connection c c' :
  initial_hub c → rtc hub_step c c' →
  let h := c'.1.1 in
  (∀ id p, hub_peers h !! id = Some p → peer_closed p = false →
     current (peer_role p) (hub_registry h) = Some id
     ∨ Exists (registers id (peer_role p)) c'.2 ∨ Exists (closes id) c'.2)
  ∧ (Forall idle c'.2 → ∀ i j p q, hub_peers h !! i = Some p → hub_peers h !! j = Some q →
       peer_role p = peer_role q → peer_closed p = false → peer_closed q = false →
       i = j ∧ current (peer_role p) (hub_registry h) = Some i)
  ∧ (∀ role id, current role (hub_registry h) = Some id →
       ∃ p, hub_peers h !! id = Some p ∧ peer_role p = role)
  ∧ (∀ id p, hub_peers h !! id = Some p → (length (peer_queue p) ≤ hub_capacity h)%nat).
Proof.
  intros Hi Hr h. destruct (hub_reachable_inv c c' Hi Hr) as [[Iroles Icur Iqueue Icache Ibound] _ Hopen].
  split; [exact Hopen|]. split; [|split; [done|by intros id p Hp; apply (Ibound id p)]].
  intros Hidle. assert (∀ id p, hub_peers h !! id = Some p → peer_closed p = false →
    current (peer_role p) (hub_registry h) = Some id) as Hc.
  { intros id p Hp Ho. rewrite Forall_forall in Hidle.
    destruct (Hopen id p Hp Ho) as [?|[(t&Ht&H)%Exists_exists|(t&Ht&H)%Exists_exists]]; [done| |];
      destruct (Hidle t Ht) as [b Hb]; unfold registers, closes in H; by rewrite Hb in H. }
  intros i j p q Hp Hq Hrole Hpo Hqo. pose proof (Hc i p Hp Hpo) as H1. pose proof (Hc j q Hq Hqo) as H2.
  split; [|done]. rewrite Hrole in H1. congruence.
Qed.

(** C7. Every message waiting for a peer is one Validate accepts, with an int64
    sequence, in every reachable state; and every frame the write loop puts on
    the wire fits the limit and is decoded by the other end as the message that
    was at the head of that peer's queue.  (A zone read from RFC 3339 is a whole
    number of minutes.) *)
Theorem hub_frames_decode c c' id p :
  (∀ m, (zone m mod 60 = 0)%Z) → initial_hub c → rtc hub_step c c' →
  hub_peers c'.1.1 !! id = Some p →
  (∀ m, m ∈ peer_queue p → Validate m = Ok tt ∧ in_int64 (m_AgentSequence m) = true)
  ∧ (∀ ok j h', write_message zone size max ok id c'.1.1 = (Some j, h') →
       (size j ≤ max)%Z ∧ ∃ m rest, peer_queue p = m :: rest ∧ Decode (Some j) = Ok m
       ∧ hub_peers h' !! id = Some (mkPeer (peer_role p) rest (peer_closed p))).
Proof.
  intros Hz Hi Hr Hp.
  assert (∀ m, m ∈ peer_queue p → well_formed m) as Hw.
  { intros m Hm. by destruct (ok_queue _ (hi_ok _ (hub_reachable_inv c c' Hi Hr)) id p m Hp Hm) as [[_ ?]|(_&_&?)]. }
  split; [exact Hw|]. intros ok j h' H. unfold write_message in H. rewrite Hp in H.
  destruct p as [role [|m rest] closed]; [done|].
  destruct (json_Message (zone m) m) as [data|] eqn:Ej; [|done].
  destruct (Z.ltb_spec max (size data)); [done|]. destruct ok; simplify_eq/=.
  split; [lia|]. exists m, rest. split_and!; [done| |by rewrite lookup_insert_eq].
  eapply Decode_json_Message; [apply Hz| |exact Ej]. apply Hw. by left.
Qed.
End Reach.
