(* ===== verification/Gateway.v ===== *)
(** * internal/runtime/source.go and execution_profiles.go

    Two gateways that turn a request of the HTTP API into a message to the
    Agent and wait for the answer with the request's trace id.  Both keep a
    table of waiters under a mutex, modelled once: a waiter is a channel of
    capacity one, empty or holding the result. *)

From S2P Require Import Prelude GoStd GoTime Json Protocol Payloads Hub Router.
#[local] Open Scope string_scope.

Definition run_server : Sender := mkSender "relay" "run-server".

(** ** The table of waiters *)

Notation Waiters R := (gmap string (option R)).

Section Waiters.
Context {R : Type}.

Definition max_pending : nat := 16.

(** Register a waiter unless too many wait already. *)
Definition register (traceID : string) (g : Waiters R) : bool * Waiters R :=
  if (max_pending <=? size g)%nat then (false, g) else (true, <[traceID := None]> g).

Definition unregister (traceID : string) (g : Waiters R) : Waiters R := delete traceID g.

(** A send that does not block: it is dropped when the channel is full. *)
Definition offer (r : R) (slot : option R) : option R :=
  match slot with None => Some r | Some _ => slot end.

Definition deliver (traceID : string) (r : R) (g : Waiters R) : Waiters R := alter (offer r) traceID g.

Definition fail_all (r : R) (g : Waiters R) : Waiters R := offer r <$> g.
End Waiters.

(** ** SourceGateway *)

Inductive source_error :=
| ErrSourceAgentOffline
| ErrSourceUnavailable
| ErrSourceBusy
| SourceRemoteError (code message : string)
| SourceContextDone.

Definition SourceResult : Type := result source_error SourceSnapshotPayload.

Inductive profile_error :=
| ErrExecutionProfilesAgentOffline
| ErrExecutionProfilesUnavailable
| ErrExecutionProfilesBusy
| ProfilesContextDone.

Definition ProfileResult : Type := result profile_error ExecutionProfileSnapshotPayload.

(** A request either fails at once or waits under a trace id. *)
Inductive started (R : Type) := Failed (r : R) | Waiting (traceID : string).
Arguments Failed {R} r.
Arguments Waiting {R} traceID.

(** The common part of Read and List up to the select: find the Agent, register
    a waiter under a new id, and send the request. *)
Section Request.
Context {R : Type} (offline busy unavailable : R) (messageType : string) (payload : json).

Definition GState : Type := HubState * Waiters R.

Definition start_request : St GState (started R) := λ s,
  let '(h, g) := s in
  match current RoleAgent (hub_registry h) with
  | None => (Failed offline, s)
  | Some peer =>
      let '(traceID, env) := draw (hub_env h) in
      let h := set_env env h in
      let '(ok, g) := register traceID g in
      if negb ok then (Failed busy, (h, g)) else
      let '(message, h) := new_message messageType traceID run_server payload h in
      match message with
      | Err _ => (Failed unavailable, (h, unregister traceID g))
      | Ok message =>
          let '(err, h) := Send peer message h in
          match err with
          | Some _ => (Failed unavailable, (h, unregister traceID g))
          | None => (Waiting traceID, (h, g))
          end
      end
  end.

(** The select: the caller's context or the waiter, whichever is ready
    ([None]: neither is, the caller still waits); then the deferred delete. *)
Definition finish_request (cancelled : R) (context_done prefer_context : bool) (traceID : string)
    : St (Waiters R) (option R) := λ g,
  match context_done, g !! traceID with
  | true, Some (Some r) => (Some (if prefer_context then cancelled else r), unregister traceID g)
  | true, _ => (Some cancelled, unregister traceID g)
  | false, Some (Some r) => (Some r, unregister traceID g)
  | false, _ => (None, g)
  end.
End Request.
Arguments GState : clear implicits.

Definition Read_start (request : SourceReadPayload) : St (GState SourceResult) (started SourceResult) :=
  start_request (Err ErrSourceAgentOffline) (Err ErrSourceBusy) (Err ErrSourceUnavailable)
    TypeSourceRead (json_SourceRead request).

Definition Read_finish := @finish_request SourceResult (Err SourceContextDone).

(** SourceGateway.Handle: whether the message was an answer. *)
Definition source_answer (m : Message) : SourceResult :=
  if String.eqb (m_Type m) TypeSourceSnapshot then
    match PayloadAs zero_SourceSnapshot dec_SourceSnapshot m with
    | (p, true) => Ok p
    | (_, false) => Err ErrSourceUnavailable
    end
  else
    match PayloadAs zero_SourceReadFailed dec_SourceReadFailed m with
    | (p, true) => Err (SourceRemoteError (sf_Code p) (sf_Message p))
    | (_, false) => Err ErrSourceUnavailable
    end.

Definition SourceHandle (m : Message) : St (Waiters SourceResult) bool := λ g,
  if negb (String.eqb (m_Type m) TypeSourceSnapshot)
     && negb (String.eqb (m_Type m) TypeSourceReadFailed)
  then (false, g)
  else (true, deliver (m_TraceID m) (source_answer m) g).

Definition SourceFailPending (e : source_error) : St (Waiters SourceResult) unit := λ g,
  (tt, fail_all (Err e) g).

Definition List_start (projectID : string) : St (GState ProfileResult) (started ProfileResult) :=
  start_request (Err ErrExecutionProfilesAgentOffline) (Err ErrExecutionProfilesBusy)
    (Err ErrExecutionProfilesUnavailable) TypeExecutionProfileList (json_ExecutionProfileList projectID).

Definition List_finish := @finish_request ProfileResult (Err ProfilesContextDone).

Definition profile_answer (m : Message) : ProfileResult :=
  match PayloadAs zero_ProfileSnapshot dec_ProfileSnapshot m with
  | (p, true) => Ok p
  | (_, false) => Err ErrExecutionProfilesUnavailable
  end.

(** ExecutionProfileGateway.Handle: unlike the source gateway's, it declines an
    answer nobody waits for. *)
Definition ProfilesHandle (m : Message) : St (Waiters ProfileResult) bool := λ g,
  if negb (String.eqb (m_Type m) TypeExecutionProfileSnapshot) then (false, g)
  else match g !! m_TraceID m with
       | None => (false, g)
       | Some _ => (true, deliver (m_TraceID m) (profile_answer m) g)
       end.

Definition ProfilesFailPending (e : profile_error) : St (Waiters ProfileResult) unit := λ g,
  (tt, fail_all (Err e) g).

(** ** Correctness of the waiter table *)

Section WaiterFacts.
Context {R : Type}.
Implicit Types (g : Waiters R).

Lemma register_size traceID g ok g' :
  register traceID g = (ok, g') → (size g ≤ max_pending)%nat → (size g' ≤ max_pending)%nat.
Proof.
  unfold register. destruct (Nat.leb_spec max_pending (size g)); intros; simplify_eq; [done|].
  destruct (g !! traceID) as [x|] eqn:E.
  - rewrite map_size_insert_Some by eauto. lia.
  - rewrite map_size_insert_None by done. lia.
Qed.

Lemma deliver_size traceID r g : size (deliver traceID r g) = size g.
Proof.
  unfold deliver. rewrite <- !size_dom. f_equal. apply dom_alter_L.
Qed.

Lemma fail_all_size r g : size (fail_all r g) = size g.
Proof. unfold fail_all. by rewrite map_size_fmap. Qed.

Lemma unregister_size traceID g : (size (unregister traceID g) ≤ size g)%nat.
Proof. unfold unregister. rewrite map_size_delete. case_match; simpl; lia. Qed.
End WaiterFacts.

(** *** What the two gateways have in common

    A message of the Agent is offered under its trace id, or left alone. *)
Class Answers (R : Type) := {
  handle : Message → St (Waiters R) bool;
  answer : Message → option R;
  handle_offers : ∀ m g,
    (handle m g).2 = match answer m with Some r => deliver (m_TraceID m) r g | None => g end;
}.
#[export, refine] Instance source_answers : Answers SourceResult := {|
  handle := SourceHandle;
  answer m := if String.eqb (m_Type m) TypeSourceSnapshot || String.eqb (m_Type m) TypeSourceReadFailed
              then Some (source_answer m) else None |}.
Proof. intros m g. unfold SourceHandle. by destruct (String.eqb _ _), (String.eqb _ _). Defined.
#[export, refine] Instance profile_answers : Answers ProfileResult := {|
  handle := ProfilesHandle;
  answer m := if String.eqb (m_Type m) TypeExecutionProfileSnapshot then Some (profile_answer m) else None |}.
Proof.
  intros m g. unfold ProfilesHandle. destruct (String.eqb _ _); [|done]. cbn [negb].
  destruct (g !! m_TraceID m) as [x|] eqn:E; [done|]. cbn. unfold deliver.
  apply map_eq. intros t. destruct (decide (t = m_TraceID m)) as [->|]; [by rewrite lookup_alter_eq, E|by rewrite lookup_alter_ne].
Defined.

(** *** The gateway as a transition system

    [callers] are the requests in their select, by trace id.  [answers] is what
    has been offered under a trace id since it was registered, oldest first. *)
Section Gateway.
Context {R : Type} `{HA : !Answers R} (offline busy unavailable cancelled : R) (messageType : string).

Record Gate := mkGate {
  gate_hub : HubState;
  gate_waiters : Waiters R;
  gate_answers : gmap string (list R);   (** one entry per waiting caller *)
  gate_done : list (string * R);         (** what callers were told, latest first *)
}.

(** NewID does not repeat an id in use. *)
Definition fresh_id (h : HubState) (g : Waiters R) : Prop := g !! fst (draw (hub_env h)) = None.

(** A message of the Agent, counted for the caller with its trace id. *)
Definition offered (m : Message) (a : gmap string (list R)) : gmap string (list R) :=
  match answer m with Some r => alter (λ l, l ++ [r])%list (m_TraceID m) a | None => a end.

Inductive gate_step : Gate → Gate → Prop :=
| gate_start payload h g a dn r h' g' :
    fresh_id h g →
    start_request offline busy unavailable messageType payload (h, g) = (Failed r, (h', g')) →
    gate_step (mkGate h g a dn) (mkGate h' g' a dn)
| gate_wait payload h g a dn t h' g' :
    fresh_id h g →
    start_request offline busy unavailable messageType payload (h, g) = (Waiting t, (h', g')) →
    gate_step (mkGate h g a dn) (mkGate h' g' (<[t := []]> a) dn)
| gate_answer m h g a dn :
    gate_step (mkGate h g a dn) (mkGate h (handle m g).2 (offered m a) dn)
| gate_fail r h g a dn :
    gate_step (mkGate h g a dn)
      (mkGate h (fail_all r g) ((λ l, l ++ [r])%list <$> a) dn)
| gate_finish t done prefer r h g a dn g' :
    is_Some (a !! t) →
    finish_request cancelled done prefer t g = (Some r, g') →
    gate_step (mkGate h g a dn) (mkGate h g' (delete t a) ((t, r) :: dn))
| gate_hub_moves h h' g a dn :
    gate_step (mkGate h g a dn) (mkGate h' g a dn).

Record gate_ok (s : Gate) : Prop := {
  go_bound : (size (gate_waiters s) ≤ max_pending)%nat;
  (* a slot holds the first answer offered to its caller *)
  go_slot : ∀ t, gate_waiters s !! t = head <$> gate_answers s !! t;
}.

Definition gate_start_ok (s : Gate) : Prop := gate_waiters s = ∅ ∧ gate_answers s = ∅.

Lemma start_request_Failed payload h g r h' g' :
  fresh_id h g →
  start_request offline busy unavailable messageType payload (h, g) = (Failed r, (h', g')) → g' = g.
Proof.
  unfold fresh_id, start_request, register, draw. intros Hf.
  assert (unregister (NewID (e_random (hub_env h) (e_next (hub_env h))))
            (<[NewID (e_random (hub_env h) (e_next (hub_env h))) := None]> g) = g) as Hu
    by (unfold unregister; by apply delete_insert_id).
  destruct (current _ _); [|intros; by simplify_eq].
  cbv zeta. destruct (max_pending <=? size g)%nat; simpl; [intros; by simplify_eq|].
  destruct (new_message _ _ _ _ _) as [[m|e] h1]; [|intros; by simplify_eq].
  destruct (Send _ _ _) as [[e|] h2]; intros; by simplify_eq.
Qed.

Lemma start_request_Waiting payload h g t h' g' :
  start_request offline busy unavailable messageType payload (h, g) = (Waiting t, (h', g')) →
  g' = <[t := None]> g ∧ (size g < max_pending)%nat ∧ t = fst (draw (hub_env h)).
Proof.
  unfold start_request, register, draw. destruct (current _ _); [|done].
  cbv zeta. destruct (Nat.leb_spec max_pending (size g)); simpl; [done|].
  destruct (new_message _ _ _ _ _) as [[m|e] h1]; [|done].
  destruct (Send _ _ _) as [[e|] h2]; intros; by simplify_eq.
Qed.

Lemma gate_step_ok s s' : gate_step s s' → gate_ok s → gate_ok s'.
Proof.
  intros Hstep [Hb Hs].
  destruct Hstep as [payload h g a dn r h' g' Hf H|payload h g a dn t h' g' Hf H|m h g a dn
                    |r h g a dn|t done_ prefer r h g a dn g' Ha H|h h' g a dn];
    cbn [gate_waiters gate_answers gate_hub] in *.
  - rewrite (start_request_Failed _ _ _ _ _ _ Hf H). by split.
  - apply start_request_Waiting in H as (->&Hlt&->). split; simpl.
    + rewrite map_size_insert_None by done. lia.
    + intros t'. destruct (decide (t' = fst (draw (hub_env h)))) as [->|].
      * by rewrite !lookup_insert_eq.
      * by rewrite !lookup_insert_ne by done.
  - rewrite handle_offers. unfold offered. destruct (answer m) as [r|]; [|by split].
    split; simpl; [by rewrite deliver_size|]. intros t'. unfold deliver.
    destruct (decide (t' = m_TraceID m)) as [->|].
    + rewrite !lookup_alter_eq, Hs. destruct (a !! m_TraceID m) as [[|x l]|]; done.
    + by rewrite !lookup_alter_ne by done.
  - split; simpl; [by rewrite fail_all_size|]. intros t'. unfold fail_all.
    rewrite !lookup_fmap, Hs. destruct (a !! t') as [[|x l]|]; done.
  - unfold finish_request in H.
    assert (g' = unregister t g) as -> by (repeat case_match; by simplify_eq).
    split; simpl; [pose proof (unregister_size t g); lia|]. intros t'. unfold unregister.
    destruct (decide (t' = t)) as [->|].
    + by rewrite !lookup_delete_eq.
    + by rewrite !lookup_delete_ne by done.
  - by split.
Qed.

Lemma gate_initial_ok s : gate_start_ok s → gate_ok s.
Proof.
  intros [Hg Ha]. split; rewrite Hg; [rewrite map_size_empty; unfold max_pending; lia|].
  intros t. by rewrite Ha, !lookup_empty.
Qed.

Lemma gate_reachable s s' : gate_start_ok s → rtc gate_step s s' → gate_ok s'.
Proof.
  intros Hi%gate_initial_ok Hr. revert Hi.
  induction Hr as [|s1 s2 s3 Hstep _ IH]; [done|]. intros Hok. apply IH. by eapply gate_step_ok.
Qed.

(** C8. In every reachable state of a gateway: at most 16 requests wait; there
    is a waiter exactly for each caller in its select, so none is leaked by a
    cancelled caller, a failed send or an answer nobody took; a caller that
    ends is told the first answer offered under its own trace id since it
    started, or that it was cancelled; and a seventeenth request is refused
    without being sent. *)
Theorem gateway_correct s s' :
  gate_start_ok s → rtc gate_step s s' →
  (size (gate_waiters s') ≤ 16)%nat
  ∧ dom (gate_waiters s') = dom (gate_answers s')
  ∧ (∀ t l done_ prefer r g', gate_answers s' !! t = Some l →
       finish_request cancelled done_ prefer t (gate_waiters s') = (Some r, g') →
       r = cancelled ∨ head l = Some r)
  ∧ (∀ payload, size (gate_waiters s') = 16%nat →
       match start_request offline busy unavailable messageType payload (gate_hub s', gate_waiters s') with
       | (x, (h', g')) => (x = Failed busy ∨ x = Failed offline) ∧ g' = gate_waiters s'
                          ∧ hub_peers h' = hub_peers (gate_hub s')
       end).
Proof.
  intros Hi Hr. destruct (gate_reachable s s' Hi Hr) as [Hb Hs]. split_and!.
  - exact Hb.
  - apply set_eq. intros t. by rewrite !elem_of_dom, Hs, fmap_is_Some.
  - intros t l d pf r g' Hl H. unfold finish_request in H. rewrite Hs, Hl in H. simpl in H.
    destruct d, (head l) as [x|]; simplify_eq; auto. destruct pf; auto.
  - intros payload Hfull. unfold start_request, draw, register. cbv zeta.
    destruct (current _ _); [|split_and!; by auto]. rewrite Hfull. split_and!; by auto.
Qed.
End Gateway.
