(* ===== verification/Coordinator.v ===== *)
(** * internal/runtime/coordinator.go

    The Observer that makes the Agent's events durable and dispatches the
    outbox to it.  It is written against the interfaces of the store and of the
    broker; [RuntimeStoreLaws] is what it relies on of the store. *)

From S2P Require Import Prelude GoStd GoTime Json Protocol Payloads.
From S2P Require Import Sql Tables RuntimeDB RunStore Outbox Bootstrap Hub Router Gateway.
#[local] Open Scope string_scope.

(** ** Interfaces *)

(** The methods of Store the coordinator calls; [now] is the database's clock. *)
Class StoreI (W : Type) := {
  i_UpsertProjects : Z → list Project → St W (result rt_error unit);
  i_GetRun : string → bool → St W (result rt_error Run);
  i_AppendAgentEvent : Z → Z → string → Z → string → RawMessage → string → St W (result rt_error Run);
  i_ApplyBootstrapBatch : Z → BootstrapBatch → St W (result rt_error SyncJob);
  i_MarkCommandDelivered : Z → string → St W (result rt_error unit);
  i_ReleaseCommand : Z → string → string → St W (result rt_error unit);
  i_ClaimCommands : Z → string → list string → Z → St W (result rt_error (list Command));
  i_GetSyncJob : string → St W (result rt_error SyncJob);
}.

(** The Broker interface, with NotifyRun of the optional runNotifier; the
    result of the notifications is ignored by the coordinator. *)
Class BrokerI (B : Type) := {
  b_AppendRunEvent : string → Z → string → RawMessage → Z → St B bool;  (** accepted? *)
  b_NotifyRun : string → St B unit;
  b_NotifySession : string → St B unit;
  b_SetAgentPresence : bool → St B unit;
}.

(** ** Pure parts *)

Definition projectRefreshTraceID := "project-refresh".

Definition durableRuntimeMessage (messageType : string) : bool :=
  existsb (String.eqb messageType)
    [TypeRunAccepted; TypeTurnStarted; TypeTurnOutput; TypeTurnItemStarted; TypeTurnItemDelta;
     TypeTurnItemDone; TypeTurnCompleted; TypeTurnFailed; TypeTurnInterrupted; TypeTurnRejected].

Definition runtimeEventType (messageType : string) : string :=
  if String.eqb messageType TypeTurnOutput then "assistant.delta"
  else if String.eqb messageType TypeTurnItemStarted then "item.started"
  else if String.eqb messageType TypeTurnItemDelta then "item.delta"
  else if String.eqb messageType TypeTurnItemDone then "item.completed"
  else if String.eqb messageType TypeTurnRejected then "turn.failed"
  else messageType.

Definition isTerminalBootstrapStatus (status : string) : bool :=
  existsb (String.eqb status) ["completed"; "failed"; "interrupted"; "canceled"; "cancelled"].

(** The prompt of a turn: the text of its first user items, until not empty. *)
Definition next_prompt (prompt : string) (item : ThreadHistoryItem) : string :=
  if String.eqb prompt "" && (String.eqb (it_Role item) "user" || String.eqb (it_Type item) "userMessage")
  then it_Text item else prompt.

(** The events of the items, numbered from [sequence]. *)
Fixpoint item_events (startedAt : Z) (sequence : Z) (items : list ThreadHistoryItem) : list BootstrapEvent :=
  match items with
  | [] => []
  | item :: items =>
      mkBEvent sequence "item.completed" (Raw (JObj [("item", json_Item item)])) startedAt
      :: item_events startedAt (sequence + 1) items
  end.

Definition terminal_type (status : string) : string :=
  if String.eqb status "failed" then "turn.failed"
  else if String.eqb status "interrupted" || String.eqb status "canceled" || String.eqb status "cancelled"
  then "turn.interrupted" else "turn.completed".

(** The run a history turn becomes. *)
Definition bootstrap_run (thread : ThreadDetail) (turn : ThreadHistoryTurn) : BootstrapRun :=
  let startedAt := default (th_CreatedAt thread) (tu_StartedAt turn) in
  let finishedAt := default (th_UpdatedAt thread) (tu_CompletedAt turn) in
  let sequence := (1 + Z.of_nat (length (tu_Items turn)))%Z in
  let data := JObj [("error", JStr (tu_Error turn)); ("status", JStr (tu_Status turn));
                    ("thread_id", JStr (th_ID thread)); ("turn_id", JStr (tu_ID turn))] in
  mkBRun ("run_" +:+ tu_ID turn) ("session_" +:+ th_ID thread) (tu_ID turn) (tu_Status turn)
    (foldl next_prompt "" (tu_Items turn)) (Some startedAt) (Some finishedAt)
    (item_events startedAt 1 (tu_Items turn)
     ++ [mkBEvent sequence (terminal_type (tu_Status turn)) (Raw data) finishedAt])%list.

Definition bootstrapBatch (payload : BootstrapBatchPayload) : BootstrapBatch :=
  mkBatch (bp_CommandID payload) (bp_SyncID payload) (bp_SnapshotID payload) (bp_BatchNo payload)
    (bp_Checksum payload) (bp_TotalSessions payload) (bp_ProcessedSessions payload)
    (bp_ReconciliationSafe payload)
    (match bp_Project payload with Some p => [mkBProject (pp_ID p) (pp_Name p)] | None => [] end)
    (match bp_Thread payload with
     | Some t => [mkBSession ("session_" +:+ th_ID t) (th_ProjectID t) (th_ID t) (th_Title t)]
     | None => []
     end)
    (match bp_Thread payload with
     | Some t => map (bootstrap_run t)
                   (filter (λ u, isTerminalBootstrapStatus (tu_Status u) = true) (th_Turns t))
     | None => []
     end)
    (bp_Done payload).

Section Coordinator.
Context {W B : Type} `{SI : !StoreI W, BI : !BrokerI B}.

Record Coord := mkCoord {
  co_store : W;
  co_broker : B;
  co_source : Waiters SourceResult;
  co_profiles : Waiters ProfileResult;
  co_runIDs : gset string;
  co_workerID : string;
  co_now : Z;                 (** the database's clock *)
  co_locked : list string;    (** commands other workers hold *)
}.

Definition set_store w c := mkCoord w (co_broker c) (co_source c) (co_profiles c) (co_runIDs c)
  (co_workerID c) (co_now c) (co_locked c).
Definition set_broker b c := mkCoord (co_store c) b (co_source c) (co_profiles c) (co_runIDs c)
  (co_workerID c) (co_now c) (co_locked c).
Definition set_source g c := mkCoord (co_store c) (co_broker c) g (co_profiles c) (co_runIDs c)
  (co_workerID c) (co_now c) (co_locked c).
Definition set_profiles g c := mkCoord (co_store c) (co_broker c) (co_source c) g (co_runIDs c)
  (co_workerID c) (co_now c) (co_locked c).
Definition set_runIDs r c := mkCoord (co_store c) (co_broker c) (co_source c) (co_profiles c) r
  (co_workerID c) (co_now c) (co_locked c).

Definition CSt := RSt Coord.

Definition on_store {A} (m : Z → St W A) : CSt A := λ s,
  let '(a, w) := m (co_now s.2) (co_store s.2) in (a, (s.1, set_store w s.2)).
Definition on_broker {A} (m : St B A) : CSt A := λ s,
  let '(a, b) := m (co_broker s.2) in (a, (s.1, set_broker b s.2)).
Definition on_source {A} (m : St (Waiters SourceResult) A) : CSt A := λ s,
  let '(a, g) := m (co_source s.2) in (a, (s.1, set_source g s.2)).
Definition on_profiles {A} (m : St (Waiters ProfileResult) A) : CSt A := λ s,
  let '(a, g) := m (co_profiles s.2) in (a, (s.1, set_profiles g s.2)).
Definition clock : CSt Z := gets (λ s, e_now (hub_env s.1)).

(** NewMessage and Send; whether the message was queued. *)
Definition send_new (id : Z) (type traceID : string) (payload : json) : CSt bool :=
  on_hub (
    let! message := new_message type traceID run_server payload in
    match message with
    | Err _ => ret false
    | Ok message => let! err := Send id message in ret (match err with None => true | Some _ => false end)
    end).

Definition sendAck (id : Z) (type runID : string) (sequence : Z) : CSt unit :=
  let! _ := send_new id type runID (json_RuntimeAck runID sequence) in ret tt.

Definition CoordClose : CSt unit :=
  let! _ := on_source (SourceFailPending ErrSourceUnavailable) in
  let! _ := on_profiles (ProfilesFailPending ErrExecutionProfilesUnavailable) in
  on_broker (b_SetAgentPresence false).

Definition agent_connected (id : Z) : CSt unit :=
  let! _ := on_broker (b_SetAgentPresence true) in
  let! _ := send_new id TypeProjectList projectRefreshTraceID json_ProjectList in
  ret tt.

Definition agent_disconnected (_ : Z) : CSt unit :=
  let! _ := on_source (SourceFailPending ErrSourceAgentOffline) in
  let! _ := on_profiles (ProfilesFailPending ErrExecutionProfilesAgentOffline) in
  on_broker (b_SetAgentPresence false).

Definition ownsRuntimeRun (runID : string) : CSt bool :=
  let! s := get in
  if bool_decide (runID ∈ co_runIDs s.2) then ret true else
  let! r := on_store (λ _, i_GetRun runID false) in
  match r with
  | Ok _ => let! _ := modify (λ s, (s.1, set_runIDs ({[runID]} ∪ co_runIDs s.2) s.2)) in ret true
  | Err ErrNotFound => ret false
  | Err _ => ret true
  end.

(** The case of AgentMessage for project.snapshot. *)
Definition on_project_snapshot (m : Message) : CSt bool :=
  if negb (String.eqb (m_TraceID m) projectRefreshTraceID) then ret false else
  match PayloadAs [] dec_ProjectSnapshot m with
  | (_, false) => ret true
  | (ps, true) =>
      let! _ := on_store (λ now, i_UpsertProjects now (map (λ p, mkProject (pp_ID p) (pp_Name p)) ps)) in
      ret true
  end.

(** The case for bootstrap.batch. *)
Definition on_bootstrap_batch (id : Z) (m : Message) : CSt bool :=
  match PayloadAs zero_BatchPayload dec_BatchPayload m with
  | (_, false) => ret true
  | (p, true) =>
      if String.eqb (bp_CommandID p) "" || String.eqb (bp_SyncID p) "" || String.eqb (bp_Checksum p) ""
      then ret true else
      let! r := on_store (λ now, i_ApplyBootstrapBatch now (bootstrapBatch p)) in
      match r with
      | Err _ => ret true
      | Ok _ =>
          let! _ := send_new id TypeBootstrapDurableAck (bp_SyncID p)
                      (json_BootstrapAck (bp_SyncID p) (bp_BatchNo p) (bp_Checksum p)) in
          let! _ := if bp_Done p
                    then let! _ := on_store (λ now, i_MarkCommandDelivered now (bp_CommandID p)) in ret tt
                    else ret tt in
          ret true
      end
  end.

(** The case for the durable run events. *)
Definition on_run_event (id : Z) (m : Message) : CSt bool :=
  if (m_AgentSequence m <? 1)%Z then ret true else
  let runID := m_TraceID m in
  let! owns := ownsRuntimeRun runID in
  if negb owns then ret false else
  let type := runtimeEventType (m_Type m) in
  let! accepted := on_broker (b_AppendRunEvent runID (m_AgentSequence m) type (m_Payload m) (m_OccurredAt m)) in
  if negb accepted then ret true else
  let! _ := sendAck id TypeRuntimeReceivedAck runID (m_AgentSequence m) in
  let! now_ := clock in
  let! r := on_store (λ now, i_AppendAgentEvent now now_ runID (m_AgentSequence m) type (m_Payload m)
                               (FormatRFC3339Nano (m_OccurredAt m))) in
  match r with
  | Err _ => ret true
  | Ok run =>
      let! _ := on_broker (b_NotifyRun runID) in
      let! _ := on_broker (b_NotifySession (r_SessionID run)) in
      let! _ := sendAck id TypeRuntimeDurableAck runID (m_AgentSequence m) in
      let! _ :=
        if String.eqb (m_Type m) TypeRunAccepted then
          let p := fst (PayloadAs zero_RunAccepted dec_RunAccepted m) in
          if negb (String.eqb (ra_CommandID p) "")
          then let! _ := on_store (λ now, i_MarkCommandDelivered now (ra_CommandID p)) in ret tt
          else ret tt
        else ret tt in
      ret true
  end.

Definition agent_message (id : Z) (m : Message) : CSt bool :=
  let! h1 := on_source (SourceHandle m) in
  if (h1 : bool) then ret true else
  let! h2 := on_profiles (ProfilesHandle m) in
  if (h2 : bool) then ret true else
  if String.eqb (m_Type m) TypeAgentHello || String.eqb (m_Type m) TypeAgentStatus
     || String.eqb (m_Type m) TypeAgentCapabilities
  then let! _ := on_broker (b_SetAgentPresence true) in ret true
  else if String.eqb (m_Type m) TypeProjectSnapshot then on_project_snapshot m
  else if String.eqb (m_Type m) TypeBootstrapBatch then on_bootstrap_batch id m
  else if durableRuntimeMessage (m_Type m) then on_run_event id m
  else ret false.

Definition agent_message_forwarded (id : Z) (m : Message) : CSt unit :=
  if (m_AgentSequence m <? 1)%Z || negb (durableRuntimeMessage (m_Type m)) then ret tt else
  let! _ := sendAck id TypeRuntimeReceivedAck (m_TraceID m) (m_AgentSequence m) in
  sendAck id TypeRuntimeDurableAck (m_TraceID m) (m_AgentSequence m).

Definition coordinator : Observer Coord :=
  mkObserver agent_connected agent_disconnected agent_message (Some agent_message_forwarded).

(** sendCommand: whether it returned without an error. *)
Definition sendCommand (peer : Z) (c : Command) : CSt bool :=
  if String.eqb (c_Type c) "run.start" then
    match dec_TurnStart (c_Payload c) zero_TurnStart with
    | (_, false) => ret false
    | (p, true) => send_new peer TypeTurnStart (c_ResourceID c) (json_TurnStart p)
    end
  else if String.eqb (c_Type c) "run.cancel" then
    match dec_TurnRef (c_Payload c) zero_TurnRef with
    | (_, false) => ret false
    | (p, true) =>
        let! sent := send_new peer TypeTurnInterrupt (c_ResourceID c) (json_TurnInterrupt p) in
        if negb sent then ret false else
        let! r := on_store (λ now, i_MarkCommandDelivered now (c_ID c)) in ret (is_ok r)
    end
  else if String.eqb (c_Type c) "bootstrap.start" then
    let! job := on_store (λ _, i_GetSyncJob (c_ResourceID c)) in
    match job with
    | Err _ => ret false
    | Ok job =>
        if String.eqb (sj_Status job) "completed" || String.eqb (sj_Status job) "failed" then
          let! r := on_store (λ now, i_MarkCommandDelivered now (c_ID c)) in ret (is_ok r)
        else
          match dec_BootstrapStart (c_Payload c) zero_BootstrapStart with
          | (_, false) => ret false
          | (p, true) => send_new peer TypeBootstrapStart (c_ResourceID c) (json_BootstrapStart p)
          end
    end
  else ret false.

(** One turn of the dispatch loop. *)
Definition dispatch : CSt unit :=
  let! r := on_hub (gets hub_registry) in
  match current RoleAgent r with
  | None => ret tt
  | Some peer =>
      let! s := get in
      let! commands := on_store (λ now, i_ClaimCommands now (co_workerID s.2) (co_locked s.2) 8) in
      match commands with
      | Err _ => ret tt
      | Ok commands =>
          st_each commands (λ c,
            let! sent := sendCommand peer c in
            if (sent : bool) then ret tt
            else let! _ := on_store (λ now, i_ReleaseCommand now (c_ID c) "AGENT_SEND_FAILED") in ret tt)
      end
  end.

(** The presence ticker of the dispatch loop. *)
Definition refresh_presence : CSt unit :=
  let! r := on_hub (gets hub_registry) in
  match current RoleAgent r with
  | Some _ => on_broker (b_SetAgentPresence true)
  | None => ret tt
  end.
End Coordinator.
Arguments Coord : clear implicits.
Arguments CSt : clear implicits.
