(* ===== verification/CoordSpec.v ===== *)
(** * What the coordinator guarantees

    Its callbacks satisfy the router's [ObserverLaws]; an acknowledgement is
    sent only for what the store has kept.  The store's side of the contract is
    the class [StoreLaws], and PostgresStore is an instance. *)

From S2P Require Import Prelude GoStd GoTime Json Protocol Envelope Payloads.
From S2P Require Import Sql Tables RuntimeDB RunStore Outbox Bootstrap Threads Hub Router Gateway Coordinator.
#[local] Open Scope string_scope.

(** ** What the coordinator relies on of the store *)

Class StoreLaws (W : Type) `{StoreI W} := {
  (* the store is used alone, or with clients that do not undo agent events *)
  settled : W → Prop;
  (* an event is kept, under its run and sequence number *)
  event_stored : W → string → Z → Prop;
  (* a sync job has committed a batch *)
  batch_stored : W → string → Z → Prop;
  law_get_run : ∀ id b w, settled w → settled (i_GetRun id b w).2;
  law_append : ∀ now clk r n t p o w, settled w →
    let res := i_AppendAgentEvent now clk r n t p o w in
    settled res.2 ∧ (is_ok res.1 = true → event_stored res.2 r n);
  law_apply : ∀ now b w, settled w →
    let res := i_ApplyBootstrapBatch now b w in
    settled res.2 ∧ (is_ok res.1 = true → batch_stored res.2 (bb_SyncID b) (bb_BatchNo b));
  law_delivered_event : ∀ now id w r n, settled w →
    event_stored w r n → event_stored (i_MarkCommandDelivered now id w).2 r n;
  law_delivered_batch : ∀ now id w j n, settled w →
    batch_stored w j n → batch_stored (i_MarkCommandDelivered now id w).2 j n;
}.

Section Coordinator.
Context {W B : Type} `{SI : !StoreI W, BI : !BrokerI B}.

(** ** Observer laws *)

Definition c_sends (Q : Z → Message → Prop) (s s' : RState (Coord W B)) : Prop := hub_sends Q s.1 s'.1.

#[export] Instance c_sends_preorder Q : PreOrder (c_sends Q).
Proof. split; unfold c_sends; [intros s; reflexivity|intros s1 s2 s3; apply transitivity]. Qed.

Lemma on_hub_sends {A} Q (m : St HubState A) :
  st_guar (hub_sends Q) m → st_guar (c_sends Q) (on_hub m : CSt W B A).
Proof.
  intros Hm s. unfold c_sends, on_hub. specialize (Hm s.1). by destruct (m s.1) as [a h].
Qed.
Lemma on_store_sends {A} Q (m : Z → St W A) : st_guar (c_sends Q) (on_store m : CSt W B A).
Proof. intros s. unfold c_sends, on_store. by destruct (m _ _). Qed.
Lemma on_broker_sends {A} Q (m : St B A) : st_guar (c_sends Q) (on_broker m : CSt W B A).
Proof. intros s. unfold c_sends, on_broker. by destruct (m _). Qed.
Lemma on_source_sends {A} Q (m : St _ A) : st_guar (c_sends Q) (on_source m : CSt W B A).
Proof. intros s. unfold c_sends, on_source. by destruct (m _). Qed.
Lemma on_profiles_sends {A} Q (m : St _ A) : st_guar (c_sends Q) (on_profiles m : CSt W B A).
Proof. intros s. unfold c_sends, on_profiles. by destruct (m _). Qed.

Lemma on_hub_snd {A} (m : St HubState A) (s : RState (Coord W B)) : (on_hub m s).2.2 = s.2.
Proof. unfold on_hub. by destruct (m s.1). Qed.

(** A message of the run server. *)
Definition server_message (type : string) (payload : json) (m : Message) : Prop :=
  m_Sender m = run_server ∧ m_Type m = type ∧ m_Payload m = Raw payload ∧ well_formed m.

Lemma send_new_sends (Q : Z → Message → Prop) id type traceID payload :
  (∀ m, server_message type payload m → Q id m) →
  st_guar (c_sends Q) (send_new id type traceID payload : CSt W B bool).
Proof.
  intros HQ. apply on_hub_sends. apply new_message_guar; [intros; by apply st_guar_ret; apply _|].
  intros m Hs Ht Hp Hw. apply st_guar_bind; [apply _| |intros; apply st_guar_ret; apply _].
  intros h. by apply Send_sends, HQ.
Qed.

Lemma server_from_relay type payload m : server_message type payload m → from_relay m.
Proof. intros (Hs&_&_&Hw). split; [by rewrite Hs|done]. Qed.
End Coordinator.

#[export] Hint Resolve on_store_sends on_broker_sends on_source_sends on_profiles_sends : st_guar.

Ltac coord_guar :=
  repeat (intros; lazymatch goal with
    | |- st_guar _ (send_new _ _ _ _) => apply send_new_sends; intros; by eapply server_from_relay
    | |- st_guar _ (get) => intros ?; reflexivity
    | |- st_guar _ (modify _) => intros ?; unfold c_sends; simpl; reflexivity
    | |- st_guar _ (on_hub (gets _)) => apply on_hub_sends, st_guar_gets; apply _
    | |- _ => progress st_guar
    end).

Section Laws.
Context {W B : Type} `{SI : !StoreI W, BI : !BrokerI B}.
Notation relay_only := (c_sends (W := W) (B := B) (λ _, from_relay)).

Lemma sendAck_sends id type runID n : st_guar relay_only (sendAck id type runID n).
Proof. unfold sendAck. coord_guar. Qed.
Hint Resolve sendAck_sends : st_guar.
Lemma ownsRuntimeRun_sends runID : st_guar relay_only (ownsRuntimeRun runID).
Proof. unfold ownsRuntimeRun. coord_guar. Qed.
Hint Resolve ownsRuntimeRun_sends : st_guar.

Lemma agent_message_sends id m : st_guar relay_only (agent_message id m).
Proof.
  unfold agent_message, on_project_snapshot, on_bootstrap_batch, on_run_event, clock. coord_guar.
Qed.

#[export] Instance coordinator_laws : ObserverLaws (coordinator (W := W) (B := B)).
Proof.
  split; simpl.
  - intros id s. revert s. change (st_guar relay_only (agent_connected id)).
    unfold agent_connected. coord_guar.
  - intros id s. revert s. change (st_guar relay_only (agent_disconnected id)).
    unfold agent_disconnected. coord_guar.
  - intros id m s. apply (agent_message_sends id m s).
  - intros f id m s Hf. injection Hf as <-. revert s.
    change (st_guar relay_only (agent_message_forwarded id m)).
    unfold agent_message_forwarded. coord_guar.
Qed.

(** The dispatch loop only sends relay messages: a background step of the hub. *)
Lemma dispatch_sends : st_guar relay_only dispatch.
Proof. unfold dispatch, sendCommand. coord_guar. Qed.
End Laws.

(** ** Acknowledgements tell the truth *)
Section Acks.
Context {W B : Type} `{SI : !StoreI W, BI : !BrokerI B, SL : !StoreLaws W}.
Notation CState := (RState (Coord W B)).

Lemma on_store_triple {A} (P : CState → Prop) (m : Z → St W A) (Q : A → CState → Prop) :
  (∀ h c, P (h, c) → let r := m (co_now c) (co_store c) in Q r.1 (h, set_store r.2 c)) →
  st_triple P (on_store m) Q.
Proof.
  intros H [h c] HP. unfold on_store. simpl. specialize (H h c HP). simpl in H.
  by destruct (m _ _) as [a w].
Qed.
Lemma on_broker_triple {A} (P : CState → Prop) (m : St B A) (Q : A → CState → Prop) :
  (∀ h c a b, P (h, c) → Q a (h, set_broker b c)) → st_triple P (on_broker m) Q.
Proof. intros H [h c] HP. unfold on_broker. simpl. destruct (m _) as [a b]. by apply H. Qed.

(** What one message of the Agent may make the coordinator send: to that
    Agent only, and a durable acknowledgement only of what [w] has kept. *)
Definition ack_ok (id : Z) (m : Message) (w : W) (pid : Z) (a : Message) : Prop :=
  from_relay a ∧ pid = id
  ∧ (m_Type a = TypeRuntimeDurableAck →
       durableRuntimeMessage (m_Type m) = true
       ∧ m_Payload a = Raw (json_RuntimeAck (m_TraceID m) (m_AgentSequence m))
       ∧ event_stored w (m_TraceID m) (m_AgentSequence m))
  ∧ (m_Type a = TypeBootstrapDurableAck →
       ∃ p, PayloadAs zero_BatchPayload dec_BatchPayload m = (p, true)
         ∧ m_Payload a = Raw (json_BootstrapAck (bp_SyncID p) (bp_BatchNo p) (bp_Checksum p))
         ∧ batch_stored w (bp_SyncID p) (bp_BatchNo p)).

Section Message.
Context (id : Z) (m : Message) (s0 : CState).

(** Sent so far: nothing but received acknowledgements. *)
Definition plain (pid : Z) (a : Message) : Prop :=
  from_relay a ∧ pid = id ∧ m_Type a = TypeRuntimeReceivedAck.
Definition before (s : CState) : Prop := settled (co_store s.2) ∧ hub_sends plain s0.1 s.1.
Definition final (s : CState) : Prop := hub_sends (ack_ok id m (co_store s.2)) s0.1 s.1.

Lemma before_final s : before s → final s.
Proof.
  intros [_ Hs]. eapply hub_sends_mono; [|exact Hs]. intros pid a (Hr&Hid&Ht).
  split_and!; try done; rewrite Ht; done.
Qed.

Lemma send_new_triple (P : CState → Prop) (Q : CState → Prop) type traceID payload :
  (∀ s h', P s → hub_sends (λ pid a, pid = id ∧ server_message type payload a) s.1 h' → Q (h', s.2)) →
  st_triple P (send_new id type traceID payload) (λ _, Q).
Proof.
  intros H s HP.
  pose proof (send_new_sends (W := W) (B := B) (λ pid a, pid = id ∧ server_message type payload a)
                id type traceID payload (λ a Ha, conj eq_refl Ha) s) as Hs.
  assert ((send_new id type traceID payload s).2.2 = s.2) as Hc
    by (unfold send_new; apply on_hub_snd).
  destruct (send_new id type traceID payload s) as [b [h' c']]. simpl in *. subst c'. by apply H.
Qed.

Lemma sendAck_triple (P : CState → Prop) (Q : CState → Prop) type runID n :
  (∀ s h', P s → hub_sends (λ pid a, pid = id ∧ server_message type (json_RuntimeAck runID n) a) s.1 h' →
     Q (h', s.2)) →
  st_triple P (sendAck id type runID n) (λ _, Q).
Proof.
  intros H. unfold sendAck. eapply st_triple_bind; [by apply send_new_triple|].
  intros b. by apply st_triple_ret.
Qed.

Lemma sendAck_received (n : Z) runID : st_triple before (sendAck id TypeRuntimeReceivedAck runID n) (λ _, before).
Proof.
  apply sendAck_triple. intros s h' [Hset Hs] Hsent. split; [done|]. simpl. etrans; [exact Hs|].
  eapply hub_sends_mono; [|exact Hsent]. intros pid a [-> Hm]. split_and!; [|done|by apply Hm].
  by eapply server_from_relay.
Qed.

Lemma ownsRuntimeRun_before runID : st_triple before (ownsRuntimeRun runID) (λ _, before).
Proof.
  unfold ownsRuntimeRun. eapply (st_triple_bind _ _ _ (λ _, before)); [by intros s Hs|]. intros s.
  case_bool_decide; [by apply st_triple_ret|]. eapply (st_triple_bind _ _ _ (λ _, before)).
  - apply on_store_triple. intros h c [Hset Hs]. split; [by apply law_get_run|done].
  - intros [r|[]]; try (by apply st_triple_ret).
    eapply (st_triple_bind _ _ _ (λ _, before)); [|intros; by apply st_triple_ret].
    intros [h c] Hs. exact Hs.
Qed.

(** The event is kept and the durable acknowledgement may follow. *)
Definition kept (s : CState) : Prop :=
  before s ∧ event_stored (co_store s.2) (m_TraceID m) (m_AgentSequence m).

Lemma on_run_event_final :
  durableRuntimeMessage (m_Type m) = true → st_triple before (on_run_event id m) (λ _, final).
Proof.
  intros Hdur. unfold on_run_event.
  assert (∀ b : bool, st_triple before (ret b) (λ _, final)) as Hret
    by (intros b; apply st_triple_ret, before_final).
  destruct (m_AgentSequence m <? 1)%Z; [apply Hret|].
  eapply st_triple_bind; [apply ownsRuntimeRun_before|]. intros [|]; [|apply Hret]. cbn [negb].
  eapply (st_triple_bind _ _ _ (λ _, before)); [by apply on_broker_triple|]. intros accepted. destruct accepted; [|apply Hret].
  cbn [negb]. eapply st_triple_bind; [apply sendAck_received|]. intros u0.
  eapply (st_triple_bind _ _ _ (λ _, before)); [by intros s Hs|]. intros now_.
  eapply (st_triple_bind _ _ _ (λ r s, before s ∧ (is_ok r = true → kept s))).
  { apply on_store_triple. intros h c [Hset Hs]. simpl in Hset.
    destruct (law_append (co_now c) now_ (m_TraceID m) (m_AgentSequence m) (runtimeEventType (m_Type m))
                (m_Payload m) (FormatRFC3339Nano (m_OccurredAt m)) _ Hset) as [Hset' Hst].
    split; [by split|]. intros Hok. split; [by split|]. by apply Hst. }
  intros [run|e]; [|apply (st_triple_pre _ before); [by intros s [? _]|apply Hret]].
  apply (st_triple_pre _ kept); [intros s [_ Hk]; by apply Hk|].
  eapply (st_triple_bind _ _ _ (λ _, kept)); [by apply on_broker_triple|]. intros _.
  eapply (st_triple_bind _ _ _ (λ _, kept)); [by apply on_broker_triple|]. intros _.
  eapply (st_triple_bind _ _ _ (λ _ s, final s ∧ settled (co_store s.2)
             ∧ event_stored (co_store s.2) (m_TraceID m) (m_AgentSequence m))).
  { apply sendAck_triple. intros s h' [[Hset Hs] Hst] Hsent. split_and!; [|done..].
    unfold final. simpl. etrans; [exact (before_final s (conj Hset Hs))|].
    eapply hub_sends_mono; [|exact Hsent]. intros pid a [Hpid Hm]. split_and!; [|done| |].
    - by eapply server_from_relay.
    - intros _. by destruct Hm as (_&_&?&_).
    - intros Ht. destruct Hm as (_&Hmt&_). rewrite Ht in Hmt. done. }
  intros _. eapply (st_triple_bind _ _ _ (λ _, final)); [|intros; by apply st_triple_ret].
  destruct (String.eqb (m_Type m) TypeRunAccepted); [|by apply st_triple_ret; intros s [? _]].
  cbv zeta. destruct (negb _); [|by apply st_triple_ret; intros s [? _]].
  eapply (st_triple_bind _ _ _ (λ _, final)); [|intros; by apply st_triple_ret].
  apply on_store_triple. intros h c (Hf&Hset&Hst). unfold final in *. simpl in *.
  eapply hub_sends_mono; [|exact Hf]. intros pid a (Hr&Hid&Hd&Hb). split_and!; try done.
  - intros Ht. destruct (Hd Ht) as (?&?&?). split_and!; try done. by apply law_delivered_event.
  - intros Ht. destruct (Hb Ht) as (p&?&?&?). exists p. split_and!; try done.
    by apply law_delivered_batch.
Qed.

Lemma on_bootstrap_batch_final :
  st_triple before (on_bootstrap_batch id m) (λ _, final).
Proof.
  unfold on_bootstrap_batch.
  assert (∀ b : bool, st_triple before (ret b) (λ _, final)) as Hret
    by (intros b; apply st_triple_ret, before_final).
  destruct (PayloadAs _ _ _) as [p [|]] eqn:Ep; [|apply Hret].
  destruct (_ || _); [apply Hret|].
  eapply (st_triple_bind _ _ _ (λ r s, before s ∧
            (is_ok r = true → batch_stored (co_store s.2) (bp_SyncID p) (bp_BatchNo p)))).
  { apply on_store_triple. intros h c [Hset Hs]. simpl in Hset.
    destruct (law_apply (co_now c) (bootstrapBatch p) _ Hset) as [Hset' Hst]. by split. }
  intros [j|e]; [|apply (st_triple_pre _ before); [by intros s [? _]|apply Hret]].
  eapply (st_triple_bind _ _ _ (λ _ s, final s ∧ settled (co_store s.2)
             ∧ batch_stored (co_store s.2) (bp_SyncID p) (bp_BatchNo p))).
  { apply send_new_triple. intros s h' [[Hset Hs] Hst] Hsent. split_and!; [|done|by apply Hst].
    unfold final. simpl. etrans; [exact (before_final s (conj Hset Hs))|].
    eapply hub_sends_mono; [|exact Hsent]. intros pid a [Hpid Hm]. split_and!; [|done| |].
    - by eapply server_from_relay.
    - intros Ht. destruct Hm as (_&Hmt&_). rewrite Ht in Hmt. done.
    - intros _. exists p. split_and!; [done|by apply Hm|by apply Hst]. }
  intros _. eapply (st_triple_bind _ _ _ (λ _, final)); [|intros; by apply st_triple_ret].
  destruct (bp_Done p); [|by apply st_triple_ret; intros s [? _]].
  eapply (st_triple_bind _ _ _ (λ _, final)); [|intros; by apply st_triple_ret].
  apply on_store_triple. intros h c (Hf&Hset&Hst). unfold final in *. simpl in *.
  eapply hub_sends_mono; [|exact Hf]. intros pid a (Hr&Hid&Hd&Hb). split_and!; try done.
  - intros Ht. destruct (Hd Ht) as (?&?&?). split_and!; try done. by apply law_delivered_event.
  - intros Ht. destruct (Hb Ht) as (q&?&?&?). exists q. split_and!; try done.
    by apply law_delivered_batch.
Qed.
End Message.

Lemma agent_message_final id m s : st_triple (before id s) (agent_message id m) (λ _, final id m s).
Proof.
  unfold agent_message.
  assert (∀ b : bool, st_triple (before id s) (ret b) (λ _, final id m s)) as Hret
    by (intros b; apply st_triple_ret, before_final).
  eapply (st_triple_bind _ _ _ (λ _, before id s)).
  { intros x Hx. unfold on_source. by destruct (SourceHandle m (co_source x.2)). }
  intros [|]; [apply Hret|]. eapply (st_triple_bind _ _ _ (λ _, before id s)).
  { intros x Hx. unfold on_profiles. by destruct (ProfilesHandle m (co_profiles x.2)). }
  intros [|]; [apply Hret|]. destruct (_ || _ || _).
  { eapply (st_triple_bind _ _ _ (λ _, before id s)); [by apply on_broker_triple|intros; apply Hret]. }
  destruct (String.eqb (m_Type m) TypeProjectSnapshot).
  { unfold on_project_snapshot. destruct (negb _); [apply Hret|].
    destruct (PayloadAs _ _ _) as [ps [|]]; [|apply Hret].
    eapply (st_triple_bind _ _ _ (λ _, final id m s)); [|intros; by apply st_triple_ret].
    apply on_store_triple. intros h c [_ Hs]. unfold final. simpl in *.
    eapply hub_sends_mono; [|exact Hs]. intros pid a (Hr&Hid&Ht). split_and!; try done; rewrite Ht; done. }
  destruct (String.eqb (m_Type m) TypeBootstrapBatch); [apply on_bootstrap_batch_final|].
  destruct (durableRuntimeMessage (m_Type m)) eqn:Ed; [by apply on_run_event_final|apply Hret].
Qed.

(** What is sent, when the store is settled. *)
Lemma agent_message_acks id m s :
  settled (co_store s.2) →
  let s' := (agent_message id m s).2 in
  hub_sends (ack_ok id m (co_store s'.2)) s.1 s'.1.
Proof. intros Hset. apply (agent_message_final id m s). split; [done|reflexivity]. Qed.

(** *** A message the router passes on to the App *)

Lemma agent_message_forwarded_acks id m (s : CState) :
  let s' := (agent_message_forwarded id m s).2 in
  s'.2 = s.2 ∧
  hub_sends (λ pid a, from_relay a ∧ pid = id ∧ m_Type a ≠ TypeBootstrapDurableAck
               ∧ (m_Type a = TypeRuntimeDurableAck → durableRuntimeMessage (m_Type m) = true
                    ∧ m_Payload a = Raw (json_RuntimeAck (m_TraceID m) (m_AgentSequence m)))) s.1 s'.1.
Proof.
  set (Q := λ pid a, _). set (I := λ x : CState, x.2 = s.2 ∧ hub_sends Q s.1 x.1).
  assert (st_triple I (agent_message_forwarded id m) (λ _, I)) as H; [|by apply (H s)].
  unfold agent_message_forwarded. destruct (m_AgentSequence m <? 1)%Z; cbn [orb]; [by apply st_triple_ret|].
  destruct (durableRuntimeMessage (m_Type m)) eqn:Ed; cbn [negb]; [|by apply st_triple_ret].
  assert (∀ type, type = TypeRuntimeReceivedAck ∨ type = TypeRuntimeDurableAck →
    st_triple I (sendAck id type (m_TraceID m) (m_AgentSequence m)) (λ _, I)) as Hack.
  { intros type Htype. apply sendAck_triple. intros x h' [Hx Hs] Hsent. split; [exact Hx|]. cbn. etrans; [exact Hs|].
    eapply hub_sends_mono; [|exact Hsent]. intros pid a [Hpid Hm]. split; [by eapply server_from_relay|]. split; [done|].
    destruct Hm as (_&Ht&Hp&_). split; [|by intros _]. rewrite Ht. destruct Htype as [H|H]; by rewrite H. }
  eapply st_triple_bind; [apply Hack; by left|]. intros u0. apply Hack. by right.
Qed.

(** Messages satisfying [Q] appended to queues. *)
Definition queues_get (Q : Z → Message → Prop) (h h' : HubState) : Prop :=
  ∀ pid p', hub_peers h' !! pid = Some p' → ∃ p ms,
    hub_peers h !! pid = Some p ∧ peer_queue p' = (peer_queue p ++ ms)%list ∧ Forall (Q pid) ms.

Lemma queues_get_refl Q h : queues_get Q h h.
Proof. intros pid p Hp. exists p, []. by rewrite app_nil_r. Qed.
Lemma queues_get_trans Q h1 h2 h3 : queues_get Q h1 h2 → queues_get Q h2 h3 → queues_get Q h1 h3.
Proof.
  intros H12 H23 pid p3 Hp3. destruct (H23 pid p3 Hp3) as (p2&ms2&Hp2&->&HF2).
  destruct (H12 pid p2 Hp2) as (p1&ms1&Hp1&->&HF1). exists p1, (ms1 ++ ms2)%list.
  split_and!; [done|by rewrite app_assoc|by apply Forall_app].
Qed.
Lemma queues_get_sends (Q Q' : Z → Message → Prop) h h' :
  hub_sends Q' h h' → (∀ pid a, Q' pid a → Q pid a) → queues_get Q h h'.
Proof.
  intros [_ Hq _] HQ pid p' Hp'. destruct (Hq pid p' Hp') as (p&ms&?&?&HF). exists p, ms. split_and!; [done..|].
  eapply Forall_impl; [exact HF|]. auto.
Qed.

(** The message the router passes on, and that it is waiting for the App. *)
Definition passed_on (m : Message) : Message := with_sender m (CanonicalSender RoleAgent).
Definition queued_for_app (m : Message) (h h' : HubState) : Prop :=
  ∃ app p p' ms, current RoleApp (hub_registry h) = Some app ∧ hub_peers h !! app = Some p ∧ hub_peers h' !! app = Some p'
    ∧ peer_queue p' = (peer_queue p ++ ms)%list ∧ passed_on m ∈ ms.

(** What one message of the Agent may put into the queue of [pid]. *)
Definition answer_ok (id : Z) (m : Message) (s s' : CState) (pid : Z) (a : Message) : Prop :=
  (current RoleApp (hub_registry s.1) = Some pid ∧ a = passed_on m ∧ AllowedFrom RoleAgent (m_Type m) = true)
  ∨ (from_relay a ∧ pid = id
     ∧ (m_Type a = TypeRuntimeDurableAck →
          durableRuntimeMessage (m_Type m) = true
          ∧ m_Payload a = Raw (json_RuntimeAck (m_TraceID m) (m_AgentSequence m))
          ∧ (event_stored (co_store s'.2) (m_TraceID m) (m_AgentSequence m) ∨ queued_for_app m s.1 s'.1))
     ∧ (m_Type a = TypeBootstrapDurableAck →
          ∃ p, PayloadAs zero_BatchPayload dec_BatchPayload m = (p, true)
            ∧ m_Payload a = Raw (json_BootstrapAck (bp_SyncID p) (bp_BatchNo p) (bp_Checksum p))
            ∧ batch_stored (co_store s'.2) (bp_SyncID p) (bp_BatchNo p))).

Lemma Reject_sends id traceID code message (s : CState) :
  let s' := (Reject (O := Coord W B) (M := CSt W B) id traceID code message s).2 in
  s'.2 = s.2 ∧ hub_sends (λ pid a, from_relay a ∧ pid = id ∧ m_Type a = TypeTurnRejected) s.1 s'.1.
Proof.
  set (Q := λ pid a, _).
  assert (∀ s : CState, (Reject (O := Coord W B) (M := CSt W B) id traceID code message s)
    = on_hub (let! r := new_message TypeTurnRejected traceID relay_sender (json_TurnRejected code message) in
              match r with
              | Err _ => ret tt
              | Ok m => let! err := Send id m in match err with Some _ => Close id | None => ret tt end
              end) s) as ->.
  { intros [h c]. unfold Reject, hub, on_hub, atomic, atomic_st. cbn [bind ret st_monad fst snd].
    destruct (new_message _ _ _ _ h) as [[m|e] h1]; [|reflexivity]. cbn [fst snd].
    destruct (Send id m h1) as [[e|] h2]; reflexivity. }
  split; [apply on_hub_snd|]. apply on_hub_sends. apply new_message_guar; [intros; apply st_guar_ret; apply _|].
  intros m Hs Ht Hp Hw. apply st_guar_bind; [apply _| |].
  - intros h. apply Send_sends. split; [split; [by rewrite Hs|done]|by split].
  - intros [e|]; [apply Close_guar|apply st_guar_ret; apply _].
Qed.

(** An answer of the coordinator's own. *)
Lemma ack_ok_answer id m s s' pid a :
  ack_ok id (passed_on m) (co_store s'.2) pid a → answer_ok id m s s' pid a.
Proof. intros (?&?&Hd&?). right. split_and!; [done..| |done]. intros Ht. destruct (Hd Ht) as (?&?&?). auto. Qed.

Lemma forward_answers id m (s0 s : CState) :
  AllowedFrom RoleAgent (m_Type m) = true → hub_sends (ack_ok id (passed_on m) (co_store s.2)) s0.1 s.1 →
  let s' := (forward (M := CSt W B) (Some coordinator) id RoleAgent (passed_on m) s).2 in
  queues_get (answer_ok id m s0 s') s0.1 s'.1.
Proof.
  intros Ha Hs. destruct s as [h c]. cbn [fst snd] in Hs. set (m' := passed_on m) in *.
  assert (∀ s' : CState, s'.2 = c → queues_get (answer_ok id m s0 s') s0.1 h) as Hbefore.
  { intros s' Hc. eapply queues_get_sends; [exact Hs|]. intros pid a H. apply ack_ok_answer. by rewrite Hc. }
  set (h1 := set_registry (RememberAgentState m' (hub_registry h)) h).
  assert (current RoleApp (hub_registry h1) = current RoleApp (hub_registry s0.1)) as Hcur.
  { rewrite <- (pk_registry _ _ (hs_kept _ _ _ Hs)). unfold current, h1. cbn.
    apply RememberAgentState_regs. }
  unfold forward, hub, on_hub, atomic, atomic_st, modify, gets. cbn [bind ret st_monad fst snd].
  change (String.eqb RoleAgent RoleAgent) with true. change (String.eqb RoleAgent RoleApp) with false. cbv iota.
  fold h1. change (other_role RoleAgent) with RoleApp. rewrite Hcur.
  destruct (current RoleApp (hub_registry s0.1)) as [app|] eqn:Eapp; [|by apply Hbefore]. cbn [fst snd].
  destruct (Send app m' h1) as [[e|] h2] eqn:Es; cbn [fst snd].
  - apply Send_cases in Es as (_&[(?&_)|(_&Hps&_)]); [done|].
    eapply queues_get_trans; [by apply Hbefore|].
    eapply (queues_get_trans _ h h2); [|eapply queues_get_sends; [apply (Close_sends (λ _ _, False))|done]].
    intros pid p' Hp'. rewrite Hps in Hp'. by apply queues_get_refl.
  - apply Send_cases in Es as (_&[(_&p&Hp&_&Hps&_)|(?&_)]); [|done].
    cbn [AgentMessageForwarded coordinator]. pose proof (agent_message_forwarded_acks id m' (h2, c)) as [Hc Hf].
    set (s' := (agent_message_forwarded id m' (h2, c)).2) in *. cbn [fst snd] in Hc, Hf.
    assert (queued_for_app m s0.1 s'.1) as Hqueued.
    { change (hub_peers h1) with (hub_peers h) in Hp. destruct (hs_queues _ _ _ Hs app p Hp) as (p0&ms0&Hp0&Hq0&_).
      pose proof (pk_roles _ _ (hs_kept _ _ _ Hf) app) as Hro. rewrite Hps, lookup_insert_eq in Hro.
      destruct (hub_peers s'.1 !! app) as [p'|] eqn:Hp'; [|done].
      destruct (hs_queues _ _ _ Hf app p' Hp') as (p2&ms2&Hp2&Hq2&_). rewrite Hps, lookup_insert_eq in Hp2.
      injection Hp2 as <-. exists app, p0, p', (ms0 ++ [m'] ++ ms2)%list. split_and!; [done..| |].
      - rewrite Hq2. cbn [enqueue peer_queue]. rewrite Hq0, <- !app_assoc. done.
      - apply elem_of_app. right. left. }
    eapply queues_get_trans; [by apply Hbefore|]. eapply (queues_get_trans _ h h2).
    + intros pid p' Hp'. rewrite Hps in Hp'. apply lookup_insert_Some in Hp' as [[<- <-]|[_ Hp']].
      * exists p, [m']. split_and!; [done|done|]. apply Forall_singleton. by left.
      * by apply queues_get_refl.
    + eapply queues_get_sends; [exact Hf|]. intros pid a (Hr&Hid&Hb&Hd). right. split_and!; [done..| |done].
      intros Ht. destruct (Hd Ht). auto.
Qed.

(** C4. Whatever message comes from the Agent, the router and the coordinator
    put into queues only that message, under the Agent's name, for the App, and
    answers to that Agent.  Among those a runtime.durable_ack is sent only for a
    durable run event, with its run and sequence number, and only when the store
    has kept that event or, for a run that is not the relay's, when the event is
    waiting in the queue of the App it was passed on to; and a
    bootstrap.durable_ack only for a batch, with its numbers and checksum, when
    the sync job has committed it.  (Handle runs alone here; when the App's write
    loop comes between, it may have taken the event from the queue by then.) *)
Theorem durable_ack_sound id m (s : CState) :
  settled (co_store s.2) →
  let s' := (Handle (M := CSt W B) (Some coordinator) id RoleAgent m s).2 in
  queues_get (answer_ok id m s s') s.1 s'.1.
Proof.
  intros Hset. unfold Handle. destruct (AllowedFrom RoleAgent (m_Type m)) eqn:Ea; cbn [negb].
  - change (String.eqb RoleAgent RoleAgent) with true. cbv iota. fold (passed_on m).
    unfold atomic, atomic_st. cbn [bind ret st_monad AgentMessage coordinator].
    pose proof (agent_message_acks id (passed_on m) s Hset) as Hs. cbv zeta in Hs.
    destruct (agent_message id (passed_on m) s) as [consumed s1]. cbn [fst snd] in Hs.
    destruct consumed; [|by apply forward_answers].
    eapply queues_get_sends; [exact Hs|]. intros pid a. apply ack_ok_answer.
  - destruct (Reject_sends id (m_TraceID m) "MESSAGE_INVALID" "message type is not allowed from this connection" s) as [_ Hs].
    eapply queues_get_sends; [exact Hs|]. intros pid a (Hr&Hid&Ht). right. split_and!; [done..| |]; by rewrite Ht.
Qed.
End Acks.
