(* ===== verification/SyncSpec.v ===== *)
(** * What the sync jobs and the bootstrap import promise

    CreateSyncJob, the order and idempotence of batches, the safety of the
    reconciliation, and the idempotence of importing a run again. *)

From S2P Require Import Prelude GoStd GoTime Json Payloads.
From S2P Require Import Sql Tables RuntimeDB RuntimeSql RuntimeHistory RunStore Bootstrap RunSpec.
#[local] Open Scope string_scope.

Section Sync.
Context `{J : !Jsonb}.

Lemma GetSyncJob_alone id w res w' :
  w_env w = [] → GetSyncJob id w = (res, w') →
  w_db w' = w_db w ∧
  (db_error res ∨
   res = match sync_jobs (w_db w) !! id with Some s => Ok (scanSyncJob id s) | None => Err ErrNotFound end).
Proof.
  intros Hw H. unfold GetSyncJob in H. alone_step Hw H.
  destruct r as [[j|]|e]; simpl in H; unfold fail in H; simplify_eq/=; (split; [done|]).
  - right. by destruct (sync_jobs (w_db w) !! id); simplify_eq/=.
  - right. by destruct (sync_jobs (w_db w) !! id); simplify_eq/=.
  - left. destruct E as [x ->]. by eexists.
Qed.

(** ** CreateSyncJob *)

Section Create.
Context (now : Z) (r1 r2 : list Z) (key : string).
Let id := newID "sync" r1.
Let commandID := newID "cmd" r2.
Let body := create_sync_tx now id commandID key.

(** The job a request with this key gets, if there is one already. *)
Definition sync_in_the_way (d : DB) : option (string * sync_row) :=
  match find_sync_by_key key d with Some x => Some x | None => find_active_sync d end.

Definition bootstrap_payload : json := JObj [("command_id", JStr commandID); ("sync_id", JStr id)].

Definition sync_created (p : json) (d : DB) : DB :=
  set_outbox (<[commandID := new_command now "bootstrap.start" id p]> (outbox d))
    (set_sync_jobs (<[id := new_sync now key]> (sync_jobs d)) d).

Definition create_sync_outcome (d : DB) (res : result rt_error (SyncJob * bool)) (d' : DB) : Prop :=
  match sync_in_the_way d with
  | Some (i, s) => d' = d ∧ (res = Ok (scanSyncJob i s, false) ∨ db_error res)
  | None =>
      (d' = d ∧ db_error res) ∨
      ∃ p, jsonb bootstrap_payload = Some p ∧ sync_jobs d !! id = None ∧ d' = sync_created p d
        ∧ (res = Ok (scanSyncJob id (new_sync now key), true) ∨ db_error res)
  end.

Lemma create_sync_robust : all_or_nothing body.
Proof. left. unfold body, create_sync_tx. robust. Qed.

Lemma create_sync_calm d :
  match sync_in_the_way d with
  | Some (i, s) => reply body d = Ok (Some (scanSyncJob i s)) ∧ committed body d = d
  | None =>
      (db_error (reply body d) ∧ committed body d = d) ∨
      ∃ p, jsonb bootstrap_payload = Some p ∧ sync_jobs d !! id = None ∧ reply body d = Ok None
        ∧ committed body d = sync_created p d
  end.
Proof.
  destruct (body (live d)) as [x t] eqn:H. pose proof H as H0.
  unfold body, create_sync_tx in H. live_step H. cbv beta iota in H. live_step H. unfold sync_in_the_way.
  destruct (find_sync_by_key key d) as [[i s]|]; cbv beta iota in H; [by live_end H H0|].
  live_step H. destruct (find_active_sync d) as [[i s]|]; cbv beta iota in H; [by live_end H H0|].
  cbv zeta in H. live_step H. destruct (insert_sync _ _ d) as [[[] d1]|e] eqn:Ei;
    [|live_end H H0; left; split; [by eexists|done]].
  apply insert_sync_ok in Ei as [Hfree ->]. live_step H.
  destruct (insert_command _ _ _ _ _ _) as [[[] d2]|e] eqn:Ec;
    [|live_end H H0; left; split; [by eexists|done]].
  apply insert_command_ok in Ec as (p&Hp&_&_&->). live_end H H0. right. by exists p.
Qed.

(** C34. CreateSyncJob, whatever round trips fail, with no other client in
    between.  A request whose key is known gets that job, and while a job is
    queued or running any request gets that one: nothing changes.  Otherwise one
    transaction adds the job, queued with no batch committed, together with the
    command that starts it on the Agent, or leaves no trace. *)
Theorem CreateSyncJob_spec w res w' :
  w_env w = [] → CreateSyncJob now r1 r2 key w = (res, w') →
  create_sync_outcome (w_db w) res (w_db w').
Proof.
  intros Hw H. unfold CreateSyncJob in H. cbv zeta in H. rewrite bind_op in H. fold id commandID body in H.
  destruct (run_tx body w) as [rt w1] eqn:Et.
  apply run_tx_alone in Et as (Hw1&Ht); [|done|apply create_sync_robust].
  pose proof (create_sync_calm (w_db w)) as Hc. unfold create_sync_outcome.
  destruct (sync_in_the_way (w_db w)) as [[i s]|].
  - destruct Hc as [Hc Hd]. destruct rt as [a|e].
    + destruct Ht as [Ha Hd']. rewrite Hc in Ha. simplify_eq/=. split; [congruence|by left].
    + simplify_eq/=. destruct Ht as [[[x ->] [?|?]]|[? ?]]; [| |congruence];
        (split; [congruence|right; by eexists]).
  - destruct Hc as [[[x Hx] Hd]|(p&Hp&Hfree&Hc&Hd)].
    + left. destruct rt as [a|e]; [destruct Ht; congruence|]. simplify_eq.
      destruct Ht as [[[y ->] [?|?]]|[? ?]]; (split; [congruence|]);
        [by eexists|by eexists|exists x; congruence].
    + destruct rt as [a|e].
      * destruct Ht as [Ha Hd']. rewrite Hc in Ha. injection Ha as <-. rewrite bind_op in H.
        destruct (GetSyncJob id w1) as [rg w2] eqn:Eg.
        apply GetSyncJob_alone in Eg as (Hd2&Hres); [|done]. right. exists p.
        rewrite Hd', Hd in *. simpl in Hres. rewrite lookup_insert_eq in Hres.
        destruct Hres as [[y ->]| ->]; simplify_eq/=; split_and!; try done; [right; by eexists|by left].
      * simplify_eq. destruct Ht as [[[x ->] [Hd'|Hd']]|[? _]]; [| |congruence].
        -- left. split; [done|by eexists].
        -- right. exists p. split_and!; try done; [congruence|right; by eexists].
Qed.
End Create.

(** ** ApplyBootstrapBatch *)

(** The batch the job committed last. *)
Definition repeats (b : BootstrapBatch) (s : sync_row) : bool :=
  (bb_BatchNo b =? sy_last_batch s)%Z && String.eqb (bb_Checksum b) (coalesce (sy_last_checksum s)).

(** Only this job moved, by one batch. *)
Definition batch_committed (now : Z) (b : BootstrapBatch) (s : sync_row) (d d' : DB) : Prop :=
  ∃ count sessions projects, (0 ≤ count)%Z ∧
    sync_jobs d' = <[bb_SyncID b := advance_sync now b count sessions projects s]> (sync_jobs d).

Section Apply.
Context (now : Z) (b : BootstrapBatch).
Let body := apply_batch_tx now b.

Lemma apply_batch_robust : all_or_nothing body.
Proof.
  left. unfold body, apply_batch_tx, import_batch, reconcile, import_run, import_session, append_session_event.
  robust.
Qed.

Lemma update_sync_frame (id : string) (f : sync_row → sync_row) d x d' s :
  sync_jobs d !! id = Some s → update_sync id f d = Ok (x, d') →
  sync_jobs d' = <[id := f s]> (sync_jobs d).
Proof. intros Hs [(_&?&_)|(s'&_&Hs'&->)]%update_sync_ok; [congruence|]. simpl. congruence. Qed.

Lemma apply_batch_triple d0 :
  triple (λ d, d = d0) body (λ x d,
    match x with
    | Commit _ => ∃ s count n m, sync_jobs d0 !! bb_SyncID b = Some s ∧ repeats b s = false
        ∧ bb_BatchNo b = (sy_last_batch s + 1)%Z ∧ (0 ≤ count)%Z
        ∧ sync_jobs d = <[bb_SyncID b := advance_sync now b count n m s]> (sync_jobs d0)
    | Rollback _ => ∃ s, sync_jobs d0 !! bb_SyncID b = Some s ∧ repeats b s = true
    end).
Proof.
  unfold body, apply_batch_tx.
  eapply (triple_bind _ _ _ (λ job d, d = d0 ∧
    job = (λ s, (sy_last_batch s, coalesce (sy_last_checksum s))) <$> sync_jobs d0 !! bb_SyncID b)).
  { apply triple_stmt. intros d a d' -> Hq. unfold query in Hq. by simplify_eq. }
  intros [[last checksum]|]; [|apply triple_fail].
  destruct (_ && _) eqn:Edup.
  { apply triple_ret. intros d [-> Hj]. destruct (sync_jobs d0 !! bb_SyncID b) as [s|] eqn:Es; [|done].
    exists s. split; [done|]. simpl in Hj. by simplify_eq. }
  destruct (Z.eqb_spec (bb_BatchNo b) (last + 1)) as [Enext|]; cbn [negb]; [|apply triple_fail].
  set (ready d := sync_jobs d = sync_jobs d0 ∧ ∃ s, sync_jobs d0 !! bb_SyncID b = Some s
                    ∧ repeats b s = false ∧ bb_BatchNo b = (sy_last_batch s + 1)%Z).
  assert (∀ A (m : RTx A) φ, tx_guar good_import m → triple (λ d, ready d ∧ φ) m (λ _ d, ready d ∧ φ))
    as Hframe.
  { intros A m φ Hm. split; [apply (Hm empty_db)|]. intros t a t' Ht [[Hs Hsome] Hφ] Hr Ht'.
    destruct (Hm (t_db t)) as [_ Hm'].
    destruct (Hm' t a t' Ht (reflexivity _) Hr Ht') as [_ Hsync]. split; [|done]. split; [congruence|done]. }
  eapply (triple_bind _ _ _ (λ n d, ready d ∧ (0 ≤ n)%Z)).
  { apply triple_returns; [|apply import_batch_count].
    eapply triple_pre, triple_post, (Hframe _ _ True), import_batch_import; [|by intros ?? [? _]].
    intros d [-> Hj]. split; [|done]. split; [done|].
    destruct (sync_jobs d0 !! bb_SyncID b) as [s|]; [|done]. simpl in Hj. injection Hj as -> ->. by exists s. }
  intros count. eapply triple_bind; [apply Hframe, reconcile_import|].
  intros [n m]. cbv beta iota.
  set (post d := ∃ s count n m, sync_jobs d0 !! bb_SyncID b = Some s ∧ repeats b s = false
        ∧ bb_BatchNo b = (sy_last_batch s + 1)%Z ∧ (0 ≤ count)%Z
        ∧ sync_jobs d = <[bb_SyncID b := advance_sync now b count n m s]> (sync_jobs d0)).
  eapply (triple_bind _ _ _ (λ _, post)).
  { apply triple_stmt. intros d a d' [[Hs (s&Hs0&Hrep&Hno)] Hc] Hst.
    exists s, count, n, m. split_and!; try done. rewrite <- Hs. eapply update_sync_frame; [|exact Hst].
    by rewrite Hs. }
  intros _. eapply (triple_bind _ _ _ (λ _, post)); [|intros []; by apply triple_ret].
  destruct (bb_Done b && negb _); [|by apply triple_ret].
  eapply (triple_bind _ _ _ (λ _, post)); [|intros []; by apply triple_ret].
  apply triple_stmt. intros d a d' (s&count'&n'&m'&H1&H2&H3&H4&H5) Hst.
  exists s, count', n', m'. split_and!; try done. rewrite <- H5.
  unfold deliver_bootstrap, update_command in Hst.
  destruct (outbox d !! bb_CommandID b) as [c|]; [|by simplify_eq].
  destruct (String.eqb _ _ && _); [|by simplify_eq].
  destruct (put_command _ _ d) as [[[] d1]|] eqn:Ep; simpl in Hst; simplify_eq.
  by apply put_command_ok in Ep as ->.
Qed.

Lemma apply_batch_errors d fs e t' :
  body (mkTx d true fs) = (Err e, t') →
  (∃ x, e = EDb x) ∨
  match sync_jobs d !! bb_SyncID b with
  | None => e = ErrNotFound
  | Some s => repeats b s = false ∧ bb_BatchNo b ≠ (sy_last_batch s + 1)%Z
              ∧ e = ErrBatchOrder (bb_BatchNo b) (sy_last_batch s)
  end.
Proof.
  unfold body, apply_batch_tx. intros H. rewrite bind_live in H.
  destruct (tx_stmt _ (mkTx d true fs)) as [[job|x] t1] eqn:Eq.
  - assert (job = (λ s, (sy_last_batch s, coalesce (sy_last_checksum s))) <$> sync_jobs d !! bb_SyncID b) as ->.
    { unfold tx_stmt, query in Eq. simpl in Eq. destruct (next fs) as [[| |] fs']; by simplify_eq. }
    destruct (sync_jobs d !! bb_SyncID b) as [s|]; cbn [fmap option_fmap option_map] in H; cbv beta iota in H; [|right; unfold fail in H; by simplify_eq].
    fold (repeats b s) in H. destruct (repeats b s); [by simplify_eq|].
    destruct (Z.eqb_spec (bb_BatchNo b) (sy_last_batch s + 1)); cbn [negb] in H;
      [|right; unfold fail in H; by simplify_eq].
    left. revert H. apply db_only_bind; [unfold import_batch, import_session, import_run, append_session_event; db_only|].
    intros count. apply db_only_bind; [unfold reconcile; db_only|]. intros [n m]. db_only.
  - left. simplify_eq. eapply db_only_stmt, Eq.
Qed.

(** What ApplyBootstrapBatch may answer and do to the jobs. *)
Definition apply_outcome (d : DB) (res : result rt_error SyncJob) (d' : DB) : Prop :=
  match sync_jobs d !! bb_SyncID b with
  | None => d' = d ∧ (res = Err ErrNotFound ∨ db_error res)
  | Some s =>
      if repeats b s then d' = d ∧ (res = Ok (scanSyncJob (bb_SyncID b) s) ∨ db_error res)
      else if (bb_BatchNo b =? sy_last_batch s + 1)%Z then
        (d' = d ∧ db_error res) ∨
        (batch_committed now b s d d' ∧
         (db_error res ∨ ∃ s', sync_jobs d' !! bb_SyncID b = Some s' ∧ res = Ok (scanSyncJob (bb_SyncID b) s')))
      else d' = d ∧ (res = Err (ErrBatchOrder (bb_BatchNo b) (sy_last_batch s)) ∨ db_error res)
  end.

(** C28. ApplyBootstrapBatch, whatever round trips fail, with no other client in
    between.  A batch of an unknown job is refused; the batch committed last,
    sent again, changes nothing and is answered with the job; a batch out of
    order is refused and changes nothing; the next batch is committed as one
    transaction that moves its job, and no other, by exactly one batch with its
    checksum, or leaves no trace.  So however often the Agent repeats a batch it
    is imported once, and the batches in order. *)
Theorem ApplyBootstrapBatch_spec w res w' :
  w_env w = [] → ApplyBootstrapBatch now b w = (res, w') → apply_outcome (w_db w) res (w_db w').
Proof.
  intros Hw H. unfold ApplyBootstrapBatch in H. rewrite bind_op in H. fold body in H.
  assert (interfere w = w) as Hi by (unfold interfere; by rewrite Hw).
  destruct (run_tx_triple _ body _ w apply_batch_robust (apply_batch_triple (w_db w)))
    as [Hdb Hok]; [by rewrite Hi|]. rewrite Hi in Hdb, Hok.
  destruct (run_tx_all_or_nothing body w apply_batch_robust) as (_&_&_&Henv). rewrite Hi, Hw in Henv.
  pose proof (run_tx_err body w) as Herr. rewrite Hi in Herr.
  destruct (run_tx body w) as [[[]|e] w1] eqn:Et; simpl in *; unfold apply_outcome.
  - apply GetSyncJob_alone in H as [Hd' Hres]; [|done]. rewrite Hd'.
    destruct (Hok () eq_refl) as [(s&count&n&m&Hs&Hrep&Hno&Hc&Hsync)|[Hd [_ (s&Hs&Hrep)]]].
    + rewrite Hs, Hrep, Hno, Z.eqb_refl. right. split; [by exists count, n, m|].
      rewrite Hsync, lookup_insert_eq in Hres |- *. destruct Hres as [?|?]; [by left|right; eauto].
    + rewrite Hs, Hrep. rewrite Hd in *. rewrite Hs in Hres. split; [done|]. tauto.
  - simplify_eq. destruct (Herr e w' eq_refl) as [[x ->]|[Hd (fs&t'&Hb)]].
    + destruct Hdb as [->|[[] (s&count&n&m&Hs&Hrep&Hno&Hc&Hsync)]].
      * destruct (sync_jobs (w_db w) !! bb_SyncID b) as [s|]; [|split; [done|right; by eexists]].
        destruct (repeats b s); [split; [done|right; by eexists]|].
        destruct (_ =? _)%Z; [left; split; [done|by eexists]|split; [done|right; by eexists]].
      * rewrite Hs, Hrep, Hno, Z.eqb_refl. right. split; [by exists count, n, m|left; by eexists].
    + rewrite Hd. destruct (apply_batch_errors _ _ _ _ Hb) as [[x ->]|He].
      * destruct (sync_jobs (w_db w) !! bb_SyncID b) as [s|]; [|split; [done|right; by eexists]].
        destruct (repeats b s); [split; [done|right; by eexists]|].
        destruct (_ =? _)%Z; [left; split; [done|by eexists]|split; [done|right; by eexists]].
      * destruct (sync_jobs (w_db w) !! bb_SyncID b) as [s|]; [|subst; split; [done|by left]].
        destruct He as (->&Hno&->). rewrite (proj2 (Z.eqb_neq _ _) Hno). split; [done|by left].
Qed.
End Apply.
End Sync.
