(* ===== verification/ImportSpec.v ===== *)
(** * What the bootstrap import promises about sessions and runs

    Only a reconciling batch archives, and only what is stale; importing a run
    that is already stored changes nothing. *)

From S2P Require Import Prelude GoStd GoTime Json Payloads.
From S2P Require Import Sql Tables RuntimeDB RuntimeSql RuntimeHistory RunStore Bootstrap Hub Router Gateway Coordinator RunSpec SyncSpec.
#[local] Open Scope string_scope.

(** ** Archiving *)

Definition session_archived (s : session_row) : Prop := se_archived_at s ≠ None.
Definition project_archived (p : project_row) : Prop := pr_archived_at p ≠ None.

(** Nothing becomes archived, a project that changed is one of the snapshot, and
    the jobs stand still. *)
Record archives_nothing (snapshot : string) (d d' : DB) : Prop := {
  an_sessions : ∀ i s', sessions d' !! i = Some s' → session_archived s' →
    ∃ s, sessions d !! i = Some s ∧ session_archived s;
  an_projects : ∀ i p', projects d' !! i = Some p' → project_archived p' →
    ∃ p, projects d !! i = Some p ∧ project_archived p;
  an_seen : ∀ i p', projects d' !! i = Some p' → projects d !! i = Some p' ∨ pr_last_seen p' = Some snapshot;
  an_jobs : sync_jobs d' = sync_jobs d;
}.

#[export] Instance archives_nothing_preorder snapshot : PreOrder (archives_nothing snapshot).
Proof.
  split; [intros d; split; eauto|].
  intros d1 d2 d3 [S1 P1 N1 J1] [S2 P2 N2 J2]. split; [| | |congruence].
  - intros i s Hs Ha. destruct (S2 i s Hs Ha) as (t&Ht&Ha'). eauto.
  - intros i p Hp Ha. destruct (P2 i p Hp Ha) as (t&Ht&Ha'). eauto.
  - intros i p Hp. destruct (N2 i p Hp); eauto.
Qed.

Section Archive.
Context `{J : !Jsonb} (snapshot : string).
Notation archives_nothing := (archives_nothing snapshot).







End Archive.

Section Stale.
Context `{J : !Jsonb}.
Notation archives_nothing b := (archives_nothing (bb_SnapshotID b)).












End Stale.

(** ** Importing a run again *)

(** Events numbered one after the other. *)
Fixpoint numbered (n : Z) (l : list BootstrapEvent) : Prop :=
  match l with [] => True | e :: l => bev_Sequence e = n ∧ numbered (n + 1) l end.

(** A payload encoding/json can decode into an [any]. *)
Definition decodable (e : BootstrapEvent) : Prop := ∃ p a, bev_Payload e = Raw p ∧ to_any p = Some a.

(** A run of a bootstrap batch that is imported at all. *)
Record importable (r : BootstrapRun) : Prop := {
  im_numbered : numbered 1 (bru_Events r);
  im_decodable : Forall decodable (bru_Events r);
  im_terminal : snd (normalizeImportedStatus (bru_Status r)) = true;
}.

(** ** The runs of a batch the coordinator makes *)

(** The numbers of a history item are Go integers. *)
Definition int_item (i : ThreadHistoryItem) : Prop :=
  ∀ n, it_ExitCode i = Some n ∨ it_DurationMS i = Some n → in_int64 n = true.
Definition int_items (p : BootstrapBatchPayload) : Prop :=
  ∀ t u, bp_Thread p = Some t → u ∈ th_Turns t → Forall int_item (tu_Items u).

(** An integer of 64 bits has a nearest float64. *)
Lemma round_ratio_int n : (0 ≤ n < 2 ^ 64)%Z → is_Some (round_ratio n 1).
Proof.
  intros Hn. unfold round_ratio. destruct (Z.eqb_spec n 0); [by eexists|].
  assert (Z.log2 n ≤ 63)%Z as Hl by (apply Z.lt_succ_r, Z.log2_lt_pow2; lia).
  change (Z.log2 1) with 0%Z. set (s := Z.max _ _). assert (s ≤ 10)%Z as Hs by (unfold s; lia). clearbody s.
  destruct (if (0 <=? s)%Z then _ else _) as [n' d'].
  assert (∃ t e, (if (2 ^ 53 * d' <=? n')%Z then ((s + 1)%Z, (2 * d')%Z) else (s, d')) = (t, e) ∧ (t ≤ 11)%Z)
    as (t&e&->&Ht) by (destruct (_ <=? _)%Z; eexists _, _; split; [reflexivity|lia|reflexivity|lia]).
  cbv zeta. set (q := if (2 * (n' mod e) <? e)%Z then _ else _). clearbody q.
  destruct (if (q =? _)%Z then _ else _) as [q' t'] eqn:Eq.
  assert (t' ≤ 12)%Z by (destruct (q =? _)%Z; injection Eq as _ <-; lia).
  destruct (Z.ltb_spec 971 t'); [lia|]. by eexists.
Qed.
Lemma to_any_int n : in_int64 n = true → is_Some (to_any (JInt n)).
Proof.
  intros H%in_int64_spec. unfold int64_min, int64_max in H. cbn [to_any]. unfold to_float64. cbn [Z.leb].
  change (0 <=? 0)%Z with true. cbv iota. change (10 ^ 0)%Z with 1%Z.
  destruct (round_ratio_int (Z.abs n * 1)) as [[q s] ->]; [lia|]. by eexists.
Qed.

(** Objects and arrays decode when what they hold does. *)
Lemma to_any_obj ms : Forall (λ kv, is_Some (to_any kv.2)) ms → is_Some (to_any (JObj ms)).
Proof.
  intros H. cbn [to_any]. generalize (@nil (string * any)).
  induction H as [|[k j] ms [a Ha] H IH]; intros acc; [by eexists|]. simpl in Ha. rewrite Ha. apply IH.
Qed.
Lemma to_any_arr l : Forall (λ j, is_Some (to_any j)) l → is_Some (to_any (JArr l)).
Proof.
  intros H. cbn [to_any]. induction H as [|j l [a Ha] H IH]; [by eexists|]. rewrite Ha.
  apply fmap_is_Some in IH as [r Hr]. rewrite Hr. by eexists.
Qed.

Notation decodes := (λ kv : string * json, is_Some (to_any kv.2)).
Lemma decodes_req k j : is_Some (to_any j) → Forall decodes (req k j).
Proof. intros H. by repeat constructor. Qed.
Lemma decodes_opt_str k s : Forall decodes (opt_str k s).
Proof. unfold opt_str. destruct (String.eqb s EmptyString); repeat constructor; by eexists. Qed.
Lemma decodes_opt_int k o : (∀ n, o = Some n → in_int64 n = true) → Forall decodes (opt_ptr k JInt o).
Proof. intros H. destruct o as [n|]; repeat constructor. by apply to_any_int, H. Qed.
Lemma json_FileChange_decodes c : is_Some (to_any (json_FileChange c)).
Proof.
  apply to_any_obj. repeat apply Forall_app_2; first [apply decodes_opt_str|apply decodes_req; by eexists].
Qed.
Lemma json_Item_decodes i : int_item i → is_Some (to_any (json_Item i)).
Proof.
  intros Hi. apply to_any_obj. repeat apply Forall_app_2;
    first [apply decodes_opt_str|apply decodes_req; by eexists|apply decodes_opt_int; intros n Hn; apply Hi; auto|idtac].
  unfold opt_list. destruct (it_Changes i) as [|c l] eqn:E; [constructor|]. rewrite <- E. repeat constructor.
  apply to_any_arr. apply Forall_fmap, Forall_true. apply json_FileChange_decodes.
Qed.

Lemma item_events_numbered t n items rest :
  numbered (n + Z.of_nat (length items)) rest → numbered n (item_events t n items ++ rest).
Proof.
  revert n. induction items as [|i items IH]; intros n H; simpl in *; [by rewrite Z.add_0_r in H|].
  split; [done|]. apply IH. by replace (n + 1 + Z.of_nat (length items))%Z with (n + Z.of_nat (S (length items)))%Z by lia.
Qed.
Lemma item_events_decodable t n items : Forall int_item items → Forall decodable (item_events t n items).
Proof.
  intros H. revert n. induction H as [|i items Hi H IH]; intros n; simpl; constructor; [|apply IH].
  destruct (to_any_obj [("item", json_Item i)]) as [a Ha]; [repeat constructor; by apply json_Item_decodes|].
  by eexists _, a.
Qed.

Lemma batch_importable p r : int_items p → r ∈ bb_Runs (bootstrapBatch p) → importable r.
Proof.
  intros Hp Hr. unfold bootstrapBatch in Hr. cbn [bb_Runs] in Hr.
  destruct (bp_Thread p) as [t|] eqn:Et; [|by apply elem_of_nil in Hr].
  apply list_elem_of_fmap in Hr as (u&->&[Hs Hu]%list_elem_of_filter). specialize (Hp t u Et Hu). split; simpl.
  - by apply item_events_numbered.
  - apply Forall_app_2; [by apply item_events_decodable|]. repeat constructor.
    destruct (to_any_obj [("error", JStr (tu_Error u)); ("status", JStr (tu_Status u));
                          ("thread_id", JStr (th_ID t)); ("turn_id", JStr (tu_ID u))]) as [a Ha];
      [repeat constructor; by eexists|]. by eexists _, a.
  - unfold isTerminalBootstrapStatus in Hs. cbn [existsb] in Hs. rewrite !orb_true_iff, !String.eqb_eq in Hs.
    by destruct_or! Hs; [rewrite Hs..|].
Qed.

(** ** A stored copy *)

Section Reimport.
Context `{J : !Jsonb}.

(** PostgreSQL's jsonb keeps the value of what it stores. *)
Definition keeps_value : Prop := ∀ p q, jsonb p = Some q → to_any q = to_any p.

(** A stored event is the event that was to be stored. *)
Definition stored_as (x : Z * run_event_row) (e : BootstrapEvent) : Prop :=
  x.1 = bev_Sequence e ∧ rev_type x.2 = bev_Type e
  ∧ rev_occurred_at x.2 = TruncateMicro (bev_OccurredAt e)
  ∧ ∃ p q, bev_Payload e = Raw p ∧ jsonb p = Some q ∧ rev_payload x.2 = q.

Lemma TruncateMicro_idem t : TruncateMicro (TruncateMicro t) = TruncateMicro t.
Proof. unfold TruncateMicro, microsecond. rewrite Z.div_mul; lia. Qed.

Lemma stored_events_match l evs :
  keeps_value → Forall decodable evs → Forall2 stored_as l evs → importedEventsMatch l evs = true.
Proof.
  intros Hj Hdec Hl. induction Hl as [|[n row] e l evs (H1&H2&H3&p&q&H4&H5&H6) _ IH]; [done|].
  inv Hdec as [|? ? (p'&a&Hp'&Ha) Hdec']. simpl in *. rewrite <- H1, Z.eqb_refl, H2, String.eqb_refl, H3.
  rewrite TruncateMicro_idem, Z.eqb_refl, H4. rewrite H4 in Hp'. injection Hp' as <-.
  simpl. rewrite (Hj _ _ H5), Ha, any_eqb_refl. simpl. auto.
Qed.

(** The events, inserted one after the other into a fresh log. *)
Lemma insert_events_live now id evs n d d' :
  numbered n evs → (∀ k e, rows (run_events d) id !! k = Some e → (k < n)%Z) →
  for_each evs (λ e, tx_stmt (insert_imported_event now id e) : RTx unit) (live d) = (Ok tt, live d') →
  runs d' = runs d ∧ sessions d' = sessions d
  ∧ ∃ l, entries (rows (run_events d') id) = (entries (rows (run_events d) id) ++ l)%list
       ∧ Forall2 stored_as l evs.
Proof.
  revert n d. induction evs as [|e evs IH]; intros n d Hn Hlt H.
  - cbv in H. simplify_eq. split_and!; try done. exists []. by rewrite app_nil_r.
  - destruct Hn as [Hseq Hn]. cbn [for_each bind sm_monad] in H. rewrite tx_stmt_live in H.
    destruct (insert_imported_event now id e d) as [[[] d1]|x] eqn:Ei; [|done].
    unfold insert_imported_event in Ei. destruct (bev_Payload e) as [|p] eqn:Ep; [done|].
    destruct (insert_run_event _ _ _ _ _ _ d) as [[[] d2]|] eqn:Er; simplify_eq.
    apply insert_run_event_ok in Er as [(?&_)|(q&_&Hq&_&_&Hnone&->)]; [done|].
    set (row := mkRunEventRow _ _ _ _) in *.
    assert (rows (run_events (set_run_events (<[id:=<[bev_Sequence e:=row]> (rows (run_events d) id)]>
              (run_events d)) d)) id = <[bev_Sequence e := row]> (rows (run_events d) id)) as Hrows
      by (unfold rows at 1; simpl; by rewrite lookup_insert_eq).
    apply (IH (bev_Sequence e + 1)%Z) in H as (Hr&Hs&l&He&Hl).
    + split_and!; [done..|]. exists ((bev_Sequence e, row) :: l). rewrite He, Hrows, entries_insert_last by done.
      rewrite <- app_assoc. split; [done|]. constructor; [|done].
      unfold stored_as, row. simpl. split_and!; try done. by exists p, q.
    + done.
    + rewrite Hrows. intros k v Hk. destruct (decide (k = bev_Sequence e)) as [->|]; [lia|].
      rewrite lookup_insert_ne in Hk by done. specialize (Hlt k v Hk). lia.
Qed.

Definition imported_session (ids : gmap string string) (r : BootstrapRun) : string :=
  default (bru_SessionID r) (ids !! bru_SessionID r).

(** The run is stored as the batch has it. *)
Definition up_to_date (ids : gmap string string) (r : BootstrapRun) (d : DB) : Prop :=
  ∃ i x, find_imported_run r d = Some (i, x) ∧
    imported_changed r (fst (normalizeImportedStatus (bru_Status r))) (imported_session ids r) x
      (importedEventsMatch (entries (rows (run_events d) i)) (bru_Events r)) = false.

Lemma import_up_to_date now ids count r d :
  snd (normalizeImportedStatus (bru_Status r)) = true → up_to_date ids r d →
  import_run now ids count r (live d) = (Ok (count + 1)%Z, live d).
Proof.
  intros Ht (i&x&Hf&Hc). unfold import_run. fold (imported_session ids r).
  destruct (normalizeImportedStatus _) as [status terminal]. simpl in Ht, Hc. subst terminal. cbn [negb].
  rewrite bind_live, tx_stmt_live. unfold query. cbv beta iota. rewrite Hf. cbv beta iota.
  rewrite !bind_live, tx_stmt_live. unfold query. cbv beta iota. cbn [ret sm_monad]. rewrite Hc. reflexivity.
Qed.

(** The row either form of the import writes. *)
Lemma written_unchanged (r : BootstrapRun) status session (x : run_row) :
  ru_session_id x = session → ru_status x = status → ru_prompt x = Some (bru_Prompt r) →
  ru_started_at x = TruncateMicro <$> bru_StartedAt r →
  ru_finished_at x = TruncateMicro <$> bru_FinishedAt r →
  ru_persisted x = Z.of_nat (length (bru_Events r)) →
  ru_final x = Some (Z.of_nat (length (bru_Events r))) →
  imported_changed r status session x true = false.
Proof.
  intros H1 H2 H3 H4 H5 H6 H7. unfold imported_changed. rewrite H1, H2, H3, H4, H5, H6, H7. simpl.
  rewrite !String.eqb_refl, Z.eqb_refl. simpl.
  assert (∀ t, sameOptionalTime (TruncateMicro <$> t) t = true) as Ht.
  { intros [t|]; [|done]. simpl. by rewrite TruncateMicro_idem, Z.eqb_refl. }
  by rewrite !Ht.
Qed.

Lemma find_after_update r d d' i x y :
  unique_col ru_turn_id (runs d') → find_imported_run r d = Some (i, x) →
  runs d' = <[i := y]> (runs d) → ru_turn_id y = nullif (bru_CodexTurnID r) →
  find_imported_run r d' = Some (i, y).
Proof.
  intros Hu Hf Hr Hy. unfold find_imported_run in *.
  destruct (runs d !! bru_ID r) as [z|] eqn:Ez.
  - injection Hf as <- <-. by rewrite Hr, lookup_insert_eq.
  - destruct (String.eqb_spec (bru_CodexTurnID r) "") as [|Hne]; [done|].
    apply lookup_by_Some in Hf as [Hx Ht]. assert (bru_ID r ≠ i) as Hi by congruence.
    rewrite Hr, lookup_insert_ne, Ez by done. rewrite <- Hr.
    unfold nullif in Hy. rewrite (proj2 (String.eqb_neq _ _) Hne) in Hy.
    apply lookup_by_unique; [by rewrite Hr, lookup_insert_eq|done|].
    intros k v Hk Hv. by apply (Hu k i v y (bru_CodexTurnID r)); [|rewrite Hr, lookup_insert_eq|..].
Qed.

Lemma fresh_log d id : db_wf d → runs d !! id = None → rows (run_events d) id = ∅.
Proof.
  intros Hwf Hr. apply map_eq. intros n. rewrite lookup_empty.
  destruct (rows (run_events d) id !! n) as [e|] eqn:E; [|done]. unfold rows in E.
  destruct (run_events d !! id) as [m|] eqn:Em; simpl in E; [|by rewrite lookup_empty in E].
  destruct (wf_run_event d Hwf id m n e Em E) as [[y Hy] _]. congruence.
Qed.

Section Import.
Context (now : Z) (ids : gmap string string) (r : BootstrapRun).
Hypotheses (Hj : keeps_value) (Hr : importable r).

(** The statements that write the run [i] and its log, once the log is empty. *)
Lemma write_events_up_to_date i y d d1 d' status c :
  unique_col ru_turn_id (runs d') →
  status = fst (normalizeImportedStatus (bru_Status r)) →
  rows (run_events d) i = ∅ → runs d !! i = Some y →
  (∀ d2, runs d2 = runs d → unique_col ru_turn_id (runs d2) → find_imported_run r d2 = Some (i, y)) →
  imported_changed r status (imported_session ids r) y true = false →
  (let! _ := for_each (bru_Events r) (λ e, tx_stmt (insert_imported_event now i e)) in
   let! _ := append_session_event now (imported_session ids r) (session_event_type status)
               (run_status_payload (imported_session ids r) i status) in
   ret c : RTx Z) (live d) = (Ok d1, live d') →
  up_to_date ids r d'.
Proof.
  intros Hu -> Hempty Hy Hfind Hc H. cbn [bind sm_monad] in H.
  destruct (for_each _ _ (live d)) as [[[]|e] t2] eqn:Ef; [|done].
  destruct (for_each_live _ _ _ _ _ Ef) as [d2 ->].
  apply (insert_events_live now i _ 1) in Ef as (Hr2&_&l&He&Hl);
    [|apply Hr|intros k e Hk; by rewrite Hempty, lookup_empty in Hk].
  destruct (append_session_event_live now (imported_session ids r)
    (session_event_type (normalizeImportedStatus (bru_Status r)).1)
    (run_status_payload (imported_session ids r) i (normalizeImportedStatus (bru_Status r)).1) d2)
    as [[e He2]|(s&q&_&_&He2)].
  { destruct (append_session_event _ _ _ _ _) as [re te]. simpl in He2. by subst re. }
  rewrite He2 in H. cbv beta iota in H. cbn [ret sm_monad] in H. injection H as _ <-.
  exists i, y. split; [by apply Hfind|].
  change (run_events (session_event_appended _ _ _ _ _ d2)) with (run_events d2).
  rewrite He, Hempty, entries_empty. cbn [app].
  by rewrite (stored_events_match _ _ Hj (im_decodable _ Hr) Hl).
Qed.

Lemma import_run_records count d c d' :
  db_wf d → import_run now ids count r (live d) = (Ok c, live d') → up_to_date ids r d'.
Proof.
  intros Hwf H.
  assert (unique_col ru_turn_id (runs d')) as Hu.
  { destruct (import_run_import now ids count r d) as [_ Hm].
    destruct (Hm (live d) c (live d') eq_refl (reflexivity _) H eq_refl) as [Hg _].
    apply Hg in Hwf as [Hwf' _]. apply Hwf'. }
  pose proof (im_terminal _ Hr) as Ht. unfold import_run in H. fold (imported_session ids r) in H.
  destruct (normalizeImportedStatus (bru_Status r)) as [status terminal] eqn:Est.
  simpl in Ht. subst terminal. cbn [negb] in H.
  live_step H. cbv beta iota in H. destruct (find_imported_run r d) as [[i x]|] eqn:Ef; cbv beta iota in H.
  - rewrite bind_live in H. rewrite bind_live, tx_stmt_live in H. unfold query in H. cbv beta iota in H.
    cbn [ret sm_monad] in H. destruct (imported_changed _ _ _ _ _) eqn:Ec; cbn [negb] in H.
    + cbv zeta in H. rewrite bind_live in H. rewrite bind_live, tx_stmt_live in H.
      destruct (update_run _ _ d) as [[u d1]|e] eqn:Eu; [|done].
      assert (runs d !! i = Some x) as Hx.
      { unfold find_imported_run in Ef. destruct (runs d !! bru_ID r) as [z|] eqn:Ez; [by simplify_eq|].
        destruct (String.eqb _ _); [done|]. by apply lookup_by_Some in Ef as [? _]. }
      apply update_run_ok in Eu as [(_&Hn&_)|(x'&_&Hx'&->)]; [congruence|].
      rewrite Hx in Hx'. injection Hx' as <-. cbv beta iota in H. rewrite tx_stmt_live in H.
      cbv beta iota delta [delete_run_events] in H.
      set (d2 := set_run_events _ _) in H. set (y := reimported_run _ _ _ _ x) in *.
      apply (write_events_up_to_date i y d2 c d' status (count + 1)%Z); try done.
      * by rewrite Est.
      * unfold d2, rows. simpl. by rewrite lookup_delete_eq.
      * unfold d2. simpl. by rewrite lookup_insert_eq.
      * intros d3 Hd3 Hu3. eapply find_after_update; [exact Hu3|exact Ef|exact Hd3|done].
      * by apply written_unchanged.
    + injection H as <- <-. exists i, x. rewrite Est. done.
  - rewrite bind_live in H. cbv beta iota zeta in H. cbn [ret sm_monad negb] in H.
    rewrite bind_live, tx_stmt_live in H.
    destruct (insert_run _ _ d) as [[[] d1]|e] eqn:Ei; [|done].
    apply insert_run_ok in Ei as [Hfree ->]. cbv beta iota in H.
    set (y := imported_run _ _ _ _) in *. set (d2 := set_runs _ d) in *.
    apply (write_events_up_to_date (bru_ID r) y d2 c d' status (count + 1)%Z); try done.
    + by rewrite Est.
    + change (run_events d2) with (run_events d). by apply fresh_log.
    + unfold d2. simpl. by rewrite lookup_insert_eq.
    + intros d3 Hd3 _. unfold find_imported_run. rewrite Hd3. unfold d2. simpl. by rewrite lookup_insert_eq.
    + by apply written_unchanged.
Qed.

End Import.

(** C30. Importing again changes nothing: a terminal run whose events are numbered
    from 1 in order and have payloads encoding/json decodes, once imported (from
    nothing, over an older copy, or over the run the relay created for the same
    Codex turn), is found up to date by a later import of the same content,
    which writes no row and announces nothing; it is only counted.  (jsonb keeps
    the value of what it stores.)  And every run of a batch that the coordinator
    makes of an Agent's message is such a run. *)
Theorem import_run_idempotent :
  (∀ p r, int_items p → r ∈ bb_Runs (bootstrapBatch p) → importable r)
  ∧ ∀ now ids r count d c d' now' count',
      keeps_value → importable r → db_wf d → import_run now ids count r (live d) = (Ok c, live d') →
      import_run now' ids count' r (live d') = (Ok (count' + 1)%Z, live d').
Proof.
  split; [apply batch_importable|]. intros now ids r count d c d' now' count' Hj Hr Hwf H.
  apply import_up_to_date; [apply Hr|by eapply import_run_records].
Qed.
End Reimport.
