(* ===== verification/PgStore.v ===== *)
(** * PostgresStore implements the coordinator's store

    The methods of PostgresStore as an instance of [StoreI], and the proof of
    [StoreLaws] for it: whatever round trips fail, as long as the other clients
    of the database neither delete agent events nor take sync jobs back. *)

From S2P Require Import Prelude GoStd GoTime Json Protocol Payloads.
From S2P Require Import Sql Tables RuntimeDB RuntimeSql RuntimeHistory RunStore Outbox Bootstrap RunSpec EventSpec SyncSpec.
From S2P Require Import Hub Coordinator CoordSpec.
#[local] Open Scope string_scope.

(** What the other clients may do to what was acknowledged. *)
Definition keeps_events (d d' : DB) : Prop :=
  (∀ r, rows (run_events d) r ⊆ rows (run_events d') r) ∧ table_le sync_le (sync_jobs d) (sync_jobs d').

#[export] Instance keeps_events_preorder : PreOrder keeps_events.
Proof.
  split; [intros d; split; [done|reflexivity]|].
  intros d1 d2 d3 [E1 S1] [E2 S2]. split; [intros r; etrans; [apply E1|apply E2]|by etrans].
Qed.

Section Pg.
Context `{J : !Jsonb}.

#[export] Instance pg_store : StoreI (World DB) := {|
  i_UpsertProjects := UpsertProjects;
  i_GetRun := GetRun;
  i_AppendAgentEvent := AppendAgentEvent;
  i_ApplyBootstrapBatch := ApplyBootstrapBatch;
  i_MarkCommandDelivered := MarkCommandDelivered;
  i_ReleaseCommand := ReleaseCommand;
  i_ClaimCommands := ClaimCommands;
  i_GetSyncJob := GetSyncJob;
|}.

Lemma query_keeps {A} (f : DB → A) : stmt_guar keeps_events (query f).
Proof. apply stmt_guar_query, _. Qed.

Lemma GetRun_keeps id b : op_guar keeps_events (GetRun id b).
Proof. unfold GetRun, ListRunEvents. guar. Qed.
Lemma GetSyncJob_keeps id : op_guar keeps_events (GetSyncJob id).
Proof. unfold GetSyncJob. guar. Qed.
Lemma MarkCommandDelivered_keeps now id : op_guar keeps_events (MarkCommandDelivered now id).
Proof.
  unfold MarkCommandDelivered. guar. intros d a d' H. unfold update_command in H.
  destruct (outbox d !! id) as [c|]; [|by simplify_eq].
  destruct (put_command _ _ d) as [[[] d1]|] eqn:E; simpl in H; simplify_eq.
  apply put_command_ok in E as ->. split; reflexivity.
Qed.

Lemma run_tx_settled {A} (body : RTx (TxEnd A)) w :
  all_or_nothing body → rely keeps_events w → rely keeps_events (run_tx body w).2.
Proof.
  intros Hb Hw. destruct (run_tx_all_or_nothing body w Hb) as (_&_&_&He).
  destruct (interfere_rely keeps_events w Hw) as [_ Hr]. unfold rely in *. by rewrite He.
Qed.

Lemma append_stored now clk r n t p o w :
  rely keeps_events w →
  let res := AppendAgentEvent now clk r n t p o w in
  rely keeps_events res.2 ∧
  (is_ok res.1 = true → is_Some (rows (run_events (w_db res.2)) r !! n)).
Proof.
  intros Hw. cbv zeta. unfold AppendAgentEvent. rewrite bind_op.
  pose proof (append_event_tx_robust now clk r n t p o) as Hrob.
  revert Hrob. generalize (append_event_calm now clk r n t p o (w_db (interfere w))).
  set (body := append_event_tx now clk r n t p o). intros Hcalm Hrob.
  pose proof (run_tx_settled body w Hrob Hw) as Hw1.
  destruct (run_tx_all_or_nothing body w Hrob) as (_&Hok&_&_).
  destruct (run_tx body w) as [[[]|e] w1]; simpl in *; [|by split].
  destruct (Hok eq_refl) as [Hreply Hdb].
  destruct (GetRun_keeps r false w1 Hw1) as [[Hkeep _] Hw2].
  destruct (GetRun r false w1) as [res w2]. simpl in *. split; [done|]. intros _.
  assert (is_Some (rows (run_events (w_db w1)) r !! n)) as [e He].
  { rewrite Hdb. destruct Hcalm
      as [[[e He] _]|[(_&->&Hdup)|(p0&p1&row&_&_&_&_&_&_&Happ)]].
    - congruence.
    - done.
    - apply event_applied_run in Happ as [_ Hev]. rewrite Hev.
      unfold event_logged; simpl. unfold rows at 1. rewrite lookup_insert_eq. simpl.
      rewrite lookup_insert_eq. by eexists. }
  exists e. by eapply lookup_weaken.
Qed.

(** A batch that was applied, or had been. *)
Definition committed_batch (b : BootstrapBatch) (d : DB) : Prop :=
  ∃ s, sync_jobs d !! bb_SyncID b = Some s ∧ (bb_BatchNo b ≤ sy_last_batch s)%Z.

Lemma apply_batch_commits now b d0 :
  triple (λ d, d = d0) (apply_batch_tx now b) (λ x d,
    match x with Commit _ => committed_batch b d | Rollback _ => committed_batch b d0 end).
Proof.
  eapply triple_post; [|apply apply_batch_triple]. intros [[]|[]] d; simpl.
  - intros (s&count&n&m&_&_&_&_&Hd). eexists. rewrite Hd, lookup_insert_eq. split; [done|]. simpl. lia.
  - intros (s&Hs&[Hn _]%andb_true_iff). exists s. split; [done|]. apply Z.eqb_eq in Hn. lia.
Qed.

Lemma committed_batch_mono b d d' : keeps_events d d' → committed_batch b d → committed_batch b d'.
Proof.
  intros [_ Hsync] (s&Hs&Hle). destruct (Hsync _ s Hs) as (s'&Hs'&Hl). exists s'.
  split; [done|]. pose proof (yl_batch _ _ Hl). lia.
Qed.

Lemma apply_stored now b w :
  rely keeps_events w →
  let res := ApplyBootstrapBatch now b w in
  rely keeps_events res.2 ∧ (is_ok res.1 = true → committed_batch b (w_db res.2)).
Proof.
  intros Hw. cbv zeta. unfold ApplyBootstrapBatch. rewrite bind_op.
  pose proof (apply_batch_robust now b) as Hrob.
  pose proof (run_tx_settled _ w Hrob Hw) as Hw1.
  destruct (run_tx_triple _ _ _ w Hrob (apply_batch_commits now b (w_db (interfere w))) eq_refl) as [_ Hok].
  destruct (run_tx (apply_batch_tx now b) w) as [[[]|e] w1]; simpl in *; [|by split].
  destruct (GetSyncJob_keeps (bb_SyncID b) w1 Hw1) as [Hkeep Hw2].
  destruct (GetSyncJob (bb_SyncID b) w1) as [res w2]. simpl in *. split; [done|]. intros _.
  eapply committed_batch_mono; [exact Hkeep|].
  destruct (Hok tt eq_refl) as [Hc|[-> [d' Hc]]]; done.
Qed.

#[export, refine] Instance pg_laws : StoreLaws (World DB) := {|
  settled := rely keeps_events;
  event_stored w r n := is_Some (rows (run_events (w_db w)) r !! n);
  batch_stored w j n := ∃ s, sync_jobs (w_db w) !! j = Some s ∧ (n ≤ sy_last_batch s)%Z;
  law_get_run := _; law_append := _; law_apply := _;
  law_delivered_event := _; law_delivered_batch := _;
|}.
Proof.
  - intros id b w Hw. by apply GetRun_keeps.
  - intros now clk r n t p o w Hw. by apply append_stored.
  - intros now b w Hw. by apply apply_stored.
  - intros now id w r n Hw [e He]. destruct (MarkCommandDelivered_keeps now id w Hw) as [[Hk _] _].
    exists e. by eapply lookup_weaken.
  - intros now id w j n Hw (s&Hs&Hle). destruct (MarkCommandDelivered_keeps now id w Hw) as [[_ Hk] _].
    destruct (Hk _ s Hs) as (s'&Hs'&Hl). exists s'. split; [done|]. pose proof (yl_batch _ _ Hl). lia.
Defined.
End Pg.
