(* ===== verification/RuntimeHTTP.v ===== *)
(** * internal/runtime/http.go: the runtime endpoints

    The handlers of API over PostgresStore, the Broker and the two providers.
    The event streams and the long polls are in RuntimeFeed.v. *)

From S2P Require Import Prelude GoStd GoTime Json JsonText GoHTTP Payloads.
From S2P Require Import Sql Tables RuntimeDB RunStore Outbox Bootstrap Listing Gateway Coordinator.
#[local] Open Scope string_scope.

(** ** The Broker, as the API calls it *)

(** ReadRunEvents is [None] when it fails; AgentPresence's error is ignored by
    the handlers. *)
Class BrokerQueryI (B : Type) := {
  q_Health : St B bool;
  q_ReadRunEvents : string → Z → St B (option (list RunEvent));
  q_AgentPresence : St B (bool * Z);
}.

(** ** What the endpoints return *)

Record Presence := mkPresence { ap_online : bool; ap_last_seen : option Z }.

(** An event as normalizeRuntimeEvent writes it: the members of an object, by
    key; "payload" may hold the raw text. *)
Inductive field := FAny (a : any) | FRaw (j : json).
Definition fields : Type := list (string * field).

Record pollResult := mkPoll {
  po_Events : list fields; po_NextCursor : Z; po_HasMore : bool; po_TimedOut : bool;
  po_Terminal : bool; po_Status : string }.

Inductive sse_data := SRaw (j : json) | SFields (f : fields).
Record sseEvent := mkSSE { sse_ID : Z; sse_Type : string; sse_Data : sse_data }.

(** What is written to an event stream. *)
Inductive frame := Event (e : sseEvent) | HeartbeatFrame.

Inductive RuntimeData :=
| DProfiles (p : ExecutionProfileSnapshotPayload)
| DSource (s : SourceSnapshotPayload)
| DHealth
| DProjects (items : list Project) (presence : Presence)
| DSessions (items : list Session)
| DSession (item : Session)
| DSessionDetail (session : Session) (runs : list Run) (snapshot_session_sequence : Z) (presence : Presence)
| DRuns (items : list Run)
| DRunCreated (run_id session_id status : string) (session_sequence created_at : Z)
| DRun (item : Run)
| DCancel (run_id : string) (cancel_requested : bool) (status : string)
| DSync (item : SyncJob)
| DPoll (result : pollResult)
| DStream (frames : list frame) (aborted : bool).

Definition RRes : Type := Response RuntimeData.

Definition writeData (status : Z) (data : RuntimeData) : RRes :=
  mkResponse status json_headers None (Data data).
Definition writeError (status : Z) (code : string) (retryable : bool) : RRes :=
  mkResponse status json_headers None (ErrorBody code retryable).
Definition writeInternal : RRes := writeError StatusInternalServerError "INTERNAL_ERROR" true.

(** A handler that returns without writing: net/http answers 200. *)
Definition no_response : RRes := mkResponse StatusOK [] None NoBody.

Definition nullableTime (t : Z) : option Z := if IsZero t then None else Some t.

(** decodeJSON *)
Definition decodeJSON {A} (zero : A) (d : Dec A) (rq : Request) : result RRes A :=
  match decode_body zero d rq with
  | Some a => Ok a
  | None => Err (writeError StatusBadRequest "INVALID_JSON" false)
  end.

Record sourceRequest := mkSourceReq { sq_Path : string; sq_Line : Z; sq_ContextLines : Z }.
Definition dec_source_request : Dec sourceRequest :=
  dec_struct_with true ["path"; "line"; "context_lines"] (λ get r,
    let! p := get _ "path" dec_string (sq_Path r) in
    let! l := get _ "line" dec_int64 (sq_Line r) in
    let! c := get _ "context_lines" dec_int64 (sq_ContextLines r) in
    ret (mkSourceReq p l c)).
Definition dec_session_request : Dec (string * string) :=
  dec_struct_with true ["project_id"; "title"] (λ get r,
    let! p := get _ "project_id" dec_string r.1 in
    let! t := get _ "title" dec_string r.2 in
    ret (p, t)).
Definition dec_run_request : Dec (string * string) :=
  dec_struct_with true ["prompt"; "permission_profile_id"] (λ get r,
    let! p := get _ "prompt" dec_string r.1 in
    let! f := get _ "permission_profile_id" dec_string r.2 in
    ret (p, f)).

(** RequestHash of the two request structs. *)
Definition session_hash (projectID title : string) : string :=
  RequestHash [("project_id", false, projectID); ("title", false, title)].
Definition run_hash (prompt profile : string) : string :=
  RequestHash [("prompt", false, prompt); ("permission_profile_id", true, profile)].

(** sourceHTTPError; [timeout]: the context's error is DeadlineExceeded. *)
Definition sourceHTTPError (timeout : bool) (err : source_error) : Z * string * bool :=
  match err with
  | SourceContextDone => if timeout then (StatusGatewayTimeout, "SOURCE_TIMEOUT", true)
                         else (StatusRequestTimeout, "SOURCE_CANCELED", true)
  | ErrSourceAgentOffline => (StatusServiceUnavailable, "AGENT_OFFLINE", true)
  | ErrSourceUnavailable => (StatusBadGateway, "SOURCE_UNAVAILABLE", true)
  | ErrSourceBusy => (StatusTooManyRequests, "SOURCE_BUSY", true)
  | SourceRemoteError code _ =>
      if String.eqb code "PROJECT_NOT_FOUND" || String.eqb code "SOURCE_NOT_FOUND"
      then (StatusNotFound, code, false)
      else if String.eqb code "SOURCE_FORBIDDEN" then (StatusForbidden, code, false)
      else if String.eqb code "SOURCE_TOO_LARGE" then (StatusRequestEntityTooLarge, code, false)
      else if String.eqb code "SOURCE_BINARY" then (StatusUnsupportedMediaType, code, false)
      else if String.eqb code "SOURCE_INVALID" then (StatusBadRequest, code, false)
      else if String.eqb code "SOURCE_UNAVAILABLE" then (StatusServiceUnavailable, code, true)
      else (StatusBadGateway, "SOURCE_READ_FAILED", true)
  end.

Definition profilesHTTPError (timeout : bool) (err : profile_error) : Z * string :=
  match err with
  | ErrExecutionProfilesAgentOffline => (StatusServiceUnavailable, "AGENT_OFFLINE")
  | ErrExecutionProfilesBusy => (StatusTooManyRequests, "EXECUTION_PROFILES_BUSY")
  | ProfilesContextDone => if timeout then (StatusGatewayTimeout, "EXECUTION_PROFILES_TIMEOUT")
                           else (StatusServiceUnavailable, "EXECUTION_PROFILES_UNAVAILABLE")
  | ErrExecutionProfilesUnavailable => (StatusServiceUnavailable, "EXECUTION_PROFILES_UNAVAILABLE")
  end.

(** The request to the Agent, or the refusal of projectSource. *)
Definition source_payload (projectID : string) (request : sourceRequest) : result RRes SourceReadPayload :=
  let path := TrimSpace (sq_Path request) in
  if String.eqb projectID "" || String.eqb path "" || (256 <? strlen projectID)%Z || (4096 <? strlen path)%Z
  then Err (writeError StatusBadRequest "SOURCE_INVALID" false)
  else if (sq_Line request <? 0)%Z || (10000000 <? sq_Line request)%Z
  then Err (writeError StatusBadRequest "SOURCE_INVALID_LINE" false)
  else if (sq_ContextLines request <? 0)%Z || (500 <? sq_ContextLines request)%Z
  then Err (writeError StatusBadRequest "SOURCE_INVALID_CONTEXT" false)
  else
    let context := if (sq_ContextLines request =? 0)%Z then 200%Z else sq_ContextLines request in
    Ok (mkSourceRead projectID path (sq_Line request) context).

(** Where createRun and the others fail. *)
Definition conflict_or_internal (err : rt_error) : RRes :=
  match err with
  | ErrIdempotencyConflict => writeError StatusConflict "IDEMPOTENCY_CONFLICT" false
  | _ => writeInternal
  end.
Definition not_found_or_internal (code : string) (err : rt_error) : RRes :=
  match err with
  | ErrNotFound => writeError StatusNotFound code false
  | _ => writeInternal
  end.
Definition create_run_failed (err : rt_error) : RRes :=
  match err with
  | ErrIdempotencyConflict => writeError StatusConflict "IDEMPOTENCY_CONFLICT" false
  | ErrNotFound => writeError StatusNotFound "SESSION_NOT_FOUND" false
  | _ => writeInternal
  end.

(** What a turn of a long poll's loop observes: time.Now() after the page was
    read, and whether the client has gone when the store fails. *)
Record tick := mkTick { tk_clock : Z; tk_gone : bool }.

(** What wakes an event stream. *)
Inductive stream_event := Tick | Heartbeat | Gone.

(** What a request draws from its environment: the database's and the relay's
    clocks, random bytes, what ends the wait for the Agent, and what drives the
    loops. *)
Record HEnv := mkHEnv {
  he_now : Z; he_clock : Z; he_r1 : list Z; he_r2 : list Z; he_timeout : bool;
  he_ticks : list tick; he_stream : list stream_event }.

Section State.
Context {B : Type} `{BQ : !BrokerQueryI B}.

Record RState := mkRState { rs_store : World DB; rs_broker : B }.

Definition HSt (A : Type) : Type := St RState A.

Definition with_store {A} (m : ROp A) : HSt (result rt_error A) := λ s,
  let '(a, w) := m (rs_store s) in (a, mkRState w (rs_broker s)).
Definition with_broker {A} (m : St B A) : HSt A := λ s,
  let '(a, b) := m (rs_broker s) in (a, mkRState (rs_store s) b).

(** PostgresStore.Health *)
Definition StoreHealth : ROp unit := pool_stmt (query (λ _, tt)).

Definition presence : HSt Presence :=
  let! p := with_broker q_AgentPresence in
  ret (mkPresence p.1 (nullableTime p.2)).

(** Go on with the value unless there was an error. *)
Definition checked {A E} (r : result E A) (err : E → RRes) (k : A → HSt RRes) : HSt RRes :=
  match r with Err e => ret (err e) | Ok a => k a end.

Definition internal (_ : rt_error) : RRes := writeInternal.

Definition key_of (rq : Request) : string := TrimSpace (rq_Header rq "Idempotency-Key").
Definition keyed (rq : Request) (k : string → HSt RRes) : HSt RRes :=
  if String.eqb (key_of rq) "" then ret (writeError StatusBadRequest "IDEMPOTENCY_KEY_REQUIRED" false)
  else k (key_of rq).

End State.
Arguments RState : clear implicits.
Arguments HSt : clear implicits.

(** ** The handlers, one per endpoint *)

Module Api.
Section Handlers.
Context {B : Type} `{BI : !BrokerI B, BQ : !BrokerQueryI B, J : !Jsonb, C : !Collation}.
(** The providers; [None] when the API is built without one. *)
Context (source : option (SourceReadPayload → SourceResult)).
Context (executionProfiles : option (string → ProfileResult)).
Context (env : HEnv) (rq : Request).

Definition projectExecutionProfiles : HSt B RRes :=
  match executionProfiles with
  | None => ret (writeError StatusServiceUnavailable "EXECUTION_PROFILES_DISABLED" false)
  | Some list_profiles =>
      let projectID := TrimSpace (rq_PathValue rq "project_id") in
      if String.eqb projectID "" || (256 <? strlen projectID)%Z
      then ret (writeError StatusBadRequest "PROJECT_ID_INVALID" false)
      else match list_profiles projectID with
           | Ok snapshot => ret (writeData StatusOK (DProfiles snapshot))
           | Err err => let '(status, code) := profilesHTTPError (he_timeout env) err in
                        ret (writeError status code true)
           end
  end.

Definition projectSource : HSt B RRes :=
  match source with
  | None => ret (writeError StatusServiceUnavailable "SOURCE_READ_DISABLED" false)
  | Some read =>
      let projectID := TrimSpace (rq_PathValue rq "project_id") in
      checked (decodeJSON (mkSourceReq "" 0 0) dec_source_request rq) id (λ request,
      checked (source_payload projectID request) id (λ payload,
      match read payload with
      | Ok snapshot => ret (writeData StatusOK (DSource snapshot))
      | Err err => let '(status, code, retryable) := sourceHTTPError (he_timeout env) err in
                   ret (writeError status code retryable)
      end))
  end.

Definition health : HSt B RRes :=
  let! r := with_store StoreHealth in
  match r with
  | Err _ => ret (writeError StatusServiceUnavailable "POSTGRES_UNAVAILABLE" true)
  | Ok _ =>
      let! ok := with_broker q_Health in
      if (ok : bool) then ret (writeData StatusOK DHealth)
      else ret (writeError StatusServiceUnavailable "REDIS_UNAVAILABLE" true)
  end.

Definition projects : HSt B RRes :=
  let! items := with_store ListProjects in
  checked items internal (λ items,
    let! p := presence in ret (writeData StatusOK (DProjects items p))).

Definition sessions : HSt B RRes :=
  let! items := with_store (ListSessions (rq_Query rq "project_id")) in
  checked items internal (λ items, ret (writeData StatusOK (DSessions items))).

Definition createSession : HSt B RRes :=
  keyed rq (λ key,
  checked (decodeJSON ("", "") dec_session_request rq) id (λ request,
  let '(projectID, title) := request in
  if String.eqb projectID "" then ret no_response else
  let! r := with_store (CreateSession (he_now env) (he_r1 env) projectID title key
                          (session_hash projectID title)) in
  checked r conflict_or_internal (λ r,
  let '(item, created) := r in
  ret (writeData (if (created : bool) then StatusCreated else StatusOK) (DSession item))))).

Definition session : HSt B RRes :=
  let! item := with_store (GetSession (rq_PathValue rq "session_id")) in
  checked item (not_found_or_internal "SESSION_NOT_FOUND") (λ item,
  let! runs := with_store (ListRuns (s_ID item)) in
  checked runs internal (λ runs,
  let! p := presence in
  ret (writeData StatusOK (DSessionDetail item runs (s_LastSessionSequence item) p)))).

Definition runs : HSt B RRes :=
  let! items := with_store (ListRuns (rq_PathValue rq "session_id")) in
  checked items internal (λ items, ret (writeData StatusOK (DRuns items))).

Definition createRun : HSt B RRes :=
  keyed rq (λ key,
  checked (decodeJSON ("", "") dec_run_request rq) id (λ request,
  let '(prompt, profile) := request in
  let prompt := TrimSpace prompt in
  if String.eqb prompt "" then ret (writeError StatusBadRequest "PROMPT_REQUIRED" false) else
  let! r := with_store (CreateRun (he_now env) (he_r1 env) (he_r2 env) (rq_PathValue rq "session_id")
                          prompt profile key (run_hash prompt profile)) in
  checked r create_run_failed (λ r,
  let '(item, sequence, _) := r in
  let! _ := with_broker (b_NotifySession (r_SessionID item)) in
  ret (writeData StatusAccepted
         (DRunCreated (r_ID item) (r_SessionID item) (r_Status item) sequence (r_CreatedAt item)))))).

Definition run : HSt B RRes :=
  let! item := with_store (GetRun (rq_PathValue rq "run_id") true) in
  checked item (not_found_or_internal "RUN_NOT_FOUND") (λ item, ret (writeData StatusOK (DRun item))).

Definition cancel : HSt B RRes :=
  let! item := with_store (RequestCancel (he_now env) (he_clock env) (he_r1 env) (rq_PathValue rq "run_id")) in
  checked item (not_found_or_internal "RUN_NOT_FOUND") (λ item,
  ret (writeData StatusAccepted
         (DCancel (r_ID item) (if r_CancelRequestedAt item is Some _ then true else false) (r_Status item)))).

Definition createSync : HSt B RRes :=
  keyed rq (λ key,
  let! item := with_store (CreateSyncJob (he_now env) (he_r1 env) (he_r2 env) key) in
  checked item internal (λ item, ret (writeData StatusAccepted (DSync item.1)))).

Definition sync : HSt B RRes :=
  let! item := with_store (GetSyncJob (rq_PathValue rq "sync_id")) in
  checked item (not_found_or_internal "SYNC_NOT_FOUND") (λ item, ret (writeData StatusOK (DSync item))).
End Handlers.
End Api.
