(* ===== verification/RuntimeFeed.v ===== *)
(** * internal/runtime/http.go: event streams and long polls

    The two server-sent event streams, the two long polls, and the routes of
    the API.  A poll is a loop driven by the clock: [tick]s give what each turn
    of the loop observes, and a poll that is still waiting when the given ticks
    end has no answer yet.  A stream is driven by its tickers in the same way. *)

From S2P Require Import Prelude GoStd GoTime Json JsonText GoHTTP Payloads.
From S2P Require Import Sql Tables RuntimeDB RunStore Outbox Bootstrap Listing Gateway Coordinator RuntimeHTTP.
From Stdlib Require Import Ascii.
#[local] Open Scope string_scope.

(** ** Numbers in queries *)

(** strconv.ParseInt whose error is ignored: zero for a malformed text, the
    nearest bound when the number is out of range.  A text is out of range as
    soon as its digits exceed an uint64, whatever follows. *)
Fixpoint saturating (acc : Z) (l : bytes) : option Z :=
  match l with
  | [] => Some acc
  | c :: l =>
      match digit_of c with
      | Some d => let v := (10 * acc + d)%Z in
                  if (18446744073709551615 <? v)%Z then Some v else saturating v l
      | None => None
      end
  end.
Definition clamp_int64 (v : Z) : Z := Z.max int64_min (Z.min int64_max v).
Definition ParseInt_value (s : string) : Z :=
  let number (neg : bool) l :=
    match l with
    | [] => 0%Z
    | _ => match saturating 0 l with
           | Some v => clamp_int64 (if neg then (- v)%Z else v)
           | None => 0%Z
           end
    end in
  match str_bytes s with
  | c :: l =>
      if Ascii.eqb c "-"%char then number true l
      else if Ascii.eqb c "+"%char then number false l
      else number false (c :: l)
  | [] => 0%Z
  end.

Definition lastEventID (rq : Request) : Z :=
  let value := rq_Header rq "Last-Event-ID" in
  ParseInt_value (if String.eqb value "" then rq_Query rq "after" else value).

Definition defaultPollWait : Z := 15 * second.
Definition maxPollWait : Z := 15 * second.
Definition defaultPollSize : Z := 100.
Definition maxPollSize : Z := 100.

(** A query value: its default when absent, else an integer within bounds. *)
Definition bounded_param (rq : Request) (name : string) (lo hi : Z) (absent : Z) : option Z :=
  let value := rq_Query rq name in
  if String.eqb value "" then Some absent else
  match ParseInt value with
  | Some v => if (v <? lo)%Z || (hi <? v)%Z then None else Some v
  | None => None
  end.

(** The cursor, the wait and the page size; [None] when one is invalid. *)
Definition parsePollQuery (rq : Request) : option (Z * Z * Z) :=
  match bounded_param rq "after" 0 int64_max 0,
        bounded_param rq "wait_ms" 0 (maxPollWait / millisecond) (defaultPollWait / millisecond),
        bounded_param rq "limit" 1 maxPollSize defaultPollSize with
  | Some after, Some wait, Some limit => Some (after, (wait * millisecond)%Z, limit)
  | _, _, _ => None
  end.

(** ** Normalising *)

(** json.Unmarshal into a nil map[string]any: the new map, [None] when it stays
    nil, or an error. *)
Inductive object := ObjMap (m : fields) | ObjNil | ObjErr.
Definition unmarshal_object (payload : json) : object :=
  match payload with
  | JNull => ObjNil
  | JObj _ => match to_any payload with
              | Some (AMap m) => ObjMap (map (λ kv, (kv.1, FAny kv.2)) m)
              | _ => ObjErr
              end
  | _ => ObjErr
  end.

Definition set_field (k v : string) (m : fields) : fields := map_put k (FAny (AStr v)) m.
Definition find_field (k : string) (m : fields) : option field :=
  snd ∘ snd <$> list_find (λ kv, kv.1 = k) m.

(** The fields to start from; [None]: the assignment to a nil map panics. *)
Definition event_fields (payload : json) : option fields :=
  match unmarshal_object payload with
  | ObjMap m => Some m
  | ObjErr => Some [("payload", FRaw payload)]
  | ObjNil => None
  end.

Definition normalizeRuntimeEvent (runID : string) (event : RunEvent) : option fields :=
  match event_fields (re_Payload event) with
  | None => None
  | Some m =>
      let m := set_field "type" (re_Type event) (set_field "run_id" runID
                 (set_field "runId" runID (set_field "id" (decimal (re_Sequence event)) m))) in
      Some (if String.eqb (re_Type event) "assistant.delta"
            then match find_field "text" m with Some text => map_put "delta" text m | None => m end
            else m)
  end.

Definition normalizeSessionRuntimeEvent (sessionID : string) (event : SessionEvent) : option fields :=
  match event_fields (e_Payload event) with
  | None => None
  | Some m =>
      let m := set_field "session_id" sessionID (set_field "type" (e_Type event)
                 (set_field "id" (decimal (e_Sequence event)) m)) in
      Some (match find_field "run_id" m with
            | Some (FAny (AStr runID)) => if String.eqb runID "" then m else set_field "runId" runID m
            | _ => m
            end)
  end.

(** ** Long polls *)

Definition poll_error : RRes := writeError StatusBadRequest "POLL_QUERY_INVALID" false.
Definition store_failed (t : tick) : RRes := if tk_gone t then no_response else writeInternal.

Definition respond_poll (items : option (list fields)) (f : list fields → pollResult) : RRes :=
  match items with
  | Some l => writeData StatusOK (DPoll (f l))
  | None => mkResponse StatusOK [] None Aborted
  end.

Definition last_or {A} (f : A → Z) (fallback : Z) (l : list A) : Z :=
  match last l with Some x => f x | None => fallback end.

Section Feed.
Context {B : Type} `{BQ : !BrokerQueryI B, J : !Jsonb}.

(** [None]: still waiting after these ticks. *)
Definition Poll : Type := HSt B (option RRes).

Definition expired (wait deadline : Z) (t : tick) : bool := (wait =? 0)%Z || (deadline <? tk_clock t)%Z.

Fixpoint session_poll (sessionID : string) (after wait limit deadline : Z) (ticks : list tick) : Poll :=
  match ticks with
  | [] => ret None
  | t :: ticks =>
      let! r := with_store (ListSessionEventsPage sessionID after limit) in
      match r with
      | Err _ => ret (Some (store_failed t))
      | Ok ((e :: l) as events, hasMore) =>
          ret (Some (respond_poll (mapM (normalizeSessionRuntimeEvent sessionID) events)
                       (λ items, mkPoll items (last_or e_Sequence after events) hasMore false false "")))
      | Ok ([], _) =>
          if expired wait deadline t
          then ret (Some (writeData StatusOK (DPoll (mkPoll [] after false (0 <? wait)%Z false ""))))
          else session_poll sessionID after wait limit deadline ticks
      end
  end.

(** [start] is time.Now() when the loop begins. *)
Definition sessionEventsPoll (start : Z) (ticks : list tick) (rq : Request) : Poll :=
  match parsePollQuery rq with
  | None => ret (Some poll_error)
  | Some (after, wait, limit) =>
      let sessionID := rq_PathValue rq "session_id" in
      let! s := with_store (GetSession sessionID) in
      match s with
      | Err e => ret (Some (not_found_or_internal "SESSION_NOT_FOUND" e))
      | Ok _ => session_poll sessionID after wait limit (start + wait) ticks
      end
  end.

Fixpoint run_poll (runID : string) (after wait limit deadline : Z) (ticks : list tick) : Poll :=
  match ticks with
  | [] => ret None
  | t :: ticks =>
      let! r := with_store (GetRun runID false) in
      match r with
      | Err ErrNotFound => ret (Some (writeError StatusNotFound "RUN_NOT_FOUND" false))
      | Err _ => ret (Some (store_failed t))
      | Ok run =>
          let terminal := isTerminal (r_Status run) in
          let! r := with_store (ListRunEventsPage runID after limit) in
          match r with
          | Err _ => ret (Some (store_failed t))
          | Ok ((e :: l) as events, hasMore) =>
              ret (Some (respond_poll (mapM (normalizeRuntimeEvent runID) events)
                           (λ items, mkPoll items (last_or re_Sequence after events) hasMore false terminal
                                       (r_Status run))))
          | Ok ([], _) =>
              if terminal || expired wait deadline t
              then ret (Some (writeData StatusOK (DPoll
                     (mkPoll [] after false ((0 <? wait)%Z && negb terminal) terminal (r_Status run)))))
              else run_poll runID after wait limit deadline ticks
          end
      end
  end.

Definition runEventsPoll (start : Z) (ticks : list tick) (rq : Request) : Poll :=
  match parsePollQuery rq with
  | None => ret (Some poll_error)
  | Some (after, wait, limit) =>
      run_poll (rq_PathValue rq "run_id") after wait limit (start + wait) ticks
  end.

(** ** Server-sent events *)

(** What one read gives: the new events, an error that ends the stream, or a
    panic that aborts it. *)
Inductive batch := Events (l : list sseEvent) | ReadFailed | Panicked.

Definition lastSequence (fallback : Z) (events : list sseEvent) : Z := last_or sse_ID fallback events.

(** The frames written before the stream ends or the ticks run out, and
    whether it was aborted. *)
Fixpoint stream (read : Z → HSt B batch) (cursor : Z) (evs : list stream_event)
    : HSt B (list frame * bool) :=
  match evs with
  | [] | Gone :: _ => ret ([], false)
  | Heartbeat :: evs =>
      let! r := stream read cursor evs in ret (HeartbeatFrame :: r.1, r.2)
  | Tick :: evs =>
      let! b := read cursor in
      match b with
      | ReadFailed => ret ([], false)
      | Panicked => ret ([], true)
      | Events l =>
          let! r := stream read (lastSequence cursor l) evs in
          ret ((Event <$> l) ++ r.1, r.2)%list
      end
  end.

Definition stream_headers : list (string * string) :=
  [("Content-Type", "text/event-stream"); ("Cache-Control", "no-cache"); ("Connection", "keep-alive")].

(** stream on a ResponseWriter that can flush *)
Definition streamed (read : Z → HSt B batch) (evs : list stream_event) (rq : Request) : HSt B RRes :=
  let! r := stream read (lastEventID rq) evs in
  ret (mkResponse StatusOK stream_headers None (Plain (DStream r.1 r.2))).

Definition read_session_events (sessionID : string) (after : Z) : HSt B batch :=
  let! items := with_store (ListSessionEvents sessionID after) in
  match items with
  | Err _ => ret ReadFailed
  | Ok items => ret (Events (map (λ e, mkSSE (e_Sequence e) (e_Type e) (SRaw (e_Payload e))) items))
  end.
Definition sessionEvents (evs : list stream_event) (rq : Request) : HSt B RRes :=
  streamed (read_session_events (rq_PathValue rq "session_id")) evs rq.

(** The persisted events by sequence, then the live ones that are not among
    them. *)
Definition by_sequence (persisted live : list RunEvent) : gmap Z RunEvent :=
  let m := foldl (λ m e, <[re_Sequence e := e]> m) ∅ persisted in
  foldl (λ m e, if m !! re_Sequence e is Some _ then m else <[re_Sequence e := e]> m) m live.


(** The events from [sequence] on without a gap: there are at most as many as
    the map holds. *)
Fixpoint contiguous (fuel : nat) (m : gmap Z RunEvent) (sequence : Z) : list RunEvent :=
  match fuel with
  | O => []
  | S fuel =>
      match m !! sequence with
      | Some e => e :: contiguous fuel m (wrap_int64 (sequence + 1))
      | None => []
      end
  end.

Definition run_sse (runID : string) (e : RunEvent) : option sseEvent :=
  (λ f, mkSSE (re_Sequence e) (re_Type e) (SFields f)) <$> normalizeRuntimeEvent runID e.

Definition read_run_events (runID : string) (after : Z) : HSt B batch :=
  let! persisted := with_store (ListRunEvents runID after) in
  match persisted with
  | Err _ => ret ReadFailed
  | Ok persisted =>
      let! live := with_broker (q_ReadRunEvents runID after) in
      match live with
      | None => ret ReadFailed
      | Some live =>
          let m := by_sequence persisted live in
          match mapM (run_sse runID) (contiguous (S (size m)) m (wrap_int64 (after + 1))) with
          | Some l => ret (Events l)
          | None => ret Panicked
          end
      end
  end.
Definition runEvents (evs : list stream_event) (rq : Request) : HSt B RRes :=
  streamed (read_run_events (rq_PathValue rq "run_id")) evs rq.
End Feed.

(** ** Registration *)

Inductive RuntimeHandler :=
| HHealth | HProjects | HExecutionProfiles | HSource | HSessions | HCreateSession | HSession | HRuns
| HCreateRun | HRun | HCancel | HSessionEvents | HSessionEventsPoll | HRunEvents | HRunEventsPoll
| HCreateSync | HSync.

Definition runtime_path (l : list Segment) : list Segment := Lit "v1" :: Lit "runtime" :: l.

Definition runtime_routes : list (Route RuntimeHandler) :=
  [mkRoute "GET" (runtime_path [Lit "healthz"]) HHealth;
   mkRoute "GET" (runtime_path [Lit "projects"]) HProjects;
   mkRoute "GET" (runtime_path [Lit "projects"; Wild "project_id"; Lit "execution-profiles"]) HExecutionProfiles;
   mkRoute "POST" (runtime_path [Lit "projects"; Wild "project_id"; Lit "source:read"]) HSource;
   mkRoute "GET" (runtime_path [Lit "sessions"]) HSessions;
   mkRoute "POST" (runtime_path [Lit "sessions"]) HCreateSession;
   mkRoute "GET" (runtime_path [Lit "sessions"; Wild "session_id"]) HSession;
   mkRoute "GET" (runtime_path [Lit "sessions"; Wild "session_id"; Lit "runs"]) HRuns;
   mkRoute "POST" (runtime_path [Lit "sessions"; Wild "session_id"; Lit "runs"]) HCreateRun;
   mkRoute "GET" (runtime_path [Lit "runs"; Wild "run_id"]) HRun;
   mkRoute "POST" (runtime_path [Lit "runs"; Wild "run_id"; Lit "cancel"]) HCancel;
   mkRoute "GET" (runtime_path [Lit "sessions"; Wild "session_id"; Lit "events"]) HSessionEvents;
   mkRoute "GET" (runtime_path [Lit "sessions"; Wild "session_id"; Lit "events:poll"]) HSessionEventsPoll;
   mkRoute "GET" (runtime_path [Lit "runs"; Wild "run_id"; Lit "events"]) HRunEvents;
   mkRoute "GET" (runtime_path [Lit "runs"; Wild "run_id"; Lit "events:poll"]) HRunEventsPoll;
   mkRoute "POST" (runtime_path [Lit "bootstrap-syncs"]) HCreateSync;
   mkRoute "GET" (runtime_path [Lit "bootstrap-syncs"; Wild "sync_id"]) HSync].

Section Serve.
Context {B : Type} `{BI : !BrokerI B, BQ : !BrokerQueryI B, J : !Jsonb, C : !Collation}.
Context (source : option (SourceReadPayload → SourceResult)).
Context (executionProfiles : option (string → ProfileResult)).

Definition answered (m : HSt B (option RRes)) : HSt B RRes :=
  let! r := m in ret (default (mkResponse 0 [] None Pending) r).

Definition run_runtime (h : RuntimeHandler) (env : HEnv) (rq : Request) : HSt B RRes :=
  match h with
  | HHealth => Api.health
  | HProjects => Api.projects
  | HExecutionProfiles => Api.projectExecutionProfiles executionProfiles env rq
  | HSource => Api.projectSource source env rq
  | HSessions => Api.sessions rq
  | HCreateSession => Api.createSession env rq
  | HSession => Api.session rq
  | HRuns => Api.runs rq
  | HCreateRun => Api.createRun env rq
  | HRun => Api.run rq
  | HCancel => Api.cancel env rq
  | HSessionEvents => sessionEvents (he_stream env) rq
  | HSessionEventsPoll => answered (sessionEventsPoll (he_clock env) (he_ticks env) rq)
  | HRunEvents => runEvents (he_stream env) rq
  | HRunEventsPoll => answered (runEventsPoll (he_clock env) (he_ticks env) rq)
  | HCreateSync => Api.createSync env rq
  | HSync => Api.sync rq
  end.

(** The ServeMux of the API *)
Definition ServeRuntime (env : HEnv) (rq : Request) : HSt B RRes :=
  serve runtime_routes (λ h, run_runtime h env) rq.
End Serve.
