(* ===== verification/SessionFeed.v ===== *)
(** * Following a session

    A client that polls a session's events from the cursor it was last given,
    and a client of its event stream: both see the session's log, every event
    once, in order and without a gap. *)

From S2P Require Import Prelude GoStd GoTime Json JsonText GoHTTP Payloads.
From S2P Require Import Sql Tables RuntimeDB RuntimeSql RuntimeHistory RunStore Outbox Bootstrap Listing.
From S2P Require Import Gateway Coordinator RuntimeHTTP RuntimeFeed FeedSpec.
#[local] Open Scope string_scope.
#[local] Open Scope Z_scope.

(** ** Dense lists of sequence numbers *)

Lemma sorted_seqZ (l : list Z) c h :
  StronglySorted Z.lt l → (∀ k, k ∈ l ↔ c < k ≤ h) → l = seqZ (c + 1) (h - c).
Proof.
  revert c. induction l as [|x l IH]; intros c Hs Hl.
  - rewrite seqZ_nil; [done|]. destruct (decide (c < h)); [|lia].
    assert (h ∈ []) as Hin by (apply Hl; lia). by apply elem_of_nil in Hin.
  - apply StronglySorted_inv in Hs as [Hs Hx]. rewrite Forall_forall in Hx.
    assert (c < x ≤ h) as Hc by (apply Hl; by left).
    assert (x = c + 1) as ->.
    { assert (c + 1 ∈ x :: l) as Hin by (apply Hl; lia). apply elem_of_cons in Hin as [|Hin]; [done|].
      specialize (Hx _ Hin). lia. }
    rewrite seqZ_cons by lia. f_equal. rewrite (IH (c + 1)); [f_equal; lia|done|].
    intros k. specialize (Hl k). rewrite elem_of_cons in Hl. split.
    + intros Hk. specialize (Hx k Hk). naive_solver lia.
    + intros Hk. destruct (proj2 Hl) as [->|]; [lia..|done].
Qed.

Lemma take_seqZ k n m : take k (seqZ n m) = seqZ n (Z.max 0 (Z.min (Z.of_nat k) m)).
Proof.
  revert n m. induction k as [|k IH]; intros n m; [by rewrite (seqZ_nil n (Z.max _ _)) by lia|].
  destruct (decide (0 < m)).
  - rewrite seqZ_cons by lia. cbn [take]. rewrite IH.
    rewrite (seqZ_cons n (Z.max _ _)) by lia. do 2 f_equal. lia.
  - rewrite !seqZ_nil by lia. done.
Qed.

(** ** A piece of a session's log *)

Definition log_rows (d : DB) (id : string) (rs : list (Z * session_event_row)) : Prop :=
  Forall (λ x, rows (session_events d) id !! x.1 = Some x.2) rs.

(** Rows [c + 1 .. c'] of the session. *)
Definition log_slice (d : DB) (id : string) (c c' : Z) (rs : list (Z * session_event_row)) : Prop :=
  c ≤ c' ∧ rs.*1 = seqZ (c + 1) (c' - c) ∧ log_rows d id rs.

Lemma log_slice_nil d id c : log_slice d id c c [].
Proof. split_and!; [lia|by rewrite seqZ_nil by lia|constructor]. Qed.

Lemma log_slice_grows d d' id c c' rs : grows d d' → log_slice d id c c' rs → log_slice d' id c c' rs.
Proof.
  intros Hg (Hc&Hk&Hr). split_and!; [done..|]. eapply Forall_impl; [exact Hr|].
  intros x Hx. eapply lookup_weaken; [exact Hx|apply (g_session_events _ _ Hg)].
Qed.

Lemma log_slice_app d id c1 c2 c3 rs1 rs2 :
  log_slice d id c1 c2 rs1 → log_slice d id c2 c3 rs2 → log_slice d id c1 c3 (rs1 ++ rs2).
Proof.
  intros (?&Hk1&?) (?&Hk2&?). split_and!; [lia| |by apply Forall_app].
  rewrite fmap_app, Hk1, Hk2. replace (c3 - c1) with ((c2 - c1) + (c3 - c2)) by lia.
  rewrite seqZ_app by lia. do 2 f_equal. lia.
Qed.

Lemma log_slice_rows d id c c' rs x : log_slice d id c c' rs → x ∈ rs → c < x.1 ≤ c'.
Proof.
  intros (_&Hk&_) Hx. assert (x.1 ∈ rs.*1) as Hin by (by apply list_elem_of_fmap_2).
  rewrite Hk, elem_of_seqZ in Hin. lia.
Qed.

Lemma keys_sorted {A} (l : list (Z * A)) : StronglySorted key_lt l → StronglySorted Z.lt l.*1.
Proof.
  induction 1 as [|x l Hs IH Hx]; simpl; constructor; [done|]. by apply Forall_fmap.
Qed.

(** The rows after a cursor, as many as there are. *)
Lemma after_dense d id c k :
  db_wf d → 0 ≤ c → let rs := take k (after c (entries (rows (session_events d) id))) in
  log_slice d id c (c + Z.of_nat (length rs)) rs.
Proof.
  intros Hwf Hc rs.
  assert (log_rows d id rs) as Hrows.
  { apply Forall_forall. intros [n e] Hx. apply elem_of_take in Hx as (i&Hi&_).
    apply list_elem_of_lookup_2, elem_of_after in Hi as [Hi _]. done. }
  split_and!; [lia| |done].
  replace (c + Z.of_nat (length rs) - c) with (Z.of_nat (length rs.*1)) by (rewrite length_fmap; lia).
  assert (∃ h, (after c (entries (rows (session_events d) id))).*1 = seqZ (c + 1) (h - c)) as [h Hh].
  { destruct (sessions d !! id) as [s|] eqn:Es.
    - exists (se_last_sequence s). apply sorted_seqZ; [apply keys_sorted, after_sorted|]. intros n. split.
      + intros ([n' e]&->&Hx)%list_elem_of_fmap. apply elem_of_after in Hx as [Hx Hlt]. simpl.
        destruct (proj1 (wf_session_sequence d Hwf id s n' Es)) as [_ ?]; [by eexists|lia].
      + intros Hn. destruct (proj2 (wf_session_sequence d Hwf id s n Es)) as [e He]; [lia|].
        apply list_elem_of_fmap. exists (n, e). split; [done|]. apply elem_of_after. split; [done|lia].
    - exists c. rewrite Z.sub_diag, seqZ_nil by lia. destruct (after _ _) as [|[n e] l] eqn:E; [done|].
      assert ((n, e) ∈ after c (entries (rows (session_events d) id))) as Hin by (rewrite E; by left).
      apply elem_of_after in Hin as [Hin _]. unfold rows in Hin.
      destruct (session_events d !! id) as [m|] eqn:Em; [|by cbn in Hin; rewrite lookup_empty in Hin].
      destruct (wf_session_event_session d Hwf id m Em). congruence. }
  unfold rs. rewrite !fmap_take, Hh, take_seqZ, length_seqZ. f_equal. lia.
Qed.

(** ** The handlers' view of the store *)

Section Feed.
Context {B : Type} `{BI : !BrokerI B, BQ : !BrokerQueryI B, J : !Jsonb, C : !Collation}.
Implicit Types (s : RState B).

Definition db_of s : DB := w_db (rs_store s).
Definition sane s : Prop := rely good (rs_store s) ∧ db_wf (db_of s).
Definition moved s s' : Prop := sane s' ∧ grows (db_of s) (db_of s').

Lemma moved_trans s1 s2 s3 : moved s1 s2 → moved s2 s3 → moved s1 s3.
Proof. intros [_ H1] [H2 H3]. split; [done|by etrans]. Qed.

Lemma with_store_moved {A} (m : ROp A) s a s' :
  op_guar good m → sane s → with_store m s = (a, s') → moved s s'.
Proof.
  intros Hm [Hr Hwf] H. unfold with_store in H. destruct (m (rs_store s)) as [r w] eqn:Em.
  destruct (Hm _ Hr) as [Hg Hr']. rewrite Em in Hg, Hr'. destruct (Hg Hwf) as [Hwf' Hgrow].
  by simplify_eq/=.
Qed.

(** A query that answers has read the database as it is now. *)
Lemma with_query_seen {A} (f : DB → A) s a s' :
  with_store (pool_stmt (query f)) s = (Ok a, s') → a = f (db_of s').
Proof.
  unfold with_store, pool_stmt, query, db_of. destruct (next _) as [[| |] fs]; intros H; by simplify_eq/=.
Qed.

Lemma normalized_rows id rs items :
  mapM (normalizeSessionRuntimeEvent id) (map scanSessionEvent rs) = Some items ↔
  Forall2 (λ x f, normalizeSessionRuntimeEvent id (scanSessionEvent x) = Some f) rs items.
Proof. by rewrite mapM_Some, Forall2_fmap_l. Qed.

Lemma page_take {A D} (f : A → D) limit (l : list A) events more :
  page limit (map f l) = (events, more) → ∃ k, events = map f (take k l).
Proof.
  unfold page. change (map f l) with (f <$> l). intros [= <- _]. destruct (_ <? _).
  - exists (Z.to_nat limit `min` Z.to_nat (limit + 1))%nat. by rewrite <- fmap_take, <- fmap_take, take_take.
  - exists (Z.to_nat (limit + 1)). by rewrite <- fmap_take.
Qed.

Lemma log_slice_bound d id c c' rs :
  db_wf d → log_slice d id c c' rs → c ≤ int64_max → c' ≤ int64_max.
Proof.
  intros Hwf (Hle&Hk&Hr) Hc. destruct (decide (c = c')) as [->|Hne]; [done|].
  assert (c' ∈ rs.*1) as Hin by (rewrite Hk, elem_of_seqZ; lia).
  apply list_elem_of_fmap in Hin as ([n e]&->&Hin). unfold log_rows in Hr. rewrite Forall_forall in Hr.
  specialize (Hr _ Hin). simpl in *. unfold rows in Hr.
  destruct (session_events d !! id) as [m|] eqn:Em; [|by cbn in Hr; rewrite lookup_empty in Hr].
  destruct (wf_session_event_session d Hwf id m Em) as [s Hs].
  destruct (proj1 (wf_session_sequence d Hwf id s n Hs)) as [_ Hn].
  { exists e. unfold rows. by rewrite Em. }
  pose proof (wf_session_cursor d Hwf id s Hs). lia.
Qed.

(** The last of consecutive numbers. *)
Lemma last_or_seqZ {A} (f : A → Z) c c' (l : list A) :
  c ≤ c' → f <$> l = seqZ (c + 1) (c' - c) → last_or f c l = c'.
Proof.
  intros Hle Hk. unfold last_or. destruct l as [|x l _] using rev_ind.
  - apply (f_equal length) in Hk. rewrite length_seqZ in Hk. simpl in Hk |- *. lia.
  - rewrite last_snoc. rewrite fmap_app in Hk. cbn [fmap list_fmap] in Hk. apply (f_equal last) in Hk.
    rewrite last_snoc, last_lookup, length_seqZ in Hk. symmetry in Hk. apply lookup_seqZ in Hk. lia.
Qed.

Lemma slice_keys {A} (f : A → Z) (g : Z * session_event_row → A) d id c c' rs :
  (∀ x, f (g x) = x.1) → log_slice d id c c' rs → last_or f c (map g rs) = c'.
Proof.
  intros Hfg (Hle&Hk&_). apply last_or_seqZ; [done|]. rewrite <- Hk.
  change (map g rs) with (g <$> rs). rewrite <- list_fmap_compose. apply list_fmap_ext. intros i x _. apply Hfg.
Qed.

(** What a client keeps of an answer. *)
Definition polled (res : RRes) : option pollResult :=
  match rs_Body res with Data (DPoll p) => Some p | _ => None end.

Lemma session_poll_slice id after wait limit deadline ticks s r s' :
  sane s → 0 ≤ after → 1 ≤ limit →
  session_poll id after wait limit deadline ticks s = (r, s') →
  moved s s' ∧ ∀ res p, r = Some res → polled res = Some p →
    ∃ rs, log_slice (db_of s') id after (po_NextCursor p) rs
      ∧ Forall2 (λ x f, normalizeSessionRuntimeEvent id (scanSessionEvent x) = Some f) rs (po_Events p).
Proof.
  intros Hs Ha Hl. revert s Hs. induction ticks as [|t ticks IH]; intros s Hs H.
  { cbv in H. simplify_eq. split; [by split|done]. }
  cbn [session_poll] in H. cbn [bind st_monad] in H.
  destruct (with_store (ListSessionEventsPage id after limit) s) as [page s1] eqn:Ep.
  pose proof (with_store_moved _ _ _ _ (ListSessionEventsPage_good id after limit) Hs Ep) as Hm.
  destruct page as [[events more]|e].
  - unfold ListSessionEventsPage in Ep. destruct (Z.ltb_spec limit 1); [lia|].
    apply with_query_seen in Ep. symmetry in Ep. apply page_take in Ep as [k Hev].
    destruct events as [|e l].
    + destruct (expired wait deadline t).
      * cbn [ret st_monad] in H. simplify_eq. split; [done|]. intros res p [= <-] [= <-]. exists []. simpl.
        split; [apply log_slice_nil|constructor].
      * destruct (IH s1 (proj1 Hm) H) as [Hm' Hr]. split; [by eapply moved_trans|done].
    + clear IH. cbn [ret st_monad] in H. apply pair_equal_spec in H as [<- <-]. split; [done|].
      intros res p Hres Hp. apply (inj Some) in Hres as <-.
      destruct (mapM _ (e :: l)) as [items|] eqn:Em; [|discriminate Hp]. injection Hp as <-. cbn [po_NextCursor po_Events].
      rewrite Hev in Em |- *. apply normalized_rows in Em. eexists. split; [|exact Em].
      pose proof (after_dense (db_of s1) id after k (proj2 (proj1 Hm)) Ha) as Hd. cbv zeta in Hd.
      by rewrite (slice_keys e_Sequence scanSessionEvent _ _ _ _ _ (λ _, eq_refl) Hd).
  - cbn [ret st_monad] in H. simplify_eq. split; [done|]. intros res p [= <-] Hp.
    unfold store_failed in Hp. by destruct (tk_gone t).
Qed.

(** ** A client of the long poll *)

(** GET /v1/runtime/sessions/{id}/events:poll with the given query values. *)
Definition session_poll_request (id : string) (cursor : Z) (wait_ms limit : string) : Request :=
  mkRequest "GET" ["v1"; "runtime"; "sessions"; id; "events:poll"] (λ _, "") (λ _, "")
    (λ name, if String.eqb name "after" then decimal cursor
             else if String.eqb name "wait_ms" then wait_ms
             else if String.eqb name "limit" then limit else "")
    (λ _, None) None.

Context (source : option (SourceReadPayload → SourceResult)).
Context (executionProfiles : option (string → ProfileResult)).

(** One poll after the other, each from the cursor of the last answer; after an
    error, or without an answer, the same again.  The events and the last
    cursor. *)
Fixpoint follow_session (id : string) (cursor : Z) (polls : list (HEnv * string * string))
    : HSt B (list fields * Z) :=
  match polls with
  | [] => ret ([], cursor)
  | (env, wait_ms, limit) :: polls =>
      let! res := ServeRuntime source executionProfiles env (session_poll_request id cursor wait_ms limit) in
      match polled res with
      | None => follow_session id cursor polls
      | Some p =>
          let! rest := follow_session id (po_NextCursor p) polls in
          ret (po_Events p ++ rest.1, rest.2)%list
      end
  end.

(** What a client has received from [cursor] up to [last]: the rows of the
    session's log in between. *)
Definition delivered (id : string) (cursor last : Z) (received : list fields) (d : DB) : Prop :=
  ∃ rs, log_slice d id cursor last rs
    ∧ Forall2 (λ x f, normalizeSessionRuntimeEvent id (scanSessionEvent x) = Some f) rs received.

Lemma route_session_poll id cursor wait_ms limit :
  id ≠ "" → route runtime_routes (session_poll_request id cursor wait_ms limit)
            = Routed HSessionEventsPoll [("session_id", id)].
Proof. intros Hid. destruct id as [|c id]; [done|]. vm_compute. reflexivity. Qed.

Lemma serve_session_poll env id cursor wait_ms limit s res s' :
  id ≠ "" → 0 ≤ cursor ≤ int64_max → sane s →
  ServeRuntime source executionProfiles env (session_poll_request id cursor wait_ms limit) s = (res, s') →
  moved s s' ∧ ∀ p, polled res = Some p →
    delivered id cursor (po_NextCursor p) (po_Events p) (db_of s') ∧ 0 ≤ po_NextCursor p ≤ int64_max.
Proof.
  intros Hid Hc Hs H. unfold ServeRuntime, serve in H. rewrite route_session_poll in H by done.
  cbn [run_runtime] in H. unfold answered in H. cbn [bind st_monad ret] in H.
  destruct (sessionEventsPoll _ _ _ _) as [r s1] eqn:Ep. injection H as <- <-.
  unfold sessionEventsPoll in Ep. set (rq := with_values _ _) in Ep.
  assert (bounded_param rq "after" 0 int64_max 0 = Some cursor) as Hafter.
  { by apply after_param. }
  destruct (parsePollQuery rq) as [[[after wait] lim]|] eqn:Eq.
  2:{ apply pair_equal_spec in Ep as [<- <-]. split; [by split|done]. }
  assert (after = cursor ∧ 1 ≤ lim) as [-> Hlim].
  { unfold parsePollQuery in Eq. rewrite Hafter in Eq.
    destruct (bounded_param rq "wait_ms" _ _ _); [|done].
    destruct (bounded_param rq "limit" _ _ _) as [n|] eqn:En; [|done]. injection Eq as <- _ <-.
    split; [done|]. assert (1 ≤ n ≤ maxPollSize); [by eapply bounded_param_spec; [|exact En]|lia]. }
  cbn [bind st_monad] in Ep.
  change (rq_PathValue rq "session_id") with id in Ep.
  destruct (with_store (GetSession id) s) as [found s2] eqn:Eg.
  pose proof (with_store_moved _ _ _ _ (GetSession_good id) Hs Eg) as Hm.
  destruct found as [x|e].
  2:{ apply pair_equal_spec in Ep as [<- <-]. split; [done|]. intros p Hp. by destruct e. }
  destruct (session_poll_slice _ _ _ _ _ _ _ _ _ (proj1 Hm) (proj1 Hc) Hlim Ep) as [Hm' Hr].
  split; [by eapply moved_trans|]. intros p Hp. destruct r as [res|]; [|done].
  destruct (Hr res p eq_refl Hp) as (rs&Hsl&Hf). split; [by exists rs|]. split.
  - destruct Hsl. lia.
  - eapply log_slice_bound; [apply Hm'|done|lia].
Qed.

(** C16. A session is followed exactly: a client that polls a session's events
    from the cursor it was last given, in any number of polls with any
    parameters, whatever round trips to PostgreSQL fail and whatever other
    clients of the store do in between, has received the events of the
    session's log numbered cursor + 1 to its last cursor: each once, in order,
    none left out, and unchanged since. *)
Theorem session_poll_exact id cursor polls s received last s' :
  id ≠ "" → 0 ≤ cursor ≤ int64_max → sane s →
  follow_session id cursor polls s = ((received, last), s') →
  delivered id cursor last received (db_of s') ∧ moved s s'.
Proof.
  intros Hid. revert cursor s received. induction polls as [|[[env wt] lt] polls IH];
    intros cursor s received Hc Hs H; cbn [follow_session] in H.
  { cbv in H. simplify_eq. split; [|by split]. exists []. split; [apply log_slice_nil|constructor]. }
  cbn [bind st_monad] in H.
  destruct (ServeRuntime _ _ _ _ s) as [res s1] eqn:E.
  destruct (serve_session_poll _ _ _ _ _ _ _ _ Hid Hc Hs E) as [Hm Hres].
  destruct (polled res) as [p|].
  - destruct (Hres p eq_refl) as [(rs1&Hs1&Hf1) Hc1]. cbn [bind st_monad ret] in H.
    destruct (follow_session _ _ _ s1) as [[rec2 l2] s2] eqn:E2. simpl in H. simplify_eq.
    destruct (IH _ _ _ Hc1 (proj1 Hm) E2) as [(rs2&Hs2&Hf2) Hm2].
    split; [|by eapply moved_trans]. exists (rs1 ++ rs2)%list. split; [|by apply Forall2_app].
    eapply log_slice_app; [|done]. eapply log_slice_grows; [apply Hm2|done].
  - destruct (IH _ _ _ Hc (proj1 Hm) H) as [Hd Hm2]. split; [done|by eapply moved_trans].
Qed.

(** ** A client of the event stream *)

Definition frame_event (f : frame) : option sseEvent := match f with Event e => Some e | HeartbeatFrame => None end.

Definition log_event (x : Z * session_event_row) : sseEvent :=
  mkSSE x.1 (sev_type x.2) (SRaw (sev_payload x.2)).

(** What the handler reads for the stream. *)
Lemma read_session_slice id after s b s' :
  sane s → 0 ≤ after → read_session_events id after s = (b, s') →
  moved s s' ∧ (b = ReadFailed ∨ ∃ rs, b = Events (map log_event rs)
    ∧ log_slice (db_of s') id after (lastSequence after (map log_event rs)) rs).
Proof.
  intros Hs Ha H. unfold read_session_events in H. cbn [bind st_monad] in H.
  destruct (with_store (ListSessionEvents id after) s) as [items s1] eqn:E.
  pose proof (with_store_moved _ _ _ _ (ListSessionEvents_good id after) Hs E) as Hm.
  destruct items as [items|e]; apply pair_equal_spec in H as [<- <-]; (split; [done|]); [|by left].
  right. apply with_query_seen in E. rewrite E, map_map.
  set (l := Prelude.after after (entries (rows (session_events (db_of s1)) id))).
  exists l. split; [done|].
  pose proof (after_dense (db_of s1) id after (length l) (proj2 (proj1 Hm)) Ha) as Hd. cbv zeta in Hd.
  fold l in Hd. rewrite firstn_all in Hd.
  unfold lastSequence. by rewrite (slice_keys sse_ID log_event _ _ _ _ _ (λ _, eq_refl) Hd).
Qed.

Lemma stream_slice id cursor evs s frames aborted s' :
  sane s → 0 ≤ cursor → stream (read_session_events id) cursor evs s = ((frames, aborted), s') →
  moved s s' ∧ aborted = false ∧ ∃ last rs, log_slice (db_of s') id cursor last rs
    ∧ omap frame_event frames = map log_event rs.
Proof.
  revert cursor s frames aborted s'.
  induction evs as [|[] evs IH]; intros cursor s frames aborted s' Hs Hc H; cbn [stream bind st_monad ret] in H.
  - apply pair_equal_spec in H as [[= <- <-] <-]. split_and!; [by split|done|]. exists cursor, []. split; [apply log_slice_nil|done].
  - destruct (read_session_events id cursor s) as [b s1] eqn:Er.
    destruct (read_session_slice _ _ _ _ _ Hs Hc Er) as [Hm [->|(rs1&->&Hs1)]].
    + apply pair_equal_spec in H as [[= <- <-] <-]. split_and!; [done..|]. exists cursor, []. split; [apply log_slice_nil|done].
    + set (c1 := lastSequence cursor (map log_event rs1)) in *.
      destruct (stream _ c1 evs s1) as [[f2 a2] s2] eqn:E2. simpl in H.
      apply pair_equal_spec in H as [[= <- <-] <-].
      assert (0 ≤ c1) as Hc1 by (destruct Hs1; lia).
      destruct (IH _ _ _ _ _ (proj1 Hm) Hc1 E2) as (Hm2&->&last&rs2&Hs2&Hf).
      split_and!; [by eapply moved_trans|done|]. exists last, (rs1 ++ rs2)%list. split.
      * eapply log_slice_app; [|done]. eapply log_slice_grows; [apply Hm2|done].
      * rewrite omap_app, Hf, map_app. f_equal. clear. induction rs1 as [|x l IH]; [done|]. simpl. f_equal. exact IH.
  - destruct (stream _ cursor evs s) as [[f2 a2] s2] eqn:E2. simpl in H.
    apply pair_equal_spec in H as [[= <- <-] <-].
    destruct (IH _ _ _ _ _ Hs Hc E2) as (Hm2&->&last&rs2&Hs2&Hf). split_and!; [done..|]. by exists last, rs2.
  - apply pair_equal_spec in H as [[= <- <-] <-]. split_and!; [by split|done|]. exists cursor, []. split; [apply log_slice_nil|done].
Qed.

(** A session's event stream is exact: from the Last-Event-ID of its client
    on, it writes the session's log, each event once, with its own number, type
    and payload, in order and none left out, until a read fails or the client
    leaves, whatever other clients of the store do meanwhile; and it is never
    aborted. *)
Lemma session_stream_exact evs rq s res s' :
  sane s → 0 ≤ lastEventID rq → sessionEvents evs rq s = (res, s') →
  moved s s' ∧ ∃ frames last rs, rs_Body res = Plain (DStream frames false)
    ∧ log_slice (db_of s') (rq_PathValue rq "session_id") (lastEventID rq) last rs
    ∧ omap frame_event frames = map log_event rs.
Proof.
  intros Hs Hc H. unfold sessionEvents, streamed in H. cbn [bind st_monad ret] in H.
  destruct (stream _ _ _ s) as [[frames aborted] s1] eqn:E. apply pair_equal_spec in H as [<- <-].
  destruct (stream_slice _ _ _ _ _ _ _ Hs Hc E) as (Hm&->&last&rs&Hsl&Hf). split; [done|].
  by exists frames, last, rs.
Qed.
End Feed.
