(* ===== verification/RunFeed.v ===== *)
(** * Following a run

    The polls end; the event stream of a run merges what is stored with what
    the broker still holds, and never skips or repeats a number. *)

From S2P Require Import Prelude GoStd GoTime Json JsonText GoHTTP Payloads.
From S2P Require Import Sql Tables RuntimeDB RuntimeSql RuntimeHistory RunStore Outbox Bootstrap Listing.
From S2P Require Import Gateway Coordinator RuntimeHTTP RuntimeFeed FeedSpec SessionFeed.
#[local] Open Scope string_scope.
#[local] Open Scope Z_scope.

(** ** Polls end *)

Section Polls.
Context {B : Type} `{BI : !BrokerI B, BQ : !BrokerQueryI B, J : !Jsonb}.
Implicit Types (s : RState B).

Definition late (deadline : Z) (ticks : list tick) : Prop := Exists (λ t, deadline < tk_clock t) ticks.

Lemma late_cons deadline t ticks : late deadline (t :: ticks) → deadline < tk_clock t ∨ late deadline ticks.
Proof. intros H. by inv H; [left|right]. Qed.

Lemma expired_late wait deadline t : deadline < tk_clock t → expired wait deadline t = true.
Proof. intros H. unfold expired. destruct (Z.ltb_spec deadline (tk_clock t)); [apply orb_true_r|lia]. Qed.

Lemma session_poll_ends id after wait limit deadline ticks s :
  late deadline ticks → (session_poll id after wait limit deadline ticks s).1 ≠ None.
Proof.
  revert s. induction ticks as [|t ticks IH]; intros s H; [by inv H|].
  cbn [session_poll bind st_monad]. destruct (with_store _ s) as [[[[|e l] more]|e] s1]; [|done..].
  destruct (expired wait deadline t) eqn:Ee; [done|]. apply IH.
  apply late_cons in H as [H|H]; [|done]. by rewrite (expired_late wait) in Ee.
Qed.

Lemma run_poll_ends id after wait limit deadline ticks s :
  late deadline ticks → (run_poll id after wait limit deadline ticks s).1 ≠ None.
Proof.
  revert s. induction ticks as [|t ticks IH]; intros s H; [by inv H|].
  cbn [run_poll bind st_monad]. destruct (with_store _ s) as [[r|e] s1]; [|by destruct e].
  cbv zeta. cbn [bind st_monad]. destruct (with_store _ s1) as [[[[|e l] more]|e] s2]; [|done..].
  destruct (isTerminal (r_Status r)); [done|]. cbn [orb].
  destruct (expired wait deadline t) eqn:Ee; [done|]. apply IH.
  apply late_cons in H as [H|H]; [|done]. by rewrite (expired_late wait) in Ee.
Qed.

(** C35. Long polls end: whatever the query, the database, its failures and the
    notifications are, a poll of a session or of a run has been answered by
    the first turn of its loop whose clock is more than fifteen seconds after
    its start. *)
Theorem polls_end start ticks rq s :
  Exists (λ t, start + maxPollWait < tk_clock t) ticks →
  (sessionEventsPoll start ticks rq s).1 ≠ None ∧ (runEventsPoll start ticks rq s).1 ≠ None.
Proof.
  intros H.
  assert (∀ after wait limit, parsePollQuery rq = Some (after, wait, limit) → late (start + wait) ticks) as Hlate.
  { intros after wait limit Eq. eapply Exists_impl; [exact H|]. intros t Ht. simpl in *.
    assert (wait ≤ maxPollWait); [|lia].
    unfold parsePollQuery in Eq. destruct (bounded_param rq "after" _ _ _); [|done].
    destruct (bounded_param rq "wait_ms" _ _ _) as [w|] eqn:Ew; [|done].
    destruct (bounded_param rq "limit" _ _ _); [|done]. injection Eq as _ <- _.
    assert (0 ≤ w ≤ maxPollWait / millisecond) as Hw by (by eapply bounded_param_spec; [|exact Ew]).
    change (maxPollWait / millisecond) with 15000 in Hw. unfold maxPollWait, millisecond, second. lia. }
  split.
  - unfold sessionEventsPoll. destruct (parsePollQuery rq) as [[[after wait] limit]|]; [|done].
    cbn [bind st_monad]. destruct (with_store _ s) as [[x|e] s1]; [|done].
    apply session_poll_ends. by eapply Hlate.
  - unfold runEventsPoll. destruct (parsePollQuery rq) as [[[after wait] limit]|]; [|done].
    apply run_poll_ends. by eapply Hlate.
Qed.
End Polls.

(** ** Merging *)

Lemma wrap_int64_id z : int64_min ≤ z ≤ int64_max → wrap_int64 z = z.
Proof.
  intros Hz. unfold wrap_int64, int64_min, int64_max in *. rewrite Z.mod_small; [lia|].
  change (2 ^ 64) with 18446744073709551616. lia.
Qed.
Lemma wrap_int64_max : wrap_int64 (int64_max + 1) = int64_min.
Proof. reflexivity. Qed.

Definition insert_event (m : gmap Z RunEvent) (e : RunEvent) : gmap Z RunEvent := <[re_Sequence e := e]> m.
Definition insert_new_event (m : gmap Z RunEvent) (e : RunEvent) : gmap Z RunEvent :=
  if m !! re_Sequence e is Some _ then m else <[re_Sequence e := e]> m.

Lemma persisted_lookup persisted k e :
  foldl insert_event ∅ persisted !! k = Some e → e ∈ persisted ∧ re_Sequence e = k.
Proof.
  induction persisted as [|x l IH] using rev_ind; [by cbn; rewrite lookup_empty|].
  rewrite foldl_snoc. unfold insert_event at 1. rewrite lookup_insert_Some, elem_of_app, list_elem_of_singleton.
  naive_solver.
Qed.

Lemma persisted_has persisted e :
  e ∈ persisted → is_Some (foldl insert_event ∅ persisted !! re_Sequence e).
Proof.
  induction persisted as [|x l IH] using rev_ind; [by intros ?%elem_of_nil|].
  rewrite foldl_snoc, elem_of_app, list_elem_of_singleton. unfold insert_event at 1. intros H.
  rewrite lookup_insert_is_Some. destruct (decide (re_Sequence x = re_Sequence e)); [by left|].
  right. split; [done|]. destruct H as [H| ->]; [by apply IH|done].
Qed.

Lemma live_keeps live m k e : m !! k = Some e → foldl insert_new_event m live !! k = Some e.
Proof.
  intros Em. induction live as [|y l IH] using rev_ind; [done|]. rewrite foldl_snoc.
  unfold insert_new_event at 1. destruct (_ !! re_Sequence y) eqn:Ey; [done|].
  rewrite lookup_insert_ne; [done|congruence].
Qed.

Lemma live_lookup live m k e :
  foldl insert_new_event m live !! k = Some e →
  m !! k = Some e ∨ (m !! k = None ∧ e ∈ live ∧ re_Sequence e = k).
Proof.
  induction live as [|x l IH] using rev_ind; [by left|].
  rewrite foldl_snoc. unfold insert_new_event at 1.
  destruct (foldl insert_new_event m l !! re_Sequence x) eqn:E.
  - intros H. destruct (IH H) as [|(?&?&?)]; [by left|right]. split_and!; [done|apply elem_of_app; by left|done].
  - rewrite lookup_insert_Some. intros [[Hk ->]|[Hne H]].
    + destruct (m !! k) eqn:Em.
      * apply (live_keeps l) in Em. congruence.
      * right. split_and!; [done|apply elem_of_app; right; by apply list_elem_of_singleton|done].
    + destruct (IH H) as [|(?&?&?)]; [by left|right]. split_and!; [done|apply elem_of_app; by left|done].
Qed.

Lemma live_has live m e : e ∈ live → is_Some (foldl insert_new_event m live !! re_Sequence e).
Proof.
  induction live as [|x l IH] using rev_ind; [by intros ?%elem_of_nil|].
  rewrite foldl_snoc, elem_of_app, list_elem_of_singleton. unfold insert_new_event at 1. intros H.
  destruct (foldl insert_new_event m l !! re_Sequence x) eqn:E.
  - destruct H as [H| ->]; [by apply IH|by eexists].
  - rewrite lookup_insert_is_Some. destruct (decide (re_Sequence x = re_Sequence e)); [by left|].
    right. split; [done|]. destruct H as [H| ->]; [by apply IH|done].
Qed.

(** ** The events without a gap *)

Section Contiguous.
Context (m : gmap Z RunEvent) (after : Z).
Hypothesis keys : ∀ k e, m !! k = Some e → re_Sequence e = k ∧ after < k.
Hypothesis after_min : int64_min ≤ after.

Lemma contiguous_min fuel : contiguous fuel m int64_min = [].
Proof.
  destruct fuel as [|fuel]; [done|]. simpl. destruct (m !! int64_min) eqn:E; [|done].
  apply keys in E. lia.
Qed.

Lemma contiguous_spec fuel seq (l := contiguous fuel m seq) :
  int64_min ≤ seq ≤ int64_max →
  re_Sequence <$> l = seqZ seq (Z.of_nat (length l))
  ∧ Forall (λ e, m !! re_Sequence e = Some e) l
  ∧ (length l = fuel ∨ m !! (seq + Z.of_nat (length l)) = None ∨ int64_max < seq + Z.of_nat (length l))
  ∧ seq + Z.of_nat (length l) ≤ int64_max + 1.
Proof.
  subst l. revert seq. induction fuel as [|fuel IH]; intros seq Hs.
  { simpl. split_and!; [by rewrite seqZ_nil by lia|constructor|by left|lia]. }
  cbn [contiguous]. destruct (m !! seq) as [e|] eqn:E.
  - assert (re_Sequence e = seq) as He by (by apply keys in E as [? _]).
    destruct (decide (seq = int64_max)) as [->|Hne].
    + rewrite wrap_int64_max, contiguous_min. simpl. rewrite He.
      split_and!; [by rewrite seqZ_cons, seqZ_nil by lia|repeat constructor; by rewrite He|right; right; lia|lia].
    + rewrite wrap_int64_id by lia. destruct (IH (seq + 1)) as (Hk&Hf&Hend&Hle); [lia|].
      set (l := contiguous fuel m (seq + 1)) in *. cbn [fmap list_fmap length]. rewrite He, Hk.
      split_and!.
      * rewrite (seqZ_cons seq) by lia. do 2 f_equal. lia.
      * constructor; [by rewrite He|done].
      * destruct Hend as [->|[Hn|Hn]]; [by left|right; left|right; right; lia].
        by replace (seq + Z.of_nat (S (length l))) with (seq + 1 + Z.of_nat (length l)) by lia.
      * lia.
  - simpl. split_and!; [by rewrite seqZ_nil by lia|constructor| |lia]. right. left.
    by rewrite Z.add_0_r.
Qed.

(** The fuel is enough: the map does not hold that many. *)
Lemma contiguous_fuel seq : int64_min ≤ seq ≤ int64_max → length (contiguous (S (size m)) m seq) ≠ S (size m).
Proof.
  intros Hs Hlen. destruct (contiguous_spec (S (size m)) seq Hs) as (Hk&Hf&_).
  set (l := contiguous _ _ _) in *.
  assert (list_to_set (re_Sequence <$> l) ⊆@{gset Z} dom m) as Hsub.
  { intros k (e&->&He)%elem_of_list_to_set%list_elem_of_fmap. rewrite Forall_forall in Hf.
    apply elem_of_dom. eexists. by apply Hf. }
  apply subseteq_size in Hsub. rewrite size_dom, size_list_to_set in Hsub.
  - rewrite length_fmap in Hsub. lia.
  - rewrite Hk. apply NoDup_seqZ.
Qed.
End Contiguous.

(** ** The stream of a run *)

Section Stream.
Context {B : Type} `{BI : !BrokerI B, BQ : !BrokerQueryI B, J : !Jsonb}.
Implicit Types (s : RState B).

(** What the API relies on of ReadRunEvents: it returns only what follows the
    cursor. *)
Definition reads_after : Prop := ∀ run after b live b', int64_min ≤ after ≤ int64_max →
  q_ReadRunEvents run after b = (Some live, b') → Forall (λ e, after < re_Sequence e) live.

Lemma by_sequence_fold persisted live :
  by_sequence persisted live = foldl insert_new_event (foldl insert_event ∅ persisted) live.
Proof. reflexivity. Qed.

Lemma run_sse_id runID e x : run_sse runID e = Some x → sse_ID x = re_Sequence e.
Proof. unfold run_sse. destruct (normalizeRuntimeEvent runID e); [|done]. by intros [= <-]. Qed.

Lemma persisted_after d runID after e :
  e ∈ map scanRunEvent (Prelude.after after (entries (rows (run_events d) runID))) ↔
  ∃ row, rows (run_events d) runID !! re_Sequence e = Some row ∧ after < re_Sequence e
    ∧ e = scanRunEvent (re_Sequence e, row).
Proof.
  change (map scanRunEvent ?l) with (scanRunEvent <$> l). rewrite list_elem_of_fmap. split.
  - intros ([n row]&->&H). apply elem_of_after in H as [H Hlt]. by exists row.
  - intros (row&H&Hlt&He). exists (re_Sequence e, row). split; [done|]. by apply elem_of_after.
Qed.

Definition from_store (d : DB) (runID : string) (e : RunEvent) : Prop :=
  ∃ row, rows (run_events d) runID !! re_Sequence e = Some row ∧ e = scanRunEvent (re_Sequence e, row).
Definition not_stored (d : DB) (runID : string) (n : Z) : Prop := rows (run_events d) runID !! n = None.

(** What a read delivers: the numbers after the cursor up to the first that
    neither the store nor the broker has; the stored event where there is one. *)
Record delivery (d : DB) (live : list RunEvent) (runID : string) (after : Z) (evs : list RunEvent) : Prop := {
  dl_ids : re_Sequence <$> evs = seqZ (after + 1) (Z.of_nat (length evs));
  dl_source : Forall (λ e, from_store d runID e ∨ (not_stored d runID (re_Sequence e) ∧ e ∈ live)) evs;
  dl_maximal : let n := after + Z.of_nat (length evs) + 1 in
    int64_max < n ∨ (not_stored d runID n ∧ Forall (λ e, re_Sequence e ≠ n) live);
  dl_bound : after + Z.of_nat (length evs) ≤ int64_max;
}.

Lemma read_run_delivery runID after s l s' :
  reads_after → int64_min ≤ after ≤ int64_max → read_run_events runID after s = (Events l, s') →
  ∃ live evs b, q_ReadRunEvents runID after (rs_broker s) = (Some live, b)
    ∧ delivery (w_db (rs_store s')) live runID after evs
    ∧ Forall2 (λ e x, run_sse runID e = Some x) evs l.
Proof.
  intros Hlaw Ha H. unfold read_run_events in H. cbn [bind st_monad] in H.
  destruct (with_store (ListRunEvents runID after) s) as [persisted s1] eqn:Ep.
  assert (rs_broker s1 = rs_broker s) as Hb.
  { unfold with_store in Ep. destruct (ListRunEvents _ _ _). by simplify_eq/=. }
  destruct persisted as [persisted|e]; [|done].
  apply with_query_seen in Ep. unfold db_of in Ep. cbn [bind st_monad] in H. unfold with_broker in H.
  destruct (q_ReadRunEvents runID after (rs_broker s1)) as [[live|] b] eqn:Eb; [|done].
  rewrite Hb in Eb. pose proof (Hlaw _ _ _ _ _ Ha Eb) as Hlive. rewrite Forall_forall in Hlive.
  cbv zeta in H. set (m := by_sequence persisted live) in *.
  assert (∀ k e, m !! k = Some e → re_Sequence e = k ∧ after < k) as Hkeys.
  { intros k e He. unfold m in He. rewrite by_sequence_fold in He.
    apply live_lookup in He as [He|(_&He&<-)]; [|split; [done|by apply Hlive]].
    apply persisted_lookup in He as [He <-]. split; [done|]. rewrite Ep in He.
    apply persisted_after in He as (row&_&Hlt&_). done. }
  set (evs := contiguous (S (size m)) m (wrap_int64 (after + 1))) in *.
  destruct (mapM (run_sse runID) evs) as [l'|] eqn:Em; [|done].
  apply pair_equal_spec in H as [[= <-] <-]. cbn [rs_store].
  exists live, evs, b. split; [done|]. split; [|by apply mapM_Some].
  assert (re_Sequence <$> evs = seqZ (after + 1) (Z.of_nat (length evs))
    ∧ Forall (λ e, m !! re_Sequence e = Some e) evs
    ∧ (m !! (after + Z.of_nat (length evs) + 1) = None ∨ int64_max < after + Z.of_nat (length evs) + 1)
    ∧ after + Z.of_nat (length evs) ≤ int64_max) as (Hids&Hf&Hend&Hle).
  { destruct (decide (after = int64_max)) as [->|Hne].
    - unfold evs. rewrite wrap_int64_max, (contiguous_min m int64_max Hkeys (proj1 Ha)). simpl.
      split_and!; [by rewrite seqZ_nil by lia|constructor|right; lia|lia].
    - assert (int64_min ≤ after + 1 ≤ int64_max) as Hs by lia.
      unfold evs. rewrite wrap_int64_id by lia.
      pose proof (contiguous_fuel m after Hkeys (proj1 Ha) (after + 1) Hs) as Hfuel.
      destruct (contiguous_spec m after Hkeys (proj1 Ha) (S (size m)) (after + 1) Hs) as (?&?&Hend&?).
      split_and!; [done..| |lia]. destruct Hend as [|[Hn|Hn]]; [done|left|right; lia].
      rewrite <- Hn. f_equal. lia. }
  split; [done| | |done].
  - eapply Forall_impl; [exact Hf|]. intros e He. simpl in He. unfold m in He. rewrite by_sequence_fold in He.
    apply live_lookup in He as [He|(Hn&He&_)].
    + left. apply persisted_lookup in He as [He _]. rewrite Ep in He.
      apply persisted_after in He as (row&Hr&_&He). by exists row.
    + right. split; [|done]. unfold not_stored.
      destruct (rows _ runID !! re_Sequence e) as [row|] eqn:Er; [|done]. exfalso.
      assert (scanRunEvent (re_Sequence e, row) ∈ persisted) as Hin.
      { rewrite Ep. apply persisted_after. exists row. simpl. split_and!; [done|by apply Hlive|done]. }
      apply persisted_has in Hin. simpl in Hin. rewrite Hn in Hin. by destruct Hin.
  - cbv zeta. destruct Hend as [Hn|Hn]; [right|by left].
    unfold m in Hn. rewrite by_sequence_fold in Hn. split.
    + unfold not_stored. destruct (rows _ runID !! _) as [row|] eqn:Er; [|done]. exfalso.
      set (n := after + Z.of_nat (length evs) + 1) in *.
      assert (scanRunEvent (n, row) ∈ persisted) as Hin.
      { rewrite Ep. apply persisted_after. exists row. simpl. split_and!; [done|lia|done]. }
      apply persisted_has in Hin as [x Hx]. simpl in Hx. apply (live_keeps live) in Hx. congruence.
    + apply Forall_forall. intros e He Hen. rewrite <- Hen in Hn.
      destruct (live_has live (foldl insert_event ∅ persisted) e He). congruence.
Qed.

(** C17. A tick of a run's stream delivers everything there is: the events it
    writes are numbered from the cursor on without a gap, each the stored one
    if the number is stored and one of the broker's otherwise, and they stop
    only before a number that neither has. *)
Theorem read_run_events_spec runID after s l s' :
  reads_after → int64_min ≤ after ≤ int64_max → read_run_events runID after s = (Events l, s') →
  ∃ live evs b, q_ReadRunEvents runID after (rs_broker s) = (Some live, b)
    ∧ delivery (w_db (rs_store s')) live runID after evs
    ∧ Forall2 (λ e x, run_sse runID e = Some x) evs l.
Proof. apply read_run_delivery. Qed.

Lemma delivery_ids d live runID after evs l :
  delivery d live runID after evs → Forall2 (λ e x, run_sse runID e = Some x) evs l →
  sse_ID <$> l = seqZ (after + 1) (Z.of_nat (length l)).
Proof.
  intros Hd Hf. pose proof (Forall2_length _ _ _ Hf) as Hlen. rewrite <- Hlen, <- (dl_ids _ _ _ _ _ Hd).
  clear -Hf. induction Hf as [|e x evs l He Hf IH]; [done|]. cbn [fmap list_fmap]. f_equal; [|exact IH].
  by eapply run_sse_id.
Qed.

Lemma ParseInt_value_bounds text : int64_min ≤ ParseInt_value text ≤ int64_max.
Proof.
  assert (∀ v, int64_min ≤ clamp_int64 v ≤ int64_max) as Hc by (intros; unfold clamp_int64, int64_min, int64_max; lia).
  unfold ParseInt_value, int64_min, int64_max in *. repeat case_match; first [apply Hc|lia].
Qed.

Lemma stream_gapless runID cursor evs s frames aborted s' :
  reads_after → int64_min ≤ cursor ≤ int64_max →
  stream (read_run_events runID) cursor evs s = ((frames, aborted), s') →
  sse_ID <$> omap frame_event frames = seqZ (cursor + 1) (Z.of_nat (length (omap frame_event frames))).
Proof.
  intros Hlaw. revert cursor s frames aborted s'.
  assert (∀ cursor, sse_ID <$> omap frame_event [] = seqZ (cursor + 1) (Z.of_nat (length (omap frame_event [])))) as Hnil.
  { intros cursor. simpl. by rewrite seqZ_nil by lia. }
  induction evs as [|[] evs IH]; intros cursor s frames aborted s' Hc H; cbn [stream bind st_monad ret] in H.
  - apply pair_equal_spec in H as [[= <- <-] <-]. apply Hnil.
  - destruct (read_run_events runID cursor s) as [b s1] eqn:Er.
    destruct b as [l| |]; [|apply pair_equal_spec in H as [[= <- <-] <-]; apply Hnil..].
    destruct (read_run_delivery _ _ _ _ _ Hlaw Hc Er) as (live&es&b&_&Hd&Hf).
    pose proof (delivery_ids _ _ _ _ _ _ Hd Hf) as Hids.
    assert (lastSequence cursor l = cursor + Z.of_nat (length l)) as Hlast.
    { unfold lastSequence. apply (last_or_seqZ sse_ID); [lia|]. rewrite Hids. f_equal. lia. }
    destruct (stream _ _ evs s1) as [[f2 a2] s2] eqn:E2. simpl in H.
    apply pair_equal_spec in H as [[= <- <-] <-].
    rewrite omap_app. assert (omap frame_event (Event <$> l) = l) as ->.
    { clear. induction l as [|x l IH]; [done|]. simpl. by f_equal. }
    rewrite Hlast in E2. pose proof (Forall2_length _ _ _ Hf) as Hlen. pose proof (dl_bound _ _ _ _ _ Hd).
    apply IH in E2; [|lia]. rewrite fmap_app, Hids, E2, length_app, Nat2Z.inj_add, seqZ_app by lia.
    do 2 f_equal. lia.
  - destruct (stream _ cursor evs s) as [[f2 a2] s2] eqn:E2. simpl in H.
    apply pair_equal_spec in H as [[= <- <-] <-]. by apply (IH cursor s _ _ _ Hc E2).
  - apply pair_equal_spec in H as [[= <- <-] <-]. apply Hnil.
Qed.

(** A run's stream never skips or repeats a number: whatever the store and
    the broker hold, whatever fails and whatever arrives late or out of order,
    the events written to the stream are numbered Last-Event-ID + 1,
    Last-Event-ID + 2, ... *)
Lemma run_stream_gapless evs rq s res s' :
  reads_after → runEvents evs rq s = (res, s') →
  ∃ frames aborted, rs_Body res = Plain (DStream frames aborted)
    ∧ sse_ID <$> omap frame_event frames
      = seqZ (lastEventID rq + 1) (Z.of_nat (length (omap frame_event frames))).
Proof.
  intros Hlaw H. unfold runEvents, streamed in H. cbn [bind st_monad ret] in H.
  destruct (stream _ _ _ s) as [[frames aborted] s1] eqn:E. apply pair_equal_spec in H as [<- <-].
  exists frames, aborted. split; [done|]. eapply stream_gapless; [done| |done].
  apply ParseInt_value_bounds.
Qed.
End Stream.
