(* ===== verification/Notify.v ===== *)
(** * internal/runtime/redis.go: waiting for a notification

    waitForNotification and notify on one channel, as the steps of a waiter and
    of any number of notifiers in any number of processes: the waiter reads the
    channel's version, subscribes, reads the version again and only then waits
    for a message; a notifier first writes a new version, its clock's reading,
    then publishes.  Redis delivers a message to who is subscribed when it is
    published.  Every command may fail, before or after Redis has executed it,
    and one that fails may have been sent again.  The version expires an hour
    after it was written, longer than any poll waits, so that one which expires
    was written before the waiter began. *)

From S2P Require Import Prelude.
#[local] Open Scope Z_scope.

(** Where the waiter is; [before] is the version it read first. *)
Inductive wait_pc :=
| WStart
| WRead (before : option Z)
| WSubscribed (before : option Z)
| WWaiting
| WReturned (notified : bool).

Record NState := mkN {
  n_version : option Z;   (** the version key *)
  n_pending : nat;        (** notifiers between SET and PUBLISH *)
  n_waiter : wait_pc;
  n_mailbox : nat;        (** messages the subscription has received *)
  n_changed : bool;       (** a version was written since the waiter's first read *)
  n_same : bool;          (** and it was the very version the waiter had read *)
  n_blind : bool;         (** the waiter waits although its second read failed *)
  n_missed : bool;        (** while it waited, a notifier failed or its message did not arrive *)
}.

Definition subscribed (pc : wait_pc) : bool :=
  match pc with WSubscribed _ | WWaiting => true | _ => false end.
Definition is_waiting (pc : wait_pc) : bool := match pc with WWaiting => true | _ => false end.
(** What the waiter has read and will compare with. *)
Definition compares (pc : wait_pc) (v : Z) : bool :=
  match pc with WRead b | WSubscribed b => bool_decide (b = Some v) | _ => false end.

Definition at_pc (pc : wait_pc) (s : NState) : NState :=
  mkN (n_version s) (n_pending s) pc (n_mailbox s) (n_changed s) (n_same s) (n_blind s) (n_missed s).
(** The first read: from here on it counts what is written. *)
Definition first_read (seen : option Z) (s : NState) : NState :=
  mkN (n_version s) (n_pending s) (WRead seen) (n_mailbox s) false false (n_blind s) (n_missed s).

(** The comparison with what the second read gave. *)
Definition recheck (before seen : option Z) : wait_pc :=
  if bool_decide (seen = before) then WWaiting else WReturned true.
Definition blindly (s : NState) : NState :=
  mkN (n_version s) (n_pending s) (n_waiter s) (n_mailbox s) (n_changed s) (n_same s) true (n_missed s).
Definition missed (s : NState) : NState :=
  mkN (n_version s) (n_pending s) (n_waiter s) (n_mailbox s) (n_changed s) (n_same s) (n_blind s)
    (n_missed s || is_waiting (n_waiter s)).

(** notify: SET, then PUBLISH.  The versions are the clocks of the notifiers'
    machines: one may be lower than the one before, or the same. *)
Definition set_version (v : Z) (s : NState) : NState :=
  mkN (Some v) (n_pending s) (n_waiter s) (n_mailbox s) true (n_same s || compares (n_waiter s) v) (n_blind s) (n_missed s).
Definition with_pending (n : nat) (s : NState) : NState :=
  mkN (n_version s) n (n_waiter s) (n_mailbox s) (n_changed s) (n_same s) (n_blind s) (n_missed s).
Definition publish (s : NState) : NState :=
  mkN (n_version s) (n_pending s) (n_waiter s) (if subscribed (n_waiter s) then S (n_mailbox s) else n_mailbox s)
    (n_changed s) (n_same s) (n_blind s) (n_missed s).

(** One step; the errors of the two reads are ignored, as if there was no
    version. *)
Inductive step : NState → NState → Prop :=
| step_read s : n_waiter s = WStart → step s (first_read (n_version s) s)
| step_read_fails s : n_waiter s = WStart → step s (first_read None s)
| step_subscribe s b : n_waiter s = WRead b → step s (at_pc (WSubscribed b) s)
| step_subscribe_fails s b : n_waiter s = WRead b → step s (at_pc (WReturned false) s)
| step_recheck s b : n_waiter s = WSubscribed b → step s (at_pc (recheck b (n_version s)) s)
| step_recheck_fails s b : n_waiter s = WSubscribed b → step s (blindly (at_pc (recheck b None) s))
| step_receive s n : n_waiter s = WWaiting → n_mailbox s = S n →
    step s (mkN (n_version s) (n_pending s) (WReturned true) n (n_changed s) (n_same s) (n_blind s) (n_missed s))
| step_cancel s : n_waiter s = WWaiting → step s (at_pc (WReturned false) s)
(** SET; its reply may be lost, and notify then publishes nothing *)
| step_set s v : step s (with_pending (S (n_pending s)) (set_version v s))
| step_set_fails s v : step s (missed (set_version v s))
(** PUBLISH; it may fail, or reach Redis while the subscription is being
    restored; it may be sent again *)
| step_publish s n : n_pending s = S n → step s (with_pending n (publish s))
| step_publish_fails s n : n_pending s = S n → step s (with_pending n (missed s))
| step_publish_again s n : n_pending s = S n → step s (publish s)
| step_expire s : n_changed s = false ∨ n_waiter s = WStart →
    step s (mkN None (n_pending s) (n_waiter s) (n_mailbox s) (n_changed s) (n_same s) (n_blind s) (n_missed s)).

Definition initial (s : NState) : Prop := n_waiter s = WStart ∧ n_missed s = false.

(** ** No notification is lost *)

Record n_inv (s : NState) : Prop := {
  ni_read : ∀ b, n_waiter s = WRead b ∨ n_waiter s = WSubscribed b →
    n_changed s = true → n_same s = false → n_version s ≠ None ∧ n_version s ≠ b;
  ni_waiting : n_waiter s = WWaiting → n_changed s = true → n_same s = false → n_blind s = false →
    n_missed s = false → (0 < n_pending s + n_mailbox s)%nat;
}.

Lemma initial_inv s : initial s → n_inv s.
Proof. intros (Hw&Hm). split; rewrite Hw; naive_solver. Qed.

Lemma recheck_waits before seen : recheck before seen = WWaiting → seen = before.
Proof. unfold recheck. by case_bool_decide. Qed.

Lemma set_version_read v s b :
  n_waiter s = WRead b ∨ n_waiter s = WSubscribed b → n_same s || compares (n_waiter s) v = false →
  Some v ≠ None ∧ Some v ≠ b.
Proof.
  intros Hpc [_ Hs]%orb_false_iff. split; [done|]. intros <-. unfold compares in Hs.
  destruct Hpc as [E|E]; rewrite E in Hs; by rewrite bool_decide_eq_true_2 in Hs.
Qed.

Lemma step_inv s s' : step s s' → n_inv s → n_inv s'.
Proof.
  intros Hstep [Hr Hw]. destruct Hstep; split; simpl in *; try done;
    try (intros b' [H'|H']; discriminate H').
  - intros b' [H'|[= <-]]; [discriminate H'|]. apply Hr. by left.
  - intros b' [H'|H']; unfold recheck in H'; case_bool_decide; discriminate H'.
  - intros E%recheck_waits Hc Hs _ _. by destruct (Hr _ (or_intror H) Hc Hs) as [_ []].
  - intros b' [H'|H']; unfold recheck in H'; case_bool_decide; discriminate H'.
  - intros b Hpc _. by apply set_version_read.
  - lia.
  - intros b Hpc _. by apply set_version_read.
  - intros Hpc _ _ _. rewrite Hpc. by rewrite orb_true_r.
  - intros Hpc _ _ _ _. rewrite Hpc. simpl. lia.
  - intros Hpc _ _ _. rewrite Hpc. by rewrite orb_true_r.
  - intros Hpc _ _ _ _. rewrite Hpc. simpl. lia.
  - intros b Hpc Hc _. destruct H as [H|H]; rewrite H in *; [done|by destruct Hpc].
Qed.

Lemma reachable_inv s0 s : initial s0 → rtc step s0 s → n_inv s.
Proof.
  intros H0%initial_inv Hs. revert H0. induction Hs as [|s1 s2 s3 Hs _ IH]; [done|].
  intros Hi. apply IH. by eapply step_inv.
Qed.

(** C19. No notification is lost: in every reachable state of a waiter and any
    number of notifiers, a waiter that waits although a version was written
    since it began has a message to receive, or one that is about to be
    published to it; and with a message it returns.  The exceptions are the
    code's: the waiter's second read of the version failed, the version written
    was the very one it had read, or, while it waited, a notifier failed to
    write or publish or its message was not delivered. *)
Theorem no_lost_wakeup s0 s :
  initial s0 → rtc step s0 s →
  n_waiter s = WWaiting → n_changed s = true → n_same s = false → n_blind s = false → n_missed s = false →
  ((0 < n_mailbox s)%nat ∨ ∃ s', step s s' ∧ n_waiter s' = WWaiting ∧ (0 < n_mailbox s')%nat) ∧
  ((0 < n_mailbox s)%nat → ∃ s', step s s' ∧ n_waiter s' = WReturned true).
Proof.
  intros H0 Hsteps Hw Hc Hs Hb Hm. split.
  - pose proof (ni_waiting s (reachable_inv s0 s H0 Hsteps) Hw Hc Hs Hb Hm) as Hn.
    destruct (n_pending s) as [|n] eqn:E; [left; lia|right]. exists (with_pending n (publish s)).
    split; [by apply step_publish|]. cbn. rewrite Hw. split; [done|]. cbn. lia.
  - intros Hmail. destruct (n_mailbox s) as [|n] eqn:E; [lia|]. eexists. split; [by eapply step_receive|done].
Qed.
