(* ===== verification/Redis.v ===== *)
(** * internal/runtime/redis.go: the broker

    RedisBroker over the commands of its client.  The client library and the
    server are parameters: [RedisI] is the commands the code sends, [RedisLaws]
    what it relies on of streams.  A RawMessage is a text in the program and a
    tree here: [RawText] relates the two. *)

From S2P Require Import Prelude GoStd GoTime GoTimeSpec Json JsonText.
From S2P Require Import Sql Tables RuntimeDB RunStore Coordinator RuntimeHTTP RuntimeFeed FeedSpec RunFeed.
From Stdlib Require Import Ascii.
#[local] Open Scope string_scope.

(** strings.Contains *)
Fixpoint contains_bytes (p l : bytes) : bool :=
  bytes_prefix p l || match l with [] => false | _ :: l => contains_bytes p l end.
Definition Contains (s p : string) : bool := contains_bytes (str_bytes p) (str_bytes s).

(** The text of a RawMessage. *)
Class RawText := {
  raw_text : json → string;
  parse_raw : string → json;
  parse_raw_text : ∀ j, parse_raw (raw_text j) = j;
}.

(** ** The client *)

(** An entry of a stream: its id and its fields, by name. *)
Record XMessage := mkXMessage { x_ID : string; x_Values : list (string * string) }.

Inductive redis_error := RedisNil | RedisErr (text : string).

Class RedisI (R : Type) := {
  r_Ping : St R bool;
  r_XAdd : string → string → list (string * string) → St R (option string);  (** the error's text *)
  r_XRange : string → string → string → St R (result redis_error (list XMessage));
  r_XRangeN : string → string → string → Z → St R (result redis_error (list XMessage));
  r_Get : string → St R (result redis_error string);
  r_Set : string → string → Z → St R bool;
  r_Del : string → St R bool;
  r_Publish : string → string → St R bool;
}.

(** ** RedisBroker *)

Definition runStream (runID : string) : string := "runtime:result:run:" +:+ runID.
Definition entry_id (n : Z) : string := decimal n +:+ "-0".
Definition after_id (n : Z) : string := "(" +:+ decimal n +:+ "-0".

Section Broker.
Context {R : Type} `{RI : !RedisI R, RT : !RawText}.

Definition payload_text (p : RawMessage) : string := match p with RawNil => "" | Raw j => raw_text j end.

(** The fields of an event, sorted by name as json.Marshal writes a map. *)
Definition run_values (eventType payload occurredAt : string) : list (string * string) :=
  [("event_type", eventType); ("occurred_at", occurredAt); ("payload", payload); ("schema_version", "1")].

Definition map_text (values : list (string * string)) : bytes :=
  struct_text (map (λ kv, (kv.1, false, kv.2)) values).

(** Whether it returned without an error. *)
Definition AppendRunEvent (runID : string) (sequence : Z) (eventType : string) (payload : RawMessage)
    (occurredAt : Z) : St R bool :=
  let id := entry_id sequence in
  let values := run_values eventType (payload_text payload) (FormatRFC3339Nano occurredAt) in
  let! err := r_XAdd (runStream runID) id values in
  match err with
  | None => ret true
  | Some text =>
      if negb (Contains text "equal or smaller") then ret false else
      let! existing := r_XRangeN (runStream runID) id id 1 in
      match existing with
      | Ok [x] => ret (bool_decide (map_text (x_Values x) = map_text values))
      | _ => ret false
      end
  end.

(** fmt.Sprint(item.Values[name]) *)
Definition value_of (x : XMessage) (name : string) : string :=
  match list_find (λ kv, kv.1 = name) (x_Values x) with Some (_, (_, v)) => v | None => "<nil>" end.

(** The sequence number of an entry: its id up to the dash. *)
Definition entry_sequence (id : string) : option Z :=
  match Split id "-" with n :: _ => ParseInt n | [] => None end.

Definition decode_event (x : XMessage) : option RunEvent :=
  match entry_sequence (x_ID x) with
  | Some sequence =>
      Some (mkRunEvent sequence (value_of x "event_type") (parse_raw (value_of x "payload"))
              (default zero_time (ParseRFC3339 (value_of x "occurred_at"))))
  | None => None
  end.

Definition ReadRunEvents (runID : string) (after : Z) : St R (option (list RunEvent)) :=
  let! items := r_XRange (runStream runID) (after_id after) "+" in
  match items with
  | Err RedisNil => ret (Some [])
  | Err (RedisErr _) => ret None
  | Ok items => ret (mapM decode_event items)
  end.

Definition channelVersionKey (channel : string) : string := channel +:+ ":version".

(** [now] is time.Now(). *)
Definition notify (now : Z) (kind resourceID : string) : St R bool :=
  let channel := "runtime:notify:" +:+ kind +:+ ":" +:+ resourceID in
  let! ok := r_Set (channelVersionKey channel) (decimal now) hour in
  if negb ok then ret false else r_Publish channel "changed".
Definition NotifySession (now : Z) (sessionID : string) : St R bool := notify now "session" sessionID.
Definition NotifyRun (now : Z) (runID : string) : St R bool := notify now "run" runID.

Definition presence_key := "runtime:presence:agent".
Definition SetAgentPresence (now : Z) (online : bool) : St R bool :=
  if negb online then r_Del presence_key
  else r_Set presence_key (FormatRFC3339Nano now) (45 * second).

Definition AgentPresence : St R (bool * Z) :=
  let! value := r_Get presence_key in
  match value with
  | Err _ => ret (false, zero_time)
  | Ok value => ret (true, default zero_time (ParseRFC3339 value))
  end.

Definition RedisHealth : St R bool := r_Ping.
End Broker.

(** The broker with the coming readings of the relay's clock. *)
Record RedisBroker (R : Type) := mkBroker { rb_client : R; rb_clock : list Z }.
Arguments mkBroker {R} rb_client rb_clock.
Arguments rb_client {R} r.
Arguments rb_clock {R} r.

Section Instances.
Context {R : Type} `{RI : !RedisI R, RT : !RawText}.

Definition on_client {A} (m : Z → St R A) : St (RedisBroker R) A := λ b,
  let now := hd 0%Z (rb_clock b) in
  let '(a, r) := m now (rb_client b) in (a, mkBroker r (tl (rb_clock b))).
Definition ignored {A} (m : Z → St R A) : St (RedisBroker R) unit := let! _ := on_client m in ret tt.

#[export] Instance redis_broker : BrokerI (RedisBroker R) := {|
  b_AppendRunEvent run n type payload at_ := on_client (λ _, AppendRunEvent run n type payload at_);
  b_NotifyRun run := ignored (λ now, NotifyRun now run);
  b_NotifySession session := ignored (λ now, NotifySession now session);
  b_SetAgentPresence online := ignored (λ now, SetAgentPresence now online);
|}.
#[export] Instance redis_query : BrokerQueryI (RedisBroker R) := {|
  q_Health := on_client (λ _, RedisHealth);
  q_ReadRunEvents run after := on_client (λ _, ReadRunEvents run after);
  q_AgentPresence := on_client (λ _, AgentPresence);
|}.
End Instances.

(** ** What the broker relies on *)

Definition stream_entry : Type := Z * list (string * string).
Definition x_message (e : stream_entry) : XMessage := mkXMessage (entry_id e.1) e.2.

(** The streams only the relay writes: entries n-0 with n an int64, in
    increasing order.  XADD appends above the last id, or reports that the id is
    not above it; XRANGE reads an interval.  Any command may also fail, and an
    XADD that fails may have been executed. *)
Class RedisLaws (R : Type) `{RI : !RedisI R} := {
  streams : R → string → list stream_entry;
  law_ids : ∀ r s, StronglySorted key_lt (streams r s) ∧ Forall (λ x, (0 ≤ x.1 ≤ int64_max)%Z) (streams r s);
  law_xadd : ∀ s n v r e r', (0 ≤ n ≤ int64_max)%Z → r_XAdd s (entry_id n) v r = (e, r') →
    (∀ s', s' ≠ s → streams r' s' = streams r s') ∧
    ((e = None ∧ streams r' s = streams r s ++ [(n, v)] ∧ Forall (λ x, (x.1 < n)%Z) (streams r s))
     ∨ ∃ text, e = Some text ∧
         ((streams r' s = streams r s ∧
           (Contains text "equal or smaller" = true → ∃ x, x ∈ streams r s ∧ (n ≤ x.1)%Z))
          ∨ (Contains text "equal or smaller" = false ∧ streams r' s = streams r s ++ [(n, v)]
             ∧ Forall (λ x, (x.1 < n)%Z) (streams r s))))%list;
  law_xrange : ∀ s a r res r', (int64_min ≤ a ≤ int64_max)%Z → r_XRange s (after_id a) "+" r = (res, r') →
    streams r' = streams r ∧ (res = Err RedisNil → streams r s = []) ∧
    ∀ l, res = Ok l → l = x_message <$> filter (λ x, (a < x.1)%Z) (streams r s);
  law_xrangen : ∀ s n r res r', (0 ≤ n ≤ int64_max)%Z → r_XRangeN s (entry_id n) (entry_id n) 1 r = (res, r') →
    streams r' = streams r ∧
    ∀ l, res = Ok l → l = x_message <$> take 1 (filter (λ x, (x.1 = n)%Z) (streams r s));
}.
