(* ===== verification/RedisSpec.v ===== *)
(** * The broker keeps what it accepts

    RedisBroker implements the Broker the coordinator and the API rely on, as
    long as the commands do what Redis documents. *)

From S2P Require Import Prelude GoStd GoTime GoTimeSpec Json JsonText.
From S2P Require Import Sql Tables RuntimeDB RunStore Coordinator RuntimeHTTP RuntimeFeed FeedSpec RunFeed Redis.
From Stdlib Require Import Ascii.
#[local] Open Scope string_scope.

(** ** Texts *)

#[local] Opaque quoted_bytes.

Lemma field_inj name v1 v2 rest1 rest2 :
  valid_utf8 v1 = true → valid_utf8 v2 = true →
  ((quoted_bytes name ++ ":"%char :: quoted_bytes v1) ++ rest1
   = (quoted_bytes name ++ ":"%char :: quoted_bytes v2) ++ rest2)%list → v1 = v2 ∧ rest1 = rest2.
Proof.
  intros V1 V2 H. rewrite <- !app_assoc in H. apply app_inv_head in H. cbn [app] in H. apply (f_equal tl) in H. cbn [tl] in H.
  by apply quoted_inj in H.
Qed.

(** The text of an object of strings determines its values. *)
Definition member (kv : string * string) : bytes := (quoted_bytes kv.1 ++ ":"%char :: quoted_bytes kv.2)%list.

Lemma members_inj (l l' : list (string * string)) rest rest' :
  l.*1 = l'.*1 → Forall (λ kv, valid_utf8 kv.2 = true) l → Forall (λ kv, valid_utf8 kv.2 = true) l' →
  (join_bytes "," (map member l) ++ "}"%char :: rest
   = join_bytes "," (map member l') ++ "}"%char :: rest')%list → l = l'.
Proof.
  revert l'. induction l as [|[k v] l IH]; intros [|[k' v'] l'] Hk V V' H; try done.
  cbn [fmap list_fmap] in Hk. injection Hk as -> Hk. inv V. inv V'. simpl in *.
  destruct l as [|x l], l' as [|x' l']; try done; cbn [map join_bytes] in H.
  - unfold member in H. cbn [fst snd] in H. by apply field_inj in H as [-> _].
  - rewrite <- !(app_assoc (member _)) in H. unfold member at 1 3 in H. cbn [fst snd] in H.
    apply field_inj in H as [-> H]; [|done..]. f_equal. cbn [app] in H.
    apply (f_equal (@tail _)) in H. cbn [tail] in H. by apply IH.
Qed.

Lemma concat_single {A B} (f : A → B) (l : list A) : concat (map (λ x, [f x]) l) = map f l.
Proof. induction l as [|x l IH]; [done|]. cbn [map concat app]. by rewrite IH. Qed.

Lemma map_text_inj l l' :
  l.*1 = l'.*1 → Forall (λ kv, valid_utf8 kv.2 = true) l → Forall (λ kv, valid_utf8 kv.2 = true) l' →
  map_text l = map_text l' → l = l'.
Proof.
  intros Hk V V' H. unfold map_text, struct_text in H. rewrite !map_map in H.
  assert (∀ l : list (string * string), map (λ kv, field_text (kv.1, false, kv.2)) l = map (λ kv, [member kv]) l) as Hf
    by (intros; apply map_ext; intros []; reflexivity).
  rewrite (Hf l), (Hf l'), !concat_single in H. apply (f_equal (@tail _)) in H. cbn [tail] in H. by eapply members_inj.
Qed.

Lemma digit_not_dash c : is_Some (digit_of c) → c ≠ "-"%char.
Proof. intros [d Hd] ->. done. Qed.

Lemma entry_sequence_id n : (0 ≤ n ≤ int64_max)%Z → entry_sequence (entry_id n) = Some n.
Proof.
  intros Hn. unfold entry_sequence, entry_id, Split. rewrite str_bytes_app, decimal_bytes.
  destruct (Z.ltb_spec n 0); [lia|]. cbn [app].
  assert (int64_digits (Z.abs n) = str_bytes (decimal n)) as Hd.
  { rewrite decimal_bytes. by destruct (Z.ltb_spec n 0); [lia|]. }
  change (str_bytes "-0") with ("-"%char :: ["0"%char]). rewrite split_bytes_app.
  - cbn [map]. rewrite Hd, bytes_str_bytes. apply ParseInt_decimal. unfold int64_min. lia.
  - eapply Forall_impl; [apply int64_digits_digits|]. intros c Hc. by apply digit_not_dash.
Qed.

(** ** What is stored *)

Section Spec.
Context {R : Type} `{RI : !RedisI R, RL : !RedisLaws R, RT : !RawText}.
Implicit Types (r : R).

(** The entry of an event. *)
Definition event_entry (n : Z) (type : string) (payload : RawMessage) (at_ : Z) : stream_entry :=
  (n, run_values type (payload_text payload) (FormatRFC3339Nano at_)).

(** Every entry was written by the relay, with valid texts. *)
Definition relay_stream (l : list stream_entry) : Prop :=
  Forall (λ x, ∃ a b c, x.2 = run_values a b c ∧ Forall (λ s, valid_utf8 s = true) [a; b; c]) l.
Definition relay_streams r : Prop := ∀ s, relay_stream (streams r s).

Lemma run_values_inj a b c a' b' c' :
  Forall (λ s, valid_utf8 s = true) [a; b; c] → Forall (λ s, valid_utf8 s = true) [a'; b'; c'] →
  map_text (run_values a b c) = map_text (run_values a' b' c') → run_values a b c = run_values a' b' c'.
Proof.
  intros H H'. repeat match goal with H : Forall _ (_ :: _) |- _ => inv H end.
  apply map_text_inj; [done|repeat constructor; done..].
Qed.

Lemma stream_unique r s x y : x ∈ streams r s → y ∈ streams r s → x.1 = y.1 → x = y.
Proof.
  destruct (law_ids r s) as [Hs _]. revert Hs. generalize (streams r s). intros l Hs.
  induction Hs as [|z l Hs IH Hz]; [by intros ?%elem_of_nil|].
  rewrite Forall_forall in Hz. unfold key_lt in Hz. rewrite !elem_of_cons.
  intros [->|Hx] [->|Hy] He; [done| | |by apply IH].
  - specialize (Hz _ Hy). lia.
  - specialize (Hz _ Hx). lia.
Qed.

Lemma filter_one r s n v :
  (n, v) ∈ streams r s → filter (λ x, (x.1 = n)%Z) (streams r s) = [(n, v)].
Proof.
  intros Hin. destruct (law_ids r s) as [Hs _].
  assert (StronglySorted key_lt (filter (λ x, (x.1 = n)%Z) (streams r s))) as Hf by by apply StronglySorted_filter.
  assert (∀ x, x ∈ filter (λ x, (x.1 = n)%Z) (streams r s) → x = (n, v)) as Hall.
  { intros x [Hx Hxin]%list_elem_of_filter. by apply (stream_unique r s). }
  assert ((n, v) ∈ filter (λ x, (x.1 = n)%Z) (streams r s)) as Hmem by by apply list_elem_of_filter.
  destruct (filter _ _) as [|x [|y l]]; [by apply elem_of_nil in Hmem| |].
  - by rewrite (Hall x) by (by left).
  - exfalso. inv Hf. rewrite Forall_forall in H2. assert (key_lt x y) as Hlt by (apply H2; by left).
    rewrite (Hall x) in Hlt by (by left). rewrite (Hall y) in Hlt by (right; by left). unfold key_lt in Hlt. lia.
Qed.

(** C18. The broker accepts an event once: AppendRunEvent that returns without an
    error has put the event at the end of its run's stream, or has found it
    there already; an event that contradicts the stored one, or is older than
    the last one without being stored, is refused and changes nothing; no other
    stream changes, and an error leaves at most the event itself. *)
Theorem AppendRunEvent_spec run n type payload at_ r ok r' :
  relay_streams r → (0 ≤ n ≤ int64_max)%Z →
  Forall (λ s, valid_utf8 s = true) [type; payload_text payload; FormatRFC3339Nano at_] →
  AppendRunEvent run n type payload at_ r = (ok, r') →
  let e := event_entry n type payload at_ in
  let before := streams r (runStream run) in
  let after := streams r' (runStream run) in
  relay_streams r' ∧ (∀ s, s ≠ runStream run → streams r' s = streams r s)
  ∧ (ok = true → (after = (before ++ [e])%list ∧ Forall (λ x, x.1 < n)%Z before) ∨ (after = before ∧ e ∈ before))
  ∧ (ok = false → after = before ∨ (after = (before ++ [e])%list ∧ Forall (λ x, x.1 < n)%Z before)).
Proof.
  intros Hr Hn Hv H e before after. unfold AppendRunEvent in H. cbn [bind st_monad] in H.
  set (vs := run_values _ _ _) in H. change e with (n, vs).
  assert (relay_stream [(n, vs)]) as Hone.
  { constructor; [|constructor]. by exists type, (payload_text payload), (FormatRFC3339Nano at_). }
  destruct (r_XAdd _ _ _ r) as [err r1] eqn:Ex.
  destruct (law_xadd _ _ _ _ _ _ Hn Ex) as [Hother Hcase].
  assert (∀ r2, streams r2 = streams r1 →
    streams r2 (runStream run) = before ∨ streams r2 (runStream run) = (before ++ [(n, vs)])%list →
    relay_streams r2 ∧ ∀ s, s ≠ runStream run → streams r2 s = streams r s) as Hkeep.
  { intros r2 E Hs. split; [|intros s Hs'; rewrite E; by apply Hother]. intros s.
    destruct (decide (s = runStream run)) as [->|Hne]; [|rewrite E, Hother by done; apply Hr].
    destruct Hs as [-> | ->]; [apply Hr|]. apply Forall_app. split; [apply Hr|done]. }
  destruct Hcase as [(->&Hs&Hlt)|(text&->&[[Hs Hle]|(Hc&Hs&Hlt)])].
  - injection H as <- <-. destruct (Hkeep r1 eq_refl) as [? ?]; [by right|]. split_and!; [done..| |done].
    intros _. left. done.
  - destruct (Contains text "equal or smaller") eqn:Ec; cbn [negb] in H.
    2:{ injection H as <- <-. destruct (Hkeep r1 eq_refl) as [? ?]; [by left|]. split_and!; [done..|]. by left. }
    cbn [bind st_monad] in H. destruct (r_XRangeN _ _ _ _ r1) as [existing r2] eqn:En.
    destruct (law_xrangen _ _ _ _ _ Hn En) as [Hs2 Hl].
    destruct (Hkeep r2 Hs2) as [? ?]; [left; by rewrite Hs2|].
    assert (r' = r2) as -> by (destruct existing as [[|x [|]]|]; by injection H).
    assert (after = before) as Hab by (unfold after; by rewrite Hs2).
    split_and!; [done..| |by left]. intros ->. right. split; [done|].
    destruct existing as [[|x [|]]|]; try done. injection H as H. apply bool_decide_eq_true in H.
    specialize (Hl _ eq_refl). rewrite Hs in Hl. fold before in Hl.
    destruct (filter _ before) as [|y l] eqn:Ef; [done|]. simpl in Hl. injection Hl as ->.
    assert (y ∈ filter (λ x, (x.1 = n)%Z) before) as Hy by (rewrite Ef; by left).
    apply list_elem_of_filter in Hy as [<- Hy].
    pose proof (Hr (runStream run)) as Hrs. unfold relay_stream in Hrs. rewrite Forall_forall in Hrs.
    destruct (Hrs y Hy) as (a&b&c&Hyv&Hval). simpl in H. rewrite Hyv in H. apply run_values_inj in H; [|done..].
    unfold vs. by rewrite <- H, <- Hyv, <- surjective_pairing.
  - rewrite Hc in H. cbn [negb] in H. injection H as <- <-.
    destruct (Hkeep r1 eq_refl) as [? ?]; [by right|]. split_and!; [done..|]. by right.
Qed.

(** ** What is read *)

Lemma decode_entry n type payload at_ :
  (0 ≤ n ≤ int64_max)%Z → printable_time at_ →
  decode_event (x_message (event_entry n type (Raw payload) at_)) = Some (mkRunEvent n type payload at_).
Proof.
  intros Hn Ht. unfold decode_event, x_message, event_entry. cbn [x_ID fst snd].
  rewrite entry_sequence_id by done.
  change (value_of _ "event_type") with type. change (value_of _ "payload") with (raw_text payload).
  change (value_of _ "occurred_at") with (FormatRFC3339Nano at_).
  by rewrite parse_raw_text, ParseRFC3339_format.
Qed.

Lemma decode_sequence x e :
  (0 ≤ x.1 ≤ int64_max)%Z → decode_event (x_message x) = Some e → re_Sequence e = x.1.
Proof.
  intros Hx H. unfold decode_event, x_message in H. cbn [x_ID] in H. rewrite entry_sequence_id in H by done.
  by injection H as <-.
Qed.

Lemma ReadRunEvents_entries run after r l r' :
  (int64_min ≤ after ≤ int64_max)%Z → ReadRunEvents run after r = (Some l, r') →
  streams r' = streams r ∧
  Forall2 (λ x e, decode_event (x_message x) = Some e ∧ re_Sequence e = x.1)
    (filter (λ x, (after < x.1)%Z) (streams r (runStream run))) l.
Proof.
  intros Ha. unfold ReadRunEvents. cbn [bind st_monad]. destruct (r_XRange _ _ _ r) as [res r1] eqn:E.
  destruct (law_xrange _ _ _ _ _ Ha E) as (Hs&Hnil&Hl). intros H.
  destruct res as [items|[|text]]; cbn [ret st_monad] in H; [|injection H as <- <-|done].
  - apply pair_equal_spec in H as [H <-]. split; [done|]. rewrite (Hl _ eq_refl) in H.
    apply mapM_Some in H. apply Forall2_fmap_l in H.
    destruct (law_ids r (runStream run)) as [_ Hids].
    assert (Forall (λ x, 0 ≤ x.1 ≤ int64_max)%Z (filter (λ x, (after < x.1)%Z) (streams r (runStream run)))) as Hall.
    { rewrite Forall_forall in Hids |- *. intros x [_ Hx]%list_elem_of_filter. by apply Hids. }
    clear -H Hall. induction H as [|x e l1 l2 He H IH]; [constructor|]. inv Hall.
    constructor; [split; [done|by apply decode_sequence]|by apply IH].
  - split; [done|]. rewrite (Hnil eq_refl). constructor.
Qed.

(** C36. What the broker accepted is read back: an event in its run's stream is
    read again, with its number, type, payload and timestamp, by every read
    from an (int64) cursor below its number, and no other event is read under that
    number. *)
Theorem broker_roundtrip run n type payload at_ r after l r' :
  event_entry n type (Raw payload) at_ ∈ streams r (runStream run) → printable_time at_ →
  (int64_min ≤ after < n)%Z → ReadRunEvents run after r = (Some l, r') →
  mkRunEvent n type payload at_ ∈ l ∧ (∀ e, e ∈ l → re_Sequence e = n → e = mkRunEvent n type payload at_).
Proof.
  intros Hin Ht Hlt H.
  destruct (law_ids r (runStream run)) as [_ Hids]. rewrite Forall_forall in Hids.
  pose proof (Hids _ Hin) as Hn. cbn [event_entry fst] in Hn.
  apply ReadRunEvents_entries in H as [_ Hf]; [|lia]. split.
  - assert (event_entry n type (Raw payload) at_ ∈ filter (λ x, (after < x.1)%Z) (streams r (runStream run))) as Hx
      by (apply list_elem_of_filter; split; [apply Hlt|done]).
    apply list_elem_of_lookup in Hx as [i Hi]. destruct (Forall2_lookup_l _ _ _ _ _ Hf Hi) as (e&He&[Hd _]).
    rewrite decode_entry in Hd by done. injection Hd as <-. by eapply list_elem_of_lookup_2.
  - intros e [i He]%list_elem_of_lookup Hen. destruct (Forall2_lookup_r _ _ _ _ _ Hf He) as (x&Hx&Hd&Hs).
    apply list_elem_of_lookup_2, list_elem_of_filter in Hx as [_ Hx].
    assert (x = event_entry n type (Raw payload) at_) as ->.
    { apply (stream_unique r (runStream run)); [done..|]. simpl. by rewrite <- Hs. }
    rewrite decode_entry in Hd by done. by injection Hd.
Qed.

(** RedisBroker gives the event streams what they rely on: a read returns
    only events above its cursor. *)
Lemma redis_reads_after : reads_after (B := RedisBroker R).
Proof.
  intros run after b live b' Ha H. cbn [q_ReadRunEvents redis_query] in H. unfold on_client in H.
  destruct (ReadRunEvents run after (rb_client b)) as [res r'] eqn:E. injection H as -> _.
  apply ReadRunEvents_entries in E as [_ Hf]; [|done]. apply Forall_forall. intros e [i He]%list_elem_of_lookup.
  destruct (Forall2_lookup_r _ _ _ _ _ Hf He) as (x&Hx&_&->).
  by apply list_elem_of_lookup_2, list_elem_of_filter in Hx as [? _].
Qed.
End Spec.
