(* ===== verification/MemRedis.v ===== *)
(** * A Redis in memory

    An instance of the client's interface with the laws the broker relies on,
    and of the correspondence between RawMessages and texts: what the theorems
    assume of Redis can hold. *)

From S2P Require Import Prelude GoStd GoTime GoTimeSpec Json JsonText.
From S2P Require Import Sql Tables RuntimeDB RunStore Coordinator RuntimeHTTP RuntimeFeed FeedSpec RunFeed Redis RedisSpec.
From stdpp Require Import countable.
From Stdlib Require Import Ascii.
#[local] Open Scope string_scope.

(** ** Texts for JSON values *)

Section JsonInd.
Variable P : json → Prop.
Hypothesis Hnull : P JNull.
Hypothesis Hbool : ∀ b, P (JBool b).
Hypothesis Hint : ∀ z, P (JInt z).
Hypothesis Hreal : ∀ m e, P (JReal m e).
Hypothesis Hstr : ∀ s, P (JStr s).
Hypothesis Harr : ∀ l, Forall P l → P (JArr l).
Hypothesis Hobj : ∀ ms, Forall (λ kv, P kv.2) ms → P (JObj ms).

Fixpoint json_ind_nested (j : json) : P j :=
  match j with
  | JNull => Hnull
  | JBool b => Hbool b
  | JInt z => Hint z
  | JReal m e => Hreal m e
  | JStr s => Hstr s
  | JArr l =>
      Harr l ((fix go l : Forall P l := match l with
               | [] => List.Forall_nil P
               | x :: l => List.Forall_cons P x l (json_ind_nested x) (go l)
               end) l)
  | JObj ms =>
      Hobj ms ((fix go ms : Forall (λ kv, P kv.2) ms := match ms with
                | [] => List.Forall_nil _
                | x :: ms => List.Forall_cons (λ kv, P kv.2) x ms (json_ind_nested x.2) (go ms)
                end) ms)
  end.
End JsonInd.

Definition leaf : Type := (bool + Z) + (Z * Z + string).

Fixpoint json_tree (j : json) : gen_tree leaf :=
  match j with
  | JNull => GenNode 0 []
  | JBool b => GenLeaf (inl (inl b))
  | JInt z => GenLeaf (inl (inr z))
  | JReal m e => GenLeaf (inr (inl (m, e)))
  | JStr s => GenLeaf (inr (inr s))
  | JArr l => GenNode 1 (map json_tree l)
  | JObj ms => GenNode 2 (map (λ kv, GenNode 3 [GenLeaf (inr (inr kv.1)); json_tree kv.2]) ms)
  end.

Fixpoint tree_json (t : gen_tree leaf) : json :=
  match t with
  | GenLeaf (inl (inl b)) => JBool b
  | GenLeaf (inl (inr z)) => JInt z
  | GenLeaf (inr (inl (m, e))) => JReal m e
  | GenLeaf (inr (inr s)) => JStr s
  | GenNode 0 _ => JNull
  | GenNode 1 l => JArr (map tree_json l)
  | GenNode _ l =>
      JObj (map (λ t, match t with
                      | GenNode _ [GenLeaf (inr (inr k)); t] => (k, tree_json t)
                      | _ => ("", JNull)
                      end) l)
  end.

Lemma tree_json_tree j : tree_json (json_tree j) = j.
Proof.
  induction j as [| | | | |l IH|ms IH] using json_ind_nested; try done; simpl.
  - f_equal. rewrite map_map. induction IH as [|x l Hx _ IHl]; [done|]. simpl. by rewrite Hx, IHl.
  - f_equal. rewrite map_map. induction IH as [|[k x] l Hx _ IHl]; [done|]. simpl in *. by rewrite Hx, IHl.
Qed.

Fixpoint bits (p : positive) : string :=
  match p with xH => "" | xO p => String "0" (bits p) | xI p => String "1" (bits p) end.
Fixpoint unbits (s : string) : positive :=
  match s with "" => xH | String c s => if Ascii.eqb c "1" then xI (unbits s) else xO (unbits s) end.
Lemma unbits_bits p : unbits (bits p) = p.
Proof. induction p as [p IH|p IH|]; simpl; congruence. Qed.

#[export, refine] Instance bit_text : RawText := {|
  raw_text j := bits (encode (json_tree j));
  parse_raw s := match decode (unbits s) with Some t => tree_json t | None => JNull end;
|}.
Proof. intros j. by rewrite unbits_bits, decode_encode, tree_json_tree. Defined.

(** ** The server *)

Record MemRedis := mkMem { mem_streams : gmap string (list stream_entry); mem_keys : gmap string string }.

(** Ids above [lo], increasing, within int64. *)
Fixpoint ordered (lo : Z) (l : list stream_entry) : bool :=
  match l with
  | [] => true
  | x :: l => (lo <? x.1)%Z && (x.1 <=? int64_max)%Z && ordered x.1 l
  end.

Lemma ordered_spec lo l :
  ordered lo l = true → StronglySorted key_lt l ∧ Forall (λ x, (lo < x.1 ≤ int64_max)%Z) l.
Proof.
  revert lo. induction l as [|x l IH]; intros lo; simpl; [split; constructor|].
  rewrite !andb_true_iff, Z.ltb_lt, Z.leb_le. intros [[H1 H2] H3]. destruct (IH _ H3) as [Hs Hf]. split.
  - constructor; [done|]. rewrite Forall_forall in Hf |- *. intros y Hy. apply Hf in Hy. unfold key_lt. lia.
  - constructor; [lia|]. rewrite Forall_forall in Hf |- *. intros y Hy. apply Hf in Hy. lia.
Qed.

Lemma ordered_snoc lo l n v :
  ordered lo l = true → Forall (λ x, (x.1 < n)%Z) l → (lo < n ≤ int64_max)%Z → ordered lo (l ++ [(n, v)])%list = true.
Proof.
  revert lo. induction l as [|x l IH]; intros lo H Hf Hn; simpl in *.
  - rewrite !andb_true_iff, Z.ltb_lt, Z.leb_le. lia.
  - inv Hf. rewrite !andb_true_iff, Z.ltb_lt, Z.leb_le in *. destruct H as [[? ?] ?]. split; [done|]. apply IH; [done..|lia].
Qed.

Definition mem_stream (r : MemRedis) (s : string) : list stream_entry :=
  let l := default [] (mem_streams r !! s) in if ordered (-1) l then l else [].

Lemma mem_stream_ordered r s : ordered (-1) (mem_stream r s) = true.
Proof. unfold mem_stream. by destruct (ordered (-1) (default [] _)) eqn:E. Qed.

Definition too_small := "ERR The ID specified in XADD is equal or smaller than the target stream top item".

Definition mem_xadd (s id : string) (v : list (string * string)) : St MemRedis (option string) := λ r,
  match entry_sequence id with
  | Some n =>
      let l := mem_stream r s in
      if (n <? 0)%Z || (int64_max <? n)%Z then (Some "ERR Invalid stream ID", r)
      else if forallb (λ x, (x.1 <? n)%Z) l
      then (None, mkMem (<[s := (l ++ [(n, v)])%list]> (mem_streams r)) (mem_keys r))
      else (Some too_small, r)
  | None => (Some "ERR Invalid stream ID", r)
  end.

(** The bound of an interval: an open one starts with a parenthesis. *)
Definition mem_xrange (s start stop : string) : St MemRedis (result redis_error (list XMessage)) := λ r,
  match entry_sequence (String.substring 1 (String.length start) start) with
  | Some a => (Ok (x_message <$> filter (λ x, (a < x.1)%Z) (mem_stream r s)), r)
  | None => (Err (RedisErr "ERR Invalid stream ID"), r)
  end.
Definition mem_xrangen (s start stop : string) (count : Z) : St MemRedis (result redis_error (list XMessage)) := λ r,
  match entry_sequence start with
  | Some n => (Ok (x_message <$> take (Z.to_nat count) (filter (λ x, (x.1 = n)%Z) (mem_stream r s))), r)
  | None => (Err (RedisErr "ERR Invalid stream ID"), r)
  end.

#[export] Instance mem_redis : RedisI MemRedis := {|
  r_Ping r := (true, r);
  r_XAdd := mem_xadd;
  r_XRange := mem_xrange;
  r_XRangeN := mem_xrangen;
  r_Get k r := (match mem_keys r !! k with Some v => Ok v | None => Err RedisNil end, r);
  r_Set k v _ r := (true, mkMem (mem_streams r) (<[k := v]> (mem_keys r)));
  r_Del k r := (true, mkMem (mem_streams r) (delete k (mem_keys r)));
  r_Publish _ _ r := (true, r);
|}.

(** ** The laws *)

Lemma entry_sequence_range a n :
  (int64_min ≤ a ≤ int64_max)%Z → entry_sequence (entry_id a) = Some n → n = a.
Proof.
  intros Ha H. destruct (Z.leb_spec 0 a).
  - rewrite entry_sequence_id in H by lia. by injection H.
  - exfalso. unfold entry_sequence, entry_id, Split in H. rewrite str_bytes_app, decimal_bytes in H.
    destruct (Z.ltb_spec a 0); [|lia]. discriminate H.
Qed.

Lemma substring_all s n : (String.length s ≤ n)%nat → String.substring 0 n s = s.
Proof.
  revert n. induction s as [|c s IH]; intros [|n] H; simpl in *; try done; [lia|]. f_equal. apply IH. lia.
Qed.
Lemma after_id_open a : String.substring 1 (String.length (after_id a)) (after_id a) = entry_id a.
Proof.
  change (String.substring 0 (S (String.length (entry_id a))) (entry_id a) = entry_id a).
  apply substring_all. lia.
Qed.

Lemma mem_stream_put r s l keys :
  ordered (-1) l = true → mem_stream (mkMem (<[s := l]> (mem_streams r)) keys) s = l.
Proof. intros H. unfold mem_stream. simpl. rewrite lookup_insert_eq. simpl. by rewrite H. Qed.
Lemma mem_stream_other r s s' l keys :
  s' ≠ s → mem_stream (mkMem (<[s := l]> (mem_streams r)) keys) s' = mem_stream r s'.
Proof. intros H. unfold mem_stream. simpl. by rewrite lookup_insert_ne. Qed.

Lemma mem_xadd_law s n v r e r' : (0 ≤ n ≤ int64_max)%Z → mem_xadd s (entry_id n) v r = (e, r') →
  (e = None ∧ (∀ s', s' ≠ s → mem_stream r' s' = mem_stream r s')
   ∧ mem_stream r' s = (mem_stream r s ++ [(n, v)])%list ∧ Forall (λ x, (x.1 < n)%Z) (mem_stream r s))
  ∨ (e = Some too_small ∧ r' = r ∧ ∃ x, x ∈ mem_stream r s ∧ (n ≤ x.1)%Z).
Proof.
  intros Hn. unfold mem_xadd. rewrite entry_sequence_id by done.
  destruct (Z.ltb_spec n 0), (Z.ltb_spec int64_max n); try lia. cbn [orb].
  destruct (forallb _ _) eqn:Ef; intros [= <- <-].
  - left. assert (Forall (λ x, (x.1 < n)%Z) (mem_stream r s)) as Hlt.
    { apply Forall_forall. intros x Hx. rewrite forallb_forall in Ef.
      apply Z.ltb_lt, Ef, Hx. }
    split_and!; [done| | |done].
    + intros s' Hs'. by apply mem_stream_other.
    + apply mem_stream_put. apply ordered_snoc; [apply mem_stream_ordered|done|lia].
  - right. split_and!; [done..|]. apply not_true_iff_false in Ef.
    destruct (decide (Exists (λ x, (n ≤ x.1)%Z) (mem_stream r s))) as [He|He].
    + apply Exists_exists in He as (x&Hx&?). exists x. split; [by apply list_elem_of_In|done].
    + exfalso. apply Ef, forallb_forall. intros x Hx. apply Z.ltb_lt.
      apply not_Exists_Forall in He; [|intros y; apply Z_le_dec]. rewrite Forall_forall in He.
      specialize (He _ Hx). simpl in He. lia.
Qed.

#[export, refine] Instance mem_laws : RedisLaws MemRedis := {| streams := mem_stream |}.
Proof.
  - intros r s. destruct (ordered_spec _ _ (mem_stream_ordered r s)) as [Hs Hf]. split; [done|].
    rewrite Forall_forall in Hf |- *. intros x Hx. apply Hf in Hx. lia.
  - intros s n v r e r' Hn H. apply mem_xadd_law in H as [(->&Ho&Hs&Hlt)|(->&->&Hx)]; [| |done].
    + split; [done|]. by left.
    + split; [done|]. right. exists too_small. split; [done|]. left. split; [done|]. by intros _.
  - intros s a r res r' Ha. cbn [r_XRange mem_redis]. unfold mem_xrange. rewrite after_id_open.
    destruct (entry_sequence (entry_id a)) as [n|] eqn:En; intros [= <- <-]; (split_and!; [done..|]); [|done].
    apply entry_sequence_range in En as ->; [|done]. by intros l [= <-].
  - intros s n r res r' Hn. cbn [r_XRangeN mem_redis]. unfold mem_xrangen.
    rewrite entry_sequence_id by done. intros [= <- <-]. split; [done|]. by intros l [= <-].
Defined.
