(* ===== verification/AuthDB.v ===== *)
(** * The auth schema

    The tables of internal/auth/migrations/001_auth.sql as finite maps keyed by
    their primary keys, the SQL statements of internal/auth/postgres.go on
    them, the invariant of the credentials and what is never undone: clients,
    grants, sessions and tokens keep their identity, a revocation or a
    consumption is final, a used refresh token is remembered. *)

From S2P Require Import Prelude.
From S2P Require Import Sql Tables.
#[local] Open Scope string_scope.

(** The bytes of a SHA-256 digest. *)
Definition hash : Type := list Z.

Record grant_row := mkGrantRow {
  gr_code_hash : hash; gr_name : string; gr_scopes : list string; gr_expires : Z; gr_created : Z;
  gr_consumed : option Z; gr_client : option string }.

Record client_row := mkClientRow {
  cr_name : string; cr_scopes : list string; cr_created : Z; cr_last_seen : option Z;
  cr_revoked : option Z }.

Record refresh_row := mkRefreshRow {
  rf_client : string; rf_hash : hash; rf_expires : Z; rf_created : Z; rf_rotated : option Z;
  rf_revoked : option Z; rf_reason : option string }.

Record history_row := mkHistoryRow { hi_session : string; hi_used : Z }.

Record access_row := mkAccessRow {
  ac_session : string; ac_client : string; ac_hash : hash; ac_scopes : list string;
  ac_expires : Z; ac_created : Z; ac_revoked : option Z }.

Record ADB := mkADB {
  grants : gmap string grant_row;
  clients : gmap string client_row;
  rsessions : gmap string refresh_row;
  history : gmap hash history_row;
  access : gmap string access_row;
}.

Definition empty_adb : ADB := mkADB ∅ ∅ ∅ ∅ ∅.

Definition set_grants t d := mkADB t (clients d) (rsessions d) (history d) (access d).
Definition set_clients t d := mkADB (grants d) t (rsessions d) (history d) (access d).
Definition set_rsessions t d := mkADB (grants d) (clients d) t (history d) (access d).
Definition set_history t d := mkADB (grants d) (clients d) (rsessions d) t (access d).
Definition set_access t d := mkADB (grants d) (clients d) (rsessions d) (history d) t.

(** ** Statements *)

Definition exists_in {V} (m : gmap string V) (k : string) : bool := bool_decide (is_Some (m !! k)).

Definition grant_hash_col (g : grant_row) : option hash := Some (gr_code_hash g).

(** INSERT INTO auth.pairing_grants *)
Definition insert_grant (id : string) (g : grant_row) : Stmt ADB unit := λ d,
  let! _ := ensure (negb (exists_in (grants d) id)) "pairing_grants_pkey" in
  let! _ := ensure (negb (taken grant_hash_col (grants d) id (grant_hash_col g)))
              "pairing_grants_code_hash_key" in
  Ok (tt, set_grants (<[id := g]> (grants d)) d).

(** SELECT ... FROM auth.pairing_grants WHERE code_hash=$1 FOR UPDATE *)
Definition select_grant (code_hash : hash) : ADB → option (string * grant_row) := λ d,
  lookup_by (λ _ g, gr_code_hash g = code_hash) (grants d).

(** INSERT INTO auth.clients *)
Definition insert_client (id : string) (c : client_row) : Stmt ADB unit := λ d,
  let! _ := ensure (negb (exists_in (clients d) id)) "clients_pkey" in
  Ok (tt, set_clients (<[id := c]> (clients d)) d).

(** INSERT INTO auth.refresh_sessions *)
Definition insert_refresh (id : string) (s : refresh_row) : Stmt ADB unit := λ d,
  let! _ := ensure (negb (exists_in (rsessions d) id)) "refresh_sessions_pkey" in
  let! _ := ensure (exists_in (clients d) (rf_client s)) "refresh_sessions_client_id_fkey" in
  Ok (tt, set_rsessions (<[id := s]> (rsessions d)) d).

(** INSERT INTO auth.access_tokens *)
Definition insert_access (id : string) (a : access_row) : Stmt ADB unit := λ d,
  let! _ := ensure (negb (exists_in (access d) id)) "access_tokens_pkey" in
  let! _ := ensure (exists_in (rsessions d) (ac_session a)) "access_tokens_session_id_fkey" in
  let! _ := ensure (exists_in (clients d) (ac_client a)) "access_tokens_client_id_fkey" in
  Ok (tt, set_access (<[id := a]> (access d)) d).

(** INSERT INTO auth.refresh_token_history *)
Definition insert_history (h : hash) (r : history_row) : Stmt ADB unit := λ d,
  let! _ := ensure (negb (bool_decide (is_Some (history d !! h)))) "refresh_token_history_pkey" in
  let! _ := ensure (exists_in (rsessions d) (hi_session r)) "refresh_token_history_session_id_fkey" in
  Ok (tt, set_history (<[h := r]> (history d)) d).

(** UPDATE auth.pairing_grants SET consumed_at=$2,client_id=$3 WHERE grant_id=$1 *)
Definition consume_row (now : Z) (client : string) (g : grant_row) : grant_row :=
  mkGrantRow (gr_code_hash g) (gr_name g) (gr_scopes g) (gr_expires g) (gr_created g)
    (Some now) (Some client).
Definition consume_grant (now : Z) (id client : string) : Stmt ADB unit := λ d,
  let! _ := ensure (negb (exists_in (grants d) id) || exists_in (clients d) client)
              "pairing_grants_client_id_fkey" in
  Ok (tt, set_grants (alter (consume_row now client) id (grants d)) d).

(** The join of a token with its session and its client. *)
Definition select_access (id : string) : ADB → option (access_row * refresh_row * client_row) := λ d,
  match access d !! id with
  | Some t =>
      match rsessions d !! ac_session t, clients d !! ac_client t with
      | Some s, Some c => Some (t, s, c)
      | _, _ => None
      end
  | None => None
  end.

(** The join of a session with its client, FOR UPDATE OF s,c *)
Definition select_refresh (id : string) : ADB → option (refresh_row * client_row) := λ d,
  match rsessions d !! id with
  | Some s => match clients d !! rf_client s with Some c => Some (s, c) | None => None end
  | None => None
  end.

(** UPDATE auth.clients SET last_seen_at=$2 WHERE client_id=$1 [AND (last_seen_at
    IS NULL OR last_seen_at < $2 - interval '1 minute')] *)
Definition seen_row (now : Z) (c : client_row) : client_row :=
  mkClientRow (cr_name c) (cr_scopes c) (cr_created c) (Some now) (cr_revoked c).
Definition seen_client (now : Z) (id : string) : Stmt ADB unit := λ d,
  Ok (tt, set_clients (alter (seen_row now) id (clients d)) d).
Definition one_minute : Z := 60 * 1000000000.
Definition seen_lately (now : Z) (c : client_row) : bool :=
  match cr_last_seen c with None => false | Some t => negb (t <? now - one_minute)%Z end.
Definition touch_client (now : Z) (id : string) : Stmt ADB unit := λ d,
  Ok (tt, set_clients (alter (λ c, if seen_lately now c then c else seen_row now c) id (clients d)) d).

(** UPDATE auth.refresh_sessions SET current_token_hash=$2,rotated_at=$3 *)
Definition rotate_row (now : Z) (h : hash) (s : refresh_row) : refresh_row :=
  mkRefreshRow (rf_client s) h (rf_expires s) (rf_created s) (Some now) (rf_revoked s) (rf_reason s).
Definition rotate_session (now : Z) (id : string) (h : hash) : Stmt ADB unit := λ d,
  Ok (tt, set_rsessions (alter (rotate_row now h) id (rsessions d)) d).

(** COALESCE(column,$n) *)
Definition first_of {A} (column : option A) (x : A) : option A :=
  match column with Some _ => column | None => Some x end.

Definition revoke_client_row (now : Z) (c : client_row) : client_row :=
  mkClientRow (cr_name c) (cr_scopes c) (cr_created c) (cr_last_seen c) (first_of (cr_revoked c) now).
Definition revoke_refresh_row (now : Z) (reason : string) (s : refresh_row) : refresh_row :=
  mkRefreshRow (rf_client s) (rf_hash s) (rf_expires s) (rf_created s) (rf_rotated s)
    (first_of (rf_revoked s) now) (first_of (rf_reason s) reason).
Definition revoke_access_row (now : Z) (a : access_row) : access_row :=
  mkAccessRow (ac_session a) (ac_client a) (ac_hash a) (ac_scopes a) (ac_expires a) (ac_created a)
    (first_of (ac_revoked a) now).

(** The UPDATEs of a revocation, over the rows [P] selects; the rows affected. *)
Definition revoke_refresh (now : Z) (reason : string) (P : string → refresh_row → bool) : Stmt ADB Z := λ d,
  let '(n, m) := update_where P (revoke_refresh_row now reason) (rsessions d) in
  Ok (n, set_rsessions m d).
Definition revoke_access (now : Z) (P : string → access_row → bool) : Stmt ADB Z := λ d,
  let '(n, m) := update_where P (revoke_access_row now) (access d) in
  Ok (n, set_access m d).
Definition revoke_client_stmt (now : Z) (id : string) : Stmt ADB Z := λ d,
  let '(n, m) := update_where (λ i _, String.eqb i id) (revoke_client_row now) (clients d) in
  Ok (n, set_clients m d).

(** ** The invariant of the credentials *)

Definition supported_scopes : list string := ["runtime:read"; "runtime:write"; "source:read"].

Definition grant_client_col (g : grant_row) : option string := gr_client g.
Definition refresh_client_col (s : refresh_row) : option string := Some (rf_client s).

Record auth_wf (d : ADB) : Prop := {
  (* a pairing code names one grant; a grant pairs one client, and only once *)
  aw_code : unique_col grant_hash_col (grants d);
  aw_scopes : ∀ i g, grants d !! i = Some g → Forall (λ s, s ∈ supported_scopes) (gr_scopes g);
  aw_consumed : ∀ i g, grants d !! i = Some g → (gr_consumed g = None ↔ gr_client g = None);
  aw_grant_client : ∀ i g c, grants d !! i = Some g → gr_client g = Some c →
    ∃ x, clients d !! c = Some x ∧ cr_name x = gr_name g ∧ cr_scopes x = gr_scopes g;
  aw_grant_once : unique_col grant_client_col (grants d);
  (* every client was paired by a grant *)
  aw_client_grant : ∀ c x, clients d !! c = Some x → ∃ i g, grants d !! i = Some g ∧ gr_client g = Some c;
  (* a client has one session *)
  aw_refresh_client : ∀ i s, rsessions d !! i = Some s → is_Some (clients d !! rf_client s);
  aw_refresh_once : unique_col refresh_client_col (rsessions d);
  (* a token belongs to its session's client and carries the client's scopes *)
  aw_access : ∀ i t, access d !! i = Some t → ∃ s x,
    rsessions d !! ac_session t = Some s ∧ ac_client t = rf_client s ∧
    clients d !! ac_client t = Some x ∧ ac_scopes t = cr_scopes x;
  aw_history : ∀ h r, history d !! h = Some r → is_Some (rsessions d !! hi_session r);
  (* revoking a client revokes its session, and revoking a session its tokens *)
  aw_client_revoked : ∀ i s x, rsessions d !! i = Some s → clients d !! rf_client s = Some x →
    cr_revoked x ≠ None → rf_revoked s ≠ None;
  aw_session_revoked : ∀ i t s, access d !! i = Some t → rsessions d !! ac_session t = Some s →
    rf_revoked s ≠ None → ac_revoked t ≠ None;
}.

Lemma empty_adb_wf : auth_wf empty_adb.
Proof. split; unfold empty_adb, unique_col; simpl; intros *; try (rewrite lookup_empty; done). Qed.

(** ** What is never undone *)

Record grant_le (g g' : grant_row) : Prop := {
  gl_hash : gr_code_hash g' = gr_code_hash g; gl_name : gr_name g' = gr_name g;
  gl_scopes : gr_scopes g' = gr_scopes g; gl_expires : gr_expires g' = gr_expires g;
  gl_consumed : sticky (gr_consumed g) (gr_consumed g'); gl_client : sticky (gr_client g) (gr_client g') }.

Record client_le (c c' : client_row) : Prop := {
  cl_name : cr_name c' = cr_name c; cl_scopes : cr_scopes c' = cr_scopes c;
  cl_created : cr_created c' = cr_created c; cl_revoked : sticky (cr_revoked c) (cr_revoked c') }.

Record refresh_le (s s' : refresh_row) : Prop := {
  fl_client : rf_client s' = rf_client s; fl_expires : rf_expires s' = rf_expires s;
  fl_created : rf_created s' = rf_created s; fl_revoked : sticky (rf_revoked s) (rf_revoked s');
  fl_reason : sticky (rf_reason s) (rf_reason s') }.

Record access_le (a a' : access_row) : Prop := {
  al_session : ac_session a' = ac_session a; al_client : ac_client a' = ac_client a;
  al_hash : ac_hash a' = ac_hash a; al_scopes : ac_scopes a' = ac_scopes a;
  al_expires : ac_expires a' = ac_expires a; al_revoked : sticky (ac_revoked a) (ac_revoked a') }.

#[export] Instance grant_le_preorder : PreOrder grant_le.
Proof. row_preorder. Qed.
#[export] Instance client_le_preorder : PreOrder client_le.
Proof. row_preorder. Qed.
#[export] Instance refresh_le_preorder : PreOrder refresh_le.
Proof. row_preorder. Qed.
#[export] Instance access_le_preorder : PreOrder access_le.
Proof. row_preorder. Qed.

(** A refresh token that is no longer the current one is in the history. *)
Definition remembers (d d' : ADB) : Prop := ∀ i s s',
  rsessions d !! i = Some s → rsessions d' !! i = Some s' →
  rf_hash s' = rf_hash s ∨ (hi_session <$> history d' !! rf_hash s) = Some i.

Record auth_grows (d d' : ADB) : Prop := {
  ag_grants : table_le grant_le (grants d) (grants d');
  ag_clients : table_le client_le (clients d) (clients d');
  ag_rsessions : table_le refresh_le (rsessions d) (rsessions d');
  ag_history : history d ⊆ history d';
  ag_access : table_le access_le (access d) (access d');
  ag_remembers : remembers d d';
}.

#[export] Instance auth_grows_preorder : PreOrder auth_grows.
Proof.
  split.
  - intros d. split; try reflexivity. intros i s s' Hs Hs'. left. congruence.
  - intros d1 d2 d3 [] [Hg Hc Hr Hh Ha Hm]. split; try (etrans; eassumption).
    intros i s s'' Hs Hs''. destruct (ag_rsessions0 i s Hs) as (s'&Hs'&_).
    destruct (ag_remembers0 i s s' Hs Hs') as [He|He].
    + destruct (Hm i s' s'' Hs' Hs'') as [He'|He']; rewrite He in He'; auto.
    + right. apply fmap_Some in He as (x&Hx&->). by rewrite (lookup_weaken _ _ _ _ Hx Hh).
Qed.

(** The invariant and the history together. *)
Definition auth_good (d d' : ADB) : Prop := auth_wf d → auth_wf d' ∧ auth_grows d d'.

#[export] Instance auth_good_preorder : PreOrder auth_good.
Proof.
  split.
  - intros d Hwf. split; [done|reflexivity].
  - intros d1 d2 d3 H1 H2 Hwf. destruct (H1 Hwf) as [Hwf2 ?]. destruct (H2 Hwf2).
    split; [done|by etrans].
Qed.
