(* ===== verification/AuthStore.v ===== *)
(** * internal/auth/postgres.go, types.go: the credential store

    One definition per method of PostgresStore.  [now] is the instant the
    service passes; timestamptz parameters lose what is below a microsecond. *)

From S2P Require Import Prelude GoStd GoTime.
From S2P Require Import Sql Tables AuthDB.
#[local] Open Scope string_scope.

(** The error values of the package, and those without a name. *)
Inductive auth_error :=
| ErrInvalidCredential
| ErrExpiredCredential
| ErrConsumedGrant
| ErrRefreshReplay
| ErrRevoked
| ErrNotFound
| ErrClientName                     (** client name must be 1-120 characters *)
| ErrUnsupportedScope (scope : string)
| EAuthDb (e : dberr).

#[export] Instance auth_from_db : FromDb auth_error := EAuthDb.

#[global] Instance dberr_eq_dec : EqDecision dberr.
Proof. solve_decision. Defined.
#[global] Instance auth_error_eq_dec : EqDecision auth_error.
Proof. solve_decision. Defined.

Definition AOp (A : Type) : Type := Op ADB auth_error A.
Definition ATx (A : Type) : Type := Tx ADB auth_error A.

(** ** types.go *)

Definition ScopeRuntimeRead := "runtime:read".
Definition ScopeRuntimeWrite := "runtime:write".
Definition ScopeSourceRead := "source:read".
Definition DefaultScopes : list string := [ScopeRuntimeRead; ScopeRuntimeWrite; ScopeSourceRead].

Record Principal := mkPrincipal {
  pl_ClientID : string; pl_ClientName : string; pl_SessionID : string; pl_Scopes : list string }.

Definition HasScope (p : Principal) (scope : string) : bool :=
  existsb (λ candidate, String.eqb candidate scope) (pl_Scopes p).

Record Client := mkClient {
  cn_ID : string; cn_Name : string; cn_Scopes : list string; cn_CreatedAt : Z;
  cn_LastSeenAt : option Z; cn_RevokedAt : option Z }.

Record PairingGrant := mkGrant {
  pg_ID : string; pg_CodeHash : hash; pg_Name : string; pg_Scopes : list string;
  pg_ExpiresAt : Z; pg_CreatedAt : Z }.

Record CredentialMaterial := mkMaterial {
  cm_ClientID : string; cm_SessionID : string; cm_AccessTokenID : string; cm_AccessHash : hash;
  cm_RefreshHash : hash; cm_AccessExpires : Z; cm_RefreshExpires : Z }.

Record RotatedMaterial := mkRotated {
  rm_AccessTokenID : string; rm_AccessHash : hash; rm_RefreshHash : hash; rm_AccessExpires : Z }.

(** ** CreatePairingGrant *)

Definition granted (g : PairingGrant) : grant_row :=
  mkGrantRow (pg_CodeHash g) (pg_Name g) (pg_Scopes g) (TruncateMicro (pg_ExpiresAt g))
    (TruncateMicro (pg_CreatedAt g)) None None.

Definition StoreCreatePairingGrant (g : PairingGrant) : AOp unit :=
  pool_stmt (insert_grant (pg_ID g) (granted g)).

(** ** ExchangePairingGrant *)

(** t.After(u) *)
Definition After (t u : Z) : bool := (u <? t)%Z.

Definition new_client (now : Z) (g : grant_row) : client_row :=
  mkClientRow (gr_name g) (gr_scopes g) (TruncateMicro now) None None.
Definition new_refresh (now : Z) (m : CredentialMaterial) : refresh_row :=
  mkRefreshRow (cm_ClientID m) (cm_RefreshHash m) (TruncateMicro (cm_RefreshExpires m))
    (TruncateMicro now) None None None.
Definition new_access (now : Z) (session client : string) (h : hash) (scopes : list string)
    (expires : Z) : access_row :=
  mkAccessRow session client h scopes (TruncateMicro expires) (TruncateMicro now) None.

Definition exchange_tx (codeHash : hash) (now : Z) (m : CredentialMaterial) : ATx (TxEnd Client) :=
  let! found := tx_stmt (query (select_grant codeHash)) in
  match found with
  | None => fail ErrInvalidCredential
  | Some (grantID, g) =>
      if (if gr_consumed g is Some _ then true else false) then fail ErrConsumedGrant
      else if negb (After (gr_expires g) now) then fail ErrExpiredCredential
      else
        let! _ := tx_stmt (insert_client (cm_ClientID m) (new_client now g)) in
        let! _ := tx_stmt (insert_refresh (cm_SessionID m) (new_refresh now m)) in
        let! _ := tx_stmt (insert_access (cm_AccessTokenID m)
                    (new_access now (cm_SessionID m) (cm_ClientID m) (cm_AccessHash m)
                       (gr_scopes g) (cm_AccessExpires m))) in
        let! _ := tx_stmt (consume_grant (TruncateMicro now) grantID (cm_ClientID m)) in
        ret (Commit (mkClient (cm_ClientID m) (gr_name g) (gr_scopes g) now None None))
  end.

Definition StoreExchangePairingGrant (codeHash : hash) (now : Z) (m : CredentialMaterial) : AOp Client :=
  run_tx (exchange_tx codeHash now m).

(** ** AuthenticateAccess *)

(** subtle.ConstantTimeCompare(x, y) == 1 *)
Definition same_hash (x y : hash) : bool := bool_decide (x = y).

Definition is_revoked (o : option Z) : bool := match o with Some _ => true | None => false end.

(** What the checks make of the joined row. *)
Definition check_access (presentedHash : hash) (now : Z)
    (row : option (access_row * refresh_row * client_row)) : result auth_error Principal :=
  match row with
  | None => Err ErrInvalidCredential
  | Some (t, s, c) =>
      if negb (same_hash (ac_hash t) presentedHash) then Err ErrInvalidCredential
      else if is_revoked (ac_revoked t) || is_revoked (rf_revoked s) || is_revoked (cr_revoked c)
      then Err ErrRevoked
      else if negb (After (ac_expires t) now) then Err ErrExpiredCredential
      else Ok (mkPrincipal (ac_client t) (cr_name c) (ac_session t) (ac_scopes t))
  end.

Definition StoreAuthenticateAccess (tokenID : string) (presentedHash : hash) (now : Z) : AOp Principal :=
  let! row := pool_stmt (query (select_access tokenID)) in
  match check_access presentedHash now row with
  | Err e => fail e
  | Ok principal =>
      let! _ := attempt (pool_stmt (touch_client (TruncateMicro now) (pl_ClientID principal))) in
      ret principal
  end.

(** ** RotateRefresh *)

Definition scanClient (id : string) (c : client_row) : Client :=
  mkClient id (cr_name c) (cr_scopes c) (cr_created c) (cr_last_seen c) (cr_revoked c).

Definition revokeSessionTx (now : Z) (sessionID reason : string) : ATx unit :=
  let! _ := tx_stmt (revoke_refresh (TruncateMicro now) reason (λ i _, String.eqb i sessionID)) in
  let! _ := tx_stmt (revoke_access (TruncateMicro now) (λ _ a, String.eqb (ac_session a) sessionID)) in
  ret tt.

(** Has this session used this refresh token before? *)
Definition is_replay (h : hash) (sessionID : string) (d : ADB) : bool :=
  match history d !! h with Some r => String.eqb (hi_session r) sessionID | None => false end.

(** The transaction; [None] when it committed the revocation of a replay. *)
Definition rotate_tx (sessionID : string) (presentedHash : hash) (now : Z) (m : RotatedMaterial)
    : ATx (TxEnd (option (Client * Z))) :=
  let! found := tx_stmt (query (select_refresh sessionID)) in
  match found with
  | None => fail ErrInvalidCredential
  | Some (s, c) =>
      if is_revoked (rf_revoked s) || is_revoked (cr_revoked c) then fail ErrRevoked
      else if negb (After (rf_expires s) now) then fail ErrExpiredCredential
      else if negb (same_hash (rf_hash s) presentedHash) then
        let! replay := tx_stmt (query (is_replay presentedHash sessionID)) in
        if replay : bool then
          let! _ := revokeSessionTx now sessionID "refresh_replay" in
          ret (Commit None)
        else fail ErrInvalidCredential
      else
        let! _ := tx_stmt (insert_history (rf_hash s) (mkHistoryRow sessionID (TruncateMicro now))) in
        let! _ := tx_stmt (rotate_session (TruncateMicro now) sessionID (rm_RefreshHash m)) in
        let! _ := tx_stmt (insert_access (rm_AccessTokenID m)
                    (new_access now sessionID (rf_client s) (rm_AccessHash m) (cr_scopes c)
                       (rm_AccessExpires m))) in
        let! _ := tx_stmt (seen_client (TruncateMicro now) (rf_client s)) in
        let client := scanClient (rf_client s) c in
        ret (Commit (Some
          (mkClient (cn_ID client) (cn_Name client) (cn_Scopes client) (cn_CreatedAt client)
             (Some now) (cn_RevokedAt client), rf_expires s)))
  end.

Definition StoreRotateRefresh (sessionID : string) (presentedHash : hash) (now : Z)
    (m : RotatedMaterial) : AOp (Client * Z) :=
  let! rotated := run_tx (rotate_tx sessionID presentedHash now m) in
  match rotated with Some x => ret x | None => fail ErrRefreshReplay end.

(** ** RevokeSession, ListClients, RevokeClient *)

Definition revoke_session_tx (sessionID : string) (presentedHash : hash) (now : Z) (reason : string)
    : ATx (TxEnd unit) :=
  let! current := tx_stmt (query (λ d, rf_hash <$> rsessions d !! sessionID)) in
  match current with
  | None => fail ErrInvalidCredential
  | Some currentHash =>
      if negb (same_hash currentHash presentedHash) then fail ErrInvalidCredential
      else
        let! _ := revokeSessionTx now sessionID reason in
        ret (Commit tt)
  end.

Definition StoreRevokeSession (sessionID : string) (presentedHash : hash) (now : Z) (reason : string)
    : AOp unit :=
  run_tx (revoke_session_tx sessionID presentedHash now reason).

(** ORDER BY created_at DESC *)
Definition client_order (x y : string * client_row) : Prop := (cr_created y.2 ≤ cr_created x.2)%Z.
#[export] Instance client_order_dec : RelDecision client_order.
Proof. intros x y; unfold client_order; apply _. Defined.

Definition StoreListClients : AOp (list Client) :=
  pool_stmt (query (λ d,
    map (λ x, scanClient x.1 x.2) (merge_sort client_order (map_to_list (clients d))))).

Definition revoke_client_tx (clientID : string) (now : Z) (reason : string) : ATx (TxEnd unit) :=
  let! affected := tx_stmt (revoke_client_stmt (TruncateMicro now) clientID) in
  if (affected =? 0)%Z then fail ErrNotFound else
  let! _ := tx_stmt (revoke_refresh (TruncateMicro now) reason (λ _ s, String.eqb (rf_client s) clientID)) in
  let! _ := tx_stmt (revoke_access (TruncateMicro now) (λ _ a, String.eqb (ac_client a) clientID)) in
  ret (Commit tt).

Definition StoreRevokeClient (clientID : string) (now : Z) (reason : string) : AOp unit :=
  run_tx (revoke_client_tx clientID now reason).

(** ** What the transactions do when nothing fails *)

Definition auth_db_error {A} (r : result auth_error A) : Prop := ∃ e, r = Err (EAuthDb e).

Lemma auth_db_failure {A} (r : result auth_error A) : db_failure r ↔ auth_db_error r.
Proof. done. Qed.
