(* ===== verification/AuthService.v ===== *)
(** * internal/auth/service.go: tokens, pairing, refresh and revocation

    The Service over the credential store.  [now] is the service's clock; the
    [r] arguments are the bytes randomSecret reads from crypto/rand. *)

From S2P Require Import Prelude GoStd GoTime GoCrypto.
From S2P Require Import Sql Tables AuthDB AuthStore.
From Stdlib Require Import Ascii.
#[local] Open Scope string_scope.

(** ** Secrets and tokens *)

Definition randomSecret (random : list Z) : string := RawURLEncoding random.

Definition tokenHash (secret : string) : hash := Sum256 (string_bytes secret).

Definition randomID (prefix : string) (random : list Z) : string :=
  prefix +:+ "_" +:+ randomSecret random.

(** (id, secret, token) *)
Definition newTokenWithID (prefix id : string) (random : list Z) : string * string * string :=
  let secret := randomSecret random in (id, secret, id +:+ "." +:+ secret).

Definition newToken (prefix : string) (r1 r2 : list Z) : string * string * string :=
  newTokenWithID prefix (randomID prefix r1) r2.

Definition parseToken (value prefix : string) : result auth_error (string * string) :=
  match Split (TrimSpace value) "." with
  | [id; secret] =>
      if negb (HasPrefix id (prefix +:+ "_")) || (strlen secret <? 32)%Z
      then Err ErrInvalidCredential else Ok (id, secret)
  | _ => Err ErrInvalidCredential
  end.

(** ** Scopes *)

Definition allowed_scope (scope : string) : bool :=
  String.eqb scope ScopeRuntimeRead || String.eqb scope ScopeRuntimeWrite
  || String.eqb scope ScopeSourceRead.

Fixpoint normalize_loop (result_ scopes : list string) : result auth_error (list string) :=
  match scopes with
  | [] => Ok result_
  | scope :: scopes =>
      let scope := TrimSpace scope in
      if negb (allowed_scope scope) then Err (ErrUnsupportedScope scope)
      else if bool_decide (scope ∈ result_) then normalize_loop result_ scopes
      else normalize_loop (result_ ++ [scope])%list scopes
  end.

Definition normalizeScopes (scopes : list string) : result auth_error (list string) :=
  normalize_loop [] (match scopes with [] => DefaultScopes | _ => scopes end).

(** ** The service *)

Record Config := mkConfig { AccessTTL : Z; RefreshTTL : Z; PairingTTL : Z }.

Definition positive_or (ttl fallback : Z) : Z := if (ttl <=? 0)%Z then fallback else ttl.

(** The configuration NewService keeps. *)
Definition NewService (conf : Config) : Config :=
  mkConfig (positive_or (AccessTTL conf) (15 * minute))
           (positive_or (RefreshTTL conf) (30 * 24 * hour))
           (positive_or (PairingTTL conf) (10 * minute)).

Record PairingLink := mkLink { lk_Code : string; lk_ExpiresAt : Z }.

Record TokenPair := mkPair {
  tp_AccessToken : string; tp_TokenType : string; tp_ExpiresIn : Z; tp_AccessExpiresAt : Z;
  tp_RefreshToken : string; tp_RefreshExpires : Z; tp_Client : Client }.

(** int64(d.Seconds()): whole seconds, towards zero *)
Definition whole_seconds (d : Z) : Z := Z.quot d second.

Definition tokenPair (access refresh : string) (accessExpiry refreshExpiry : Z) (client : Client)
    (now : Z) : TokenPair :=
  mkPair access "Bearer" (whole_seconds (accessExpiry - now)) accessExpiry refresh refreshExpiry client.

Section Service.
Context (conf : Config).

Definition CreatePairingGrant (now : Z) (r1 r2 : list Z) (name : string) (scopes : list string)
    : AOp PairingLink :=
  let name := TrimSpace name in
  if String.eqb name "" || (120 <? strlen name)%Z then fail ErrClientName else
  match normalizeScopes scopes with
  | Err e => fail e
  | Ok normalized =>
      let code := randomSecret r1 in
      let grant := mkGrant (randomID "grant" r2) (tokenHash code) name normalized
                     (now + PairingTTL conf) now in
      let! _ := StoreCreatePairingGrant grant in
      ret (mkLink code (pg_ExpiresAt grant))
  end.

Definition ExchangePairingGrant (now : Z) (r1 r2 r3 r4 r5 : list Z) (code : string) : AOp TokenPair :=
  let code := TrimSpace code in
  if String.eqb code "" || (512 <? strlen code)%Z then fail ErrInvalidCredential else
  let '(accessID, accessSecret, accessToken) := newToken "at" r1 r2 in
  let '(sessionID, refreshSecret, refreshToken) := newToken "rt" r3 r4 in
  let material := mkMaterial (randomID "client" r5) sessionID accessID (tokenHash accessSecret)
                    (tokenHash refreshSecret) (now + AccessTTL conf) (now + RefreshTTL conf) in
  let! client := StoreExchangePairingGrant (tokenHash code) now material in
  ret (tokenPair accessToken refreshToken (cm_AccessExpires material) (cm_RefreshExpires material)
         client now).

Definition Authenticate (now : Z) (bearer : string) : AOp Principal :=
  match parseToken bearer "at" with
  | Err _ => fail ErrInvalidCredential
  | Ok (id, secret) => StoreAuthenticateAccess id (tokenHash secret) now
  end.

Definition Refresh (now : Z) (r1 r2 r3 : list Z) (refreshToken : string) : AOp TokenPair :=
  match parseToken refreshToken "rt" with
  | Err _ => fail ErrInvalidCredential
  | Ok (sessionID, secret) =>
      let '(accessID, accessSecret, accessToken) := newToken "at" r1 r2 in
      let '(_, refreshSecret, nextRefreshToken) := newTokenWithID "rt" sessionID r3 in
      let material := mkRotated accessID (tokenHash accessSecret) (tokenHash refreshSecret)
                        (now + AccessTTL conf) in
      let! rotated := StoreRotateRefresh sessionID (tokenHash secret) now material in
      let '(client, refreshExpires) := rotated in
      ret (tokenPair accessToken nextRefreshToken (rm_AccessExpires material) refreshExpires client now)
  end.

Definition RevokeSession (now : Z) (refreshToken reason : string) : AOp unit :=
  match parseToken refreshToken "rt" with
  | Err _ => fail ErrInvalidCredential
  | Ok (sessionID, secret) => StoreRevokeSession sessionID (tokenHash secret) now reason
  end.

Definition ListClients : AOp (list Client) := StoreListClients.

Definition RevokeClient (now : Z) (clientID reason : string) : AOp unit :=
  if String.eqb (TrimSpace clientID) "" then fail ErrNotFound
  else StoreRevokeClient clientID now reason.
End Service.

(** ** Tokens round-trip *)

Lemma token_chars l : Forall is_byte l → Forall (λ c, url_char c = true) (str_bytes (RawURLEncoding l)).
Proof. intros Hl. unfold RawURLEncoding. rewrite str_bytes_str. by apply raw_url_chars. Qed.

Lemma url_char_no_dot c : url_char c = true → c ≠ "."%char.
Proof. unfold url_char. destruct (Ascii.eqb_spec c "."); [|done]. by rewrite andb_false_r. Qed.
Lemma url_char_graphic c : url_char c = true → graphic c = true.
Proof. unfold url_char. by rewrite andb_true_iff; intros []. Qed.

(** Two texts of URL characters, joined by a dot. *)
Lemma split_token id secret :
  Forall (λ c, url_char c = true) (str_bytes id) → Forall (λ c, url_char c = true) (str_bytes secret) →
  Split (TrimSpace (id +:+ "." +:+ secret)) "." = [id; secret].
Proof.
  intros Hid Hs. rewrite TrimSpace_graphic.
  - unfold Split. rewrite !str_bytes_app. change (str_bytes ".") with ["."%char]. cbn [app].
    rewrite split_bytes_app by (eapply Forall_impl; [exact Hid|apply url_char_no_dot]).
    rewrite split_bytes_none by (eapply Forall_impl; [exact Hs|apply url_char_no_dot]).
    simpl. by rewrite !bytes_str_bytes.
  - rewrite !str_bytes_app, !Forall_app. split_and!.
    + eapply Forall_impl; [exact Hid|apply url_char_graphic].
    + by repeat constructor.
    + eapply Forall_impl; [exact Hs|apply url_char_graphic].
Qed.

Lemma randomID_chars prefix r :
  Forall (λ c, url_char c = true) (str_bytes prefix) → Forall is_byte r →
  Forall (λ c, url_char c = true) (str_bytes (randomID prefix r)).
Proof.
  intros Hp Hr. unfold randomID. rewrite !str_bytes_app, !Forall_app.
  split_and!; [done|by repeat constructor|by apply token_chars].
Qed.

Lemma strlen_bytes_str l : strlen (bytes_str l) = Z.of_nat (length l).
Proof. unfold strlen. f_equal. induction l as [|c l IH]; simpl; [done|by f_equal]. Qed.

Lemma secret_len r : strlen (randomSecret r) = raw_url_length (Z.of_nat (length r)).
Proof. unfold randomSecret, RawURLEncoding. by rewrite strlen_bytes_str, raw_url_len. Qed.

Lemma parse_token_with_id prefix id r :
  Forall (λ c, url_char c = true) (str_bytes id) → HasPrefix id (prefix +:+ "_") = true →
  Forall is_byte r → length r = 32 →
  parseToken (newTokenWithID prefix id r).2 prefix = Ok (id, randomSecret r).
Proof.
  intros Hid Hp Hr Hlen. unfold parseToken, newTokenWithID. cbn [snd].
  rewrite split_token by (try done; by apply token_chars).
  rewrite Hp, secret_len, Hlen. reflexivity.
Qed.
