(* ===== verification/AuthEffects.v ===== *)
(** * What the credential store's transactions do

    For each operation of AuthStore.v, its effect on the tables when nothing
    fails, under the conditions the code checks; and that every effect keeps the
    invariant of the credentials and undoes nothing. *)

From S2P Require Import Prelude GoStd GoTime.
From S2P Require Import Sql Tables AuthDB AuthStore.
#[local] Open Scope string_scope.

(** ** The effects *)

(** A grant exchanged: its client, the client's session and first token. *)
Definition exchanged (now : Z) (m : CredentialMaterial) (i : string) (g : grant_row) (d : ADB) : ADB :=
  mkADB (alter (consume_row (TruncateMicro now) (cm_ClientID m)) i (grants d))
    (<[cm_ClientID m := new_client now g]> (clients d))
    (<[cm_SessionID m := new_refresh now m]> (rsessions d))
    (history d)
    (<[cm_AccessTokenID m := new_access now (cm_SessionID m) (cm_ClientID m) (cm_AccessHash m)
                               (gr_scopes g) (cm_AccessExpires m)]> (access d)).

(** A refresh token rotated: the old one remembered, a new access token. *)
Definition rotated (now : Z) (sessionID : string) (m : RotatedMaterial) (s : refresh_row)
    (c : client_row) (d : ADB) : ADB :=
  mkADB (grants d) (alter (seen_row (TruncateMicro now)) (rf_client s) (clients d))
    (alter (rotate_row (TruncateMicro now) (rm_RefreshHash m)) sessionID (rsessions d))
    (<[rf_hash s := mkHistoryRow sessionID (TruncateMicro now)]> (history d))
    (<[rm_AccessTokenID m := new_access now sessionID (rf_client s) (rm_AccessHash m) (cr_scopes c)
                               (rm_AccessExpires m)]> (access d)).

(** A session revoked with its tokens. *)
Definition session_revoked (now : Z) (sessionID reason : string) (d : ADB) : ADB :=
  mkADB (grants d) (clients d)
    (update_where (λ i _, String.eqb i sessionID) (revoke_refresh_row (TruncateMicro now) reason) (rsessions d)).2
    (history d)
    (update_where (λ _ a, String.eqb (ac_session a) sessionID) (revoke_access_row (TruncateMicro now)) (access d)).2.

(** A client revoked with its session and tokens. *)
Definition client_revoked (now : Z) (clientID reason : string) (d : ADB) : ADB :=
  mkADB (grants d)
    (update_where (λ i _, String.eqb i clientID) (revoke_client_row (TruncateMicro now)) (clients d)).2
    (update_where (λ _ s, String.eqb (rf_client s) clientID) (revoke_refresh_row (TruncateMicro now) reason) (rsessions d)).2
    (history d)
    (update_where (λ _ a, String.eqb (ac_client a) clientID) (revoke_access_row (TruncateMicro now)) (access d)).2.

(** ** The transactions run alone *)

Lemma exists_in_true {V} (m : gmap string V) k : exists_in m k = true ↔ is_Some (m !! k).
Proof. apply bool_decide_eq_true. Qed.
Lemma exists_in_false {V} (m : gmap string V) k : exists_in m k = false ↔ m !! k = None.
Proof. unfold exists_in. rewrite bool_decide_eq_false, eq_None_not_Some. done. Qed.

Lemma revoke_session_live now id reason d :
  revokeSessionTx now id reason (live d) = (Ok tt, live (session_revoked now id reason d)).
Proof. reflexivity. Qed.

Lemma exchange_robust h now m : all_or_nothing (exchange_tx h now m).
Proof. left. unfold exchange_tx. robust. Qed.
Lemma rotate_robust id h now m : all_or_nothing (rotate_tx id h now m).
Proof. left. unfold rotate_tx, revokeSessionTx. robust. Qed.
Lemma revoke_session_robust id h now reason : all_or_nothing (revoke_session_tx id h now reason).
Proof. left. unfold revoke_session_tx, revokeSessionTx. robust. Qed.
Lemma revoke_client_robust id now reason : all_or_nothing (revoke_client_tx id now reason).
Proof. left. unfold revoke_client_tx. robust. Qed.

(** Run the next insertion of a calm transaction; a refused one ends it. *)
Ltac insert_step H H0 :=
  live_step H;
  match type of H with
  | context [match ?s ?d with _ => _ end] =>
      let d1 := fresh "d" in let e := fresh "e" in let Ei := fresh "Ei" in
      destruct (s d) as [[[] d1]|e] eqn:Ei;
      [|live_end H H0; left; split; [by eexists|done]]; cbv beta iota in H
  end.

(** What happens to a code: refused, or exchanged unless the database refuses. *)
Definition code_refused (now : Z) (found : option (string * grant_row)) : option auth_error :=
  match found with
  | None => Some ErrInvalidCredential
  | Some (_, g) =>
      if is_revoked (gr_consumed g) then Some ErrConsumedGrant
      else if negb (After (gr_expires g) now) then Some ErrExpiredCredential else None
  end.

Lemma exchange_calm h now m d :
  match code_refused now (select_grant h d), select_grant h d with
  | Some e, _ => reply (exchange_tx h now m) d = Err e ∧ committed (exchange_tx h now m) d = d
  | None, Some (i, g) =>
      (auth_db_error (reply (exchange_tx h now m) d) ∧ committed (exchange_tx h now m) d = d) ∨
      (clients d !! cm_ClientID m = None ∧ rsessions d !! cm_SessionID m = None
       ∧ access d !! cm_AccessTokenID m = None
       ∧ reply (exchange_tx h now m) d
           = Ok (mkClient (cm_ClientID m) (gr_name g) (gr_scopes g) now None None)
       ∧ committed (exchange_tx h now m) d = exchanged now m i g d)
  | None, None => False
  end.
Proof.
  destruct (exchange_tx h now m (live d)) as [x t] eqn:H. pose proof H as H0.
  unfold exchange_tx in H. live_step H. cbv beta iota in H. unfold code_refused.
  destruct (select_grant h d) as [[i g]|] eqn:Eg; [|by live_end H H0]. cbv beta iota in H.
  destruct (gr_consumed g) as [t0|] eqn:Ec; cbn [is_revoked]; [by live_end H H0|].
  destruct (After (gr_expires g) now); cbn [negb] in *; [|by live_end H H0].
  insert_step H H0. insert_step H H0. insert_step H H0. insert_step H H0.
  live_end H H0. right.
  unfold insert_client in Ei. checks Ei. apply negb_true_iff, exists_in_false in C. simplify_eq.
  unfold insert_refresh in Ei0. checks Ei0. apply negb_true_iff, exists_in_false in C0. simplify_eq.
  unfold insert_access in Ei1. checks Ei1. apply negb_true_iff, exists_in_false in C2. simplify_eq.
  unfold consume_grant in Ei2. checks Ei2. simplify_eq. split_and!; try done.
Qed.

(** Why a refresh token is refused without any effect. *)
Definition refresh_refused (now : Z) (found : option (refresh_row * client_row)) : option auth_error :=
  match found with
  | None => Some ErrInvalidCredential
  | Some (s, c) =>
      if is_revoked (rf_revoked s) || is_revoked (cr_revoked c) then Some ErrRevoked
      else if negb (After (rf_expires s) now) then Some ErrExpiredCredential else None
  end.

Lemma rotate_calm id h now m d (body := rotate_tx id h now m) :
  match refresh_refused now (select_refresh id d), select_refresh id d with
  | Some e, _ => reply body d = Err e ∧ committed body d = d
  | None, Some (s, c) =>
      if same_hash (rf_hash s) h then
        (auth_db_error (reply body d) ∧ committed body d = d) ∨
        (history d !! rf_hash s = None ∧ access d !! rm_AccessTokenID m = None
         ∧ reply body d = Ok (Some (mkClient (rf_client s) (cr_name c) (cr_scopes c) (cr_created c)
                                      (Some now) (cr_revoked c), rf_expires s))
         ∧ committed body d = rotated now id m s c d)
      else if is_replay h id d
      then reply body d = Ok None ∧ committed body d = session_revoked now id "refresh_replay" d
      else reply body d = Err ErrInvalidCredential ∧ committed body d = d
  | None, None => False
  end.
Proof.
  destruct (body (live d)) as [x t] eqn:H. pose proof H as H0. unfold body in *.
  unfold rotate_tx in H. live_step H. cbv beta iota in H. unfold refresh_refused.
  destruct (select_refresh id d) as [[s c]|] eqn:Es; [|by live_end H H0]. cbv beta iota in H.
  destruct (is_revoked (rf_revoked s) || is_revoked (cr_revoked c)); [by live_end H H0|].
  destruct (After (rf_expires s) now); cbn [negb] in *; [|by live_end H H0].
  destruct (same_hash (rf_hash s) h); cbn [negb] in *.
  - insert_step H H0. insert_step H H0. insert_step H H0. insert_step H H0. live_end H H0. right.
    unfold insert_history in Ei. checks Ei. apply negb_true_iff, bool_decide_eq_false in C. simplify_eq.
    unfold rotate_session in Ei0. simplify_eq.
    unfold insert_access in Ei1. checks Ei1. apply negb_true_iff, exists_in_false in C1. simplify_eq.
    unfold seen_client in Ei2. simplify_eq. rewrite eq_None_not_Some. by split_and!.
  - live_step H. cbv beta iota in H. destruct (is_replay h id d); [|by live_end H H0].
    cbn [bind sm_monad] in H. rewrite revoke_session_live in H. by live_end H H0.
Qed.

Lemma revoke_session_calm id h now reason d (body := revoke_session_tx id h now reason) :
  match rsessions d !! id with
  | Some s =>
      if same_hash (rf_hash s) h
      then reply body d = Ok tt ∧ committed body d = session_revoked now id reason d
      else reply body d = Err ErrInvalidCredential ∧ committed body d = d
  | None => reply body d = Err ErrInvalidCredential ∧ committed body d = d
  end.
Proof.
  destruct (body (live d)) as [x t] eqn:H. pose proof H as H0. unfold body in *.
  unfold revoke_session_tx in H. live_step H. cbv beta iota in H.
  destruct (rsessions d !! id) as [s|]; cbn [fmap option_fmap option_map] in H; [|by live_end H H0].
  destruct (same_hash (rf_hash s) h); cbn [negb] in H; [|by live_end H H0].
  cbn [bind sm_monad] in H. rewrite revoke_session_live in H. by live_end H H0.
Qed.

Lemma affected_one {V} (f : V → V) (m : gmap string V) id :
  ((update_where (λ i _, String.eqb i id) f m).1 =? 0)%Z = negb (exists_in m id).
Proof.
  unfold update_where; simpl. destruct (m !! id) as [v|] eqn:E.
  - rewrite (proj2 (exists_in_true _ _)) by eauto. simpl. apply Z.eqb_neq.
    assert (filter (λ kv : string * V, String.eqb kv.1 id = true) m ≠ ∅); [|
      rewrite <- (map_size_empty_iff (filter _ m)) in *; lia].
    intros H. assert (filter (λ kv : string * V, String.eqb kv.1 id = true) m !! id = Some v) as Hl.
    { apply map_lookup_filter_Some. split; [done|]. simpl. apply String.eqb_refl. }
    by rewrite H, lookup_empty in Hl.
  - rewrite (proj2 (exists_in_false _ _)) by done. simpl. apply Z.eqb_eq.
    assert (filter (λ kv : string * V, String.eqb kv.1 id = true) m = ∅) as ->; [|by rewrite map_size_empty].
    apply map_empty_filter. intros i x Hi. simpl.
    destruct (String.eqb_spec i id) as [->|]; [congruence|done].
Qed.

Lemma revoke_refresh_eq now reason P d :
  revoke_refresh now reason P d =
  Ok ((update_where P (revoke_refresh_row now reason) (rsessions d)).1,
      set_rsessions (update_where P (revoke_refresh_row now reason) (rsessions d)).2 d).
Proof. reflexivity. Qed.
Lemma revoke_access_eq now P d :
  revoke_access now P d =
  Ok ((update_where P (revoke_access_row now) (access d)).1,
      set_access (update_where P (revoke_access_row now) (access d)).2 d).
Proof. reflexivity. Qed.
Lemma revoke_client_eq now id d :
  revoke_client_stmt now id d =
  Ok ((update_where (λ i _, String.eqb i id) (revoke_client_row now) (clients d)).1,
      set_clients (update_where (λ i _, String.eqb i id) (revoke_client_row now) (clients d)).2 d).
Proof. reflexivity. Qed.

Lemma revoke_client_calm id now reason d (body := revoke_client_tx id now reason) :
  if exists_in (clients d) id
  then reply body d = Ok tt ∧ committed body d = client_revoked now id reason d
  else reply body d = Err ErrNotFound ∧ committed body d = d.
Proof.
  destruct (body (live d)) as [x t] eqn:H. pose proof H as H0. unfold body in *.
  unfold revoke_client_tx in H. live_step H. rewrite revoke_client_eq, affected_one in H.
  destruct (exists_in (clients d) id); cbn [negb] in H; [|by live_end H H0].
  live_step H. rewrite revoke_refresh_eq in H. cbv beta iota in H.
  live_step H. rewrite revoke_access_eq in H. by live_end H H0.
Qed.
