(* ===== verification/AuthInvariant.v ===== *)
(** * The credentials stay well formed

    Every effect of the credential store, hence every call of the service under
    any failures and interference, keeps the invariant [auth_wf] and only lets
    the credentials evolve along [auth_grows]. *)

From S2P Require Import Prelude GoStd GoTime GoCrypto.
From S2P Require Import Sql Tables AuthDB AuthStore AuthService AuthEffects.
#[local] Open Scope string_scope.

(** ** Revocations *)

Lemma first_of_sticky {A} (o : option A) x : sticky o (first_of o x).
Proof. unfold sticky. destruct o; simpl; auto. Qed.
Lemma first_of_not_None {A} (o : option A) x : first_of o x ≠ None.
Proof. by destruct o. Qed.

Lemma if_le {A} (R : relation A) `{!Reflexive R} (b : bool) (f : A → A) x :
  R x (f x) → R x (if b then f x else x).
Proof. by destruct b. Qed.

Lemma revoke_client_le now c : client_le c (revoke_client_row now c).
Proof. split; try done. apply first_of_sticky. Qed.
Lemma revoke_refresh_le now reason s : refresh_le s (revoke_refresh_row now reason s).
Proof. split; try done; apply first_of_sticky. Qed.
Lemma revoke_access_le now a : access_le a (revoke_access_row now a).
Proof. split; try done. apply first_of_sticky. Qed.
Lemma seen_client_le now c : client_le c (seen_row now c).
Proof. split; try done; by right. Qed.

Lemma table_le_fmap {V} (R : relation V) (m m' : gmap string V) (f : string → V → V) :
  (∀ i, m' !! i = f i <$> m !! i) → (∀ i v, R v (f i v)) → table_le R m m'.
Proof. intros Hm Hf i x Hx. exists (f i x). rewrite Hm, Hx. split; [done|apply Hf]. Qed.

Lemma fmap_back {V} (m m' : gmap string V) (f : string → V → V) i y :
  (∀ i, m' !! i = f i <$> m !! i) → m' !! i = Some y → ∃ x, m !! i = Some x ∧ y = f i x.
Proof. intros Hm Hy. rewrite Hm in Hy. apply fmap_Some in Hy as (x&?&->). eauto. Qed.

Section Revocation.
Context (now : Z) (reason : string).
Context (Pc : string → client_row → bool) (Ps : string → refresh_row → bool)
        (Pa : string → access_row → bool) (d d' : ADB).
Let fc i c := if Pc i c then revoke_client_row now c else c.
Let fs i s := if Ps i s then revoke_refresh_row now reason s else s.
Let fa i a := if Pa i a then revoke_access_row now a else a.
Hypothesis (Hg : grants d' = grants d) (Hh : history d' = history d).
Hypothesis (Hc : ∀ i, clients d' !! i = fc i <$> clients d !! i).
Hypothesis (Hs : ∀ i, rsessions d' !! i = fs i <$> rsessions d !! i).
Hypothesis (Ha : ∀ i, access d' !! i = fa i <$> access d !! i).
(** What depends on a revoked row is revoked with it. *)
Hypothesis (Hcs : ∀ i s c, rsessions d !! i = Some s → clients d !! rf_client s = Some c →
  Pc (rf_client s) c = true → Ps i s = true).
Hypothesis (Hsa : ∀ i a s, auth_wf d → access d !! i = Some a → rsessions d !! ac_session a = Some s →
  Ps (ac_session a) s = true → Pa i a = true).

Lemma fc_le i c : client_le c (fc i c).
Proof. apply if_le; [apply _|]. apply revoke_client_le. Qed.
Lemma fs_le i s : refresh_le s (fs i s).
Proof. apply if_le; [apply _|]. apply revoke_refresh_le. Qed.
Lemma fa_le i a : access_le a (fa i a).
Proof. apply if_le; [apply _|]. apply revoke_access_le. Qed.
Lemma fs_hash i s : rf_hash (fs i s) = rf_hash s.
Proof. unfold fs. by destruct (Ps i s). Qed.

Lemma revocation_wf : auth_wf d → auth_wf d'.
Proof.
  intros Hwf. pose proof Hwf as []. split; rewrite ?Hg, ?Hh; try assumption.
  - intros i g c Hi Hgc. destruct (aw_grant_client i g c Hi Hgc) as (x&Hx&?&?).
    exists (fc c x). rewrite Hc, Hx. destruct (fc_le c x). split_and!; [done|congruence..].
  - intros c x Hx. destruct (fmap_back _ _ _ _ _ Hc Hx) as (y&Hy&_). eauto.
  - intros i s Hi. destruct (fmap_back _ _ _ _ _ Hs Hi) as (s0&Hs0&->).
    rewrite Hc, (fl_client _ _ (fs_le i s0)), fmap_is_Some. eauto.
  - intros i j s t c Hi Hj. destruct (fmap_back _ _ _ _ _ Hs Hi) as (s0&Hs0&->).
    destruct (fmap_back _ _ _ _ _ Hs Hj) as (t0&Ht0&->). unfold refresh_client_col.
    rewrite (fl_client _ _ (fs_le i s0)), (fl_client _ _ (fs_le j t0)). by apply aw_refresh_once.
  - intros i t Hi. destruct (fmap_back _ _ _ _ _ Ha Hi) as (t0&Ht0&->).
    destruct (aw_access i t0 Ht0) as (s&x&Hsx&He&Hx&Hsc). destruct (fa_le i t0) as [-> -> _ -> _ _].
    exists (fs (ac_session t0) s), (fc (ac_client t0) x). rewrite Hs, Hsx, Hc, Hx.
    rewrite (fl_client _ _ (fs_le _ s)), (cl_scopes _ _ (fc_le _ x)). done.
  - intros h r Hr. rewrite Hs, fmap_is_Some. eauto.
  - intros i s x Hi Hx Hrev. destruct (fmap_back _ _ _ _ _ Hs Hi) as (s0&Hs0&->).
    rewrite (fl_client _ _ (fs_le i s0)) in Hx. destruct (fmap_back _ _ _ _ _ Hc Hx) as (x0&Hx0&->).
    unfold fs, fc in *. destruct (Pc (rf_client s0) x0) eqn:EP.
    + rewrite (Hcs i s0 x0) by done. apply first_of_not_None.
    + destruct (Ps i s0); [apply first_of_not_None|]. eauto.
  - intros i t s Hi Hsx Hrev. destruct (fmap_back _ _ _ _ _ Ha Hi) as (t0&Ht0&->).
    rewrite (al_session _ _ (fa_le i t0)) in Hsx. destruct (fmap_back _ _ _ _ _ Hs Hsx) as (s0&Hs0&->).
    unfold fs, fa in *. destruct (Ps (ac_session t0) s0) eqn:EP.
    + rewrite (Hsa i t0 s0) by done. apply first_of_not_None.
    + destruct (Pa i t0); [apply first_of_not_None|]. eauto.
Qed.

Lemma revocation_grows : auth_grows d d'.
Proof.
  split; rewrite ?Hg, ?Hh; try reflexivity.
  - eapply table_le_fmap; [exact Hc|apply fc_le].
  - eapply table_le_fmap; [exact Hs|apply fs_le].
  - eapply table_le_fmap; [exact Ha|apply fa_le].
  - intros i s s' Hi Hi'. left. rewrite Hs, Hi in Hi'. simpl in Hi'. simplify_eq. apply fs_hash.
Qed.

Lemma revocation_good : auth_good d d'.
Proof. intros Hwf. split; [by apply revocation_wf|apply revocation_grows]. Qed.
End Revocation.

Lemma session_revoked_good now id reason d : auth_good d (session_revoked now id reason d).
Proof.
  apply (revocation_good (TruncateMicro now) reason (λ _ _, false)
    (λ i _, String.eqb i id) (λ _ a, String.eqb (ac_session a) id)); try done.
  - intros i. simpl. by destruct (clients d !! i).
  - intros i. apply lookup_update_where.
  - intros i. apply lookup_update_where.
Qed.

Lemma client_revoked_good now id reason d : auth_good d (client_revoked now id reason d).
Proof.
  apply (revocation_good (TruncateMicro now) reason (λ i _, String.eqb i id)
    (λ _ s, String.eqb (rf_client s) id) (λ _ a, String.eqb (ac_client a) id)); try done.
  - intros i. apply lookup_update_where.
  - intros i. apply lookup_update_where.
  - intros i. apply lookup_update_where.
  - intros i a s Hwf Ha Hs HP. destruct (aw_access d Hwf i a Ha) as (s'&x&Hs'&->&_). congruence.
Qed.

(** ** Clients seen *)

Lemma seen_good now id (keep : client_row → bool) d :
  auth_good d (set_clients (alter (λ c, if keep c then c else seen_row now c) id (clients d)) d).
Proof.
  set (f i c := if String.eqb i id then if keep c then c else seen_row now c else c).
  assert (∀ i, clients (set_clients (alter (λ c, if keep c then c else seen_row now c) id (clients d)) d) !! i
               = f i <$> clients d !! i) as Hc.
  { intros i. simpl. unfold f. destruct (String.eqb_spec i id) as [->|].
    - by rewrite lookup_alter_eq.
    - rewrite lookup_alter_ne by done. by destruct (clients d !! i). }
  assert (∀ i c, client_le c (f i c) ∧ cr_revoked (f i c) = cr_revoked c) as Hf.
  { intros i c. unfold f. destruct (String.eqb i id), (keep c);
      (split; [first [reflexivity|apply seen_client_le]|reflexivity]). }
  intros Hwf. pose proof Hwf as []. split.
  - split; try assumption.
    + intros i g c Hi Hgc. destruct (aw_grant_client i g c Hi Hgc) as (x&Hx&?&?).
      exists (f c x). rewrite Hc, Hx. destruct (Hf c x) as [[] _]. split_and!; [done|congruence..].
    + intros c x Hx. destruct (fmap_back _ _ _ _ _ Hc Hx) as (y&Hy&_). eauto.
    + intros i s Hi. rewrite Hc, fmap_is_Some. eauto.
    + intros i t Hi. destruct (aw_access i t Hi) as (s&x&Hsx&He&Hx&Hsc).
      exists s, (f (ac_client t) x). rewrite Hc, Hx, (cl_scopes _ _ (proj1 (Hf _ x))). done.
    + intros i s x Hi Hx Hrev. destruct (fmap_back _ _ _ _ _ Hc Hx) as (y&Hy&->).
      rewrite (proj2 (Hf _ y)) in Hrev. eauto.
  - split; simpl; try reflexivity.
    + eapply table_le_fmap; [exact Hc|apply Hf].
    + intros i s s' Hs Hs'. left. simpl in Hs'. congruence.
Qed.

Lemma seen_client_good now id : stmt_guar auth_good (seen_client now id).
Proof.
  intros d [] d' H. unfold seen_client in H. simplify_eq. apply (seen_good now id (λ _, false) d).
Qed.
Lemma touch_client_good now id : stmt_guar auth_good (touch_client now id).
Proof.
  intros d [] d' H. unfold touch_client in H. simplify_eq. apply (seen_good now id (seen_lately now) d).
Qed.

(** ** Grants *)

Lemma select_grant_Some h d i g :
  select_grant h d = Some (i, g) → grants d !! i = Some g ∧ gr_code_hash g = h.
Proof. unfold select_grant. by intros [? ?]%lookup_by_Some. Qed.

Lemma insert_grant_good id g :
  Forall (λ s, s ∈ supported_scopes) (gr_scopes g) → gr_consumed g = None → gr_client g = None →
  stmt_guar auth_good (insert_grant id g).
Proof.
  intros Hsc Hco Hcl d [] d' H Hwf. unfold insert_grant in H. checks H. simplify_eq.
  apply negb_true_iff, exists_in_false in C. apply negb_true_iff in C0. destruct Hwf. split.
  - split; simpl; try assumption.
    + by apply unique_col_insert.
    + intros i x Hx. destruct (decide (i = id)) as [->|];
        [rewrite lookup_insert_eq in Hx|rewrite lookup_insert_ne in Hx by done]; simplify_eq; eauto.
    + intros i x Hx. destruct (decide (i = id)) as [->|];
        [rewrite lookup_insert_eq in Hx|rewrite lookup_insert_ne in Hx by done]; simplify_eq; [|eauto].
      by rewrite Hco, Hcl.
    + intros i x c Hx Hxc. destruct (decide (i = id)) as [->|];
        [rewrite lookup_insert_eq in Hx|rewrite lookup_insert_ne in Hx by done]; simplify_eq; eauto.
    + apply unique_col_insert; [done|]. unfold grant_client_col. by rewrite Hcl.
    + intros c x Hx. destruct (aw_client_grant c x Hx) as (i&y&Hi&Hy). exists i, y.
      rewrite lookup_insert_ne by congruence. done.
  - split; simpl; try reflexivity.
    + apply table_le_insert; [apply _|]. intros x Hx. congruence.
    + intros i s s' Hs Hs'. left. simpl in Hs'. congruence.
Qed.

Lemma alter_back {V} (m : gmap string V) f k i y :
  alter f k m !! i = Some y → ∃ x, m !! i = Some x ∧ y = if String.eqb i k then f x else x.
Proof.
  destruct (String.eqb_spec i k) as [->|Hne].
  - rewrite lookup_alter_eq. intros H%fmap_Some. destruct H as (x&?&->). eauto.
  - rewrite lookup_alter_ne by done. eauto.
Qed.

Lemma table_le_alter {V} (R : relation V) `{!PreOrder R} (m : gmap string V) f k :
  (∀ x, m !! k = Some x → R x (f x)) → table_le R m (alter f k m).
Proof.
  intros Hf i x Hx. destruct (decide (i = k)) as [->|].
  - exists (f x). rewrite lookup_alter_eq, Hx. auto.
  - exists x. rewrite lookup_alter_ne by done. split; [done|reflexivity].
Qed.

(** ** An exchange *)

Section Exchange.
Context (now : Z) (m : CredentialMaterial) (i : string) (g : grant_row) (d : ADB).
Hypotheses (Hi : grants d !! i = Some g) (Hco : gr_consumed g = None).
Hypotheses (Hc : clients d !! cm_ClientID m = None) (Hs : rsessions d !! cm_SessionID m = None)
           (Ha : access d !! cm_AccessTokenID m = None).

(** Nothing refers to the new client or session yet. *)
Lemma fresh_grant_client j x : auth_wf d → grants d !! j = Some x → gr_client x ≠ Some (cm_ClientID m).
Proof. intros Hwf Hj Hx. destruct (aw_grant_client d Hwf j x _ Hj Hx) as (?&?&_). congruence. Qed.
Lemma fresh_refresh_client j s : auth_wf d → rsessions d !! j = Some s → rf_client s ≠ cm_ClientID m.
Proof. intros Hwf Hj Hx. destruct (aw_refresh_client d Hwf j s Hj) as [? ?]. congruence. Qed.
Lemma fresh_access_session j a : auth_wf d → access d !! j = Some a → ac_session a ≠ cm_SessionID m.
Proof. intros Hwf Hj Hx. destruct (aw_access d Hwf j a Hj) as (?&?&?&_). congruence. Qed.
Lemma fresh_access_client j a : auth_wf d → access d !! j = Some a → ac_client a ≠ cm_ClientID m.
Proof. intros Hwf Hj Hx. destruct (aw_access d Hwf j a Hj) as (?&?&_&_&?&_). congruence. Qed.

Lemma exchanged_wf : auth_wf d → auth_wf (exchanged now m i g d).
Proof.
  intros Hwf. pose proof (fresh_grant_client) as Fg. pose proof fresh_refresh_client as Fs.
  pose proof fresh_access_session as Fas. pose proof fresh_access_client as Fac.
  pose proof Hwf as Hwf0. destruct Hwf. unfold exchanged. split; simpl.
  - intros j k x y c Hj Hk. destruct (alter_back _ _ _ _ _ Hj) as (x0&Hx0&->).
    destruct (alter_back _ _ _ _ _ Hk) as (y0&Hy0&->). intros H1 H2.
    apply (aw_code j k x0 y0 c Hx0 Hy0); [by destruct (String.eqb j i)|by destruct (String.eqb k i)].
  - intros j x Hj. destruct (alter_back _ _ _ _ _ Hj) as (x0&Hx0&->).
    destruct (String.eqb j i); simpl; eauto.
  - intros j x Hj. destruct (alter_back _ _ _ _ _ Hj) as (x0&Hx0&->).
    destruct (String.eqb j i); simpl; [done|eauto].
  - intros j x c Hj Hxc. destruct (alter_back _ _ _ _ _ Hj) as (x0&Hx0&->).
    destruct (String.eqb_spec j i) as [->|].
    + simpl in Hxc. assert (x0 = g) as -> by congruence. injection Hxc as <-.
      exists (new_client now g). by rewrite lookup_insert_eq.
    + destruct (aw_grant_client j x0 c Hx0 Hxc) as (y&Hy&?). exists y.
      rewrite lookup_insert_ne; [done|]. intros <-. by apply (Fg j x0).
  - intros j k x y c Hj Hk. destruct (alter_back _ _ _ _ _ Hj) as (x0&Hx0&->).
    destruct (alter_back _ _ _ _ _ Hk) as (y0&Hy0&->). unfold grant_client_col.
    destruct (String.eqb_spec j i) as [->|], (String.eqb_spec k i) as [->|]; simpl; try done.
    + intros [= <-] H2. by destruct (Fg k y0 Hwf0 Hy0).
    + intros H1 [= <-]. by destruct (Fg j x0 Hwf0 Hx0).
    + by apply aw_grant_once.
  - intros c x Hx. destruct (decide (c = cm_ClientID m)) as [->|].
    + exists i, (consume_row (TruncateMicro now) (cm_ClientID m) g). by rewrite lookup_alter_eq, Hi.
    + rewrite lookup_insert_ne in Hx by done. destruct (aw_client_grant c x Hx) as (j&y&Hj&Hy).
      exists j, y. rewrite lookup_alter_ne; [done|]. intros <-.
      assert (y = g) as -> by congruence. apply aw_consumed in Hj. rewrite Hy in Hj. naive_solver.
  - intros j s Hj. rewrite lookup_insert_is_Some'. destruct (decide (j = cm_SessionID m)) as [->|].
    + rewrite lookup_insert_eq in Hj. simplify_eq. by left.
    + rewrite lookup_insert_ne in Hj by done. right. eauto.
  - apply unique_col_insert; [done|]. unfold refresh_client_col. apply taken_false.
    intros k v Hk _ [= Hv]. by apply (Fs k v).
  - intros j t Hj. destruct (decide (j = cm_AccessTokenID m)) as [->|].
    + rewrite lookup_insert_eq in Hj. simplify_eq. simpl.
      eexists _, _. rewrite !lookup_insert_eq. by split_and!.
    + rewrite lookup_insert_ne in Hj by done. destruct (aw_access j t Hj) as (s&x&Hsx&He&Hx&Hsc).
      exists s, x. rewrite !lookup_insert_ne; [done|..].
      * intros E. by apply (Fac j t).
      * intros E. by apply (Fas j t).
  - intros h r Hr. rewrite lookup_insert_is_Some'. right. eauto.
  - intros j s x Hj Hx Hrev. destruct (decide (j = cm_SessionID m)) as [->|].
    + rewrite lookup_insert_eq in Hj. simplify_eq. simpl in Hx. rewrite lookup_insert_eq in Hx. by simplify_eq.
    + rewrite lookup_insert_ne in Hj by done. rewrite lookup_insert_ne in Hx; [eauto|].
      intros E. by apply (Fs j s).
  - intros j t s Hj Hsx Hrev. destruct (decide (j = cm_AccessTokenID m)) as [->|].
    + rewrite lookup_insert_eq in Hj. simplify_eq. simpl in Hsx. rewrite lookup_insert_eq in Hsx. by simplify_eq.
    + rewrite lookup_insert_ne in Hj by done. rewrite lookup_insert_ne in Hsx; [eauto|].
      intros E. by apply (Fas j t).
Qed.

Lemma exchanged_grows : auth_wf d → auth_grows d (exchanged now m i g d).
Proof.
  intros Hwf. unfold exchanged. split; simpl; try reflexivity.
  - apply table_le_alter; [apply _|]. intros x Hx. assert (x = g) as -> by congruence.
    pose proof (proj1 (aw_consumed d Hwf i g Hi) Hco). split; try done; by left.
  - apply table_le_insert; [apply _|]. intros x Hx. congruence.
  - apply table_le_insert; [apply _|]. intros x Hx. congruence.
  - apply table_le_insert; [apply _|]. intros x Hx. congruence.
  - intros j s s' Hj Hj'. left. simpl in Hj'. rewrite lookup_insert_ne in Hj' by congruence. congruence.
Qed.
End Exchange.

(** ** A rotation *)

Section Rotation.
Context (now : Z) (id : string) (m : RotatedMaterial) (s : refresh_row) (c : client_row) (d : ADB).
Hypotheses (Hs : rsessions d !! id = Some s) (Hc : clients d !! rf_client s = Some c).
Hypotheses (Hlive : rf_revoked s = None) (Hh : history d !! rf_hash s = None)
           (Ha : access d !! rm_AccessTokenID m = None).

Lemma rotate_row_le h x : refresh_le x (rotate_row (TruncateMicro now) h x).
Proof. split; try done; by right. Qed.

(** The rotation, with the client's last_seen_at left alone. *)
Definition rotated_token (d : ADB) : ADB :=
  mkADB (grants d) (clients d)
    (alter (rotate_row (TruncateMicro now) (rm_RefreshHash m)) id (rsessions d))
    (<[rf_hash s := mkHistoryRow id (TruncateMicro now)]> (history d))
    (<[rm_AccessTokenID m := new_access now id (rf_client s) (rm_AccessHash m) (cr_scopes c)
                               (rm_AccessExpires m)]> (access d)).

Lemma rotated_token_wf : auth_wf d → auth_wf (rotated_token d).
Proof.
  intros []. unfold rotated_token. split; simpl; try assumption.
  - intros j x Hj. destruct (alter_back _ _ _ _ _ Hj) as (x0&Hx0&->).
    destruct (String.eqb j id); simpl; eauto.
  - intros j k x y v Hj Hk. destruct (alter_back _ _ _ _ _ Hj) as (x0&Hx0&->).
    destruct (alter_back _ _ _ _ _ Hk) as (y0&Hy0&->). intros H1 H2.
    apply (aw_refresh_once j k x0 y0 v Hx0 Hy0); [by destruct (String.eqb j id)|by destruct (String.eqb k id)].
  - intros j t Hj. destruct (decide (j = rm_AccessTokenID m)) as [->|].
    + rewrite lookup_insert_eq in Hj. simplify_eq. simpl. eexists _, c.
      rewrite lookup_alter_eq, Hs. simpl. by split_and!.
    + rewrite lookup_insert_ne in Hj by done. destruct (aw_access j t Hj) as (s0&x&Hsx&He&Hx&Hsc).
      destruct (decide (ac_session t = id)) as [E|].
      * rewrite E in *. exists (rotate_row (TruncateMicro now) (rm_RefreshHash m) s0), x.
        rewrite lookup_alter_eq, Hsx. by split_and!.
      * exists s0, x. by rewrite lookup_alter_ne.
  - intros h r Hr. destruct (decide (h = rf_hash s)) as [->|];
      [rewrite lookup_insert_eq in Hr|rewrite lookup_insert_ne in Hr by done]; simplify_eq; simpl.
    + by rewrite lookup_alter_eq, Hs.
    + destruct (aw_history h r Hr) as [x Hx]. destruct (decide (hi_session r = id)) as [->|].
      * by rewrite lookup_alter_eq, Hs.
      * rewrite lookup_alter_ne by done. eauto.
  - intros j x y Hj Hy Hrev. destruct (alter_back _ _ _ _ _ Hj) as (x0&Hx0&->).
    destruct (String.eqb j id); simpl in *; eauto.
  - intros j t x Hj Hx Hrev. destruct (alter_back _ _ _ _ _ Hx) as (x0&Hx0&->).
    destruct (decide (j = rm_AccessTokenID m)) as [->|].
    + rewrite lookup_insert_eq in Hj. simplify_eq. simpl in *. rewrite String.eqb_refl in Hrev.
      simpl in Hrev. congruence.
    + rewrite lookup_insert_ne in Hj by done. destruct (String.eqb (ac_session t) id); simpl in *; eauto.
Qed.

Lemma rotated_token_grows : auth_grows d (rotated_token d).
Proof.
  unfold rotated_token. split; simpl; try reflexivity.
  - apply table_le_alter; [apply _|]. intros x _. apply rotate_row_le.
  - by apply insert_subseteq.
  - apply table_le_insert; [apply _|]. intros x Hx. congruence.
  - intros j x x' Hj Hj'. simpl in *. destruct (decide (j = id)) as [->|].
    + right. assert (x = s) as -> by congruence. by rewrite lookup_insert_eq.
    + left. rewrite lookup_alter_ne in Hj' by done. congruence.
Qed.

Lemma rotated_good : auth_good d (rotated now id m s c d).
Proof.
  intros Hwf. pose proof (rotated_token_wf Hwf) as Hwf'. pose proof rotated_token_grows.
  destruct (seen_client_good (TruncateMicro now) (rf_client s) (rotated_token d) tt _ eq_refl Hwf')
    as [Hwf'' Hg]. split; [exact Hwf''|]. by etrans.
Qed.
End Rotation.
