(* ===== verification/AuthSpec.v ===== *)
(** * What the auth service promises

    The service's calls keep the credentials well formed; pairing codes and
    refresh tokens work once; a revocation is final; a principal has the scopes
    its client was paired with. *)

From S2P Require Import Prelude GoStd GoTime GoCrypto.
From S2P Require Import Sql Tables AuthDB AuthStore AuthService AuthEffects AuthInvariant.
#[local] Open Scope string_scope.

(** ** Scopes *)

Lemma allowed_supported s : allowed_scope s = true → s ∈ supported_scopes.
Proof.
  unfold allowed_scope. rewrite !orb_true_iff, !String.eqb_eq. intros [[-> | ->]| ->]; set_solver.
Qed.

Lemma normalize_loop_supported acc scopes l :
  Forall (λ s, s ∈ supported_scopes) acc → NoDup acc → normalize_loop acc scopes = Ok l →
  Forall (λ s, s ∈ supported_scopes) l ∧ NoDup l.
Proof.
  revert acc. induction scopes as [|s scopes IH]; intros acc Hacc Hnd H; [by simplify_eq/=|].
  cbn [normalize_loop] in H. destruct (allowed_scope (TrimSpace s)) eqn:Ea; [|done]. cbn [negb] in H.
  case_bool_decide as Hin; [by eapply IH|]. eapply IH; [..|exact H].
  - apply Forall_app. split; [done|]. apply Forall_singleton. by apply allowed_supported.
  - apply NoDup_app. split_and!; [done|set_solver|apply NoDup_singleton].
Qed.

Lemma normalizeScopes_supported scopes l :
  normalizeScopes scopes = Ok l → Forall (λ s, s ∈ supported_scopes) l ∧ NoDup l.
Proof. apply normalize_loop_supported; constructor. Qed.

(** ** The calls of the service *)

Section Calls.
Context (conf : Config).

Inductive AuthCall :=
| ACreatePairingGrant (now : Z) (r1 r2 : list Z) (name : string) (scopes : list string)
| AExchangePairingGrant (now : Z) (r1 r2 r3 r4 r5 : list Z) (code : string)
| AAuthenticate (now : Z) (bearer : string)
| ARefresh (now : Z) (r1 r2 r3 : list Z) (token : string)
| ARevokeSession (now : Z) (token reason : string)
| AListClients
| ARevokeClient (now : Z) (client reason : string).

Definition forget {A} (m : AOp A) : AOp unit := let! _ := m in ret tt.

Definition auth_call (c : AuthCall) : AOp unit :=
  match c with
  | ACreatePairingGrant now r1 r2 name scopes => forget (CreatePairingGrant conf now r1 r2 name scopes)
  | AExchangePairingGrant now r1 r2 r3 r4 r5 code =>
      forget (ExchangePairingGrant conf now r1 r2 r3 r4 r5 code)
  | AAuthenticate now bearer => forget (Authenticate now bearer)
  | ARefresh now r1 r2 r3 token => forget (Refresh conf now r1 r2 r3 token)
  | ARevokeSession now token reason => RevokeSession now token reason
  | AListClients => forget ListClients
  | ARevokeClient now client reason => RevokeClient now client reason
  end.

Fixpoint auth_calls (cs : list AuthCall) (w : World ADB) : World ADB :=
  match cs with [] => w | c :: cs => auth_calls cs (auth_call c w).2 end.

Lemma exchange_good h now m : op_guar auth_good (StoreExchangePairingGrant h now m).
Proof.
  apply op_guar_run_tx; [apply _|apply exchange_robust|]. intros d Hwf.
  pose proof (exchange_calm h now m d) as H. unfold code_refused in H.
  destruct (select_grant h d) as [[i g]|] eqn:Eg; [|destruct H as [_ ->]; split; [done|reflexivity]].
  destruct (gr_consumed g) as [t|] eqn:Ec; simpl in H; [destruct H as [_ ->]; split; [done|reflexivity]|].
  destruct (After _ _); simpl in H; [|destruct H as [_ ->]; split; [done|reflexivity]].
  destruct H as [[_ ->]|(Hc&Hs&Ha&_&->)]; [split; [done|reflexivity]|].
  apply select_grant_Some in Eg as [Hi _].
  split; [by apply exchanged_wf|by apply exchanged_grows].
Qed.

Lemma select_refresh_Some id d s c :
  select_refresh id d = Some (s, c) → rsessions d !! id = Some s ∧ clients d !! rf_client s = Some c.
Proof. unfold select_refresh. intros H. repeat case_match; by simplify_eq. Qed.

Lemma rotate_good id h now m : op_guar auth_good (StoreRotateRefresh id h now m).
Proof.
  unfold StoreRotateRefresh. apply op_guar_bind; [apply _| |intros [?|]; guar].
  apply op_guar_run_tx; [apply _|apply rotate_robust|]. intros d.
  pose proof (rotate_calm id h now m d) as H. cbv zeta in H. unfold refresh_refused in H.
  destruct (select_refresh id d) as [[s c]|] eqn:Es; [|destruct H as [_ ->]; reflexivity].
  apply select_refresh_Some in Es as [Hs Hc].
  destruct (rf_revoked s) eqn:Er; [destruct H as [_ ->]; reflexivity|].
  destruct (cr_revoked c); [destruct H as [_ ->]; reflexivity|]. simpl in H.
  destruct (After _ _); simpl in H; [|destruct H as [_ ->]; reflexivity].
  destruct (same_hash _ _).
  - destruct H as [[_ ->]|(Hh&Ha&_&->)]; [reflexivity|]. by apply rotated_good.
  - destruct (is_replay _ _ _); destruct H as [_ ->]; [apply session_revoked_good|reflexivity].
Qed.

Lemma store_revoke_session_good id h now reason : op_guar auth_good (StoreRevokeSession id h now reason).
Proof.
  apply op_guar_run_tx; [apply _|apply revoke_session_robust|]. intros d.
  pose proof (revoke_session_calm id h now reason d) as H. cbv zeta in H.
  destruct (rsessions d !! id) as [s|]; [|destruct H as [_ ->]; reflexivity].
  destruct (same_hash _ _); destruct H as [_ ->]; [apply session_revoked_good|reflexivity].
Qed.

Lemma store_revoke_client_good id now reason : op_guar auth_good (StoreRevokeClient id now reason).
Proof.
  apply op_guar_run_tx; [apply _|apply revoke_client_robust|]. intros d.
  pose proof (revoke_client_calm id now reason d) as H. cbv zeta in H.
  destruct (exists_in _ _); destruct H as [_ ->]; [apply client_revoked_good|reflexivity].
Qed.

Lemma authenticate_access_good id h now : op_guar auth_good (StoreAuthenticateAccess id h now).
Proof. unfold StoreAuthenticateAccess. guar. apply touch_client_good. Qed.

Lemma create_grant_good now r1 r2 name scopes :
  op_guar auth_good (CreatePairingGrant conf now r1 r2 name scopes).
Proof.
  unfold CreatePairingGrant, StoreCreatePairingGrant. destruct (_ || _); [guar|].
  destruct (normalizeScopes scopes) as [l|e] eqn:En; [|guar]. guar. apply insert_grant_good; [|done..].
  by apply normalizeScopes_supported in En as [? _].
Qed.

Lemma auth_call_good c : op_guar auth_good (auth_call c).
Proof.
  assert (∀ A (m : AOp A), op_guar auth_good m → op_guar auth_good (forget m)) as Hf
    by (intros A m Hm; unfold forget; apply op_guar_bind; [apply _|done|guar]).
  pose proof exchange_good. pose proof rotate_good. pose proof store_revoke_session_good.
  pose proof store_revoke_client_good. pose proof authenticate_access_good.
  destruct c; simpl; try apply Hf; [apply create_grant_good|..];
    unfold ExchangePairingGrant, Authenticate, Refresh, RevokeSession, ListClients, StoreListClients,
      RevokeClient; guar.
Qed.

Lemma auth_calls_good cs w :
  rely auth_good w → rely auth_good (auth_calls cs w) ∧ auth_good (w_db w) (w_db (auth_calls cs w)).
Proof.
  revert w. induction cs as [|c cs IH]; intros w Hw; simpl; [split; [done|reflexivity]|].
  destruct (auth_call_good c w Hw) as [Hg Hw']. destruct (IH _ Hw'). split; [done|by etrans].
Qed.

(** C9. Whatever calls are made to the service, whatever round trips fail and
    whatever other servers of the same kind do in between: the credentials stay
    well formed (a pairing code names one grant, a grant pairs one client and
    at most once, every client comes from a grant, a token belongs to its
    session's client and carries the client's scopes, only supported scopes
    exist, a revoked client's session and a revoked session's tokens are
    revoked) and nothing is undone (no row is deleted, identities and hashes of
    grants and tokens do not change, consumption and revocation are final, a
    refresh token that was replaced is remembered). *)
Theorem auth_invariant (cs : list AuthCall) (w : World ADB) :
  rely auth_good w → auth_wf (w_db w) →
  auth_wf (w_db (auth_calls cs w)) ∧ auth_grows (w_db w) (w_db (auth_calls cs w)).
Proof. intros Hw Hwf. by apply auth_calls_good. Qed.

(** ** What a successful call has seen *)

Lemma Authenticate_seen now bearer w p w' :
  rely auth_good w → auth_wf (w_db w) → Authenticate now bearer w = (Ok p, w') →
  ∃ d id secret, auth_wf d ∧ auth_grows (w_db w) d ∧ parseToken bearer "at" = Ok (id, secret)
    ∧ check_access (tokenHash secret) now (select_access id d) = Ok p.
Proof.
  intros Hw Hwf H. unfold Authenticate in H.
  destruct (parseToken bearer "at") as [[id secret]|]; [|done].
  destruct (interfere_rely auth_good w Hw) as [Hi _]. destruct (Hi Hwf) as [Hwf' Hg].
  unfold StoreAuthenticateAccess in H. cbn [bind sm_monad] in H. unfold pool_stmt at 1 in H.
  destruct (next _) as [[| |] fs]; unfold query in H; cbv beta iota in H; [|done..].
  exists (w_db (interfere w)), id, secret. split_and!; [done..|].
  destruct (check_access _ _ _) as [q|e] eqn:Ec; [|done].
  destruct (attempt _ _) as [r w1] eqn:Ea. unfold attempt in Ea.
  destruct (pool_stmt _ _) in Ea. simplify_eq. cbn [ret sm_monad] in H. by simplify_eq.
Qed.

Lemma check_access_Ok h now row p :
  check_access h now row = Ok p → ∃ t s c, row = Some (t, s, c) ∧ ac_hash t = h
    ∧ ac_revoked t = None ∧ rf_revoked s = None ∧ cr_revoked c = None ∧ (now < ac_expires t)%Z
    ∧ p = mkPrincipal (ac_client t) (cr_name c) (ac_session t) (ac_scopes t).
Proof.
  unfold check_access. destruct row as [[[t s] c]|]; [|done]. unfold same_hash.
  case_bool_decide as Hh; [|done]. simpl. unfold After.
  destruct (ac_revoked t) eqn:E1; [done|]. destruct (rf_revoked s) eqn:E2; [done|].
  destruct (cr_revoked c) eqn:E3; [done|]. simpl. destruct (Z.ltb_spec now (ac_expires t)); [|done].
  intros [= <-]. by exists t, s, c.
Qed.

Lemma select_access_Some id d t s c :
  select_access id d = Some (t, s, c) →
  access d !! id = Some t ∧ rsessions d !! ac_session t = Some s ∧ clients d !! ac_client t = Some c.
Proof. unfold select_access. intros H. repeat case_match; by simplify_eq. Qed.

(** A transaction that replied without an error saw a well-formed database. *)
Lemma tx_seen {A} (body : ATx (TxEnd A)) w a w' :
  all_or_nothing body → rely auth_good w → auth_wf (w_db w) → run_tx body w = (Ok a, w') →
  ∃ d, auth_wf d ∧ auth_grows (w_db w) d ∧ reply body d = Ok a ∧ w_db w' = committed body d.
Proof.
  intros Hb Hw Hwf H. destruct (interfere_rely auth_good w Hw) as [Hi _]. destruct (Hi Hwf) as [Hwf' Hg].
  destruct (run_tx_all_or_nothing body w Hb) as (_&Hok&_&_). rewrite H in Hok.
  destruct (Hok eq_refl) as [Hr Hd]. exists (w_db (interfere w)). by split_and!.
Qed.
End Calls.
