(* ===== verification/AuthSafety.v ===== *)
(** * Credentials work once, revocations are final

    What follows from the invariant for whole sequences of calls, under any
    failures and interference. *)

From S2P Require Import Prelude GoStd GoTime GoCrypto.
From S2P Require Import Sql Tables AuthDB AuthStore AuthService AuthEffects AuthInvariant AuthSpec.
#[local] Open Scope string_scope.

Section Safety.
Context (conf : Config).
Implicit Types (w : World ADB) (d : ADB).

(** ** Successful calls *)

Lemma exchange_reply_Ok h now m d c :
  reply (exchange_tx h now m) d = Ok c →
  ∃ i g, select_grant h d = Some (i, g) ∧ gr_consumed g = None ∧ (now < gr_expires g)%Z
    ∧ committed (exchange_tx h now m) d = exchanged now m i g d
    ∧ c = mkClient (cm_ClientID m) (gr_name g) (gr_scopes g) now None None.
Proof.
  intros Hr. pose proof (exchange_calm h now m d) as H. unfold code_refused, After in H.
  destruct (select_grant h d) as [[i g]|] eqn:Eg; [|destruct H; congruence].
  destruct (gr_consumed g) eqn:Ec; simpl in H; [destruct H; congruence|].
  destruct (Z.ltb_spec now (gr_expires g)); simpl in H; [|destruct H; congruence].
  destruct H as [[[e He] _]|(_&_&_&Hc&Hd)]; [congruence|]. rewrite Hr in Hc. simplify_eq. eauto 10.
Qed.

Lemma rotate_reply_Some id h now m d x :
  reply (rotate_tx id h now m) d = Ok (Some x) →
  ∃ s c, rsessions d !! id = Some s ∧ clients d !! rf_client s = Some c ∧ rf_revoked s = None
    ∧ cr_revoked c = None ∧ (now < rf_expires s)%Z ∧ rf_hash s = h ∧ history d !! h = None
    ∧ committed (rotate_tx id h now m) d = rotated now id m s c d
    ∧ x = (mkClient (rf_client s) (cr_name c) (cr_scopes c) (cr_created c) (Some now) (cr_revoked c),
           rf_expires s).
Proof.
  intros Hr. pose proof (rotate_calm id h now m d) as H. cbv zeta in H. unfold refresh_refused, After in H.
  destruct (select_refresh id d) as [[s c]|] eqn:Es; [|destruct H; congruence].
  apply select_refresh_Some in Es as [Hs Hc].
  destruct (rf_revoked s) eqn:Er; [destruct H; congruence|].
  destruct (cr_revoked c) eqn:Ec; [destruct H; congruence|]. simpl in H.
  destruct (Z.ltb_spec now (rf_expires s)); simpl in H; [|destruct H; congruence].
  unfold same_hash in H. case_bool_decide as Hh.
  - destruct H as [[[e He] _]|(Hhist&_&Hx&Hd)]; [congruence|]. rewrite Hr in Hx. simplify_eq.
    exists s, c. rewrite Ec. by split_and!.
  - destruct (is_replay h id d); destruct H; congruence.
Qed.

Lemma rotate_reply_None id h now m d :
  reply (rotate_tx id h now m) d = Ok None →
  (∃ s, rsessions d !! id = Some s) ∧ committed (rotate_tx id h now m) d = session_revoked now id "refresh_replay" d.
Proof.
  intros Hr. pose proof (rotate_calm id h now m d) as H. cbv zeta in H. unfold refresh_refused in H.
  destruct (select_refresh id d) as [[s c]|] eqn:Es; [|destruct H; congruence].
  apply select_refresh_Some in Es as [Hs _].
  destruct (_ || _); simpl in H; [destruct H; congruence|].
  destruct (After _ _); simpl in H; [|destruct H; congruence].
  destruct (same_hash _ _).
  - destruct H as [[[e He] _]|(_&_&Hx&_)]; congruence.
  - destruct (is_replay h id d); destruct H; [eauto|congruence].
Qed.

Lemma Refresh_seen now r1 r2 r3 token w pair w1 :
  rely auth_good w → auth_wf (w_db w) → Refresh conf now r1 r2 r3 token w = (Ok pair, w1) →
  ∃ d id secret m x, auth_wf d ∧ auth_grows (w_db w) d ∧ parseToken token "rt" = Ok (id, secret)
    ∧ reply (rotate_tx id (tokenHash secret) now m) d = Ok (Some x)
    ∧ w_db w1 = committed (rotate_tx id (tokenHash secret) now m) d ∧ tp_Client pair = x.1.
Proof.
  intros Hw Hwf H. unfold Refresh in H.
  destruct (parseToken token "rt") as [[id secret]|]; [|done].
  destruct (newToken _ _ _) as [[accessID accessSecret] accessToken].
  unfold newTokenWithID in H. cbv beta iota zeta in H.
  set (m := mkRotated _ _ _ _) in H. unfold StoreRotateRefresh in H. cbn [bind sm_monad] in H.
  destruct (run_tx _ w) as [[[x|]|e] w2] eqn:Et; [|done..].
  apply tx_seen in Et as (d&Hd&Hg&Hr&Hw2); [|apply rotate_robust|done..].
  cbn [ret sm_monad] in H. destruct x as [client expires]. simplify_eq.
  by exists d, id, secret, m, (client, expires).
Qed.

Lemma Exchange_seen now r1 r2 r3 r4 r5 code w pair w1 :
  rely auth_good w → auth_wf (w_db w) → ExchangePairingGrant conf now r1 r2 r3 r4 r5 code w = (Ok pair, w1) →
  ∃ d m c, auth_wf d ∧ auth_grows (w_db w) d
    ∧ reply (exchange_tx (tokenHash (TrimSpace code)) now m) d = Ok c
    ∧ w_db w1 = committed (exchange_tx (tokenHash (TrimSpace code)) now m) d
    ∧ tp_Client pair = c.
Proof.
  intros Hw Hwf H. unfold ExchangePairingGrant in H. destruct (_ || _); [done|].
  destruct (newToken "at" _ _) as [[? ?] ?], (newToken "rt" _ _) as [[? ?] ?].
  cbv zeta in H. set (m := mkMaterial _ _ _ _ _ _ _) in H. unfold StoreExchangePairingGrant in H.
  cbn [bind sm_monad] in H. destruct (run_tx _ w) as [[c|e] w2] eqn:Et; [|done].
  apply tx_seen in Et as (d&Hd&Hg&Hr&Hw2); [|apply exchange_robust|done..].
  cbn [ret sm_monad] in H. simplify_eq. by exists d, m, c.
Qed.

Lemma call_world {A} (m : AOp A) w a w1 :
  op_guar auth_good m → rely auth_good w → auth_wf (w_db w) → m w = (a, w1) →
  rely auth_good w1 ∧ auth_wf (w_db w1) ∧ auth_grows (w_db w) (w_db w1).
Proof. intros Hm Hw Hwf H. destruct (Hm w Hw) as [Hg Hw1]. rewrite H in *. destruct (Hg Hwf). auto. Qed.

Lemma refresh_good now r1 r2 r3 token : op_guar auth_good (Refresh conf now r1 r2 r3 token).
Proof. pose proof rotate_good. unfold Refresh. guar. Qed.
Lemma exchange_code_good now r1 r2 r3 r4 r5 code :
  op_guar auth_good (ExchangePairingGrant conf now r1 r2 r3 r4 r5 code).
Proof. pose proof exchange_good. unfold ExchangePairingGrant. guar. Qed.
Lemma revoke_session_good now token reason : op_guar auth_good (RevokeSession now token reason).
Proof. pose proof store_revoke_session_good. unfold RevokeSession. guar. Qed.
Lemma revoke_client_good now c reason : op_guar auth_good (RevokeClient now c reason).
Proof. pose proof store_revoke_client_good. unfold RevokeClient. guar. Qed.

(** C11. A refresh token works once.  After a Refresh with it has succeeded, and
    whatever calls are made, whatever fails and whatever other servers do, no
    Refresh with the same token succeeds again. *)
Theorem refresh_token_once now r1 r2 r3 token w pair w1 cs now' q1 q2 q3 res w2 :
  rely auth_good w → auth_wf (w_db w) → Refresh conf now r1 r2 r3 token w = (Ok pair, w1) →
  Refresh conf now' q1 q2 q3 token (auth_calls conf cs w1) = (res, w2) →
  is_ok res = false.
Proof.
  intros Hw Hwf H1 H2. destruct res as [pair'|e]; [exfalso|done].
  destruct (call_world _ _ _ _ (refresh_good _ _ _ _ _) Hw Hwf H1) as (Hw1&Hwf1&_).
  destruct (auth_calls_good conf cs w1 Hw1) as [Hw2 Hg2]. destruct (Hg2 Hwf1) as [Hwf2 Hg].
  apply Refresh_seen in H1 as (d&id&secret&m&x&_&_&Hp&Hr&Hd&_); [|done..].
  apply Refresh_seen in H2 as (d'&id'&secret'&m'&x'&_&Hg'&Hp'&Hr'&_); [|done..].
  rewrite Hp in Hp'. injection Hp' as <- <-.
  apply rotate_reply_Some in Hr as (s&c&_&_&_&_&_&Hh&_&Hc&_).
  apply rotate_reply_Some in Hr' as (s'&c'&_&_&_&_&_&_&Hnone&_).
  assert (history (w_db w1) !! rf_hash s = Some (mkHistoryRow id (TruncateMicro now))) as Hin
    by (rewrite Hd, Hc; simpl; apply lookup_insert_eq).
  pose proof (lookup_weaken _ _ _ _ Hin (transitivity (ag_history _ _ Hg) (ag_history _ _ Hg'))).
  congruence.
Qed.

(** C12. A pairing code works once.  After an exchange of it has succeeded, and
    whatever calls are made, whatever fails and whatever other servers do, no
    exchange of the same code succeeds again. *)
Theorem pairing_code_once now r1 r2 r3 r4 r5 code w pair w1 cs now' q1 q2 q3 q4 q5 res w2 :
  rely auth_good w → auth_wf (w_db w) →
  ExchangePairingGrant conf now r1 r2 r3 r4 r5 code w = (Ok pair, w1) →
  ExchangePairingGrant conf now' q1 q2 q3 q4 q5 code (auth_calls conf cs w1) = (res, w2) →
  is_ok res = false.
Proof.
  intros Hw Hwf H1 H2. destruct res as [pair'|e]; [exfalso|done].
  destruct (call_world _ _ _ _ (exchange_code_good _ _ _ _ _ _ _) Hw Hwf H1) as (Hw1&Hwf1&_).
  destruct (auth_calls_good conf cs w1 Hw1) as [Hw2 Hg2]. destruct (Hg2 Hwf1) as [Hwf2 Hg].
  apply Exchange_seen in H1 as (d&m&c&_&_&Hr&Hd&_); [|done..].
  apply Exchange_seen in H2 as (d'&m'&c'&Hwf'&Hg'&Hr'&_&_); [|done..].
  apply exchange_reply_Ok in Hr as (i&g&Hsel&_&_&Hc&_).
  apply exchange_reply_Ok in Hr' as (i'&g'&Hsel'&Hnone&_).
  apply select_grant_Some in Hsel as [Hi Hh]. apply select_grant_Some in Hsel' as [Hi' Hh'].
  assert (grants (w_db w1) !! i = Some (consume_row (TruncateMicro now) (cm_ClientID m) g)) as Hin
    by (rewrite Hd, Hc; simpl; by rewrite lookup_alter_eq, Hi).
  destruct (transitivity (ag_grants _ _ Hg) (ag_grants _ _ Hg') i _ Hin) as (y&Hy&[Hyh _ _ _ Hyc _]).
  assert (i = i') as <-.
  { apply (aw_code _ Hwf' i i' y g' (tokenHash (TrimSpace code)) Hy Hi'); unfold grant_hash_col.
    - by rewrite Hyh, <- Hh.
    - by rewrite Hh'. }
  assert (y = g') as -> by congruence. destruct Hyc as [Hyc|Hyc]; simpl in Hyc; congruence.
Qed.

(** ** Revocation *)

(** However the relay is used from here on, this client, or session, gets
    nothing. *)
Definition client_locked_out (c : string) w : Prop :=
  ∀ cs, (∀ now bearer p w', Authenticate now bearer (auth_calls conf cs w) = (Ok p, w') → pl_ClientID p ≠ c)
    ∧ (∀ now r1 r2 r3 token pair w', Refresh conf now r1 r2 r3 token (auth_calls conf cs w) = (Ok pair, w') →
         cn_ID (tp_Client pair) ≠ c).
Definition session_locked_out (i : string) w : Prop :=
  ∀ cs, (∀ now bearer p w', Authenticate now bearer (auth_calls conf cs w) = (Ok p, w') → pl_SessionID p ≠ i)
    ∧ (∀ now r1 r2 r3 token pair w', Refresh conf now r1 r2 r3 token (auth_calls conf cs w) = (Ok pair, w') →
         ∀ secret, parseToken token "rt" ≠ Ok (i, secret)).

Lemma not_None_sticky {A} (x y : option A) : x ≠ None → sticky x y → y ≠ None.
Proof. intros Hx [Hy| ->]; [done|exact Hx]. Qed.

Lemma client_revoked_locked_out c x w :
  rely auth_good w → auth_wf (w_db w) → clients (w_db w) !! c = Some x → cr_revoked x ≠ None →
  client_locked_out c w.
Proof.
  intros Hw Hwf Hx Hrev cs. destruct (auth_calls_good conf cs w Hw) as [Hw2 Hg2].
  destruct (Hg2 Hwf) as [Hwf2 Hg].
  assert (∀ d, auth_grows (w_db (auth_calls conf cs w)) d → ∃ y, clients d !! c = Some y ∧ cr_revoked y ≠ None)
    as Hstay.
  { intros d Hd. destruct (transitivity (ag_clients _ _ Hg) (ag_clients _ _ Hd) c x Hx) as (y&Hy&[_ _ _ Hs]).
    exists y. split; [done|]. by eapply not_None_sticky. }
  split.
  - intros now bearer p w' H E. apply Authenticate_seen in H as (d&id&secret&_&Hd&_&Hc); [|done..].
    apply check_access_Ok in Hc as (t&s&k&Hsel&_&_&_&Hk&_&->).
    apply select_access_Some in Hsel as (_&_&Hcl). simpl in E. subst c.
    destruct (Hstay d Hd) as (y&Hy&Hyr). congruence.
  - intros now r1 r2 r3 token pair w' H E. apply Refresh_seen in H as (d&id&secret&m&z&_&Hd&_&Hr&_&Hz); [|done..].
    apply rotate_reply_Some in Hr as (s&k&_&Hcl&_&Hk&_&_&_&_&->). rewrite Hz in E. simpl in E. subst c.
    destruct (Hstay d Hd) as (y&Hy&Hyr). congruence.
Qed.

Lemma session_revoked_locked_out i s w :
  rely auth_good w → auth_wf (w_db w) → rsessions (w_db w) !! i = Some s → rf_revoked s ≠ None →
  session_locked_out i w.
Proof.
  intros Hw Hwf Hx Hrev cs. destruct (auth_calls_good conf cs w Hw) as [Hw2 Hg2].
  destruct (Hg2 Hwf) as [Hwf2 Hg].
  assert (∀ d, auth_grows (w_db (auth_calls conf cs w)) d → ∃ y, rsessions d !! i = Some y ∧ rf_revoked y ≠ None)
    as Hstay.
  { intros d Hd. destruct (transitivity (ag_rsessions _ _ Hg) (ag_rsessions _ _ Hd) i s Hx) as (y&Hy&[_ _ _ Hs _]).
    exists y. split; [done|]. by eapply not_None_sticky. }
  split.
  - intros now bearer p w' H E. apply Authenticate_seen in H as (d&id&secret&_&Hd&_&Hc); [|done..].
    apply check_access_Ok in Hc as (t&s'&k&Hsel&_&_&Hs'&_&_&->).
    apply select_access_Some in Hsel as (_&Hsl&_). simpl in E. subst i.
    destruct (Hstay d Hd) as (y&Hy&Hyr). congruence.
  - intros now r1 r2 r3 token pair w' H secret Hp.
    apply Refresh_seen in H as (d&id&secret'&m&z&_&Hd&Hp'&Hr&_); [|done..].
    apply rotate_reply_Some in Hr as (s'&k&Hsl&_&Hs'&_). rewrite Hp in Hp'. simplify_eq.
    destruct (Hstay d Hd) as (y&Hy&Hyr). congruence.
Qed.

(** C14. Revoking a client is final: once RevokeClient has succeeded, whatever
    calls are made, whatever fails and whatever other servers do, no access
    token of the client authenticates and no refresh token of it refreshes. *)
Theorem RevokeClient_final now c reason w w1 :
  rely auth_good w → auth_wf (w_db w) → RevokeClient now c reason w = (Ok tt, w1) →
  client_locked_out c w1.
Proof.
  intros Hw Hwf H. destruct (call_world _ _ _ _ (revoke_client_good _ _ _) Hw Hwf H) as (Hw1&Hwf1&_).
  unfold RevokeClient in H. destruct (String.eqb _ _); [done|].
  apply tx_seen in H as (d&_&_&Hr&Hd); [|apply revoke_client_robust|done..].
  pose proof (revoke_client_calm c now reason d) as Hcalm. cbv zeta in Hcalm.
  destruct (exists_in (clients d) c) eqn:Ex; [|destruct Hcalm; congruence].
  apply exists_in_true in Ex as [x Hx]. destruct Hcalm as [_ Hcalm]. rewrite Hcalm in Hd.
  apply (client_revoked_locked_out c (revoke_client_row (TruncateMicro now) x)); [done..| |apply first_of_not_None].
  rewrite Hd. unfold client_revoked. cbn [clients]. rewrite lookup_update_where, Hx. simpl.
  by rewrite String.eqb_refl.
Qed.

Lemma session_revoked_row now id reason d s :
  rsessions d !! id = Some s →
  rsessions (session_revoked now id reason d) !! id = Some (revoke_refresh_row (TruncateMicro now) reason s).
Proof.
  intros Hs. unfold session_revoked. cbn [rsessions]. rewrite lookup_update_where, Hs. simpl.
  by rewrite String.eqb_refl.
Qed.

(** C13. A replayed refresh token revokes its session, and so does a logout, for
    good: once Refresh has answered that the token was replayed, or
    RevokeSession has succeeded, whatever calls are made, whatever fails and
    whatever other servers do, no token of that session works again, the ones
    issued after the replayed token included. *)
Theorem session_revocation_final now r1 r2 r3 token reason w w1 :
  rely auth_good w → auth_wf (w_db w) →
  Refresh conf now r1 r2 r3 token w = (Err ErrRefreshReplay, w1)
  ∨ RevokeSession now token reason w = (Ok tt, w1) →
  ∃ i secret, parseToken token "rt" = Ok (i, secret) ∧ session_locked_out i w1.
Proof.
  intros Hw Hwf [H|H].
  - destruct (call_world _ _ _ _ (refresh_good _ _ _ _ _) Hw Hwf H) as (Hw1&Hwf1&_).
    unfold Refresh in H. destruct (parseToken token "rt") as [[i secret]|]; [|done].
    exists i, secret. split; [done|].
    destruct (newToken _ _ _) as [[aid asec] atok]. unfold newTokenWithID in H. cbv beta iota zeta in H.
    set (m := mkRotated _ _ _ _) in H. unfold StoreRotateRefresh in H. cbn [bind sm_monad] in H.
    destruct (run_tx _ w) as [[[[? ?]|]|e] w2] eqn:Et; [done| |].
    + apply tx_seen in Et as (d&_&_&Hr&Hd); [|apply rotate_robust|done..]. unfold fail in H. simplify_eq.
      apply rotate_reply_None in Hr as [[s Hs] Hc]. rewrite Hc in Hd.
      apply (session_revoked_locked_out i (revoke_refresh_row (TruncateMicro now) "refresh_replay" s)); [done..| |apply first_of_not_None].
      rewrite Hd. by apply session_revoked_row.
    + exfalso. simplify_eq. destruct (run_tx_all_or_nothing _ w (rotate_robust i (tokenHash secret) now m))
        as (_&_&He&_). rewrite Et in He. destruct (He _ eq_refl) as [[x Hx]|[Hx _]]; [done|].
      pose proof (rotate_calm i (tokenHash secret) now m (w_db (interfere w))) as Hcalm. cbv zeta in Hcalm.
      unfold refresh_refused in Hcalm. destruct (select_refresh _ _) as [[s c]|]; [|destruct Hcalm; congruence].
      destruct (_ || _); simpl in Hcalm; [destruct Hcalm; congruence|].
      destruct (After _ _); simpl in Hcalm; [|destruct Hcalm; congruence].
      destruct (same_hash _ _); [destruct Hcalm as [[[y Hy] _]|(_&_&Hy&_)]; congruence|].
      destruct (is_replay _ _ _); destruct Hcalm; congruence.
  - destruct (call_world _ _ _ _ (revoke_session_good _ _ _) Hw Hwf H) as (Hw1&Hwf1&_).
    unfold RevokeSession in H. destruct (parseToken token "rt") as [[i secret]|]; [|done].
    exists i, secret. split; [done|].
    apply tx_seen in H as (d&_&_&Hr&Hd); [|apply revoke_session_robust|done..].
    pose proof (revoke_session_calm i (tokenHash secret) now reason d) as Hcalm. cbv zeta in Hcalm.
    destruct (rsessions d !! i) as [s|] eqn:Es; [|destruct Hcalm; congruence].
    destruct (same_hash _ _); [|destruct Hcalm; congruence]. destruct Hcalm as [_ Hc]. rewrite Hc in Hd.
    apply (session_revoked_locked_out i (revoke_refresh_row (TruncateMicro now) reason s)); [done..| |apply first_of_not_None].
    rewrite Hd. by apply session_revoked_row.
Qed.

(** C26. A principal has what its client was paired with: when Authenticate
    succeeds, under any failures and interference, the client comes from a
    consumed pairing grant with the principal's name and exactly its scopes, all
    of them supported; the bearer text is an access token of that client and
    session, by its secret's hash, that has not expired; and neither the token,
    its session nor the client is revoked.  (Whether the session itself has
    expired is not asked: its last access token works until it expires.) *)
Theorem principal_paired now bearer w p w' :
  rely auth_good w → auth_wf (w_db w) → Authenticate now bearer w = (Ok p, w') →
  ∃ d i g t secret x s c, auth_wf d ∧ auth_grows (w_db w) d
    ∧ grants d !! i = Some g ∧ gr_client g = Some (pl_ClientID p) ∧ gr_consumed g ≠ None
    ∧ gr_name g = pl_ClientName p ∧ gr_scopes g = pl_Scopes p
    ∧ Forall (λ s, s ∈ DefaultScopes) (pl_Scopes p)
    ∧ parseToken bearer "at" = Ok (t, secret) ∧ access d !! t = Some x ∧ ac_hash x = tokenHash secret
    ∧ ac_client x = pl_ClientID p ∧ ac_session x = pl_SessionID p
    ∧ rsessions d !! pl_SessionID p = Some s ∧ rf_client s = pl_ClientID p ∧ clients d !! pl_ClientID p = Some c
    ∧ ac_revoked x = None ∧ rf_revoked s = None ∧ cr_revoked c = None ∧ (now < ac_expires x)%Z.
Proof.
  intros Hw Hwf H. apply Authenticate_seen in H as (d&id&secret&Hd&Hg&Hparse&Hc); [|done..].
  apply check_access_Ok in Hc as (t&s&c&Hsel&Hh&Ht&Hs&Hcr&Hexp&->).
  apply select_access_Some in Hsel as (Hta&Hsa&Hca). simpl.
  destruct (aw_client_grant d Hd _ _ Hca) as (i&g&Hi&Hgc).
  destruct (aw_grant_client d Hd i g _ Hi Hgc) as (c'&Hc'&Hn&Hsc).
  destruct (aw_access d Hd id t Hta) as (s'&c''&Hs'&He&Hc''&Hsc').
  assert (s' = s) as -> by congruence. assert (c'' = c) as -> by congruence.
  assert (c' = c) as -> by congruence. exists d, i, g, id, secret, t, s, c. rewrite Hsc', Hsc. split_and!; try done.
  - intros Hn'. apply (aw_consumed d Hd i g Hi) in Hn'. congruence.
  - apply (aw_scopes d Hd i g Hi).
Qed.

(** The bearer text is an access token of [p] that still works: its secret is
    the stored one, it has not expired, and neither it, its session nor the
    client is revoked. *)
Definition live_credential (now : Z) (bearer : string) (p : Principal) d : Prop :=
  ∃ id secret t s c, parseToken bearer "at" = Ok (id, secret)
    ∧ access d !! id = Some t ∧ ac_hash t = tokenHash secret ∧ ac_revoked t = None ∧ (now < ac_expires t)%Z
    ∧ rsessions d !! pl_SessionID p = Some s ∧ rf_client s = pl_ClientID p ∧ rf_revoked s = None
    ∧ clients d !! pl_ClientID p = Some c ∧ cr_name c = pl_ClientName p ∧ cr_scopes c = pl_Scopes p
    ∧ cr_revoked c = None.

Lemma Authenticate_live now bearer w p w' :
  rely auth_good w → auth_wf (w_db w) → Authenticate now bearer w = (Ok p, w') →
  ∃ d, auth_wf d ∧ auth_grows (w_db w) d ∧ live_credential now bearer p d.
Proof.
  intros Hw Hwf H. apply Authenticate_seen in H as (d&id&secret&Hd&Hg&Hp&Hc); [|done..].
  apply check_access_Ok in Hc as (t&s&c&Hsel&Hh&Ht&Hs&Hcr&Hexp&->).
  apply select_access_Some in Hsel as (Hta&Hsa&Hca).
  destruct (aw_access d Hd id t Hta) as (s'&c'&Hs'&He&Hc'&Hsc').
  assert (s' = s) as -> by congruence. assert (c' = c) as -> by congruence.
  exists d. split_and!; [done..|]. exists id, secret, t, s, c. by split_and!.
Qed.
End Safety.
