(* ===== verification/AuthFlow.v ===== *)
(** * The pairing and refresh flows

    The outcome of Refresh on every branch, and that the credentials the service
    hands out work: a pairing code can be exchanged, an access token
    authenticates as its client until it expires, a refresh token rotates. *)

From S2P Require Import Prelude GoStd GoTime GoCrypto.
From S2P Require Import Sql Tables AuthDB AuthStore AuthService AuthEffects AuthInvariant AuthSpec AuthSafety.
From Stdlib Require Import Ascii.
#[local] Open Scope string_scope.

Section Flow.
Context (conf : Config).
Implicit Types (w : World ADB) (d : ADB).

(** ** Refresh *)

Section Refresh.
Context (now : Z) (r1 r2 r3 : list Z) (token : string).

(** The material of a rotation of session [id]. *)
Definition rotation : RotatedMaterial :=
  mkRotated (randomID "at" r1) (tokenHash (randomSecret r2)) (tokenHash (randomSecret r3))
    (now + AccessTTL conf).
Definition rotated_pair (id : string) (s : refresh_row) (c : client_row) : TokenPair :=
  tokenPair (randomID "at" r1 +:+ "." +:+ randomSecret r2) (id +:+ "." +:+ randomSecret r3)
    (now + AccessTTL conf) (rf_expires s)
    (mkClient (rf_client s) (cr_name c) (cr_scopes c) (cr_created c) (Some now) (cr_revoked c)) now.

(** What Refresh may answer and do. *)
Definition refresh_outcome d (res : result auth_error TokenPair) d' : Prop :=
  match parseToken token "rt" with
  | Err _ => d' = d ∧ res = Err ErrInvalidCredential
  | Ok (id, secret) =>
      match refresh_refused now (select_refresh id d), select_refresh id d with
      | Some e, _ => d' = d ∧ (res = Err e ∨ auth_db_error res)
      | None, Some (s, c) =>
          if same_hash (rf_hash s) (tokenHash secret) then
            (d' = d ∧ auth_db_error res) ∨
            (d' = rotated now id rotation s c d ∧ (res = Ok (rotated_pair id s c) ∨ auth_db_error res))
          else if is_replay (tokenHash secret) id d then
            (d' = d ∧ auth_db_error res) ∨
            (d' = session_revoked now id "refresh_replay" d ∧ (res = Err ErrRefreshReplay ∨ auth_db_error res))
          else d' = d ∧ (res = Err ErrInvalidCredential ∨ auth_db_error res)
      | None, None => False
      end
  end.

(** C10. Refresh, whatever round trips fail, with no other client in between.
    A text that is no refresh token is refused; so is a token of an unknown,
    revoked or expired session, or whose secret is not and never was the
    session's: nothing changes.  The current token is exchanged, in one
    transaction or not at all, for a new pair of the same client, with the
    session's expiry, and remembered as used.  A used token revokes the whole
    session, new tokens included, and the answer says so. *)
Theorem Refresh_spec w res w' :
  w_env w = [] → Refresh conf now r1 r2 r3 token w = (res, w') →
  refresh_outcome (w_db w) res (w_db w').
Proof.
  intros Hw H. unfold Refresh in H. unfold refresh_outcome.
  destruct (parseToken token "rt") as [[id secret]|]; [|by unfold fail in H; simplify_eq].
  unfold newToken, newTokenWithID in H. cbv beta iota zeta in H. fold rotation in H.
  unfold StoreRotateRefresh in H. cbn [bind sm_monad] in H.
  destruct (run_tx _ w) as [rt w1] eqn:Et.
  apply run_tx_outcome in Et as [_ Ht]; [|done|apply rotate_robust].
  pose proof (rotate_calm id (tokenHash secret) now rotation (w_db w)) as Hc. cbv zeta in Hc.
  set (body := rotate_tx _ _ _ _) in *.
  assert (∀ e, reply body (w_db w) = Err e → committed body (w_db w) = w_db w →
    rt = reply body (w_db w) ∧ (w_db w1 = committed body (w_db w) ∨ (is_ok rt = false ∧ w_db w1 = w_db w)) →
    w_db w' = w_db w ∧ res = Err e) as Herr.
  { intros e Hr Hd [-> Hw1]. rewrite Hr in H. simplify_eq. split; [|done]. rewrite Hd in Hw1. naive_solver. }
  assert (∀ x, rt = Err (from_db x) → w' = w1 ∧ auth_db_error res) as Hfail.
  { intros x ->. simplify_eq. split; [done|]. by eexists. }
  assert (∀ a, reply body (w_db w) = Ok a →
    rt = reply body (w_db w) ∧ (w_db w1 = committed body (w_db w) ∨ (is_ok rt = false ∧ w_db w1 = w_db w)) →
    rt = Ok a ∧ w_db w1 = committed body (w_db w)) as Hok.
  { intros a Hr [-> Hw1]. rewrite Hr in *. naive_solver. }
  destruct (select_refresh id (w_db w)) as [[s c]|] eqn:Es.
  - destruct (refresh_refused now (Some (s, c))) as [e|].
    { destruct Hc as [Hr Hd]. destruct Ht as [Ht|[[x Hx] Hw1]]; [destruct (Herr e Hr Hd Ht); auto|].
      destruct (Hfail x Hx) as [-> ?]. rewrite Hd in Hw1. split; [naive_solver|auto]. }
    destruct (same_hash _ _).
    { destruct Ht as [Ht|[[x Hx] Hw1]]; [|destruct (Hfail x Hx) as [-> ?]].
      - destruct Hc as [[[x Hx] Hd]|(_&_&Hr&Hd)].
        + left. destruct (Herr _ Hx Hd Ht) as [? ->]. split; [done|by eexists].
        + right. destruct (Hok _ Hr Ht) as [-> Hw1]. cbn [ret sm_monad] in H. simplify_eq.
          rewrite Hw1, Hd. auto.
      - destruct Hc as [[_ Hd]|(_&_&_&Hd)]; rewrite Hd in Hw1; [left|]; naive_solver. }
    destruct (is_replay _ _ _); destruct Hc as [Hr Hd].
    + destruct Ht as [Ht|[[x Hx] Hw1]]; [|destruct (Hfail x Hx) as [-> ?]; rewrite Hd in Hw1; naive_solver].
      right. destruct (Hok _ Hr Ht) as [-> Hw1]. unfold fail in H. simplify_eq. rewrite Hw1, Hd. auto.
    + destruct Ht as [Ht|[[x Hx] Hw1]]; [destruct (Herr _ Hr Hd Ht); auto|].
      destruct (Hfail x Hx) as [-> ?]. rewrite Hd in Hw1. naive_solver.
  - simpl in *. destruct Hc as [Hr Hd]. destruct Ht as [Ht|[[x Hx] Hw1]].
    + destruct (Herr _ Hr Hd Ht); auto.
    + destruct (Hfail x Hx) as [-> ?]. rewrite Hd in Hw1. split; [naive_solver|auto].
Qed.
End Refresh.

(** ** Authenticate *)

Lemma Authenticate_alone now bearer w res w' id secret :
  w_env w = [] → Authenticate now bearer w = (res, w') → parseToken bearer "at" = Ok (id, secret) →
  auth_db_error res ∨ res = check_access (tokenHash secret) now (select_access id (w_db w)).
Proof.
  intros Hw H Hp. unfold Authenticate in H. rewrite Hp in H. unfold StoreAuthenticateAccess in H.
  cbn [bind sm_monad] in H. destruct (pool_stmt (query (select_access id)) w) as [r w1] eqn:E.
  apply pool_query_alone in E as (_&_&E); [|done]. destruct r as [row|e].
  - subst row. destruct (check_access _ _ _) as [p|e] eqn:Ec; [|unfold fail in H; simplify_eq; auto].
    unfold attempt in H. destruct (pool_stmt _ w1). cbn [ret sm_monad] in H. simplify_eq. auto.
  - destruct E as [x ->]. simplify_eq. left. by eexists.
Qed.

(** ** Pairing *)

Definition secret_bytes (n : nat) (r : list Z) : Prop := Forall is_byte r ∧ length r = n.

Lemma TrimSpace_secret r : Forall is_byte r → TrimSpace (randomSecret r) = randomSecret r.
Proof.
  intros Hr. apply TrimSpace_graphic. eapply Forall_impl; [by apply token_chars|].
  intros c Hc. by apply url_char_graphic.
Qed.

Lemma prefix_chars p : p = "at" ∨ p = "rt" → Forall (λ c, url_char c = true) (str_bytes p).
Proof. intros [-> | ->]; by repeat constructor. Qed.

Lemma HasPrefix_randomID p r : HasPrefix (randomID p r) (p +:+ "_") = true.
Proof.
  unfold randomID. replace (p +:+ "_" +:+ randomSecret r) with ((p +:+ "_") +:+ randomSecret r);
    [apply HasPrefix_app|]. apply str_bytes_inj. rewrite !str_bytes_app. by rewrite <- app_assoc.
Qed.

(** Tokens round-trip: a token made from any 18 and 32 random bytes is
    accepted by parseToken, under its own prefix, as the identifier and the
    secret it was made from; it is text without spaces that survives an HTTP
    header. *)
Lemma token_roundtrip p r1 r2 :
  p = "at" ∨ p = "rt" → secret_bytes 18 r1 → secret_bytes 32 r2 →
  parseToken (newToken p r1 r2).2 p = Ok (randomID p r1, randomSecret r2)
  ∧ Forall (λ c, graphic c = true) (str_bytes (newToken p r1 r2).2).
Proof.
  intros Hp [H1 _] [H2 Hlen]. pose proof (randomID_chars p r1 (prefix_chars p Hp) H1) as Hid. split.
  - apply parse_token_with_id; [done|apply HasPrefix_randomID|done..].
  - unfold newToken, newTokenWithID. cbn [snd]. rewrite !str_bytes_app, !Forall_app.
    split_and!; [|by repeat constructor|]; (eapply Forall_impl; [|apply url_char_graphic]); [done|].
    by apply token_chars.
Qed.

Lemma select_inserted h id g d d' :
  insert_grant id g d = Ok (tt, d') → gr_code_hash g = h → select_grant h d' = Some (id, g).
Proof.
  intros H Hh. unfold insert_grant in H. checks H. simplify_eq. apply negb_true_iff in C0.
  unfold select_grant. apply lookup_by_unique; [simpl; by rewrite lookup_insert_eq|done|].
  intros k v Hk Hv. simpl in Hk. destruct (decide (k = id)) as [|Hne]; [done|].
  rewrite lookup_insert_ne in Hk by done. unfold grant_hash_col in C0.
  destruct (proj1 (taken_false _ _ _ _) C0 k v Hk Hne). by f_equal.
Qed.

(** What a client that pairs gets. *)
Definition paired (name : string) (scopes : list string) (now : Z) (r1 r3 r5 : list Z) w2
    (pair : TokenPair) : Prop :=
  cn_ID (tp_Client pair) = randomID "client" r5 ∧ cn_Name (tp_Client pair) = name
  ∧ cn_Scopes (tp_Client pair) = scopes ∧
  (∀ now' res w3, (now' < TruncateMicro (tp_AccessExpiresAt pair))%Z →
     Authenticate now' (tp_AccessToken pair) w2 = (res, w3) →
     auth_db_error res ∨
     res = Ok (mkPrincipal (randomID "client" r5) name (randomID "rt" r3) scopes)).

(** Pairing works: the code of a grant that was created can be exchanged
    before the grant expires; the exchange gives a client with the grant's name
    and normalised scopes, and its access token authenticates as that client
    until it expires.  Only a failure of the database can come between. *)
Lemma pairing_flow now c1 c2 name scopes w link w1 now' r1 r2 r3 r4 r5 res w2 l :
  w_env w = [] → secret_bytes 32 c1 → secret_bytes 18 r1 → secret_bytes 32 r2 →
  normalizeScopes scopes = Ok l →
  CreatePairingGrant conf now c1 c2 name scopes w = (Ok link, w1) →
  (now' < TruncateMicro (lk_ExpiresAt link))%Z →
  ExchangePairingGrant conf now' r1 r2 r3 r4 r5 (lk_Code link) w1 = (res, w2) →
  auth_db_error res ∨ ∃ pair, res = Ok pair ∧ paired (TrimSpace name) l now' r1 r3 r5 w2 pair.
Proof.
  intros Hw [Hc1 Hlen1] Hr1 Hr2 Hl H1 Hexp H2.
  unfold CreatePairingGrant in H1. destruct (_ || _); [done|]. rewrite Hl in H1. cbv zeta in H1.
  unfold StoreCreatePairingGrant in H1. cbn [bind sm_monad] in H1.
  destruct (pool_stmt _ w) as [[[]|e] w1'] eqn:Ep; [|done].
  apply pool_stmt_alone in Ep as [Hw1 Hins]; [|done]. cbn [ret sm_monad] in H1. simplify_eq/=.
  apply (select_inserted (tokenHash (randomSecret c1))) in Hins as Hsel; [|done].
  unfold ExchangePairingGrant in H2. rewrite TrimSpace_secret in H2 by done.
  assert (strlen (randomSecret c1) = 43%Z) as Hlen by (by rewrite secret_len, Hlen1).
  destruct (String.eqb_spec (randomSecret c1) "") as [E|]; [by rewrite E in Hlen|].
  rewrite Hlen in H2. simpl in H2. unfold newToken, newTokenWithID in H2. cbv beta iota zeta in H2.
  set (m := mkMaterial _ _ _ _ _ _ _) in H2. unfold StoreExchangePairingGrant in H2.
  cbn [bind sm_monad] in H2. destruct (run_tx _ w1) as [rt w2'] eqn:Et.
  apply run_tx_outcome in Et as [Hw2 Ht]; [|done|apply exchange_robust].
  pose proof (exchange_calm (tokenHash (randomSecret c1)) now' m (w_db w1)) as Hc.
  rewrite Hsel in Hc. unfold code_refused, granted, After in Hc. simpl in Hc.
  destruct (Z.ltb_spec now' (TruncateMicro (now + PairingTTL conf))) as [_|]; [|lia].
  cbn [negb] in Hc. destruct Ht as [[-> Hd]|[[x ->] _]]; [|left; simplify_eq; by eexists].
  destruct Hc as [[[x Hx] _]|(_&_&_&Hr&Hd')]; [left; rewrite Hx in H2; simplify_eq; by eexists|].
  right. rewrite Hr in H2, Hd. destruct Hd as [Hd|[? _]]; [|done]. cbn [ret sm_monad] in H2. simplify_eq.
  eexists. split; [reflexivity|]. split_and!; [done..|]. simpl. intros now'' res w3 Hlt H3.
  destruct (token_roundtrip "at" r1 r2 (or_introl eq_refl) Hr1 Hr2) as [Hp _].
  eapply Authenticate_alone in H3 as [?|H3]; [by left| |exact Hw2|exact Hp]. right. rewrite H3, Hd, Hd'.
  unfold exchanged, select_access. simpl. rewrite !lookup_insert_eq. simpl.
  unfold same_hash, After. rewrite bool_decide_eq_true_2 by done. simpl.
  destruct (Z.ltb_spec now'' (TruncateMicro (now' + AccessTTL conf))); [|lia]. done.
Qed.
End Flow.
