(* ===== verification/AuthHTTP.v ===== *)
(** * internal/auth/http.go, middleware.go: the auth endpoints

    The public endpoints (browsers keep the refresh token in a cookie, native
    clients in the body), the control endpoints, and the middleware that
    protects another handler. *)

From S2P Require Import Prelude GoStd GoTime GoCrypto Json GoHTTP.
From S2P Require Import Sql Tables AuthDB AuthStore AuthService.
#[local] Open Scope string_scope.

Definition ASt (A : Type) : Type := St (World ADB) A.

(** What the endpoints encode.  TokenPair hides its refresh token and expiry
    from JSON (the tag "-"); nativeTokenPair shows them. *)
Record TokenPairJSON := mkPairJSON {
  tj_AccessToken : string; tj_TokenType : string; tj_ExpiresIn : Z; tj_AccessExpiresAt : Z;
  tj_Client : Client }.
Record nativeTokenPair := mkNative {
  nt_AccessToken : string; nt_TokenType : string; nt_ExpiresIn : Z; nt_AccessExpiresAt : Z;
  nt_RefreshToken : string; nt_RefreshExpires : Z; nt_Client : Client }.
(** Principal hides its session. *)
Record PrincipalJSON := mkPrincipalJSON {
  pj_ClientID : string; pj_ClientName : string; pj_Scopes : list string }.

Inductive AuthData :=
| DPair (p : TokenPairJSON)
| DNative (p : nativeTokenPair)
| DPrincipal (p : PrincipalJSON)
| DLink (l : PairingLink)
| DClients (items : list Client).

Definition ARes : Type := Response AuthData.

Definition json_TokenPair (p : TokenPair) : TokenPairJSON :=
  mkPairJSON (tp_AccessToken p) (tp_TokenType p) (tp_ExpiresIn p) (tp_AccessExpiresAt p) (tp_Client p).
Definition newNativeTokenPair (p : TokenPair) : nativeTokenPair :=
  mkNative (tp_AccessToken p) (tp_TokenType p) (tp_ExpiresIn p) (tp_AccessExpiresAt p)
    (tp_RefreshToken p) (tp_RefreshExpires p) (tp_Client p).
Definition json_Principal (p : Principal) : PrincipalJSON :=
  mkPrincipalJSON (pl_ClientID p) (pl_ClientName p) (pl_Scopes p).

(** ** Writing *)

Definition writeAuthError {D} (status : Z) (code : string) : Response D :=
  mkResponse status json_headers None (ErrorBody code false).

Definition writeData {D} (status : Z) (value : D) : Response D :=
  mkResponse status json_headers None (Data value).

(** WriteHeader(http.StatusNoContent) *)
Definition no_content {D} : Response D := mkResponse StatusNoContent [] None NoBody.

Definition writeServiceError {D} (err : auth_error) : Response D :=
  match err with
  | ErrExpiredCredential => writeAuthError StatusUnauthorized "AUTH_CREDENTIAL_EXPIRED"
  | ErrConsumedGrant => writeAuthError StatusConflict "AUTH_PAIRING_ALREADY_USED"
  | ErrRefreshReplay => writeAuthError StatusUnauthorized "AUTH_REFRESH_REPLAY"
  | ErrInvalidCredential => writeAuthError StatusUnauthorized "AUTH_INVALID_CREDENTIAL"
  | ErrRevoked => writeAuthError StatusUnauthorized "AUTH_SESSION_REVOKED"
  | ErrNotFound => writeAuthError StatusNotFound "AUTH_CLIENT_NOT_FOUND"
  | _ => writeAuthError StatusInternalServerError "AUTH_INTERNAL_ERROR"
  end.

(** ** Reading *)

Definition CSRFHeader := "X-CodexRemote-Request".

(** checkBrowserRequest and decodeRequest: the error they write, if any. *)
Definition checkBrowserRequest {D} (rq : Request) : option (Response D) :=
  if String.eqb (rq_Header rq CSRFHeader) "1" then None
  else Some (writeAuthError StatusForbidden "AUTH_BROWSER_HEADER_REQUIRED").

Definition decodeRequest {A D} (zero : A) (d : Dec A) (rq : Request) : result (Response D) A :=
  if negb (HasPrefix (rq_Header rq "Content-Type") "application/json")
  then Err (writeAuthError StatusUnsupportedMediaType "JSON_CONTENT_TYPE_REQUIRED")
  else match decode_body zero d rq with
       | Some a => Ok a
       | None => Err (writeAuthError StatusBadRequest "INVALID_JSON")
       end.

Definition dec_code_request : Dec string :=
  dec_struct_with true ["code"] (λ get c, get _ "code" dec_string c).
Definition dec_refresh_request : Dec string :=
  dec_struct_with true ["refresh_token"] (λ get t, get _ "refresh_token" dec_string t).
Definition dec_grant_request : Dec (string * list string) :=
  dec_struct_with true ["name"; "scopes"] (λ get r,
    let! n := get _ "name" dec_string r.1 in
    let! s := get _ "scopes" (dec_slice "" dec_string) r.2 in
    ret (n, s)).

Definition bearerToken (value : string) : string :=
  match Fields value with
  | [scheme; token] => if EqualFoldASCII scheme "Bearer" then token else ""
  | _ => ""
  end.

(** ** Cookies *)

Record HTTPConfig := mkHTTPConfig { CookieName : string; CookieSecure : bool }.

Definition NewPublicAPI (config : HTTPConfig) : HTTPConfig :=
  if String.eqb (TrimSpace (CookieName config)) ""
  then mkHTTPConfig "codexremote_refresh" (CookieSecure config) else config.

Section Public.
Context (conf : Config) (config : HTTPConfig).

(** [clock] is time.Now() when the cookie is written. *)
Definition setRefreshCookie (clock : Z) (value : string) (expires : Z) : Cookie :=
  mkCookie (CookieName config) value "/v1/auth" expires (whole_seconds (expires - clock)) true
    (CookieSecure config) true.
Definition clearRefreshCookie : Cookie :=
  mkCookie (CookieName config) "" "/v1/auth" second (-1) true (CookieSecure config) true.

(** ** The public endpoints *)

Section Handlers.
Context (now clock : Z) (r1 r2 r3 r4 r5 : list Z) (rq : Request).

(** Go on unless a response has been written. *)
Definition unless_written (written : option ARes) (k : ASt ARes) : ASt ARes :=
  match written with Some r => ret r | None => k end.
Definition decoded {A} (r : result ARes A) (k : A → ASt ARes) : ASt ARes :=
  match r with Err e => ret e | Ok a => k a end.

Definition exchange : ASt ARes :=
  unless_written (checkBrowserRequest rq)
    (decoded (decodeRequest "" dec_code_request rq) (λ code,
      let! issued := (ExchangePairingGrant conf now r1 r2 r3 r4 r5 code : ASt _) in
      match issued with
      | Err err => ret (writeServiceError err)
      | Ok tokens =>
          ret (with_cookie (setRefreshCookie clock (tp_RefreshToken tokens) (tp_RefreshExpires tokens))
                 (writeData StatusOK (DPair (json_TokenPair tokens))))
      end)).

Definition nativeExchange : ASt ARes :=
  unless_written (checkBrowserRequest rq)
    (decoded (decodeRequest "" dec_code_request rq) (λ code,
      let! issued := (ExchangePairingGrant conf now r1 r2 r3 r4 r5 code : ASt _) in
      match issued with
      | Err err => ret (writeServiceError err)
      | Ok tokens => ret (writeData StatusOK (DNative (newNativeTokenPair tokens)))
      end)).

Definition refresh : ASt ARes :=
  unless_written (checkBrowserRequest rq)
    match rq_Cookie rq (CookieName config) with
    | None => ret (writeAuthError StatusUnauthorized "AUTH_REFRESH_REQUIRED")
    | Some value =>
        let! issued := (Refresh conf now r1 r2 r3 value : ASt _) in
        match issued with
        | Err err => ret (with_cookie clearRefreshCookie (writeServiceError err))
        | Ok tokens =>
            ret (with_cookie (setRefreshCookie clock (tp_RefreshToken tokens) (tp_RefreshExpires tokens))
                   (writeData StatusOK (DPair (json_TokenPair tokens))))
        end
    end.

Definition nativeRefresh : ASt ARes :=
  unless_written (checkBrowserRequest rq)
    (decoded (decodeRequest "" dec_refresh_request rq) (λ token,
      let! issued := (Refresh conf now r1 r2 r3 token : ASt _) in
      match issued with
      | Err err => ret (writeServiceError err)
      | Ok tokens => ret (writeData StatusOK (DNative (newNativeTokenPair tokens)))
      end)).

(** An error of RevokeSession other than an invalid or revoked credential. *)
Definition revoke_failed (r : result auth_error unit) : option auth_error :=
  match r with
  | Err err => match err with ErrInvalidCredential | ErrRevoked => None | _ => Some err end
  | Ok _ => None
  end.

Definition revoke : ASt ARes :=
  unless_written (checkBrowserRequest rq)
    match rq_Cookie rq (CookieName config) with
    | None => ret (with_cookie clearRefreshCookie no_content)
    | Some value =>
        let! r := (RevokeSession now value "client_logout" : ASt _) in
        match revoke_failed r with
        | Some err => ret (writeServiceError err)
        | None => ret (with_cookie clearRefreshCookie no_content)
        end
    end.

Definition nativeRevoke : ASt ARes :=
  unless_written (checkBrowserRequest rq)
    (decoded (decodeRequest "" dec_refresh_request rq) (λ token,
      let! r := (RevokeSession now token "client_logout" : ASt _) in
      match revoke_failed r with
      | Some err => ret (writeServiceError err)
      | None => ret no_content
      end)).

Definition me : ASt ARes :=
  let! principal := (Authenticate now (bearerToken (rq_Header rq "Authorization")) : ASt _) in
  match principal with
  | Err err => ret (writeServiceError err)
  | Ok principal => ret (writeData StatusOK (DPrincipal (json_Principal principal)))
  end.

(** ** The control endpoints *)

Definition createGrant : ASt ARes :=
  decoded (decodeRequest ("", []) dec_grant_request rq) (λ request,
    let! grant := (CreatePairingGrant conf now r1 r2 request.1 request.2 : ASt _) in
    match grant with
    | Err err => ret (writeServiceError err)
    | Ok grant => ret (writeData StatusCreated (DLink grant))
    end).

Definition list_clients : ASt ARes :=
  let! clients := (ListClients : ASt _) in
  match clients with
  | Err err => ret (writeServiceError err)
  | Ok clients => ret (writeData StatusOK (DClients clients))
  end.

Definition revokeClient : ASt ARes :=
  let! r := (RevokeClient now (rq_PathValue rq "client_id") "control_revoke" : ASt _) in
  match r with
  | Err err => ret (writeServiceError err)
  | Ok _ => ret no_content
  end.
End Handlers.

(** ** Registration *)

Inductive PublicHandler := HExchange | HRefresh | HRevoke | HNativeExchange | HNativeRefresh | HNativeRevoke | HMe.

Definition public_routes : list (Route PublicHandler) :=
  [mkRoute "POST" [Lit "v1"; Lit "auth"; Lit "pairing-grants:exchange"] HExchange;
   mkRoute "POST" [Lit "v1"; Lit "auth"; Lit "tokens:refresh"] HRefresh;
   mkRoute "POST" [Lit "v1"; Lit "auth"; Lit "sessions"; Lit "current:revoke"] HRevoke;
   mkRoute "POST" [Lit "v1"; Lit "auth"; Lit "native"; Lit "pairing-grants:exchange"] HNativeExchange;
   mkRoute "POST" [Lit "v1"; Lit "auth"; Lit "native"; Lit "tokens:refresh"] HNativeRefresh;
   mkRoute "POST" [Lit "v1"; Lit "auth"; Lit "native"; Lit "sessions"; Lit "current:revoke"] HNativeRevoke;
   mkRoute "GET" [Lit "v1"; Lit "auth"; Lit "me"] HMe].

Definition run_public (h : PublicHandler) (now clock : Z) (r1 r2 r3 r4 r5 : list Z) (rq : Request)
    : ASt ARes :=
  match h with
  | HExchange => exchange now clock r1 r2 r3 r4 r5 rq
  | HRefresh => refresh now clock r1 r2 r3 rq
  | HRevoke => revoke now rq
  | HNativeExchange => nativeExchange now r1 r2 r3 r4 r5 rq
  | HNativeRefresh => nativeRefresh now r1 r2 r3 rq
  | HNativeRevoke => nativeRevoke now rq
  | HMe => me now rq
  end.

Inductive ControlHandler := HCreateGrant | HClients | HRevokeClient.
Definition control_routes : list (Route ControlHandler) :=
  [mkRoute "POST" [Lit "v1"; Lit "auth-control"; Lit "pairing-grants"] HCreateGrant;
   mkRoute "GET" [Lit "v1"; Lit "auth-control"; Lit "clients"] HClients;
   mkRoute "POST" [Lit "v1"; Lit "auth-control"; Lit "clients"; Wild "client_id"; Lit "revoke"] HRevokeClient].
Definition run_control (h : ControlHandler) (now : Z) (r1 r2 : list Z) (rq : Request) : ASt ARes :=
  match h with
  | HCreateGrant => createGrant now r1 r2 rq
  | HClients => list_clients
  | HRevokeClient => revokeClient now rq
  end.

Definition ServePublic (now clock : Z) (r1 r2 r3 r4 r5 : list Z) (rq : Request) : ASt ARes :=
  serve public_routes (λ h, run_public h now clock r1 r2 r3 r4 r5) rq.

(** ControlAPI.Handler *)
Definition ServeControl (now : Z) (r1 r2 : list Z) (rq : Request) : ASt ARes :=
  let! r := serve control_routes (λ h, run_control h now r1 r2) rq in
  ret (with_headers [("X-Content-Type-Options", "nosniff"); ("Cache-Control", "no-store")] r).
End Public.

(** ** The middleware *)

Definition credentialErrorCode (err : auth_error) : string :=
  match err with
  | ErrExpiredCredential => "AUTH_ACCESS_EXPIRED"
  | ErrRevoked => "AUTH_SESSION_REVOKED"
  | _ => "AUTH_INVALID_CREDENTIAL"
  end.

(** A text between double quotes *)
Definition quoted (s : string) : string :=
  bytes_str [Ascii.ascii_of_N 34] +:+ s +:+ bytes_str [Ascii.ascii_of_N 34].

Definition challenge : list (string * string) :=
  [("WWW-Authenticate", "Bearer realm=" +:+ quoted "codex-remote")].

Section Middleware.
Context {X D : Type} (next : Principal → Request → St X (Response D)) (requiredScope : Request → string).

(** The handler behind sees the principal; the credentials and what it owns
    are apart. *)
Definition Middleware (now : Z) (rq : Request) : St (World ADB * X) (Response D) := λ '(w, x),
  let token := bearerToken (rq_Header rq "Authorization") in
  match Authenticate now token w with
  | (Err err, w) =>
      (with_headers challenge (writeAuthError StatusUnauthorized (credentialErrorCode err)), (w, x))
  | (Ok principal, w) =>
      if negb (HasScope principal (requiredScope rq))
      then (writeAuthError StatusForbidden "AUTH_SCOPE_REQUIRED", (w, x))
      else let '(r, x) := next principal rq x in (r, (w, x))
  end.
End Middleware.

(** ** What the endpoints promise *)

Lemma checkBrowserRequest_missing {D} rq :
  rq_Header rq CSRFHeader ≠ "1" →
  checkBrowserRequest rq = Some (writeAuthError (D := D) StatusForbidden "AUTH_BROWSER_HEADER_REQUIRED").
Proof. intros H. unfold checkBrowserRequest. by destruct (String.eqb_spec (rq_Header rq CSRFHeader) "1"). Qed.

(** C38. No cross-site requests: a POST to the public endpoints without the
    X-CodexRemote-Request header reaches neither the service nor the database;
    it is answered 403 if it names an endpoint, and sets no cookie. *)
Theorem public_csrf conf config now clock r1 r2 r3 r4 r5 rq w res w' :
  rq_Method rq = "POST" → rq_Header rq CSRFHeader ≠ "1" →
  ServePublic conf config now clock r1 r2 r3 r4 r5 rq w = (res, w') →
  w' = w ∧ rs_Cookie res = None
  ∧ (rs_Status res = StatusForbidden ∨ rs_Status res = StatusNotFound ∨ rs_Status res = StatusMethodNotAllowed).
Proof.
  intros Hm Hh H. unfold ServePublic, serve in H.
  destruct (route public_routes rq) as [h values| |] eqn:Er; [|by injection H as <- <-; auto..].
  apply route_Routed in Er as (r&Hr&Hhandler&_&Hmethod). rewrite Hm in Hmethod.
  assert (rq_Header (with_values values rq) CSRFHeader ≠ "1") as Hh' by done.
  assert (h ≠ HMe) as Hme.
  { intros ->. unfold public_routes in Hr. rewrite !elem_of_cons in Hr.
    destruct_or! Hr; [subst r; done..|by apply elem_of_nil in Hr]. }
  destruct h; try done; cbv delta [run_public exchange nativeExchange refresh nativeRefresh revoke nativeRevoke] beta iota in H;
    rewrite checkBrowserRequest_missing in H by done; simplify_eq/=; auto.
Qed.

(** A refresh token that a browser endpoint returns is only in the cookie. *)
Definition cookie_guarded (config : HTTPConfig) (c : Cookie) : Prop :=
  ck_Name c = CookieName config ∧ ck_Path c = "/v1/auth" ∧ ck_HttpOnly c = true
  ∧ ck_SameSiteStrict c = true ∧ ck_Secure c = CookieSecure config.

(** The request gets to Refresh: it is a browser's, with a refresh cookie. *)
Definition refreshes (config : HTTPConfig) (h : PublicHandler) (rq : Request) : bool :=
  match h with
  | HRefresh => String.eqb (rq_Header rq CSRFHeader) "1" && (if rq_Cookie rq (CookieName config) then true else false)
  | _ => false
  end.

(** C37. Browsers never see the refresh token: the cookie that exchange, refresh
    and revoke set is HttpOnly, SameSite=Strict and limited to the auth
    endpoints; what they put in the body is a token pair without its refresh
    token, whose refresh token is the cookie's, or an error.  When Refresh was
    called and the answer is an error, the cookie is cleared; no other error
    touches it; and it is cleared when the session is revoked. *)
Theorem browser_cookie conf config now clock r1 r2 r3 r4 r5 rq h w res w' :
  h = HExchange ∨ h = HRefresh ∨ h = HRevoke →
  run_public conf config h now clock r1 r2 r3 r4 r5 rq w = (res, w') →
  (∀ c, rs_Cookie res = Some c → cookie_guarded config c)
  ∧ match rs_Body res with
    | Data d => ∃ tokens, d = DPair (json_TokenPair tokens)
                  ∧ rs_Cookie res = Some (setRefreshCookie config clock (tp_RefreshToken tokens) (tp_RefreshExpires tokens))
    | ErrorBody _ _ => rs_Cookie res = (if refreshes config h rq then Some (clearRefreshCookie config) else None)
    | NoBody => rs_Cookie res = Some (clearRefreshCookie config)
    | Plain _ | Aborted | Pending => False
    end.
Proof.
  assert (∀ err, (rs_Body (writeServiceError err : ARes) = ErrorBody (match rs_Body (writeServiceError err : ARes)
             with ErrorBody c _ => c | _ => "" end) false) ∧ rs_Cookie (writeServiceError err : ARes) = None) as Hse
    by (intros []; done).
  intros [-> | [-> | ->]] H; cbv delta [run_public exchange refresh revoke] beta iota in H;
    unfold unless_written, checkBrowserRequest in H; unfold refreshes;
    destruct (String.eqb (rq_Header rq CSRFHeader) "1"); try (by simplify_eq/=).
  - unfold decoded, decodeRequest in H. destruct (HasPrefix _ _); simpl in H; [|by simplify_eq/=].
    destruct (decode_body _ _ _) as [code|]; simpl in H; [|by simplify_eq/=].
    destruct (ExchangePairingGrant _ _ _ _ _ _ _ _ _) as [[tokens|err] w1].
    + simplify_eq/=. split; [intros c [= <-]; by repeat split|]. by exists tokens.
    + destruct (Hse err) as [Hb Hc]. simplify_eq/=. rewrite Hb, Hc. by split.
  - destruct (rq_Cookie _ _) as [value|]; [|by simplify_eq/=].
    cbn [bind st_monad] in H. destruct (Refresh _ _ _ _ _ _ _) as [[tokens|err] w1].
    + simplify_eq/=. split; [intros c [= <-]; by repeat split|]. by exists tokens.
    + destruct (Hse err) as [Hb Hc]. simplify_eq/=. rewrite Hb.
      split; [intros c [= <-]; by repeat split|done].
  - destruct (rq_Cookie _ _) as [value|]; [|simplify_eq/=; split; [intros c [= <-]; by repeat split|done]].
    cbn [bind st_monad] in H. destruct (RevokeSession _ _ _ _) as [r w1].
    destruct (revoke_failed r) as [err|].
    + destruct (Hse err) as [Hb Hc]. simplify_eq/=. rewrite Hb, Hc. by split.
    + simplify_eq/=. split; [intros c [= <-]; by repeat split|done].
Qed.
