(* ===== verification/Server.v ===== *)
(** * internal/server/server.go: the relay's HTTP handler

    The middlewares (request ids, CORS, security headers) around the mux of the
    relay: health, status, the WebSocket endpoints, the public auth endpoints
    and, under /v1/runtime/, the runtime API behind the auth module. *)

From S2P Require Import Prelude GoStd GoTime GoCrypto Json GoHTTP Protocol Payloads.
From S2P Require Import Sql Tables RuntimeDB RunStore Outbox Bootstrap Listing Threads Hub Router Gateway Coordinator.
From S2P Require Import RuntimeHTTP RuntimeFeed.
From S2P Require Import AuthDB AuthStore AuthService AuthHTTP AuthEffects AuthInvariant AuthSpec AuthSafety.
From Stdlib Require Import Ascii.
#[local] Open Scope string_scope.

(** What the server writes. *)
Inductive ServerData :=
| SHealth
| SStatus (snapshot : Snapshot)
| SSocket (role : string)   (** the connection is handed to the WebSocket handler *)
| SAuth (d : AuthData)
| SRuntime (d : RuntimeData).

Definition SRes : Type := Response ServerData.
Definition Handler (S : Type) : Type := Request → St S SRes.

(** ** Middlewares *)

(** The headers are set before the handler behind runs. *)
Definition before {S} (headers : Request → list (string * string)) (next : Handler S) : Handler S := λ rq,
  let! r := next rq in ret (with_headers (headers rq) r).

Definition securityHeaders {S} : Handler S → Handler S :=
  before (λ _, [("X-Content-Type-Options", "nosniff"); ("Referrer-Policy", "no-referrer")]).

(** The id of a request: the client's, or a new one. *)
Definition request_id (fresh : list Z) (rq : Request) : string :=
  let id := TrimSpace (rq_Header rq "X-Request-Id") in
  if String.eqb id "" || (128 <? strlen id)%Z then NewID fresh else id.
Definition requestID {S} (fresh : list Z) : Handler S → Handler S :=
  before (λ rq, [("X-Request-Id", request_id fresh rq)]).

(** The origins of the configuration, and whether "*" is among them. *)
Definition origins (origin : string) : list string :=
  filter (λ value, value ≠ "" ∧ value ≠ "*") (map TrimSpace (Split origin ",")).
Definition allow_any (origin : string) : bool :=
  existsb (λ value, String.eqb value "*") (map TrimSpace (Split origin ",")).

Definition cors_headers (origin : string) (rq : Request) : list (string * string) :=
  let requestOrigin := rq_Header rq "Origin" in
  let any := negb (String.eqb requestOrigin "") && allow_any origin in
  let listed := bool_decide (requestOrigin ∈ origins origin) in
  ((if any then [("Access-Control-Allow-Origin", "*")]
    else if listed then [("Access-Control-Allow-Origin", requestOrigin); ("Vary", "Origin")] else [])
   ++ (if any || listed then
         [("Access-Control-Allow-Headers",
           "Authorization, Content-Type, Idempotency-Key, Last-Event-ID, X-Request-Id, X-CodexRemote-Request");
          ("Access-Control-Allow-Methods", "GET, POST, OPTIONS")]
         ++ (if allow_any origin then [] else [("Access-Control-Allow-Credentials", "true")])
       else []))%list.

Definition cors {S} (origin : string) (next : Handler S) : Handler S :=
  before (cors_headers origin) (λ rq,
    if String.eqb (rq_Method rq) "OPTIONS" then ret no_content else next rq).

(** ** Scopes *)

Definition runtimeRequiredScope (rq : Request) : string :=
  if HasSuffix (Path rq) "/source:read" then ScopeSourceRead
  else if String.eqb (rq_Method rq) "GET" || String.eqb (rq_Method rq) "HEAD" then ScopeRuntimeRead
  else ScopeRuntimeWrite.

(** ** The mux *)

Section Server.
Context {B : Type} `{BI : !BrokerI B, BQ : !BrokerQueryI B, J : !Jsonb, C : !Collation}.
Context (source : option (SourceReadPayload → SourceResult)).
Context (executionProfiles : option (string → ProfileResult)).
(** The auth module, when it is enabled: its service and its cookies. *)
Context (auth : option (Config * HTTPConfig)).
Context (AllowedOrigin : string).

(** The two databases and the broker. *)
Definition SState : Type := World ADB * RState B.

Definition lift_auth (m : St (World ADB) ARes) : St SState SRes := λ s,
  let '(r, w) := m s.1 in (map_response SAuth r, (w, s.2)).
Definition lift_runtime (m : HSt B RRes) : St SState SRes := λ s,
  let '(r, x) := m s.2 in (map_response SRuntime r, (s.1, x)).

(** What a request draws from its environment. *)
Record SEnv := mkSEnv {
  se_auth_now : Z; se_written_at : Z; se_random : list (list Z); se_request_id : list Z;
  se_runtime : HEnv; se_snapshot : Snapshot }.
Definition se_draw (env : SEnv) (i : nat) : list Z := nth i (se_random env) [].

(** The handler of /v1/runtime/: the API, behind the auth module if there is one. *)
Definition runtimeHandler (env : SEnv) : Handler SState := λ rq,
  match auth with
  | None => lift_runtime (ServeRuntime source executionProfiles (se_runtime env) rq)
  | Some _ => λ s,
      let '(r, s') := Middleware (λ _ rq, ServeRuntime source executionProfiles (se_runtime env) rq)
                        runtimeRequiredScope (se_auth_now env) rq s in
      (map_response SRuntime r, s')
  end.

Definition health : SRes := mkResponse StatusOK json_headers None (Plain SHealth).
Definition status (env : SEnv) : SRes := mkResponse StatusOK json_headers None (Plain (SStatus (se_snapshot env))).

Inductive ServerHandler := HServerHealth | HStatus | HSocket (role : string) | HAuth (h : PublicHandler).

Definition server_routes : list (Route ServerHandler) :=
  ([mkRoute "GET" [Lit "healthz"] HServerHealth; mkRoute "GET" [Lit "status"] HStatus;
    mkRoute "" [Lit "ws"; Lit "app"] (HSocket RoleApp); mkRoute "" [Lit "ws"; Lit "agent"] (HSocket RoleAgent)]
   ++ match auth with
      | Some _ => map (λ r, mkRoute (rt_Method r) (rt_Pattern r) (HAuth (rt_Handler r))) public_routes
      | None => []
      end)%list.

Definition run_server_handler (env : SEnv) (h : ServerHandler) : Handler SState := λ rq,
  match h with
  | HServerHealth => ret health
  | HStatus => ret (status env)
  | HSocket role => ret (mkResponse 101 [] None (Plain (SSocket role)))
  | HAuth h =>
      match auth with
      | Some (conf, http) =>
          lift_auth (run_public conf (NewPublicAPI http) h (se_auth_now env) (se_written_at env)
                       (se_draw env 0) (se_draw env 1) (se_draw env 2) (se_draw env 3) (se_draw env 4) rq)
      | None => ret (mux_error StatusNotFound)
      end
  end.

(** Everything below /v1/runtime/ goes to one handler; the path without its
    slash is redirected. *)
Definition mux (env : SEnv) : Handler SState := λ rq,
  match rq_Segments rq with
  | ["v1"; "runtime"] => ret (mux_error 301)
  | "v1" :: "runtime" :: _ => runtimeHandler env rq
  | _ => serve server_routes (run_server_handler env) rq
  end.

(** server.handler *)
Definition ServeHTTP (env : SEnv) : Handler SState :=
  requestID (se_request_id env) (cors AllowedOrigin (securityHeaders (mux env))).
End Server.
Arguments SState : clear implicits.

(** CloseConnections *)
Definition CloseConnections {W B} `{BI : !BrokerI B} : CSt W B unit :=
  let! _ := CloseAll in CoordClose.

(** ** The runtime API is behind the auth module *)

(** The scope an endpoint needs. *)
Definition handler_scope (h : RuntimeHandler) : string :=
  match h with
  | HSource => ScopeSourceRead
  | HCreateSession | HCreateRun | HCancel | HCreateSync => ScopeRuntimeWrite
  | _ => ScopeRuntimeRead
  end.

(** No escaped slash in the path, and "source:read" only as the endpoint. *)
Definition plain_path (h : RuntimeHandler) (rq : Request) : Prop :=
  Forall no_slash (rq_Segments rq) ∧ (last (rq_Segments rq) = Some "source:read" → h = HSource).

Lemma read_method pattern method :
  match_method pattern method = true → pattern = "GET" ∨ pattern = "POST" →
  String.eqb method "GET" || String.eqb method "HEAD" = String.eqb pattern "GET".
Proof.
  unfold match_method. intros H [-> | ->].
  - rewrite String.eqb_sym. apply H.
  - rewrite orb_false_r in H. apply String.eqb_eq in H as <-. done.
Qed.

(** A GET endpoint reads and a POST endpoint writes, reading source apart. *)
Definition route_policy (r : Route RuntimeHandler) : bool :=
  (String.eqb (rt_Method r) "GET" || String.eqb (rt_Method r) "POST")
  && match rt_Handler r with
     | HSource => bool_decide (last_lit (rt_Pattern r) = Some "source:read")
     | h => String.eqb (handler_scope h)
              (if String.eqb (rt_Method r) "GET" then ScopeRuntimeRead else ScopeRuntimeWrite)
     end.

Lemma routes_policy r : r ∈ runtime_routes → route_policy r = true.
Proof.
  intros Hr. assert (forallb route_policy runtime_routes = true) as Hall by (vm_compute; reflexivity).
  rewrite forallb_forall in Hall. by apply Hall, list_elem_of_In.
Qed.

(** A path ends in source:read when its last segment is that, or may hold a
    slash. *)
Lemma source_read_suffix rq :
  Forall no_slash (option_list (last (rq_Segments rq))) →
  HasSuffix (Path rq) "/source:read" = bool_decide (last (rq_Segments rq) = Some "source:read").
Proof.
  destruct (rq_Segments rq) as [|s l _] eqn:El using rev_ind.
  - intros _. unfold Path. rewrite El. reflexivity.
  - rewrite last_snoc. cbn [option_list]. intros Hs. inv Hs.
    change "/source:read" with ("/" +:+ "source:read").
    rewrite (HasSuffix_last rq l s "source:read"); [|done|done|].
    + by destruct (decide (s = "source:read")) as [->|Hne]; [|rewrite !bool_decide_eq_false_2 by congruence].
    + apply Forall_forall. intros c Hc. vm_compute in Hc. set_solver.
Qed.

(** The endpoints that write are named by their last segment. *)
Definition write_policy (r : Route RuntimeHandler) : bool :=
  negb (String.eqb (handler_scope (rt_Handler r)) ScopeRuntimeWrite)
  || existsb (λ s, bool_decide (last_lit (rt_Pattern r) = Some s)) ["sessions"; "runs"; "cancel"; "bootstrap-syncs"].
Lemma routes_write r : r ∈ runtime_routes → write_policy r = true.
Proof.
  intros Hr. assert (forallb write_policy runtime_routes = true) as Hall by (vm_compute; reflexivity).
  rewrite forallb_forall in Hall. by apply Hall, list_elem_of_In.
Qed.

Lemma plain_words s : s ∈ ["source:read"; "sessions"; "runs"; "cancel"; "bootstrap-syncs"] → no_slash s.
Proof.
  intros Hs. apply Forall_forall. intros c Hc. assert (negb (existsb (λ s, existsb (Ascii.eqb "/") (str_bytes s))
    ["source:read"; "sessions"; "runs"; "cancel"; "bootstrap-syncs"]) = true) as Hall by (vm_compute; reflexivity).
  intros ->. apply negb_true_iff, not_true_iff_false in Hall. apply Hall. apply existsb_exists.
  exists s. split; [by apply list_elem_of_In|]. apply existsb_exists. exists "/"%char.
  split; [by apply list_elem_of_In|done].
Qed.

(** The scope that is asked for is the endpoint's, except that reading under a
    path that ends in source:read asks for source:read. *)
Lemma required_scope h values rq :
  route runtime_routes rq = Routed h values →
  runtimeRequiredScope rq = handler_scope h
  ∨ (handler_scope h = ScopeRuntimeRead ∧ ¬ plain_path h rq ∧ HasSuffix (Path rq) "/source:read" = true
     ∧ runtimeRequiredScope rq = ScopeSourceRead).
Proof.
  intros Hr. apply route_Routed in Hr as (r&Hin&<-&Hm&Hmethod).
  pose proof (routes_policy r Hin) as Hp. unfold route_policy in Hp. rewrite !andb_true_iff in Hp.
  destruct Hp as [Hget Hp]. unfold runtimeRequiredScope.
  destruct (HasSuffix (Path rq) "/source:read") eqn:Hsuf.
  - assert (rt_Handler r = HSource ∨ handler_scope (rt_Handler r) = ScopeRuntimeRead) as [->|Hread]; [|by left|].
    { pose proof (routes_write r Hin) as Hwr. apply orb_true_iff in Hwr as [Hwr|Hwr].
      - destruct (rt_Handler r); first [by left|by right|discriminate Hwr].
      - exfalso. apply existsb_exists in Hwr as (s&Hs&Hl%bool_decide_eq_true).
        pose proof (match_path_last _ _ _ _ Hm Hl) as Hlast.
        rewrite source_read_suffix, Hlast in Hsuf.
        + apply bool_decide_eq_true in Hsuf as [= ->]. simpl in Hs. by destruct_or! Hs.
        + rewrite Hlast. apply Forall_singleton, plain_words. right. by apply list_elem_of_In. }
    right. split_and!; [done| |done..]. intros [Hs Hlast].
    rewrite source_read_suffix in Hsuf; [apply bool_decide_eq_true in Hsuf; apply Hlast in Hsuf; by rewrite Hsuf in Hread|].
    destruct (last (rq_Segments rq)) as [x|] eqn:E; [|constructor]. repeat constructor.
    rewrite Forall_forall in Hs. apply Hs. apply last_Some in E as [l ->]. apply elem_of_app. right. by left.
  - left. rewrite (read_method _ _ Hmethod); [|by apply orb_true_iff in Hget as [?%String.eqb_eq|?%String.eqb_eq]; auto].
    destruct (rt_Handler r) eqn:Eh; try (apply String.eqb_eq in Hp; done).
    apply bool_decide_eq_true in Hp. pose proof (match_path_last _ _ _ _ Hm Hp) as Hlast.
    rewrite source_read_suffix, Hlast, bool_decide_eq_true_2 in Hsuf; [done|done|].
    rewrite Hlast. apply Forall_singleton, plain_words. by left.
Qed.

Section Protected.
Context {B : Type} `{BI : !BrokerI B, BQ : !BrokerQueryI B, J : !Jsonb, C : !Collation}.
Context (source : option (SourceReadPayload → SourceResult)).
Context (executionProfiles : option (string → ProfileResult)).
Context (ac : Config * HTTPConfig) (AllowedOrigin : string).

(** C15. The runtime API needs a live credential: when auth is enabled, whatever
    round trips fail and whatever other clients of the credentials do, a request
    under /v1/runtime/ either leaves the runtime untouched and is answered
    without any data, or was made with the access token of a paired client,
    unexpired and unrevoked, that has the scope of the endpoint: runtime:write
    for what changes sessions, runs and syncs, source:read for reading source,
    and runtime:read for the rest.  One exception: a request that only reads, but
    whose path ends in /source:read (an id that is or ends in source:read),
    needs source:read instead of runtime:read. *)
Theorem runtime_protected env rq rest wa rt res wa' rt' :
  rely auth_good wa → auth_wf (w_db wa) →
  rq_Segments rq = "v1" :: "runtime" :: rest →
  ServeHTTP source executionProfiles (Some ac) AllowedOrigin env rq (wa, rt) = (res, (wa', rt')) →
  (rt' = rt ∧ rs_Status res ∈ [204; 301; 401; 403]%Z ∧ (∀ d, rs_Body res ≠ Data d ∧ rs_Body res ≠ Plain d))
  ∨ ∃ p d r,
      auth_wf d ∧ auth_grows (w_db wa) d
      ∧ live_credential (se_auth_now env) (bearerToken (rq_Header rq "Authorization")) p d
      ∧ ServeRuntime source executionProfiles (se_runtime env) rq rt = (r, rt')
      ∧ ∀ h values, route runtime_routes rq = Routed h values →
          handler_scope h ∈ pl_Scopes p
          ∨ (handler_scope h = ScopeRuntimeRead ∧ ¬ plain_path h rq ∧ HasSuffix (Path rq) "/source:read" = true
             ∧ ScopeSourceRead ∈ pl_Scopes p).
Proof.
  intros Hw Hwf Hseg H. unfold ServeHTTP, requestID, cors, securityHeaders, before in H.
  cbn [bind st_monad ret] in H.
  destruct (String.eqb (rq_Method rq) "OPTIONS").
  { injection H as <- <- <-. left. split_and!; [done|cbn; set_solver|done]. }
  unfold mux in H. rewrite Hseg in H. destruct rest as [|s rest].
  { injection H as <- <- <-. left. split_and!; [done|cbn; set_solver|done]. }
  unfold runtimeHandler, Middleware in H.
  destruct (Authenticate _ _ wa) as [[p|err] w1] eqn:Ea.
  2:{ injection H as <- <- <-. left. split_and!; [done|cbn; set_solver|done]. }
  destruct (HasScope p (runtimeRequiredScope rq)) eqn:Es; cbn [negb] in H.
  2:{ injection H as <- <- <-. left. split_and!; [done|cbn; set_solver|done]. }
  destruct (ServeRuntime _ _ _ rq rt) as [r rt1] eqn:Er. injection H as <- <- <-.
  right. destruct (Authenticate_live _ _ _ _ _ Hw Hwf Ea) as (d&Hd&Hg&Hl).
  exists p, d, r. split_and!; [done..|]. intros h values Hr.
  unfold HasScope in Es. apply existsb_exists in Es as (c&Hc%list_elem_of_In&Ec%String.eqb_eq). subst c.
  destruct (required_scope h values rq Hr) as [<-|(?&?&?&E)]; [by left|right]. by rewrite <- E.
Qed.

(** ** Cross-origin requests *)

Lemma header_app name value (l1 l2 : list (string * string)) :
  (name, value) ∈ (l1 ++ l2)%list ↔ (name, value) ∈ l1 ∨ (name, value) ∈ l2.
Proof. apply elem_of_app. Qed.

(** Credentials are never shared with any origin: the CORS headers allow a
    request's origin only if the configuration lists it or lists "*"; they allow
    credentials only to an origin the configuration lists, named in full, and
    never when "*" is listed; and a preflight request reaches no handler. *)
Lemma cors_safe {S} (next : Handler S) rq s res s' :
  cors AllowedOrigin next rq s = (res, s') →
  (∀ o, ("Access-Control-Allow-Origin", o) ∈ cors_headers AllowedOrigin rq →
     (o = "*" ∧ "*" ∈ map TrimSpace (Split AllowedOrigin ","))
     ∨ (o = rq_Header rq "Origin" ∧ o ∈ map TrimSpace (Split AllowedOrigin ",") ∧ o ≠ "" ∧ o ≠ "*"))
  ∧ (("Access-Control-Allow-Credentials", "true") ∈ cors_headers AllowedOrigin rq →
     "*" ∉ map TrimSpace (Split AllowedOrigin ",")
     ∧ ("Access-Control-Allow-Origin", rq_Header rq "Origin") ∈ cors_headers AllowedOrigin rq
     ∧ rq_Header rq "Origin" ∈ map TrimSpace (Split AllowedOrigin ","))
  ∧ (rq_Method rq = "OPTIONS" → s' = s ∧ rs_Status res = StatusNoContent).
Proof.
  intros H.
  assert (allow_any AllowedOrigin = true ↔ "*" ∈ map TrimSpace (Split AllowedOrigin ",")) as Hany.
  { unfold allow_any. rewrite existsb_exists. setoid_rewrite String.eqb_eq. rewrite list_elem_of_In. naive_solver. }
  assert (∀ o, o ∈ origins AllowedOrigin ↔ (o ≠ "" ∧ o ≠ "*") ∧ o ∈ map TrimSpace (Split AllowedOrigin ",")) as Hor.
  { intros o. unfold origins. by rewrite list_elem_of_filter. }
  split_and!.
  - intros o Ho. unfold cors_headers in Ho. cbv zeta in Ho.
    destruct (allow_any AllowedOrigin) eqn:Ea; destruct (String.eqb_spec (rq_Header rq "Origin") "") as [He|He];
      destruct (bool_decide _) eqn:El; cbn [negb andb orb] in Ho;
      rewrite ?elem_of_app, ?elem_of_cons in Ho; destruct_or?; simplify_eq;
      try (by apply elem_of_nil in Ho); try (by left; split; [done|by apply Hany]);
      apply bool_decide_eq_true, Hor in El; right; naive_solver.
  - intros Hc. unfold cors_headers in Hc |- *. cbv zeta in Hc |- *.
    destruct (allow_any AllowedOrigin) eqn:Ea.
    { exfalso. clear -Hc. destruct (String.eqb (rq_Header rq "Origin") ""), (bool_decide _); cbn in Hc; set_solver. }
    rewrite andb_false_r in Hc |- *. cbn [orb] in Hc |- *.
    destruct (bool_decide _) eqn:El; [|cbn in Hc; set_solver].
    apply bool_decide_eq_true, Hor in El as [_ El]. split_and!; [|cbn; set_solver|done].
    intros Hin%Hany. congruence.
  - intros Hm. unfold cors, before in H. rewrite Hm in H. cbn in H. by injection H as <- <-.
Qed.
End Protected.
