(* ===== verification/RelayMain.v ===== *)
(** * cmd/relay: starting and stopping the relay

    realMain as a log of its effects: what it opens, serves and closes, in
    order.  Whether the databases open, and what ends the service, are
    parameters. *)

From S2P Require Import Prelude GoStd GoTime GoDuration GoFlag GoNet AuthService AuthHTTP Config.
#[local] Open Scope string_scope.

Definition version := "0.0.1".

(** ** internal/server: what newServer puts together *)

(** The parts a relay serves. *)
Record ServerParts := mkParts {
  sp_Runtime : bool;     (** the runtime API and its coordinator *)
  sp_Protected : bool;   (** the runtime API asks for a principal, the public auth API is there *)
  sp_Control : bool;     (** ControlHandler is not nil *)
}.
(** newServer, by whether it is given a store and a broker, and an auth module. *)
Definition newServer (runtime auth : bool) : ServerParts :=
  if runtime then mkParts true auth auth else mkParts false false false.

(** ** Effects *)

Inductive resource := RuntimeDB (url : string) | RedisClient (url : string) | AuthDB (url : string).
Inductive effect :=
| PrintVersion
| ConfigurationError
| Open (r : resource)
| OpenFailed (r : resource)
| ReleaseResource (r : resource)      (** a deferred Close *)
| Listen (addr : string) (parts : ServerParts)
| ListenControl (addr : string)
| StoppedWithError
| CancelRequests
| CloseConnections
| CloseServer
| CloseControlServer
| StopSignals.

(** What ends the service: a server returns, with nil, ErrServerClosed or another
    error; or a signal. *)
Inductive ended := ServerReturned (failed : bool) | Signalled.

(** The effects so far, and the deferred calls, the last one first. *)
Record MState := mkMState { ms_log : list effect; ms_defers : list effect }.
Definition eff (e : effect) : St MState unit := modify (λ s, mkMState (ms_log s ++ [e])%list (ms_defers s)).
Definition defer (e : effect) : St MState unit := modify (λ s, mkMState (ms_log s) (e :: ms_defers s)).

(** newLogger's level *)
Inductive slog_level := LevelDebug | LevelInfo | LevelWarn | LevelError.
Definition newLogger (level : string) : slog_level :=
  let l := Env.log_level level in
  if String.eqb l "debug" then LevelDebug
  else if String.eqb l "warn" then LevelWarn
  else if String.eqb l "error" then LevelError else LevelInfo.

Section Main.
Context (getenv : string → string) (opens : resource → bool) (service_ends : ended).

Definition with_listen (addr : string) (c : Env.Config) : Env.Config :=
  Env.mkConfig addr (Env.MaxMessageBytes c) (Env.WriteQueueSize c) (Env.PingInterval c) (Env.ShutdownTimeout c)
    (Env.LogLevel c) (Env.DatabaseURL c) (Env.RedisURL c) (Env.AllowedOrigin c) (Env.AuthEnabled c)
    (Env.AuthControlAddr c) (Env.AuthAccessTTL c) (Env.AuthRefreshTTL c) (Env.AuthPairingTTL c)
    (Env.AuthCookieName c) (Env.AuthCookieSecure c).

(** Open a resource, its Close deferred; the continuation is what follows when
    it opens. *)
Definition opening (r : resource) (k : St MState Z) : St MState Z :=
  if opens r then let! _ := eff (Open r) in let! _ := defer (ReleaseResource r) in k
  else let! _ := eff (OpenFailed r) in ret 1%Z.

(** From newServer on. *)
Definition serve (c : Env.Config) : St MState Z :=
  let parts := newServer true (Env.AuthEnabled c) in
  let! _ := defer CancelRequests in
  let! _ := defer StopSignals in
  let! _ := eff (Listen (Env.ListenAddr c) parts) in
  let! _ := if sp_Control parts then eff (ListenControl (Env.AuthControlAddr c)) else ret tt in
  match service_ends with
  | ServerReturned true => let! _ := eff StoppedWithError in ret 1%Z
  | ServerReturned false => ret 0%Z
  | Signalled =>
      let! _ := eff CancelRequests in
      let! _ := eff CloseConnections in
      let! _ := eff CloseServer in
      let! _ := if sp_Control parts then eff CloseControlServer else ret tt in
      ret 0%Z
  end.

Definition realMain_body (arguments : list string) : St MState Z :=
  match Env.FromEnv getenv with
  | Err _ => let! _ := eff ConfigurationError in ret 2%Z
  | Ok base =>
      match Parse [("listen", FString (Env.ListenAddr base)); ("version", FBool false)] arguments with
      | None => ret 2%Z
      | Some (flags, _) =>
          if flag_bool "version" flags then let! _ := eff PrintVersion in ret 0%Z
          else
            let base := with_listen (flag_string "listen" flags) base in
            match Env.Validate base with
            | Some _ => let! _ := eff ConfigurationError in ret 2%Z
            | None =>
                opening (RuntimeDB (Env.DatabaseURL base))
                  (opening (RedisClient (Env.RedisURL base))
                     (if Env.AuthEnabled base
                      then opening (AuthDB (Env.DatabaseURL base)) (serve base)
                      else serve base))
            end
      end
  end.

(** realMain: the deferred calls run when it returns. *)
Definition realMain (arguments : list string) : Z * list effect :=
  let '(code, s) := realMain_body arguments (mkMState [] []) in (code, ms_log s ++ ms_defers s)%list.

(** ** Everything opened is closed *)

Definition opened (log : list effect) : list resource := omap (λ e, match e with Open r => Some r | _ => None end) log.
Definition released (log : list effect) : list resource :=
  omap (λ e, match e with ReleaseResource r => Some r | _ => None end) log.

Lemma opened_app l k : opened (l ++ k)%list = (opened l ++ opened k)%list.
Proof. apply omap_app. Qed.
Lemma released_app l k : released (l ++ k)%list = (released l ++ released k)%list.
Proof. apply omap_app. Qed.

(** Nothing is released before the end, and all that is open is deferred. *)
Definition balanced (s : MState) : Prop :=
  released (ms_log s) = [] ∧ released (ms_defers s) = rev (opened (ms_log s)) ∧ opened (ms_defers s) = [].

Lemma eff_balanced e : (∀ r, e ≠ Open r ∧ e ≠ ReleaseResource r) → st_triple balanced (eff e) (λ _, balanced).
Proof.
  intros He [log defers] (H1&H2&H3). unfold balanced, eff, modify. simpl in *.
  rewrite released_app, opened_app, H1. destruct e; simpl; rewrite ?app_nil_r; try done; by destruct (He r).
Qed.
Lemma defer_balanced e : (∀ r, e ≠ Open r ∧ e ≠ ReleaseResource r) → st_triple balanced (defer e) (λ _, balanced).
Proof.
  intros He [log defers] (H1&H2&H3). unfold balanced, defer, modify. simpl in *.
  destruct e; simpl; try done; by destruct (He r).
Qed.
Lemma opening_balanced r k :
  st_triple balanced k (λ _, balanced) → st_triple balanced (opening r k) (λ _, balanced).
Proof.
  intros Hk. unfold opening. destruct (opens r).
  - intros [log defers] (H1&H2&H3). apply Hk. unfold balanced. simpl in *.
    rewrite released_app, opened_app, H1, rev_app_distr. simpl. by rewrite H2.
  - eapply st_triple_bind; [by apply eff_balanced|]. intros ?. by apply st_triple_ret.
Qed.

Ltac balanced_steps :=
  repeat lazymatch goal with
    | |- st_triple _ (match ?x with _ => _ end) _ => destruct x eqn:?
    | |- st_triple _ (bind (eff _) _) _ => eapply st_triple_bind; [by apply eff_balanced|intros ?]
    | |- st_triple _ (bind (defer _) _) _ => eapply st_triple_bind; [by apply defer_balanced|intros ?]
    | |- st_triple _ (bind (match ?x with _ => _ end) _) _ => destruct x eqn:?
    | |- st_triple _ (bind (@ret _ _ _ _) _) _ => eapply (st_triple_bind _ _ _ (λ _, balanced)); [by apply st_triple_ret|intros ?]
    | |- st_triple _ (opening _ _) _ => apply opening_balanced
    | |- st_triple _ (@ret _ _ _ _) _ => by apply st_triple_ret
    end.

Lemma serve_balanced c : st_triple balanced (serve c) (λ _, balanced).
Proof. unfold serve. cbv zeta. balanced_steps. Qed.

Lemma body_balanced arguments : st_triple balanced (realMain_body arguments) (λ _, balanced).
Proof. unfold realMain_body. cbv zeta. balanced_steps; apply serve_balanced. Qed.

(** ** What is served, and how it ends *)

Definition resources (c : Env.Config) : list resource :=
  ([RuntimeDB (Env.DatabaseURL c); RedisClient (Env.RedisURL c)]
   ++ if Env.AuthEnabled c then [AuthDB (Env.DatabaseURL c)] else [])%list.
Definition shutdown (auth : bool) : Z * list effect :=
  match service_ends with
  | ServerReturned true => (1%Z, [StoppedWithError])
  | ServerReturned false => (0%Z, [])
  | Signalled => (0%Z, [CancelRequests; CloseConnections; CloseServer] ++ if auth then [CloseControlServer] else [])%list
  end.
(** The effects of a relay that serves with a configuration. *)
Definition lifetime (c : Env.Config) : list effect :=
  (map Open (resources c)
   ++ Listen (Env.ListenAddr c) (mkParts true (Env.AuthEnabled c) (Env.AuthEnabled c))
      :: (if Env.AuthEnabled c then [ListenControl (Env.AuthControlAddr c)] else [])
   ++ (shutdown (Env.AuthEnabled c)).2
   ++ [StopSignals; CancelRequests] ++ map ReleaseResource (rev (resources c)))%list.
Definition serves (e : effect) : bool := match e with Listen _ _ | ListenControl _ => true | _ => false end.

Lemma opening_all c :
  let '(code, s) := opening (RuntimeDB (Env.DatabaseURL c))
                      (opening (RedisClient (Env.RedisURL c))
                         (if Env.AuthEnabled c then opening (AuthDB (Env.DatabaseURL c)) (serve c) else serve c))
                      (mkMState [] []) in
  let log := (ms_log s ++ ms_defers s)%list in
  (code = 1%Z ∧ existsb serves log = false)
  ∨ (forallb opens (resources c) = true ∧ code = (shutdown (Env.AuthEnabled c)).1 ∧ log = lifetime c).
Proof.
  unfold opening, serve, lifetime, resources, shutdown.
  destruct (opens (RuntimeDB _)) eqn:E1; [|by left]. destruct (opens (RedisClient _)) eqn:E2; [|by left].
  destruct (Env.AuthEnabled c) eqn:Ea.
  - destruct (opens (AuthDB _)) eqn:E3; [|by left].
    destruct service_ends as [[|]|] eqn:Es; right; simpl; by rewrite ?E1, ?E2, ?E3.
  - destruct service_ends as [[|]|] eqn:Es; right; simpl; by rewrite ?E1, ?E2.
Qed.

(** C25. However the relay starts and ends: what it opened is closed, once, in
    the reverse order, on every path; it serves only with a configuration that
    was read from the environment and validated with the address of the command
    line, after every resource it needs was opened, the runtime API behind the
    auth module and the control API listening exactly when auth is enabled, at an
    address that passed the loopback check; a signal ends it with code 0 after
    requests are cancelled, then connections closed, then the servers, before
    the databases; and a configuration error opens nothing. *)
Theorem relay_lifecycle arguments code log :
  realMain arguments = (code, log) →
  released log = rev (opened log)
  ∧ (code = 2%Z → opened log = [] ∧ existsb serves log = false)
  ∧ (existsb serves log = true →
       ∃ base addr, Env.FromEnv getenv = Ok base ∧
       let c := with_listen addr base in
       Env.Validate c = None ∧ (Env.AuthEnabled c = true → Env.control_addr_error (Env.AuthControlAddr c) = None)
       ∧ forallb opens (resources c) = true ∧ code = (shutdown (Env.AuthEnabled c)).1 ∧ log = lifetime c).
Proof.
  intros H. unfold realMain in H.
  pose proof (body_balanced arguments (mkMState [] []) ltac:(by split_and!)) as Hb.
  destruct (realMain_body arguments (mkMState [] [])) as [code' s] eqn:Eb.
  apply pair_equal_spec in H as [-> <-]. simpl in Hb. destruct Hb as (H1&H2&H3).
  rewrite released_app, opened_app, H1, H2, H3, app_nil_r. split; [done|].
  unfold realMain_body in Eb. destruct (Env.FromEnv getenv) as [base|] eqn:Ef; [|by simplify_eq/=].
  destruct (Parse _ arguments) as [[flags rest]|]; [|by simplify_eq/=].
  destruct (flag_bool "version" flags); [by simplify_eq/=|].
  cbv zeta in Eb. set (addr := flag_string "listen" flags) in *.
  destruct (Env.Validate (with_listen addr base)) eqn:Ev; [by simplify_eq/=|].
  pose proof (opening_all (with_listen addr base)) as Ho. rewrite Eb in Ho. cbv zeta in Ho.
  destruct Ho as [[-> Hs]|(Hop&Hc&Hl)].
  - split; [done|]. by rewrite Hs.
  - split.
    + rewrite Hc. unfold shutdown. by destruct service_ends as [[|]|].
    + intros _. exists base, addr. split; [done|]. cbv zeta. split_and!; try done.
      intros Ha. apply Validate_None in Ev as [(_&_&_&_&Hlim) _]. by apply Hlim.
Qed.
End Main.
