(* ===== verification/RunFlow.v ===== *)
(** * A run from HTTP to the Agent

    The creation of a run over the runtime's HTTP API, on every branch and when
    it is repeated, and the way of its command through the outbox and the
    coordinator to the Agent's connection. *)

From S2P Require Import Prelude GoStd GoTime Json JsonText GoHTTP Protocol Envelope Payloads.
From S2P Require Import Sql Tables RuntimeDB RuntimeSql RuntimeHistory RunStore Outbox Bootstrap Listing RuntimeStore.
From S2P Require Import RunSpec OutboxSpec Hub Router Gateway Coordinator PgStore RuntimeHTTP RuntimeFeed.
#[local] Open Scope string_scope.

(** ** POST /v1/runtime/sessions/{session_id}/runs *)

Section Post.
Context {B : Type} `{BI : !BrokerI B, BQ : !BrokerQueryI B, J : !Jsonb, C : !Collation}.
Context (source : option (SourceReadPayload → SourceResult)) (profiles : option (string → ProfileResult)).
Context (sessionID : string) (rq : Request).

(** The request creates a run in the session. *)
Definition posts_run : Prop :=
  rq_Method rq = "POST" ∧ rq_Segments rq = ["v1"; "runtime"; "sessions"; sessionID; "runs"] ∧ sessionID ≠ "".

(** The response that names a run. *)
Definition accepted (id : string) (x : run_row) (sequence : Z) : RRes :=
  writeData StatusAccepted
    (DRunCreated id (ru_session_id x) (ru_status x) sequence (ru_created_at x)).

(** What the request says, when it is well formed. *)
Definition said : option (string * string * string) :=
  if String.eqb (key_of rq) "" then None
  else match decode_body ("", "") dec_run_request rq with
       | Some (prompt, profile) =>
           if String.eqb (TrimSpace prompt) "" then None else Some (key_of rq, TrimSpace prompt, profile)
       | None => None
       end.
Definition bad_request : RRes :=
  writeError StatusBadRequest
    (if String.eqb (key_of rq) "" then "IDEMPOTENCY_KEY_REQUIRED"
     else match decode_body ("", "") dec_run_request rq with
          | Some _ => "PROMPT_REQUIRED"
          | None => "INVALID_JSON"
          end) false.

Definition serve_post (env : HEnv) : HSt B RRes := ServeRuntime source profiles env rq.

Lemma route_post : posts_run → route runtime_routes rq = Routed HCreateRun [("session_id", sessionID)].
Proof.
  intros (Hm&Hs&Hne). destruct rq as [method segments header values query cookie body]. simpl in Hm, Hs. subst.
  destruct sessionID as [|c id]; [done|]. vm_compute. reflexivity.
Qed.

(** The request by what it says and the store's answer. *)
Lemma serve_post_run env w b :
  posts_run →
  serve_post env (mkRState w b) =
  match said with
  | None => (bad_request, mkRState w b)
  | Some (key, prompt, profile) =>
      let '(res, w') := CreateRun (he_now env) (he_r1 env) (he_r2 env) sessionID prompt profile key
                          (run_hash prompt profile) w in
      match res with
      | Err e => (create_run_failed e, mkRState w' b)
      | Ok (item, sequence, _) =>
          (writeData StatusAccepted
             (DRunCreated (r_ID item) (r_SessionID item) (r_Status item) sequence (r_CreatedAt item)),
           mkRState w' (b_NotifySession (r_SessionID item) b).2)
      end
  end.
Proof.
  intros Hp. unfold serve_post, ServeRuntime, serve. rewrite route_post by done. cbn [run_runtime].
  unfold Api.createRun, keyed, said, bad_request. change (key_of (with_values _ rq)) with (key_of rq).
  destruct (String.eqb (key_of rq) ""); [done|].
  unfold decodeJSON, decode_body. cbn [rq_Body with_values].
  destruct (match rq_Body rq with Some _ => _ | None => _ end) as [[prompt profile]|]; [|done].
  cbn [checked]. destruct (String.eqb (TrimSpace prompt) ""); [done|].
  cbn [bind st_monad]. unfold with_store. cbn [rs_store rs_broker rq_PathValue with_values].
  change (path_value _ "session_id") with sessionID.
  destruct (CreateRun _ _ _ _ _ _ _ _ w) as [[[[item sequence] fresh]|e] w']; cbn [checked]; [|done].
  cbn [bind ret st_monad]. unfold with_broker. cbn [rs_store rs_broker].
  by destruct (b_NotifySession (r_SessionID item) b).
Qed.

(** What the request may be answered, and what it leaves behind. *)
Definition post_outcome (env : HEnv) (d : DB) (r : RRes) (d' : DB) : Prop :=
  match said with
  | None => d' = d ∧ r = bad_request
  | Some (key, prompt, profile) =>
      match find_run_by_key sessionID key d, visible_by_id d sessionID with
      | Some (i, x), _ => d' = d ∧
          (r = writeInternal
           ∨ (ru_hash x = Some (run_hash prompt profile) ∧ r = accepted i x 0)
           ∨ (ru_hash x ≠ Some (run_hash prompt profile) ∧ r = writeError StatusConflict "IDEMPOTENCY_CONFLICT" false))
      | None, None => d' = d ∧ (r = writeError StatusNotFound "SESSION_NOT_FOUND" false ∨ r = writeInternal)
      | None, Some session =>
          (d' = d ∧ r = writeInternal) ∨
          ∃ p1 p2,
            created_payloads (he_now env) (he_r1 env) (he_r2 env) sessionID prompt profile session p1 p2
            ∧ d' = run_created (he_now env) (newID "run" (he_r1 env)) (newID "cmd" (he_r2 env)) sessionID prompt
                     profile key (run_hash prompt profile) session p1 p2 d
            ∧ (r = writeInternal
               ∨ r = accepted (newID "run" (he_r1 env))
                       (queued_run (he_now env) sessionID prompt profile key (run_hash prompt profile))
                       (se_last_sequence session + 1))
      end
  end.

Lemma post_alone env w b r s' :
  posts_run → w_env w = [] → serve_post env (mkRState w b) = (r, s') →
  post_outcome env (w_db w) r (w_db (rs_store s')).
Proof.
  intros Hp Hw H. rewrite serve_post_run in H by done. unfold post_outcome.
  destruct said as [[[key prompt] profile]|]; [|by injection H as <- <-].
  destruct (CreateRun _ _ _ _ _ _ _ _ w) as [res w'] eqn:Ec. apply CreateRun_alone in Ec; [|done].
  unfold create_run_outcome in Ec.
  destruct (find_run_by_key sessionID key (w_db w)) as [[i x]|]; [|destruct (visible_by_id _ _) as [session|]].
  - destruct Ec as [Hd [[e ->]|[[Hh ->]|[Hh ->]]]]; injection H as <- <-; (split; [exact Hd|]); auto.
  - destruct Ec as [[Hd [e ->]]|(p1&p2&Hps&_&_&Hd&[[e ->]| ->])]; injection H as <- <-; [by left|right..];
      exists p1, p2; auto.
  - destruct Ec as [Hd [->|[e ->]]]; injection H as <- <-; auto.
Qed.

(** C22. Creating a run over HTTP, whatever round trips fail, with no other
    client in between.  A request without a key, a body or a prompt is refused;
    a key the session already uses gets its run when the request is the same
    one, by its hash, and a conflict otherwise; a session that is absent or
    archived is not found: all without a change.  Otherwise the run, its session
    event and its command are there together, or not at all and the answer is
    500.  And a client that repeats a request that took effect, whatever it was
    answered, is told of the run it created, and nothing changes: it never
    creates two. *)
Theorem post_run_idempotent env w b r s' :
  posts_run → w_env w = [] → serve_post env (mkRState w b) = (r, s') →
  let d' := w_db (rs_store s') in
  post_outcome env (w_db w) r d' ∧
  (d' ≠ w_db w → ∃ key prompt profile, said = Some (key, prompt, profile) ∧
     ∀ env' b', let again := serve_post env' (mkRState (calm d') b') in
       again.1 = accepted (newID "run" (he_r1 env))
                   (queued_run (he_now env) sessionID prompt profile key (run_hash prompt profile)) 0
       ∧ w_db (rs_store again.2) = d').
Proof.
  intros Hp Hw H d'. pose proof (post_alone _ _ _ _ _ Hp Hw H) as Ho. fold d' in Ho. split; [exact Ho|].
  intros Hne. rewrite serve_post_run in H by done.
  destruct said as [[[key prompt] profile]|] eqn:Es; [|by injection H as <- <-].
  exists key, prompt, profile. split; [done|]. intros env' b'. cbv zeta. rewrite serve_post_run by done. rewrite Es.
  destruct (CreateRun _ _ _ _ _ _ _ _ w) as [res w'] eqn:Ec.
  assert (d' = w_db w') as Hd by (unfold d'; destruct res as [[[item n] fresh]|e]; by injection H as <- <-).
  destruct (CreateRun_retry _ _ _ _ _ _ _ _ _ _ _ (he_now env') (he_r1 env') (he_r2 env') Hw Ec) as (w2&Hr&Hw2);
    [congruence|]. rewrite Hd, Hr. split; [done|exact Hw2].
Qed.
End Post.

(** ** The command that starts the run *)

(** What PostgreSQL keeps of an object of strings: its members, in an order of
    its own. *)
Class JsonbLaws `{J : !Jsonb} : Prop := jsonb_object : ∀ ms j,
  NoDup ms.*1 → Forall (λ kv, ∃ s, kv.2 = JStr s) ms → jsonb (JObj ms) = Some j →
  ∃ ms', j = JObj ms' ∧ ms' ≡ₚ ms.

(** A column that keeps every value as it is has it. *)
#[export] Instance plain_jsonb_laws : JsonbLaws (J := plain_jsonb).
Proof. intros ms j _ _ [= <-]. by exists ms. Qed.

Lemma dec_TurnStart_stored `{J : !Jsonb, JL : !JsonbLaws} command run project thread prompt profile j :
  jsonb (runStartCommandPayload command run project thread prompt profile) = Some j →
  dec_TurnStart j zero_TurnStart = (mkTurnStart command run project thread prompt profile, true).
Proof.
  unfold runStartCommandPayload. set (ms := [_; _; _; _; _; _]). intros Hj.
  assert (NoDup ms.*1) as Hn by (by apply (bool_decide_unpack _); vm_compute).
  destruct (jsonb_object ms j Hn) as (ms'&->&Hp); [|done|].
  { repeat constructor; by eexists. }
  assert (NoDup ms'.*1) as Hn' by (by rewrite Hp).
  unfold dec_TurnStart, dec_struct, dec_struct_with. cbn [bind ret checked_monad].
  assert (∀ name, member name ms' = member name ms) as Hm by (intros; by apply member_permutation).
  rewrite !dec_member_own by (done || (apply own_names_NoDup; [done|rewrite Hp; by repeat constructor])).
  rewrite !Hm. reflexivity.
Qed.

(** ** From the outbox to the Agent *)

Section Dispatch.
Context {B : Type} `{BI : !BrokerI B, J : !Jsonb}.
Notation CState := (Router.RState (Coord (World DB) B)).
Context (ag : Z) (capacity : nat).

(** The Agent is connected, its queue is [q], and the relay can make messages. *)
Record agent_queue (q : list Message) (s : CState) : Prop := {
  aq_current : current RoleAgent (hub_registry s.1) = Some ag;
  aq_peer : hub_peers s.1 !! ag = Some (mkPeer RoleAgent q false);
  aq_capacity : hub_capacity s.1 = capacity;
  aq_env : env_ok (hub_env s.1);
}.

(** The message that starts a turn. *)
Definition starts_turn (runID : string) (p : TurnStartPayload) (m : Message) : Prop :=
  m_Type m = TypeTurnStart ∧ m_TraceID m = runID ∧ m_Sender m = run_server
  ∧ m_Payload m = Raw (json_TurnStart p) ∧ well_formed m.

Lemma send_new_queues q type traceID payload (s : CState) :
  agent_queue q s → (length q < capacity)%nat → type ≠ "" →
  ∃ m h', send_new ag type traceID payload s = (true, (h', s.2)) ∧ agent_queue (q ++ [m]) (h', s.2)
    ∧ well_formed m ∧ m_Type m = type ∧ m_Sender m = run_server ∧ m_Payload m = Raw payload
    ∧ (traceID ≠ "" → m_TraceID m = traceID).
Proof.
  intros [Hc Hp Hk He] Hl Ht. unfold send_new, on_hub, new_message, NewMessage. cbn [bind st_monad].
  destruct (build_message type traceID run_server payload (hub_env s.1)) as [m env'] eqn:Eb.
  destruct (build_message_sound type traceID run_server payload _ _ _ He Ht ltac:(done) ltac:(done) Eb)
    as (He'&Hw&Hmt&Hms&Hmp&Hmtr&_).
  rewrite (proj1 Hw). cbn [bind result_monad].
  rewrite (Send_ready RoleAgent ag (mkPeer RoleAgent q false)) by (split_and!; [done..|simpl; lia]).
  exists m. eexists. split; [reflexivity|]. split; [|done].
  split; simpl; [done|by rewrite lookup_insert_eq|done|done].
Qed.

Lemma on_store_hub {A} (m : Z → St (World DB) A) (s : CState) : (on_store m s).2.1 = s.1.
Proof. unfold on_store. by destruct (m _ _). Qed.

Lemma agent_queue_hub q (s s' : CState) : s'.1 = s.1 → agent_queue q s → agent_queue q s'.
Proof. intros E []. by split; rewrite E. Qed.

(** The turn of one command in the loop of dispatch. *)
Definition dispatch_one (c : Command) : CSt (World DB) B unit :=
  let! sent := sendCommand ag c in
  if (sent : bool) then ret tt
  else let! _ := on_store (λ now, i_ReleaseCommand now (c_ID c) "AGENT_SEND_FAILED") in ret tt.

Lemma sendCommand_queues c q (s : CState) :
  agent_queue q s → (length q < capacity)%nat →
  ∃ ext, (length ext ≤ 1)%nat ∧ agent_queue (q ++ ext) (sendCommand ag c s).2
    ∧ ∀ p, c_Type c = "run.start" → dec_TurnStart (c_Payload c) zero_TurnStart = (p, true) → c_ResourceID c ≠ "" →
        ∃ m, m ∈ ext ∧ starts_turn (c_ResourceID c) p m.
Proof.
  intros Hq Hl. unfold sendCommand.
  assert (∀ s' : CState, s'.1 = s.1 → agent_queue (q ++ []) s') as Hsame
    by (intros s' E; rewrite app_nil_r; by eapply agent_queue_hub).
  destruct (String.eqb_spec (c_Type c) "run.start") as [Ht|Ht].
  { destruct (dec_TurnStart (c_Payload c) zero_TurnStart) as [p [|]].
    - destruct (send_new_queues q TypeTurnStart (c_ResourceID c) (json_TurnStart p) s Hq Hl ltac:(done))
        as (m&h'&->&Hq'&Hw&Hmt&Hms&Hmp&Hmtr). exists [m]. split; [simpl; lia|]. split; [done|].
      intros p' _ [= ->] Hr. exists m. split; [by left|]. split_and!; auto.
    - exists []. split; [simpl; lia|]. split; [by apply Hsame|]. by intros p' _ [=]. }
  destruct (String.eqb_spec (c_Type c) "run.cancel") as [Ht2|Ht2].
  { destruct (dec_TurnRef (c_Payload c) zero_TurnRef) as [p [|]].
    - destruct (send_new_queues q TypeTurnInterrupt (c_ResourceID c) (json_TurnInterrupt p) s Hq Hl ltac:(done))
        as (m&h'&E&Hq'&_). cbn [bind st_monad]. rewrite E. cbn [negb]. exists [m]. split; [simpl; lia|].
      split; [|by intros]. eapply agent_queue_hub; [|exact Hq'].
      pose proof (on_store_hub (λ now, i_MarkCommandDelivered now (c_ID c)) (h', s.2)) as Hs.
      by destruct (on_store _ (h', s.2)).
    - exists []. split; [simpl; lia|]. split; [by apply Hsame|by intros]. }
  destruct (String.eqb (c_Type c) "bootstrap.start").
  2:{ exists []. split; [simpl; lia|]. split; [by apply Hsame|by intros]. }
  cbn [bind st_monad]. pose proof (on_store_hub (λ _, i_GetSyncJob (c_ResourceID c)) s) as Hs1.
  destruct (on_store _ s) as [[job|e] s1]; cbn [snd] in Hs1.
  2:{ exists []. split; [simpl; lia|]. split; [by apply Hsame|by intros]. }
  destruct (_ || _).
  { exists []. split; [simpl; lia|]. split; [|by intros]. apply Hsame.
    pose proof (on_store_hub (λ now, i_MarkCommandDelivered now (c_ID c)) s1) as Hs2.
    destruct (on_store _ s1). cbn [ret st_monad fst snd] in *. congruence. }
  destruct (dec_BootstrapStart (c_Payload c) zero_BootstrapStart) as [p [|]].
  - destruct (send_new_queues q TypeBootstrapStart (c_ResourceID c) (json_BootstrapStart p) s1) as (m&h'&->&Hq'&_);
      [by eapply agent_queue_hub|done|done|].
    exists [m]. split; [simpl; lia|]. split; [done|by intros].
  - exists []. split; [simpl; lia|]. split; [by apply Hsame|by intros].
Qed.

Lemma dispatch_one_queues c q (s : CState) :
  agent_queue q s → (length q < capacity)%nat →
  ∃ ext, (length ext ≤ 1)%nat ∧ agent_queue (q ++ ext) (dispatch_one c s).2
    ∧ ∀ p, c_Type c = "run.start" → dec_TurnStart (c_Payload c) zero_TurnStart = (p, true) → c_ResourceID c ≠ "" →
        ∃ m, m ∈ ext ∧ starts_turn (c_ResourceID c) p m.
Proof.
  intros Hq Hl. destruct (sendCommand_queues c q s Hq Hl) as (ext&He&Hq'&Hm). exists ext.
  split; [done|]. split; [|done]. unfold dispatch_one. cbn [bind st_monad].
  destruct (sendCommand ag c s) as [[|] s1]; [done|].
  eapply agent_queue_hub; [|exact Hq'].
  pose proof (on_store_hub (λ now, i_ReleaseCommand now (c_ID c) "AGENT_SEND_FAILED") s1) as Hs.
  by destruct (on_store _ s1).
Qed.

(** The messages of a whole turn of the loop. *)
Lemma dispatch_all_queues cs q (s : CState) :
  agent_queue q s → (length q + length cs ≤ capacity)%nat →
  ∃ ext, (length ext ≤ length cs)%nat ∧ agent_queue (q ++ ext) (st_each cs dispatch_one s).2
    ∧ ∀ c p, c ∈ cs → c_Type c = "run.start" → dec_TurnStart (c_Payload c) zero_TurnStart = (p, true) →
        c_ResourceID c ≠ "" → ∃ m, m ∈ ext ∧ starts_turn (c_ResourceID c) p m.
Proof.
  revert q s. induction cs as [|c cs IH]; intros q s Hq Hl.
  { exists []. rewrite app_nil_r. split; [done|]. split; [done|]. by intros ?? ?%elem_of_nil. }
  simpl in Hl. destruct (dispatch_one_queues c q s Hq ltac:(lia)) as (e1&He1&Hq1&Hm1).
  cbn [st_each bind st_monad]. destruct (dispatch_one c s) as [[] s1]. cbn [snd] in Hq1.
  destruct (IH (q ++ e1)%list s1 Hq1) as (e2&He2&Hq2&Hm2); [rewrite length_app; lia|].
  exists (e1 ++ e2)%list. rewrite app_assoc. split; [rewrite length_app; simpl; lia|]. split; [done|].
  intros c' p Hc Ht Hd Hr. apply elem_of_cons in Hc as [->|Hc].
  - destruct (Hm1 p Ht Hd Hr) as (m&Hm&?). exists m. split; [|done]. apply elem_of_app. by left.
  - destruct (Hm2 c' p Hc Ht Hd Hr) as (m&Hm&?). exists m. split; [|done]. apply elem_of_app. by right.
Qed.
End Dispatch.

Section Reach.
Context {B : Type} `{BI : !BrokerI B, BQ : !BrokerQueryI B, J : !Jsonb, JL : !JsonbLaws, C : !Collation}.
Context (source : option (SourceReadPayload → SourceResult)) (profiles : option (string → ProfileResult)).
Notation CState := (Router.RState (Coord (World DB) B)).

(** A dispatch that gets its commands sends each of them in turn. *)
Lemma dispatch_claimed ag capacity q (s : CState) cs w' :
  agent_queue ag capacity q s →
  i_ClaimCommands (co_now s.2) (co_workerID s.2) (co_locked s.2) 8 (co_store s.2) = (Ok cs, w') →
  (dispatch s).2 = (st_each cs (dispatch_one ag) (s.1, set_store w' s.2)).2.
Proof.
  intros Hq Hc. unfold dispatch, on_hub, gets, get. cbn [bind st_monad]. rewrite (aq_current _ _ _ _ Hq).
  cbn [bind st_monad]. unfold on_store at 1. cbn [fst snd]. rewrite Hc. done.
Qed.

(** A command that can be claimed is claimed, when no more than eight can be. *)
Lemma claimed_command now worker locked w i c cs w' :
  w_env w = [] → ClaimCommands now worker locked 8 w = (Ok cs, w') →
  outbox (w_db w) !! i = Some c → claimable now c = true → i ∉ locked →
  (length (claim_candidates now locked (w_db w)) ≤ 8)%nat →
  scanCommand (i, c) ∈ cs ∧ (length cs ≤ 8)%nat.
Proof.
  intros Hw Hc Hi Hcl Hlock Hlen.
  apply ClaimCommands_alone in Hc as [[_ [e ?]]|[_ [Hres|[e ?]]]]; [done| |done|done].
  change (if (8 <? 1)%Z then 16%Z else 8%Z) with 8%Z in Hres. injection Hres as ->.
  unfold select_claimable. fold (claim_candidates now locked (w_db w)). rewrite take_ge by (simpl; lia).
  split; [|by rewrite length_map]. apply list_elem_of_fmap. exists (i, c). split; [done|]. by apply candidates_elem.
Qed.

(** C20. A run that was created over HTTP reaches the Agent: when the request is
    accepted under a new key, the next dispatch whose claim is answered, with the
    Agent connected, room in its queue and at most eight commands waiting, queues
    for the Agent, behind what it holds, the message that starts the run's turn:
    from the run server, in the run's trace, with the command's and the run's
    identifiers, the session's project and thread and the prompt and profile of
    the request.  And the frame the Agent is sent decodes to that message. *)
Theorem run_reaches_agent sessionID rq env key prompt profile w b r s1 (st : CState) ag capacity q :
  posts_run sessionID rq → said rq = Some (key, prompt, profile) → w_env w = [] →
  serve_post source profiles rq env (mkRState w b) = (r, s1) → rs_Status r = StatusAccepted →
  find_run_by_key sessionID key (w_db w) = None →
  w_env (co_store st.2) = [] → w_db (co_store st.2) = w_db (rs_store s1) →
  (he_now env ≤ co_now st.2)%Z → newID "cmd" (he_r2 env) ∉ co_locked st.2 →
  (length (claim_candidates (co_now st.2) (co_locked st.2) (w_db (co_store st.2))) ≤ 8)%nat →
  is_ok (i_ClaimCommands (co_now st.2) (co_workerID st.2) (co_locked st.2) 8 (co_store st.2)).1 = true →
  agent_queue ag capacity q st → (length q + 8 ≤ capacity)%nat →
  ∃ session sent m, sessions (w_db w) !! sessionID = Some session
    ∧ agent_queue ag capacity (q ++ sent) (dispatch st).2 ∧ m ∈ sent
    ∧ starts_turn (newID "run" (he_r1 env))
        (mkTurnStart (newID "cmd" (he_r2 env)) (newID "run" (he_r1 env)) (se_project_id session)
           (coalesce (se_thread_id session)) prompt profile) m
    ∧ ∀ zone j, (zone mod 60 = 0)%Z → json_Message zone m = Some j → Decode (Some j) = Ok m.
Proof.
  intros Hp Hs Hw H Hok Hkey Hw' Hdb Hnow Hlock Hlen Hclaim Hq Hroom.
  apply (post_alone source profiles sessionID rq) in H; [|done..]. unfold post_outcome in H. rewrite Hs, Hkey in H.
  unfold visible_by_id in H. destruct (sessions (w_db w) !! sessionID) as [session|] eqn:Esess.
  2:{ by destruct H as [_ [-> | ->]]. }
  destruct (visible_session _ session).
  2:{ by destruct H as [_ [-> | ->]]. }
  destruct H as [[_ ->]|(p1&p2&[_ Hp2]&Hd&[-> | ->])]; [done|done|].
  set (runID := newID "run" (he_r1 env)) in *. set (commandID := newID "cmd" (he_r2 env)) in *.
  destruct (i_ClaimCommands _ _ _ _ _) as [[cs|e] w2] eqn:Ec; [|done].
  rewrite Hd in Hdb.
  destruct (claimed_command _ _ _ _ commandID (new_command (he_now env) "run.start" runID p2) _ _ Hw' Ec) as [Hin Hn];
    [rewrite Hdb; simpl; by rewrite lookup_insert_eq|unfold claimable; simpl; lia|done|done|].
  rewrite (dispatch_claimed ag capacity q st cs w2) by done.
  destruct (dispatch_all_queues ag capacity cs q (st.1, set_store w2 st.2)) as (sent&_&Hq'&Hm);
    [by apply (agent_queue_hub ag capacity q st)|lia|].
  destruct (Hm _ _ Hin eq_refl (dec_TurnStart_stored _ _ _ _ _ _ _ Hp2)) as (m&Hmin&Hst); [done|].
  exists session, sent, m. split_and!; [done..|].
  intros zone j Hz Hj. eapply Decode_json_Message; [done|apply Hst|done].
Qed.
End Reach.
