(* ===== verification/EventFlow.v ===== *)
(** * An event from the Agent to the clients

    What becomes of a run event the Agent sends: the row the store keeps of it,
    and that the event streams of a client over HTTP show an event the Agent was
    told is durable. *)

From S2P Require Import Prelude GoStd GoTime GoTimeSpec Json GoHTTP Protocol Payloads.
From S2P Require Import Sql Tables RuntimeDB RuntimeSql RuntimeHistory RunStore Outbox Bootstrap Listing.
From S2P Require Import RunSpec EventSpec Hub Router Gateway Coordinator CoordSpec PgStore.
From S2P Require Import RuntimeHTTP RuntimeFeed FeedSpec SessionFeed RunFeed.
#[local] Open Scope string_scope.
#[local] Open Scope Z_scope.

(** ** What the store keeps *)

Section Kept.
Context {B : Type} `{BI : !BrokerI B, J : !Jsonb}.
Notation CState := (Router.RState (Coord (World DB) B)).
Context (id : Z) (m : Message) (st : CState).
Notation runID := (m_TraceID m).
Notation n := (m_AgentSequence m).

Definition log_of (s : CState) : gmap string (gmap Z run_event_row) := run_events (w_db (co_store s.2)).

(** The row of the event. *)
Definition event_row (now : Z) (p : json) : run_event_row :=
  mkRunEventRow (runtimeEventType (m_Type m)) p (TruncateMicro (m_OccurredAt m)) now.

(** The event was appended under a number that was free. *)
Definition appended (s : CState) : Prop :=
  ∃ p0 p, m_Payload m = Raw p0 ∧ jsonb p0 = Some p ∧ rows (log_of st) runID !! n = None
    ∧ log_of s = <[runID := <[n := event_row (co_now st.2) p]> (rows (log_of st) runID)]> (log_of st).

(** No other client, the same clock and, so far, the same log. *)
Definition alone (s : CState) : Prop := w_env (co_store s.2) = [] ∧ co_now s.2 = co_now st.2.
Definition untouched (s : CState) : Prop := alone s ∧ log_of s = log_of st.
Definition settled_log (s : CState) : Prop := alone s ∧ (log_of s = log_of st ∨ appended s).

Lemma untouched_settled s : untouched s → settled_log s.
Proof. intros [? ?]. split; [done|by left]. Qed.

Lemma sendAck_log (P : CState → Prop) type (k : Z) :
  (∀ h h' c, P (h, c) → P (h', c)) → st_triple P (sendAck id type runID k) (λ _, P).
Proof.
  intros HP. unfold sendAck. eapply (st_triple_bind _ _ _ (λ _, P)); [|intros b; by apply st_triple_ret].
  intros [h c] Hs. assert ((send_new id type runID (json_RuntimeAck runID k) (h, c)).2.2 = c) as E
    by (unfold send_new; apply on_hub_snd).
  destruct (send_new _ _ _ _ (h, c)) as [a [h' c']]. cbn [fst snd] in *. subst c'. by eapply HP.
Qed.

Lemma settled_hub h h' c : settled_log (h, c) → settled_log (h', c).
Proof. done. Qed.

(** MarkCommandDelivered leaves the log alone. *)
Lemma delivered_log now command w :
  w_env w = [] → w_env (MarkCommandDelivered now command w).2 = []
  ∧ run_events (w_db (MarkCommandDelivered now command w).2) = run_events (w_db w).
Proof.
  intros Hw. unfold MarkCommandDelivered. rewrite bind_op.
  destruct (pool_stmt _ w) as [r w'] eqn:E. apply pool_stmt_alone in E as [He Hr]; [|done].
  assert (∀ x d', update_command command (deliver_row now) (w_db w) = Ok (x, d') → run_events d' = run_events (w_db w)) as Hu.
  { intros x d' H. unfold update_command in H. destruct (outbox (w_db w) !! command) as [c|]; [|by simplify_eq].
    destruct (put_command _ _ _) as [[[] d1]|] eqn:Ep; simpl in H; simplify_eq. by apply put_command_ok in Ep as ->. }
  destruct r as [b|e]; cbn; (split; [done|]).
  - by eapply Hu.
  - destruct Hr as [_ [->|[x Hx]]]; [done|by eapply Hu].
Qed.

Lemma append_alone_env now clk run k type payload occurred w res w' :
  w_env w = [] → AppendAgentEvent now clk run k type payload occurred w = (res, w') → w_env w' = [].
Proof.
  intros Hw E. unfold AppendAgentEvent in E. rewrite bind_op in E.
  destruct (run_tx _ w) as [rt w1] eqn:Et.
  apply run_tx_alone in Et as (Hw1&_); [|done|apply append_event_tx_robust].
  destruct rt as [[]|e]; [by apply GetRun_alone in E as (?&_)|by simplify_eq].
Qed.

Lemma append_log now_ : printable_time (m_OccurredAt m) →
  st_triple untouched
    (on_store (λ now, i_AppendAgentEvent now now_ runID n (runtimeEventType (m_Type m)) (m_Payload m)
                        (FormatRFC3339Nano (m_OccurredAt m))))
    (λ _, settled_log).
Proof.
  intros Ht. apply on_store_triple. intros h c [[Hw Hn] Hl]. cbn [fst snd] in Hw, Hn. cbv zeta.
  destruct (i_AppendAgentEvent _ _ _ _ _ _ _ (co_store c)) as [res w'] eqn:E. cbn [fst snd].
  pose proof (append_alone_env _ _ _ _ _ _ _ _ _ _ Hw E) as Hw'.
  split; [by split|]. unfold appended, log_of in *.
  cbn [i_AppendAgentEvent pg_store fst snd set_store co_store] in *. rewrite Hn in E. rewrite <- Hl.
  apply AppendAgentEvent_alone in E as [[-> _]|(p0&p&r&Hp0&Hp&_&_&Hnew&Happ&_)]; [by left| |done].
  right. exists p0, p. split_and!; [done..|].
  apply event_applied_run in Happ as [_ ->]. unfold event_logged, event_row, occurred_at.
  by rewrite ParseRFC3339_format.
Qed.

Lemma on_run_event_log : printable_time (m_OccurredAt m) →
  st_triple untouched (on_run_event id m) (λ _, settled_log).
Proof.
  intros Ht. unfold on_run_event.
  assert (∀ b : bool, st_triple untouched (ret b) (λ _, settled_log)) as Hret
    by (intros b; apply st_triple_ret, untouched_settled).
  destruct (n <? 1)%Z; [apply Hret|].
  eapply (st_triple_bind _ _ _ (λ _, untouched)).
  { unfold ownsRuntimeRun. eapply (st_triple_bind _ _ _ (λ _, untouched)); [by intros s Hs|]. intros s.
    case_bool_decide; [by apply st_triple_ret|]. eapply (st_triple_bind _ _ _ (λ _, untouched)).
    - apply on_store_triple. intros h c [[Hw Hn] Hl]. cbv zeta.
      destruct (i_GetRun runID false (co_store c)) as [res w'] eqn:E.
      apply GetRun_alone in E as (He&Hd&_); [|done]. unfold untouched, alone, log_of in *. cbn in *. by rewrite Hd.
    - intros [r|[]]; try (by apply st_triple_ret).
      eapply (st_triple_bind _ _ _ (λ _, untouched)); [|intros; by apply st_triple_ret]. by intros [h c] Hs. }
  intros [|]; [|apply Hret]. cbn [negb].
  eapply (st_triple_bind _ _ _ (λ _, untouched)); [by apply on_broker_triple|]. intros [|]; [|apply Hret].
  cbn [negb]. eapply (st_triple_bind _ _ _ (λ _, untouched)); [by apply sendAck_log|]. intros _.
  eapply (st_triple_bind _ _ _ (λ _, untouched)); [by intros s Hs|]. intros now_.
  eapply st_triple_bind; [by apply append_log|].
  intros [run|e]; [|by apply st_triple_ret].
  eapply (st_triple_bind _ _ _ (λ _, settled_log)); [by apply on_broker_triple|]. intros _.
  eapply (st_triple_bind _ _ _ (λ _, settled_log)); [by apply on_broker_triple|]. intros _.
  eapply (st_triple_bind _ _ _ (λ _, settled_log)); [by apply sendAck_log|]. intros _.
  eapply (st_triple_bind _ _ _ (λ _, settled_log)); [|intros; by apply st_triple_ret].
  destruct (String.eqb (m_Type m) TypeRunAccepted); [|by apply st_triple_ret].
  cbv zeta. destruct (negb _); [|by apply st_triple_ret].
  eapply (st_triple_bind _ _ _ (λ _, settled_log)); [|intros; by apply st_triple_ret].
  apply on_store_triple. intros h c [[Hw Hn] Hl]. cbv zeta.
  destruct (delivered_log (co_now c) (ra_CommandID (PayloadAs zero_RunAccepted dec_RunAccepted m).1) (co_store c) Hw)
    as [Hw' Hl']. split; [by split|]. unfold appended, log_of in *. cbn in *. by rewrite Hl'.
Qed.

Lemma durable_type type :
  durableRuntimeMessage type = true →
  (String.eqb type TypeAgentHello || String.eqb type TypeAgentStatus || String.eqb type TypeAgentCapabilities) = false
  ∧ String.eqb type TypeProjectSnapshot = false ∧ String.eqb type TypeBootstrapBatch = false.
Proof.
  unfold durableRuntimeMessage. cbn [existsb]. rewrite !orb_true_iff, !String.eqb_eq.
  intros [->|[->|[->|[->|[->|[->|[->|[->|[->|[->|?]]]]]]]]]]; done.
Qed.

Lemma agent_message_log : durableRuntimeMessage (m_Type m) = true → printable_time (m_OccurredAt m) →
  st_triple untouched (agent_message id m) (λ _, settled_log).
Proof.
  intros Hd Ht. unfold agent_message.
  assert (∀ b : bool, st_triple untouched (ret b) (λ _, settled_log)) as Hret
    by (intros b; apply st_triple_ret, untouched_settled).
  eapply (st_triple_bind _ _ _ (λ _, untouched)).
  { intros x Hx. unfold on_source. by destruct (SourceHandle m (co_source x.2)). }
  intros [|]; [apply Hret|]. eapply (st_triple_bind _ _ _ (λ _, untouched)).
  { intros x Hx. unfold on_profiles. by destruct (ProfilesHandle m (co_profiles x.2)). }
  intros [|]; [apply Hret|]. destruct (durable_type _ Hd) as (->&->&->). rewrite Hd. by apply on_run_event_log.
Qed.
End Kept.

(** ** What the clients see *)

Section Seen.
Context {B : Type} `{BI : !BrokerI B, BQ : !BrokerQueryI B, J : !Jsonb, C : !Collation}.
Context (source : option (SourceReadPayload → SourceResult)) (profiles : option (string → ProfileResult)).

(** A client that follows the run's events over HTTP. *)
Definition follows (runID : string) (rq : Request) : Prop :=
  rq_Method rq = "GET" ∧ rq_Segments rq = ["v1"; "runtime"; "runs"; runID; "events"] ∧ runID ≠ "".

Lemma route_follows runID rq : follows runID rq → route runtime_routes rq = Routed HRunEvents [("run_id", runID)].
Proof.
  intros (Hm&Hs&Hne). destruct rq as [method segments header values query cookie body]. simpl in Hm, Hs. subst.
  destruct runID as [|c run]; [done|]. vm_compute. reflexivity.
Qed.

(** The frames of the stream hold the event; the stream is only empty when the
    read of the run's events from [after] failed. *)
Definition shows (e : RunEvent) (runID : string) (after : Z) (s : RuntimeHTTP.RState B) (res : RRes) : Prop :=
  ∃ frames aborted, rs_Body res = Plain (DStream frames aborted)
    ∧ ((∃ x, run_sse runID e = Some x ∧ Event x ∈ frames)
       ∨ frames = [] ∧ ∀ l, (read_run_events runID after s).1 ≠ Events l).

Lemma read_keeps runID after s b s' :
  rely keeps_events (rs_store s) → read_run_events runID after s = (b, s') →
  keeps_events (w_db (rs_store s)) (w_db (rs_store s')).
Proof.
  intros Hr H. unfold read_run_events in H. cbn [bind st_monad] in H. unfold with_store in H.
  assert (op_guar keeps_events (ListRunEvents runID after)) as Hg by (unfold ListRunEvents; guar; apply query_keeps).
  destruct (Hg _ Hr) as [Hk _]. destruct (ListRunEvents _ _ _) as [[l|e] w]; cbn [fst snd] in *.
  - unfold with_broker in H. cbn [rs_broker rs_store] in H. destruct (q_ReadRunEvents _ _ _) as [[live|] b'].
    + cbv zeta in H. destruct (mapM _ _); by apply pair_equal_spec in H as [_ <-].
    + by apply pair_equal_spec in H as [_ <-].
  - by apply pair_equal_spec in H as [_ <-].
Qed.

Lemma rely_alone (R : relation DB) (w : World DB) : w_env w = [] → rely R w.
Proof. unfold rely. intros ->. constructor. Qed.

(** A read gives an event that is stored, with all between the cursor and it. *)
Lemma read_has runID after s l s' n row :
  reads_after (B := B) → int64_min ≤ after → after < n ≤ int64_max → rely keeps_events (rs_store s) →
  rows (run_events (w_db (rs_store s))) runID !! n = Some row →
  (∀ k, after < k < n → is_Some (rows (run_events (w_db (rs_store s))) runID !! k)) →
  read_run_events runID after s = (Events l, s') →
  ∃ x, run_sse runID (scanRunEvent (n, row)) = Some x ∧ x ∈ l.
Proof.
  intros Hlaw Ha Hn Hr Hrow Hall H. destruct (read_keeps _ _ _ _ _ Hr H) as [Hk _]. specialize (Hk runID).
  destruct (read_run_delivery runID after s l s' Hlaw ltac:(lia) H) as (live&evs&b&_&[Hids Hsrc Hmax _]&Hf).
  assert (n ≤ after + Z.of_nat (length evs)) as Hle.
  { cbv zeta in Hmax. destruct (Z.le_gt_cases n (after + Z.of_nat (length evs))) as [|Hgt]; [done|exfalso].
    destruct Hmax as [?|[Hnot _]]; [lia|]. unfold not_stored in Hnot.
    set (k := after + Z.of_nat (length evs) + 1) in *.
    destruct (Hall k) as [row' Hrow']; [|eapply lookup_weaken in Hrow'; [|exact Hk]; congruence].
    destruct (decide (k = n)) as [Hkn|]; [|lia].
    eapply lookup_weaken in Hrow; [|exact Hk]. congruence. }
  assert (n ∈ re_Sequence <$> evs) as Hin by (rewrite Hids, elem_of_seqZ; lia).
  apply list_elem_of_fmap in Hin as (e&He&Hin). rewrite Forall_forall in Hsrc.
  eapply lookup_weaken in Hrow; [|exact Hk].
  destruct (Hsrc e Hin) as [(row'&Hrow'&Heq)|[Hnot _]]; [|unfold not_stored in Hnot; congruence].
  rewrite <- He, Hrow in Hrow'. injection Hrow' as <-. rewrite <- He in Heq. rewrite <- Heq.
  apply list_elem_of_lookup in Hin as [i Hi]. destruct (Forall2_lookup_l _ _ _ _ _ Hf Hi) as (x&Hx&Hs).
  exists x. split; [done|]. by eapply list_elem_of_lookup_2.
Qed.

Lemma stream_shows runID env evs rq s res s' n row :
  reads_after (B := B) → follows runID rq → he_stream env = Tick :: evs → lastEventID rq < n ≤ int64_max →
  rely keeps_events (rs_store s) → rows (run_events (w_db (rs_store s))) runID !! n = Some row →
  (∀ k, lastEventID rq < k < n → is_Some (rows (run_events (w_db (rs_store s))) runID !! k)) →
  ServeRuntime source profiles env rq s = (res, s') →
  shows (scanRunEvent (n, row)) runID (lastEventID rq) s res.
Proof.
  intros Hlaw Hf He Hn Hr Hrow Hall H. unfold ServeRuntime, serve in H. rewrite (route_follows runID) in H by done.
  cbn [run_runtime] in H. rewrite He in H. unfold runEvents, streamed in H.
  change (rq_PathValue _ "run_id") with runID in H. change (lastEventID (with_values _ rq)) with (lastEventID rq) in H.
  cbn [bind st_monad ret stream] in H.
  destruct (read_run_events runID (lastEventID rq) s) as [[l| |] s1] eqn:Er.
  - destruct (stream _ _ evs s1) as [[frames aborted] s2]. apply pair_equal_spec in H as [<- _].
    eexists _, _. split; [reflexivity|]. left. cbn [fst snd].
    destruct (read_has runID (lastEventID rq) s l s1 n row) as (x&Hx&Hin);
      [done|apply ParseInt_value_bounds|done..|].
    exists x. split; [done|]. apply elem_of_app. left. by apply list_elem_of_fmap_2.
  - apply pair_equal_spec in H as [<- _]. eexists _, _. split; [reflexivity|]. right. split; [done|].
    intros l. by rewrite Er.
  - apply pair_equal_spec in H as [<- _]. eexists _, _. split; [reflexivity|]. right. split; [done|].
    intros l. by rewrite Er.
Qed.

(** The Agent was sent a durable acknowledgement. *)
Definition acked (id : Z) (h h' : HubState) : Prop :=
  ∃ p p' ms a, hub_peers h !! id = Some p ∧ hub_peers h' !! id = Some p'
    ∧ peer_queue p' = (peer_queue p ++ ms)%list ∧ a ∈ ms ∧ m_Type a = TypeRuntimeDurableAck.

(** C21. An event the Agent is told is durable reaches the clients that follow
    its run.  After the coordinator itself has handled an event of the Agent and
    queued a durable acknowledgement for it (rather than passed it on to the App
    as the event of a run that is not the relay's), the run's log has a row under the event's
    number: the one it had, when the Agent repeats itself, and otherwise the
    event's type, payload and time.  And whatever other clients of the database
    do afterwards, as long as they do not delete events, and whatever the broker
    holds, a client that follows the run over HTTP from a cursor up to which no
    number is missing is sent that row in the first frames of its stream; if
    instead the stream's first read fails, it ends without a frame. *)
Theorem event_reaches_client id m (st : Router.RState (Coord (World DB) B)) handled st' :
  reads_after (B := B) → durableRuntimeMessage (m_Type m) = true → printable_time (m_OccurredAt m) →
  m_AgentSequence m ≤ int64_max → w_env (co_store st.2) = [] →
  agent_message id m st = (handled, st') → acked id st.1 st'.1 →
  let runID := m_TraceID m in let n := m_AgentSequence m in
  ∃ row, rows (log_of st') runID !! n = Some row
    ∧ (rows (log_of st) runID !! n = Some row
       ∨ rows (log_of st) runID !! n = None
         ∧ ∃ p0 p, m_Payload m = Raw p0 ∧ jsonb p0 = Some p ∧ row = event_row m (co_now st.2) p)
    ∧ ∀ env evs rq s res s', rely keeps_events (rs_store s) →
        keeps_events (w_db (co_store st'.2)) (w_db (rs_store s)) →
        follows runID rq → he_stream env = Tick :: evs → lastEventID rq < n →
        (∀ k, lastEventID rq < k < n → is_Some (rows (log_of st') runID !! k)) →
        ServeRuntime source profiles env rq s = (res, s') → shows (scanRunEvent (n, row)) runID (lastEventID rq) s res.
Proof.
  intros Hlaw Hd Ht Hmax Hw H Hack runID n.
  pose proof (agent_message_acks id m st (rely_alone _ _ Hw)) as Hs. cbv zeta in Hs. rewrite H in Hs. cbn [snd] in Hs.
  destruct Hack as (p&p'&ms&a&Hp&Hp'&Hq&Hin&Hta). destruct (hs_queues _ _ _ Hs id p' Hp') as (p0&ms'&Hp0&Hq'&Hall).
  rewrite Hp in Hp0. injection Hp0 as <-. rewrite Hq in Hq'. apply app_inv_head in Hq' as <-.
  rewrite Forall_forall in Hall. destruct (Hall a Hin) as (_&_&Hdur&_). destruct (Hdur Hta) as (_&_&[row Hrow]).
  exists row. split; [exact Hrow|]. split.
  - pose proof (agent_message_log id m st Hd Ht st (conj (conj Hw eq_refl) eq_refl)) as [_ Hl].
    rewrite H in Hl. cbn [fst snd] in Hl. destruct Hl as [Hl|(q0&q&Hq0&Hjq&Hnew&Hl)].
    + left. unfold log_of in *. by rewrite <- Hl.
    + right. split; [done|]. exists q0, q. split_and!; [done..|].
      change (rows (log_of st') runID !! n = Some row) in Hrow. rewrite Hl in Hrow. unfold rows in Hrow at 1.
      rewrite lookup_insert_eq in Hrow. cbn in Hrow. rewrite lookup_insert_eq in Hrow. by injection Hrow as <-.
  - intros env evs rq s res s' Hrs [Hk _] Hf He Hlt Hbetween Hserve. specialize (Hk runID).
    eapply (stream_shows runID env evs rq s res s'); try done.
    + by eapply lookup_weaken.
    + intros k Hk'. destruct (Hbetween k Hk') as [r Hr]. exists r. by eapply lookup_weaken.
Qed.
End Seen.
