(* ===== verification/PairQR.v ===== *)
(** * cmd/pairqr: drawing a pairing link

    The four terminal renderings of the QR code's modules and its PNG.  The
    encoder that turns a link into modules is a library: a parameter. *)

From S2P Require Import Prelude GoStd GoNet.
From Stdlib Require Import Ascii.
#[local] Open Scope string_scope.
#[local] Open Scope list_scope.

(** The modules of a code, by row: true is dark. *)
Notation bitmap := (list (list bool)) (only parsing).

(** ** qrBitmap *)

(** gozxing's BitMatrix *)
Record BitMatrix := mkMatrix { GetWidth : nat; GetHeight : nat; GetBit : nat → nat → bool }.

Section QrBitmap.
(** qrcode.NewQRCodeWriter().Encode with the error correction and margin of the
    tool; [None]: an error. *)
Context (encode : string → option BitMatrix).

Definition qrBitmap (content : string) : option bitmap :=
  (λ matrix, map (λ row, map (λ column, GetBit matrix column row) (seq 0 (GetWidth matrix)))
               (seq 0 (GetHeight matrix))) <$> encode content.
End QrBitmap.

(** ** Writing *)

Inductive written := WOk | WErr | WPanic.

(** An io.Writer: what it was given, and the writes to come; [Some n] fails after
    n bytes. *)
Record Writer := mkWriter { wr_out : bytes; wr_faults : list (option nat) }.

(** io.WriteString *)
Definition write (s : string) : St Writer written := λ w,
  match wr_faults w with
  | Some n :: f => (WErr, mkWriter (wr_out w ++ take n (str_bytes s)) f)
  | f => (WOk, mkWriter (wr_out w ++ str_bytes s) (tl f))
  end.

Definition and_then (m k : St Writer written) : St Writer written :=
  let! r := m in match r with WOk => k | _ => ret r end.
Fixpoint each {A} (f : A → St Writer written) (l : list A) : St Writer written :=
  match l with [] => ret WOk | x :: l => and_then (f x) (each f l) end.

Definition esc : string := bytes_str [ascii_of_N 27].
Definition newline : string := bytes_str [ascii_of_N 10].
Fixpoint Repeat (s : string) (n : nat) : string := match n with O => "" | S n => s +:+ Repeat s n end.

(** [start], [start + step], ... below [len]: the indices of a counting loop. *)
Definition steps (step len : nat) : list nat := map (λ i, i * step)%nat (seq 0 ((len + step - 1) / step)).

(** The module at a row and a column; light outside. *)
Definition module_at (b : bitmap) (row column : nat) : bool :=
  default false (b !! row ≫= λ l, l !! column).

Definition reset : string := esc +:+ "[0m".
Definition ink : string := esc +:+ "[30;107m".

Section Render.
Context (b : bitmap) (indent : nat).

(** renderCameraTerminalQR *)
Definition blackCell : string := esc +:+ "[48;2;0;0;0m  ".
Definition whiteCell : string := esc +:+ "[48;2;255;255;255m  ".
Definition renderCameraTerminalQR : St Writer written :=
  each (λ row,
    and_then (write (Repeat " " indent))
      (and_then (each (λ dark : bool, write (if dark then blackCell else whiteCell)) row)
         (write (reset +:+ newline)))) b.

Definition renderLargeTerminalQR : St Writer written :=
  each (λ row,
    and_then (write (Repeat " " indent +:+ ink))
      (and_then (each (λ dark : bool, write (if dark then "██" else "  ")) row)
         (write (reset +:+ newline)))) b.

(** The runes of the braille patterns: a dot per module. *)
Definition dotMask : list (list Z) := [[1; 8]; [2; 16]; [4; 32]; [64; 128]]%Z.
Definition mask_at (rowOffset columnOffset : nat) : Z :=
  default 0%Z (dotMask !! rowOffset ≫= λ l, l !! columnOffset).
Definition braille_cell (row column : nat) : Z :=
  foldl (λ cell o, if module_at b (row + o.1) (column + o.2) then (cell + mask_at o.1 o.2)%Z else cell)
    10240%Z (o ← [0; 1; 2; 3]; map (pair o) [0; 1])%nat.

(** string(rune) for a rune of three bytes *)
Definition rune_string (r : Z) : string :=
  bytes_str (map (λ n, ascii_of_N (Z.to_N n)) [224 + r / 4096; 128 + r / 64 mod 64; 128 + r mod 64]%Z).

Definition renderSmallTerminalQR : St Writer written :=
  each (λ row,
    and_then (write (Repeat " " indent +:+ ink))
      (and_then (each (λ column, write (rune_string (braille_cell row column)))
                   (steps 2 (length (default [] (b !! row)))))
         (write (reset +:+ newline)))) (steps 4 (length b)).

(** A cell of two rows; the row below may be missing, but not shorter. *)
Definition compact_cell (topDark bottomDark : bool) : string :=
  if topDark && bottomDark then "█" else if topDark then "▀" else if bottomDark then "▄" else " ".
Definition renderCompactTerminalQR : St Writer written :=
  each (λ row,
    and_then (write (Repeat " " indent +:+ ink))
      (and_then (each (λ ct : nat * bool,
                   match b !! S row with
                   | None => write (compact_cell ct.2 false)
                   | Some below => match below !! ct.1 with
                                   | Some bottomDark => write (compact_cell ct.2 bottomDark)
                                   | None => ret WPanic
                                   end
                   end) (imap pair (default [] (b !! row))))
         (write (reset +:+ newline)))) (steps 2 (length b)).
End Render.

(** [run] accepts these four modes. *)
Inductive renderMode := Camera | Large | Compact | Small.

Section RenderTerminal.
Context (encode : string → option BitMatrix).
Definition render_bitmap (mode : renderMode) : bitmap → nat → St Writer written :=
  match mode with
  | Camera => renderCameraTerminalQR
  | Large => renderLargeTerminalQR
  | Compact => renderCompactTerminalQR
  | Small => renderSmallTerminalQR
  end.
Definition renderTerminalQR (content : string) (mode : renderMode) (indent : nat) : St Writer written :=
  match qrBitmap encode content with
  | None => ret WErr
  | Some b => render_bitmap mode b indent
  end.
End RenderTerminal.

(** ** writePNG: the image *)

Definition modulePixels : nat := 5.

(** The grey pixels that were set, by x and y: 0 is black. *)
Definition set_module (row column : nat) (dark : bool) (img : gmap (nat * nat) Z) : gmap (nat * nat) Z :=
  let shade := (if dark then 0 else 255)%Z in
  foldl (λ img y, foldl (λ img x, <[(x, y) := shade]> img) img (seq (column * modulePixels) modulePixels))
    img (seq (row * modulePixels) modulePixels).
Definition png_image (b : bitmap) : gmap (nat * nat) Z :=
  foldl (λ img rl, foldl (λ img cd, set_module rl.1 cd.1 cd.2 img) img (imap pair rl.2)) ∅ (imap pair b).


(** ** Where the link leads *)

(** isLoopbackHost; only the ASCII runes fold to those of "localhost", but for
    the long s (U+017F). *)
Fixpoint fold_long_s (l : bytes) : bytes :=
  match l with
  | a :: (b :: rest) as tail =>
      if ((code a =? 197) && (code b =? 191))%N then "s"%char :: fold_long_s rest else a :: fold_long_s tail
  | _ => l
  end.
Definition isLoopbackHost (host : string) : bool :=
  EqualFoldASCII (bytes_str (fold_long_s (str_bytes (TrimSpace host)))) "localhost"
  || match ParseIP host with Some ip => IsLoopback ip | None => false end.

(** The private IPv4 networks and the link-local one. *)
Definition IsPrivate4 (ip : list Z) : bool :=
  match ip with
  | a :: b :: _ => (a =? 10)%Z || ((a =? 172) && (Z.land b 240 =? 16))%Z || ((a =? 192) && (b =? 168))%Z
  | _ => false
  end.
Definition IsLinkLocalUnicast4 (ip : list Z) : bool :=
  match ip with a :: b :: _ => ((a =? 169) && (b =? 254))%Z | _ => false end.

(** net.ParseCIDR's address, when the text has one; a mask is a decimal number
    of at most the address' bits. *)
Definition parse_mask (l : bytes) : option Z :=
  match l with [] => None | _ => match digits_value 0 l with Some n => if (n <? 16777215)%Z then Some n else None | None => None end end.
Definition ParseCIDR (s : string) : option (list Z) :=
  let l := str_bytes s in
  match index_byte "/" l with
  | None => None
  | Some i =>
      match parse_ip (take i l), parse_mask (drop (S i) l) with
      | Some ip, Some n => if (n <=? (if has_byte ":" (take i l) then 128 else 32))%Z then Some ip else None
      | _, _ => None
      end
  end.

Record NetInterface := mkInterface {
  if_Name : string; if_Up : bool; if_Loopback : bool; if_Addrs : option (list string) }.

(** The IPv4 address detectLANIPv4 may choose from a text. *)
Definition lan_address (address : string) : option (list Z) :=
  match ParseCIDR address ≫= To4 with
  | Some ip => if IsLoopback (v4_prefix ++ ip) || IsLinkLocalUnicast4 ip || negb (IsPrivate4 ip) then None else Some ip
  | None => None
  end.
Definition lan_score (name : string) : Z :=
  (100 + (if String.eqb name "en0" || String.eqb name "en1" then 100 else 0)
   - (if HasPrefix name "utun" || HasPrefix name "bridge" then 50 else 0))%Z.
Definition candidates (i : NetInterface) : list (list Z * Z) :=
  if negb (if_Up i) || if_Loopback i then []
  else match if_Addrs i with
       | None => []
       | Some addresses => map (λ ip, (ip, lan_score (if_Name i))) (omap lan_address addresses)
       end.
(** The best so far gives way to a better one only. *)
Definition better (best : option (list Z * Z)) (c : list Z * Z) : option (list Z * Z) :=
  match best with Some b => if (b.2 <? c.2)%Z then Some c else best | None => Some c end.
Definition detectLANIPv4 (interfaces : option (list NetInterface)) : option (list Z) :=
  interfaces ≫= λ l, fst <$> foldl better None (l ≫= candidates).
