(* ===== verification/PairRun.v ===== *)
(** * cmd/pairqr: run

    The flags, the pairing grant asked of Auth Control, and what is printed and
    written.  Parameters: the QR encoder, the answers of the HTTP client, the
    network interfaces, the file system's answers and the working directory, the
    texts of other packages' errors, and the local time zone. *)

From S2P Require Import Prelude GoStd GoTime GoFlag GoNet GoURL GoClient Json PairQR.
From Stdlib Require Import Ascii.
#[local] Open Scope string_scope.

Definition defaultControlURL := "http://127.0.0.1:18776".
Definition defaultGatewayPort := "18774".

(** ** The grant *)

Record grantEnvelope := mkEnvelope { ge_Success : bool; ge_Code : string; ge_ExpiresAt : Z }.
Definition zero_grantEnvelope := mkEnvelope false "" zero_time.
Definition dec_grant_data : Dec (string * Z) :=
  dec_struct ["code"; "expires_at"] (λ get d,
    let! c := get _ "code" dec_string d.1 in
    let! e := get _ "expires_at" dec_time d.2 in
    ret (c, e)).
Definition dec_grantEnvelope : Dec grantEnvelope :=
  dec_struct ["success"; "data"] (λ get g,
    let! s := get _ "success" dec_bool (ge_Success g) in
    let! d := get _ "data" dec_grant_data (ge_Code g, ge_ExpiresAt g) in
    ret (mkEnvelope s d.1 d.2)).

(** What one request is answered: the status, where its Location sends the
    client, and the first JSON value of the body's first 64 KiB.  A request may
    carry a content type and a body. *)
Inductive http_answer :=
| BadURL                                   (** nothing can be sent there *)
| NoAnswer
| Answer (status : Z) (location : Location) (value : option json).
Definition content : Type := string * json.

Inductive pair_error :=
| NoInterfaces                    (** net.Interfaces failed or no address was found *)
| EndpointInvalid | Unreachable | ResponseInvalid
| StatusError (status : Z)
| FileError | RenderError.

(** ** Effects *)

Inductive effect :=
| Requested (method url : string) (payload : option content)
| Mkdir (dir : string) (mode : Z)
| Opened (path : string) (mode : Z)        (** created or truncated, for writing *)
| Encoded (path : string) (width height : nat) (pixels : gmap (nat * nat) Z)
| Chmod (path : string) (mode : Z).

Record PState := mkPState { ps_stdout : Writer; ps_stderr : Writer; ps_log : list effect }.
Definition on_stdout {A} (m : St Writer A) : St PState A := λ s,
  let '(a, w) := m (ps_stdout s) in (a, mkPState w (ps_stderr s) (ps_log s)).
Definition on_stderr {A} (m : St Writer A) : St PState A := λ s,
  let '(a, w) := m (ps_stderr s) in (a, mkPState (ps_stdout s) w (ps_log s)).
Definition eff (e : effect) : St PState unit :=
  modify (λ s, mkPState (ps_stdout s) (ps_stderr s) (ps_log s ++ [e])%list).

(** fmt.Fprintf and Fprintln: one Write, its error dropped *)
Definition fprint_out (text : string) : St PState unit := let! _ := on_stdout (write text) in ret tt.
Definition fprint_err (text : string) : St PState unit := let! _ := on_stderr (write text) in ret tt.

Definition when (b : bool) (m : St PState unit) : St PState unit := if b then m else ret tt.

Inductive exit := Code (code : Z) | Panicked.
Definition fail_text (code : Z) (text : string) : St PState exit :=
  let! _ := fprint_err (text +:+ newline) in ret (Code code).

(** ** Styles *)

Record outputStyle := mkStyle { os_reset : string; os_bold : string; os_green : string; os_cyan : string; os_yellow : string }.
Definition no_style := mkStyle "" "" "" "" "".

(** [no_color]: NO_COLOR is set and not empty; [device]: the writer is a file
    that is a character device. *)
Definition styleForWriter (no_color device terminalOutput : bool) : outputStyle :=
  if negb terminalOutput || no_color then no_style
  else if negb device then no_style
  else mkStyle (esc +:+ "[0m") (esc +:+ "[1m") (esc +:+ "[32m") (esc +:+ "[36m") (esc +:+ "[33m").
Definition styled (s : outputStyle) : bool := negb (String.eqb (os_reset s) "").

(** ** Paths: path/filepath on Unix *)

Fixpoint split_slash (l : bytes) : list bytes :=
  match l with
  | [] => [[]]
  | c :: l => match split_slash l with
              | s :: ss => if Ascii.eqb c "/" then [] :: s :: ss else (c :: s) :: ss
              | [] => []
              end
  end.
(** Clean of a rooted path, as its elements. *)
Definition clean_rooted (path : string) : list bytes :=
  foldl (λ acc s, if bool_decide (s = []) || bool_decide (s = str_bytes ".") then acc
                  else if bool_decide (s = str_bytes "..") then removelast acc
                  else (acc ++ [s])%list) [] (split_slash (str_bytes path)).
Definition rooted (elements : list bytes) : string :=
  match elements with [] => "/" | _ => bytes_str (concat (map (cons "/"%char) elements)) end.
(** The elements of filepath.Abs of a path that is not empty; [cwd] is os.Getwd. *)
Definition abs_elements (cwd : option string) (path : string) : option (list bytes) :=
  if HasPrefix path "/" then Some (clean_rooted path)
  else (λ wd, clean_rooted (wd +:+ "/" +:+ path)) <$> cwd.

(** ** Origins *)

Definition slash : ascii := "/"%char.
Definition parseOrigin (raw : string) : option URL :=
  match GoURL.Parse (TrimRight (TrimSpace raw) slash) with
  | None => None
  | Some u =>
      if String.eqb (u_Host u) "" || (negb (String.eqb (u_Scheme u) "http") && negb (String.eqb (u_Scheme u) "https"))
      then None
      else if negb (String.eqb (u_Path u) "") || negb (String.eqb (u_RawQuery u) "")
              || negb (String.eqb (u_Fragment u) "") || (match u_User u with Some _ => true | None => false end)
      then None
      else Some u
  end.
(** parseOrigin's two errors *)
Definition origin_error (raw : string) : string :=
  match GoURL.Parse (TrimRight (TrimSpace raw) slash) with
  | Some u =>
      if String.eqb (u_Host u) "" || (negb (String.eqb (u_Scheme u) "http") && negb (String.eqb (u_Scheme u) "https"))
      then "expected an explicit http(s) origin"
      else "origin must not contain credentials, a path, query, or fragment"
  | None => "expected an explicit http(s) origin"
  end.

(** net.IP.String of an IPv4 address *)
Definition ipv4_string (ip : list Z) : string :=
  match ip with
  | [] => ""
  | a :: rest => foldl (λ s b, s +:+ "." +:+ decimal b) (decimal a) rest
  end.

(** ** run *)

Section Run.
Context (encode : string → option BitMatrix)
        (http : string → string → option content → http_answer)
        (interfaces : option (list NetInterface))
        (cwd : option string)
        (mkdir_ok open_ok png_ok close_ok chmod_ok : string → bool)
        (no_color stdout_device stderr_device : bool)
        (error_text : pair_error → string) (usage : list string → string)
        (local_time : Z → string).

Definition grants_path := "/v1/auth-control/pairing-grants".

(** Client.send *)
Definition send (method url : string) (payload : option content) : St PState (option (Z * Location * option json)) :=
  match http method url payload with
  | BadURL => ret None
  | NoAnswer => let! _ := eff (Requested method url payload) in ret None
  | Answer status location value =>
      let! _ := eff (Requested method url payload) in ret (Some (status, location, value))
  end.

Definition createPairingGrant (controlURL : URL) (name : string) : St PState (result pair_error grantEnvelope) :=
  let body := JObj [("name", JStr name)] in
  let endpoint := TrimRight (origin_string controlURL) slash +:+ grants_path in
  match http "POST" endpoint (Some ("application/json", body)) with
  | BadURL => ret (Err EndpointInvalid)
  | _ =>
      let! answer := Do send "POST" endpoint (Some ("application/json", body)) in
      ret (match answer with
           | None => Err Unreachable
           | Some (status, value) =>
               match value with
               | None => Err ResponseInvalid
               | Some j =>
                   match dec_grantEnvelope j zero_grantEnvelope with
                   | (_, false) => Err ResponseInvalid
                   | (envelope, true) =>
                       if negb (status =? 201)%Z || negb (ge_Success envelope) || String.eqb (ge_Code envelope) ""
                       then Err (StatusError status) else Ok envelope
                   end
               end
           end)
  end.

(** The text of an error of createPairingGrant. *)
Definition grant_error_text (e : pair_error) : string :=
  match e with
  | ResponseInvalid => "decode Auth Control response: " +:+ error_text ResponseInvalid
  | StatusError status => "Auth Control returned HTTP " +:+ decimal status
  | e => error_text e
  end.

(** [None]: the panic of a code without rows. *)
Definition writePNG (output content : string) : St PState (option (result pair_error string)) :=
  match abs_elements cwd output with
  | None => ret (Some (Err FileError))
  | Some elements =>
      let path := rooted elements in
      let dir := rooted (removelast elements) in
      let! _ := eff (Mkdir dir 448) in
      if negb (mkdir_ok dir) then ret (Some (Err FileError))
      else match qrBitmap encode content with
           | None => ret (Some (Err RenderError))
           | Some [] => ret None
           | Some ((row :: _) as b) =>
               let! _ := eff (Opened path 384) in
               if negb (open_ok path) then ret (Some (Err FileError))
               else
                 let! _ := eff (Encoded path (length row * modulePixels) (length b * modulePixels) (png_image b)) in
                 if negb (png_ok path && close_ok path) then ret (Some (Err FileError))
                 else
                   let! _ := eff (Chmod path 384) in
                   ret (Some (if chmod_ok path then Ok path else Err FileError))
           end
  end.

Definition mode_of (style : string) : option renderMode :=
  if String.eqb style "camera" then Some Camera
  else if String.eqb style "large" then Some Large
  else if String.eqb style "compact" then Some Compact
  else if String.eqb style "small" then Some Small
  else None.

Definition pairqr_flags : list (string * flag_value) :=
  [("origin", FString ""); ("name", FString "Mobile Web"); ("control-url", FString defaultControlURL);
   ("output", FString ""); ("terminal", FBool true); ("terminal-render", FString "camera");
   ("terminal-indent", FInt 2); ("print-link", FBool true); ("print-metadata", FBool true)].

(** The link of a grant. *)
Definition pairing_link (origin : URL) (code : string) : string :=
  TrimRight (origin_string origin) slash +:+ "/pair#code=" +:+ QueryEscape code.

Section Present.
Context (fs : list (string * flag_value)) (mode : renderMode) (link : string) (expires : Z).
Let terminal := flag_bool "terminal" fs.
Let out := styleForWriter no_color stdout_device terminal.
Let err := styleForWriter no_color stderr_device terminal.

Definition print_heading : St PState unit :=
  if styled out then
    let! _ := fprint_out (os_bold out +:+ os_cyan out +:+ "Codex Remote Pairing" +:+ os_reset out +:+ newline) in
    let! _ := fprint_out (os_yellow out +:+ "Expires" +:+ os_reset out +:+ "  " +:+ os_yellow out +:+ local_time expires
                          +:+ os_reset out +:+ newline) in
    fprint_out (os_yellow out +:+ "Security" +:+ os_reset out +:+ " One-time credential; valid for one device" +:+ newline)
  else fprint_out ("Codex Remote pairing QR (expires " +:+ local_time expires +:+ ")" +:+ newline).

Definition print_link : St PState unit :=
  if styled out then fprint_out (os_green out +:+ "Copyable URL" +:+ os_reset out +:+ newline +:+ link +:+ newline)
  else fprint_out ("Pairing link:" +:+ newline +:+ link +:+ newline).

Definition print_path (path : string) : St PState unit :=
  if styled out then fprint_out (os_green out +:+ "PNG file" +:+ os_reset out +:+ newline +:+ path +:+ newline)
  else fprint_out ("PNG: " +:+ path +:+ newline).

Definition print_warning : St PState unit :=
  let '(writer, style) := if terminal && styled out then (fprint_out, out) else (fprint_err, err) in
  if styled style
  then writer (os_yellow style +:+ "Security" +:+ os_reset style
               +:+ " Do not upload or share this one-time credential." +:+ newline)
  else writer ("Security: Do not upload or share this one-time credential." +:+ newline).

Definition print_qr_heading : St PState unit :=
  if styled out
  then fprint_out (os_bold out +:+ "QR" +:+ os_cyan out +:+ "  Scan with your iPhone camera" +:+ newline +:+ newline)
  else let! _ := fprint_out ("QR: Scan with your iPhone camera" +:+ newline) in fprint_out newline.
Definition print_qr : St PState exit :=
  let! _ := print_qr_heading in
  let! rendered := on_stdout (renderTerminalQR encode link mode (Z.to_nat (flag_int "terminal-indent" fs))) in
  match rendered with
  | WErr => fail_text 1 ("render terminal QR: " +:+ error_text RenderError)
  | WPanic => ret Panicked
  | WOk => let! _ := fprint_out newline in ret (Code 0)
  end.

(** The PNG file, if one is asked for; a result ends the run. *)
Definition write_output : St PState (option exit) :=
  let output := flag_string "output" fs in
  if String.eqb (TrimSpace output) "" then ret None
  else
    let! written := writePNG output link in
    match written with
    | None => ret (Some Panicked)
    | Some (Err e) => let! c := fail_text 1 ("write QR PNG: " +:+ error_text e) in ret (Some c)
    | Some (Ok path) => let! _ := print_path path in ret None
    end.

(** run from the grant on. *)
Definition present : St PState exit :=
  let metadata := flag_bool "print-metadata" fs in
  let! _ := when metadata print_heading in
  let! _ := when (flag_bool "print-link" fs) print_link in
  let! ended := write_output in
  match ended with
  | Some code => ret code
  | None =>
      let! _ := when metadata print_warning in
      if terminal then print_qr else ret (Code 0)
  end.
End Present.

Definition run (arguments : list string) : St PState exit :=
  match GoFlag.Parse pairqr_flags arguments with
  | None => let! _ := fprint_err (usage arguments) in ret (Code 2)
  | Some (fs, _) =>
      match mode_of (flag_string "terminal-render" fs) with
      | None => fail_text 2 "--terminal-render must be camera, large, compact, or small"
      | Some mode =>
          let indent := flag_int "terminal-indent" fs in
          if (indent <? 0)%Z || (40 <? indent)%Z
          then fail_text 2 "--terminal-indent must be between 0 and 40"
          else
            let given := TrimSpace (flag_string "origin" fs) in
            let resolved := if String.eqb given ""
                            then (λ ip, "http://" +:+ ipv4_string ip +:+ ":" +:+ defaultGatewayPort)
                                   <$> detectLANIPv4 interfaces
                            else Some given in
            match resolved with
            | None => fail_text 1 ("detect LAN address: " +:+ error_text NoInterfaces +:+ "; pass --origin explicitly")
            | Some resolvedOrigin =>
                match parseOrigin resolvedOrigin with
                | None => fail_text 2 ("invalid --origin: " +:+ origin_error resolvedOrigin)
                | Some parsedOrigin =>
                    let controlURL := flag_string "control-url" fs in
                    let name := TrimSpace (flag_string "name" fs) in
                    match parseOrigin controlURL with
                    | None => fail_text 2 ("invalid --control-url: " +:+ origin_error controlURL)
                    | Some parsedControlURL =>
                        if negb (isLoopbackHost (Hostname parsedControlURL))
                        then fail_text 2 "invalid --control-url: Auth Control must use a loopback host"
                        else if String.eqb name "" then fail_text 2 "--name must not be empty"
                        else
                          let! grant := createPairingGrant parsedControlURL name in
                          match grant with
                          | Err e => fail_text 1 ("create pairing grant: " +:+ grant_error_text e)
                          | Ok grant =>
                              present fs mode (pairing_link parsedOrigin (ge_Code grant)) (ge_ExpiresAt grant)
                          end
                    end
                end
            end
      end
  end.
End Run.
