(* ===== verification/QRSpec.v ===== *)
(** * What a terminal shows of a pairing code

    A terminal reads the bytes of the four renderings: its cells have two
    columns and four rows of dots, which the glyphs colour.  The dots are the
    code's modules, in the size of each rendering. *)

From S2P Require Import Prelude GoStd PairQR.
From Stdlib Require Import Ascii.
#[local] Open Scope string_scope.
#[local] Open Scope list_scope.

(** ** The terminal *)

(** The colours of what follows: the default, a black or a white background, or
    black on white. *)
Inductive style := Uncoloured | BlackCells | WhiteCells | Ink.
Inductive glyph := GSpace | GFull | GUpper | GLower | GBraille (dots : Z).
Inductive token := TGlyph (g : glyph) | TStyle (s : style) | TNewline.
Definition cell : Type := style * glyph.

Definition token_table : list (bytes * token) :=
  [(str_bytes " ", TGlyph GSpace); (str_bytes newline, TNewline); (str_bytes "█", TGlyph GFull);
   (str_bytes "▀", TGlyph GUpper); (str_bytes "▄", TGlyph GLower); (str_bytes reset, TStyle Uncoloured);
   (str_bytes ink, TStyle Ink); (str_bytes (esc +:+ "[48;2;0;0;0m"), TStyle BlackCells);
   (str_bytes (esc +:+ "[48;2;255;255;255m"), TStyle WhiteCells)].

(** U+2800 to U+28FF *)
Definition braille_of (a c d : ascii) : option Z :=
  let '(a, c, d) := (Z.of_N (code a), Z.of_N (code c), Z.of_N (code d)) in
  if (a =? 226)%Z && ((160 <=? c) && (c <? 164))%Z && ((128 <=? d) && (d <? 192))%Z
  then Some ((c - 160) * 64 + (d - 128))%Z else None.

Definition next_token (l : bytes) : option (token * bytes) :=
  match match l with
        | a :: c :: d :: rest => (λ m, (TGlyph (GBraille m), rest)) <$> braille_of a c d
        | _ => None
        end with
  | Some r => Some r
  | None => match list_find (λ e, bytes_prefix e.1 l = true) token_table with
            | Some (_, (p, t)) => Some (t, drop (length p) l)
            | None => None
            end
  end.

Fixpoint tokens (fuel : nat) (l : bytes) : option (list token) :=
  match l, fuel with
  | [], _ => Some []
  | _, O => None
  | _, S fuel => match next_token l with
                 | Some (t, rest) => cons t <$> tokens fuel rest
                 | None => None
                 end
  end.

(** The cells of each line that are drawn in a colour. *)
Fixpoint screen_lines (s : style) (line : list cell) (l : list token) : list (list cell) :=
  match l with
  | [] => []
  | TNewline :: l => line :: screen_lines s [] l
  | TStyle s :: l => screen_lines s line l
  | TGlyph g :: l => screen_lines s (match s with Uncoloured => line | _ => line ++ [(s, g)] end) l
  end.
Definition read_screen (l : bytes) : option (list (list cell)) :=
  screen_lines Uncoloured [] <$> tokens (length l) l.

(** The dots of a Unicode braille pattern are numbered 1, 2, 3, 7 down its left
    and 4, 5, 6, 8 down its right; dot n is bit n - 1 of its offset in the block
    U+2800..U+28FF. *)
Definition braille_dots : list (list Z) := [[1; 2; 3; 7]; [4; 5; 6; 8]]%Z.
Definition braille_bit (r k : nat) : Z := (default 0 (braille_dots !! k ≫= λ l, l !! r) - 1)%Z.

(** Is the dot at row [r] and column [k] of a cell dark? *)
Definition background (s : style) : bool := match s with BlackCells => true | _ => false end.
Definition foreground (s : style) : bool := match s with Ink => true | _ => false end.
Definition dot (c : cell) (r k : nat) : bool :=
  match c.2 with
  | GSpace => background c.1
  | GFull => foreground c.1
  | GUpper => if (r <? 2)%nat then foreground c.1 else background c.1
  | GLower => if (r <? 2)%nat then background c.1 else foreground c.1
  | GBraille m => if Z.testbit m (braille_bit r k) then foreground c.1 else background c.1
  end.
Definition pixel (screen : list (list cell)) (y x : nat) : option bool :=
  line ← screen !! (y / 4)%nat;
  c ← line !! (x / 2)%nat;
  Some (dot c (y mod 4) (x mod 2)).

(** The height and the width of a module in dots. *)
Definition module_size (mode : renderMode) : nat * nat :=
  match mode with Camera | Large => (4, 4) | Compact => (2, 2) | Small => (1, 1) end.

(** ** Reading what was written *)

Definition token_bytes (t : token) : bytes :=
  match t with
  | TGlyph (GBraille m) => str_bytes (rune_string (10240 + m))
  | TGlyph GSpace => str_bytes " "
  | TGlyph GFull => str_bytes "█"
  | TGlyph GUpper => str_bytes "▀"
  | TGlyph GLower => str_bytes "▄"
  | TNewline => str_bytes newline
  | TStyle Uncoloured => str_bytes reset
  | TStyle Ink => str_bytes ink
  | TStyle BlackCells => str_bytes (esc +:+ "[48;2;0;0;0m")
  | TStyle WhiteCells => str_bytes (esc +:+ "[48;2;255;255;255m")
  end.
Definition token_ok (t : token) : Prop :=
  match t with TGlyph (GBraille m) => (0 ≤ m < 256)%Z | _ => True end.
Definition show (l : list token) : bytes := concat (map token_bytes l).

Lemma show_app l l' : show (l ++ l') = show l ++ show l'.
Proof. unfold show. by rewrite map_app, concat_app. Qed.

Lemma braille_bytes m :
  (0 ≤ m < 256)%Z → ∃ a c d, token_bytes (TGlyph (GBraille m)) = [a; c; d] ∧ braille_of a c d = Some m.
Proof.
  intros Hm. unfold token_bytes, rune_string. rewrite str_bytes_str. cbn [map]. eexists _, _, _. split; [reflexivity|].
  assert (forallb (λ m, bool_decide (braille_of (ascii_of_N (Z.to_N (224 + (10240 + m) / 4096)))
     (ascii_of_N (Z.to_N (128 + (10240 + m) / 64 mod 64))) (ascii_of_N (Z.to_N (128 + (10240 + m) mod 64))) = Some m))
     (seqZ 0 256) = true) as H by (vm_compute; reflexivity).
  rewrite forallb_forall in H. apply (bool_decide_eq_true_1 _), H, list_elem_of_In, elem_of_seqZ. lia.
Qed.

Lemma next_token_show t rest : token_ok t → next_token (token_bytes t ++ rest) = Some (t, rest).
Proof.
  destruct t as [[| | | |m]|[]|]; intros Ht; try reflexivity; [by destruct rest as [|? [|? ?]]| |by destruct rest as [|? [|? ?]]].
  destruct (braille_bytes m Ht) as (a&c&d&->&Hm). cbn [app]. unfold next_token. by rewrite Hm.
Qed.
Lemma token_bytes_cons t : ∃ a l, token_bytes t = a :: l.
Proof. destruct t as [[| | | |m]|[]|]; eexists _, _; reflexivity. Qed.

Lemma tokens_show l n : Forall token_ok l → (length (show l) ≤ n)%nat → tokens n (show l) = Some l.
Proof.
  intros Hl. revert n. induction Hl as [|t l Ht Hl IH]; intros n Hn; [by destruct n|].
  change (show (t :: l)) with (token_bytes t ++ show l) in *.
  pose proof (next_token_show t (show l) Ht) as Hnext. destruct (token_bytes_cons t) as (a&r&E). rewrite E in *.
  cbn [app] in *. destruct n as [|n]; [simpl in Hn; lia|]. cbn [tokens]. rewrite Hnext, IH; [done|].
  cbn [length] in Hn. rewrite length_app in Hn. lia.
Qed.
Lemma read_screen_show l : Forall token_ok l → read_screen (show l) = Some (screen_lines Uncoloured [] l).
Proof. intros Hl. unfold read_screen. by rewrite tokens_show. Qed.

(** ** Writing without faults *)

Definition writes (m : St Writer written) (l : list token) : Prop :=
  ∀ out, m (mkWriter out []) = (WOk, mkWriter (out ++ show l) []).

Lemma writes_write s l : str_bytes s = show l → writes (write s) l.
Proof. intros H out. unfold write. simpl. by rewrite H. Qed.
Lemma writes_then m k l l' : writes m l → writes k l' → writes (and_then m k) (l ++ l').
Proof.
  intros Hm Hk out. unfold and_then. cbn [bind st_monad]. rewrite Hm, Hk, show_app. by rewrite <- app_assoc.
Qed.
Lemma writes_each {A} (f : A → St Writer written) (g : A → list token) l :
  Forall (λ x, writes (f x) (g x)) l → writes (each f l) (concat (map g l)).
Proof.
  induction 1 as [|x l Hx _ IH]; [intros out; cbn; by rewrite app_nil_r|].
  cbn [each map concat]. by apply writes_then.
Qed.
Lemma repeat_show indent : str_bytes (Repeat " " indent) = show (replicate indent (TGlyph GSpace)).
Proof. induction indent as [|n IH]; [done|]. cbn [Repeat replicate]. rewrite str_bytes_app, IH. reflexivity. Qed.

(** A line: the indentation, what starts it, its cells, its end. *)
Definition line_tokens (indent : nat) (start body : list token) : list token :=
  replicate indent (TGlyph GSpace) ++ start ++ body ++ [TStyle Uncoloured; TNewline].

Fixpoint cells (s : style) (l : list token) : style * list cell :=
  match l with
  | TGlyph g :: l => let r := cells s l in (r.1, (s, g) :: r.2)
  | TStyle s :: l => cells s l
  | _ => (s, [])
  end.
(** Styles in colour and glyphs only. *)
Fixpoint coloured (s : style) (l : list token) : bool :=
  match l with
  | [] => true
  | TGlyph _ :: l => match s with Uncoloured => false | _ => coloured s l end
  | TStyle Uncoloured :: _ | TNewline :: _ => false
  | TStyle s :: l => coloured s l
  end.

Lemma screen_cells s line l rest :
  coloured s l = true →
  screen_lines s line (l ++ TStyle Uncoloured :: TNewline :: rest)
  = (line ++ (cells s l).2) :: screen_lines Uncoloured [] rest.
Proof.
  revert s line. induction l as [|[g|s'|] l IH]; intros s line H; cbn [app screen_lines cells coloured] in *; [by rewrite app_nil_r| | |done].
  - destruct s; [done|..]; rewrite IH by done; simpl; by rewrite <- app_assoc.
  - destruct s'; [done|..]; by apply IH.
Qed.
Lemma screen_line indent l rest :
  coloured Uncoloured l = true →
  screen_lines Uncoloured [] (line_tokens indent [] l ++ rest) = (cells Uncoloured l).2 :: screen_lines Uncoloured [] rest.
Proof.
  intros H. unfold line_tokens. rewrite <- !app_assoc. cbn [app].
  assert (∀ t, screen_lines Uncoloured [] (replicate indent (TGlyph GSpace) ++ t) = screen_lines Uncoloured [] t) as ->.
  { intros t. induction indent as [|n IH]; [done|]. apply IH. }
  by rewrite screen_cells.
Qed.
Lemma screen_all {A} indent (g : A → list token) l :
  Forall (λ x, coloured Uncoloured (g x) = true) l →
  screen_lines Uncoloured [] (concat (map (λ x, line_tokens indent [] (g x)) l)) = map (λ x, (cells Uncoloured (g x)).2) l.
Proof.
  induction 1 as [|x l Hx _ IH]; [done|]. cbn [map concat]. by rewrite screen_line, IH.
Qed.

(** ** The lines of each rendering *)

Definition mark (mode : renderMode) : list token := match mode with Camera => [] | _ => [TStyle Ink] end.

(** The tokens of a module, or of a cell, in each rendering. *)
Definition camera_tokens (dark : bool) : list token :=
  [TStyle (if dark then BlackCells else WhiteCells); TGlyph GSpace; TGlyph GSpace].
Definition large_tokens (dark : bool) : list token :=
  let g := TGlyph (if dark then GFull else GSpace) in [g; g].
Definition compact_glyph (top bottom : bool) : glyph :=
  if top && bottom then GFull else if top then GUpper else if bottom then GLower else GSpace.

Lemma line_writes indent start (s : string) body (m : St Writer written) :
  str_bytes s = show start → writes m body →
  writes (and_then (write (Repeat " " indent +:+ s)) (and_then m (write (reset +:+ newline))))
    (line_tokens indent [] (start ++ body)).
Proof.
  intros Hs Hm. unfold line_tokens. rewrite (app_assoc (replicate _ _)), app_nil_r, <- app_assoc.
  rewrite (app_assoc (replicate _ _) start). apply writes_then; [|apply writes_then; [done|]].
  - apply writes_write. by rewrite str_bytes_app, show_app, repeat_show, Hs.
  - apply writes_write. reflexivity.
Qed.

(** The cells of the lines, by position. *)
Definition cell_at (mode : renderMode) (b : bitmap) (i j : nat) : cell :=
  match mode with
  | Camera => (if module_at b i (j / 2) then BlackCells else WhiteCells, GSpace)
  | Large => (Ink, if module_at b i (j / 2) then GFull else GSpace)
  | Compact => (Ink, compact_glyph (module_at b (2 * i) j) (module_at b (2 * i + 1) j))
  | Small => (Ink, GBraille (braille_cell b (4 * i) (2 * j) - 10240))
  end.
Definition grid (mode : renderMode) (b : bitmap) (rows columns : nat) : list (list cell) :=
  map (λ i, map (cell_at mode b i) (seq 0 columns)) (seq 0 rows).

(** Every row has [w] modules. *)
Definition rectangular (w : nat) (b : bitmap) : Prop := Forall (λ l, length l = w) b.

Lemma seq_lookup_map {A B} (d : A) (g : A → B) (l : list A) :
  map g l = map (λ i, g (default d (l !! i))) (seq 0 (length l)).
Proof.
  apply list_eq. intros i. change (map ?f ?l) with (f <$> l). rewrite !list_lookup_fmap.
  destruct (l !! i) as [x|] eqn:E.
  - rewrite lookup_seq_lt by (by eapply lookup_lt_Some). simpl. by rewrite E.
  - by rewrite lookup_seq_ge by (by apply lookup_ge_None).
Qed.
Lemma imap_seq {A} (d : A) (l : list A) : imap pair l = map (λ j, (j, default d (l !! j))) (seq 0 (length l)).
Proof.
  apply list_eq. intros i. change (map ?f ?l) with (f <$> l). rewrite list_lookup_imap, list_lookup_fmap.
  destruct (l !! i) as [x|] eqn:E.
  - rewrite lookup_seq_lt by (by eapply lookup_lt_Some). simpl. by rewrite E.
  - by rewrite lookup_seq_ge by (by apply lookup_ge_None).
Qed.
Lemma twice_seq {A B} (d : A) (f : A → B) (l : list A) :
  concat (map (λ x, [f x; f x]) l) = map (λ j, f (default d (l !! (j / 2)%nat))) (seq 0 (2 * length l)).
Proof.
  induction l as [|x l IH]; [done|]. replace (2 * length (x :: l))%nat with (S (S (2 * length l))) by (simpl; lia).
  cbn [seq map concat app]. f_equal. f_equal. rewrite IH, <- !seq_shift, !map_map.
  apply map_ext. intros j. do 2 f_equal. replace (S (S j)) with (j + 1 * 2)%nat by lia.
  rewrite Nat.div_add by lia. by rewrite Nat.add_1_r.
Qed.
Lemma concat_singleton {A B} (f : A → B) (l : list A) : concat (map (λ x, [f x]) l) = map f l.
Proof. induction l as [|x l IH]; [done|]. cbn. by rewrite IH. Qed.

Lemma module_at_row b i j : module_at b i j = default false (default [] (b !! i) !! j).
Proof. unfold module_at. by destruct (b !! i). Qed.

(** ** The braille patterns *)

Definition offsets : list (nat * nat) := o ← [0; 1; 2; 3]; map (pair o) [0; 1]%nat.
Definition braille_sum (f : nat → nat → bool) : Z :=
  foldl (λ cell o, if f o.1 o.2 then (cell + mask_at o.1 o.2)%Z else cell) 10240%Z offsets.
Definition braille_check (f : nat → nat → bool) : bool :=
  (10240 <=? braille_sum f)%Z && (braille_sum f <? 10240 + 256)%Z
  && forallb (λ o, Bool.eqb (Z.testbit (braille_sum f - 10240) (braille_bit o.1 o.2)) (f o.1 o.2)) offsets.

Lemma braille_check_table a b c d e f g h :
  braille_check (λ r k, nth (2 * r + k) [a; b; c; d; e; f; g; h] false) = true.
Proof. by destruct a, b, c, d, e, f, g, h. Qed.
Lemma braille_check_all f : braille_check f = true.
Proof.
  rewrite <- (braille_check_table (f 0 0) (f 0 1) (f 1 0) (f 1 1) (f 2 0) (f 2 1) (f 3 0) (f 3 1))%nat. reflexivity.
Qed.

Lemma braille_bits b row column :
  (10240 ≤ braille_cell b row column < 10240 + 256)%Z ∧
  ∀ r k, (r < 4)%nat → (k < 2)%nat →
    Z.testbit (braille_cell b row column - 10240) (braille_bit r k) = module_at b (row + r) (column + k).
Proof.
  set (f r k := module_at b (row + r) (column + k)).
  change (braille_cell b row column) with (braille_sum f).
  pose proof (braille_check_all f) as H. unfold braille_check in H. rewrite !andb_true_iff in H.
  destruct H as [[H1%Z.leb_le H2%Z.ltb_lt] H]. split; [done|]. intros r k Hr Hk. apply eqb_prop.
  rewrite forallb_forall in H. apply (H (r, k)).
  destruct r as [|[|[|[|r]]]], k as [|[|k]]; simpl; first [lia|tauto].
Qed.

(** ** What each rendering writes *)

Definition line_body (mode : renderMode) (b : bitmap) (w i : nat) : list token :=
  match mode with
  | Camera => concat (map camera_tokens (default [] (b !! i)))
  | Large => TStyle Ink :: concat (map large_tokens (default [] (b !! i)))
  | Compact => TStyle Ink :: map (λ j, TGlyph (compact_glyph (module_at b (2 * i) j) (module_at b (2 * i + 1) j))) (seq 0 w)
  | Small => TStyle Ink :: map (λ j, TGlyph (GBraille (braille_cell b (4 * i) (2 * j) - 10240))) (seq 0 ((w + 1) / 2))
  end.
(** The cells of a picture: its lines and its columns. *)
Definition line_count (mode : renderMode) (h : nat) : nat :=
  match mode with Camera | Large => h | Compact => (h + 1) / 2 | Small => (h + 3) / 4 end%nat.
Definition column_count (mode : renderMode) (w : nat) : nat :=
  match mode with Camera | Large => 2 * w | Compact => w | Small => (w + 1) / 2 end%nat.

Lemma rectangular_row w b i : rectangular w b → (i < length b)%nat → length (default [] (b !! i)) = w.
Proof.
  intros Hr Hi. destruct (lookup_lt_is_Some_2 b i Hi) as [l Hl]. rewrite Hl. simpl.
  unfold rectangular in Hr. rewrite Forall_forall in Hr. by eapply Hr, list_elem_of_lookup_2.
Qed.

Lemma writes_eq m l l' : l = l' → writes m l → writes m l'.
Proof. by intros ->. Qed.

Lemma Forall_map_iff {A B} (f : A → B) (P : B → Prop) l : Forall P (map f l) ↔ Forall (P ∘ f) l.
Proof. apply Forall_map. Qed.

Lemma Forall_seq (P : nat → Prop) j n : (∀ i, (j ≤ i < j + n)%nat → P i) → Forall P (seq j n).
Proof. intros H. apply Forall_forall. intros i Hi. apply elem_of_seq in Hi. by apply H. Qed.

Lemma compact_str t d : str_bytes (compact_cell t d) = show [TGlyph (compact_glyph t d)].
Proof. by destruct t, d. Qed.
Lemma braille_str b row column :
  str_bytes (rune_string (braille_cell b row column)) = show [TGlyph (GBraille (braille_cell b row column - 10240))].
Proof. unfold show. cbn [map concat token_bytes]. rewrite app_nil_r. do 2 f_equal. lia. Qed.

Lemma half_lt i n : (i < (n + 1) / 2)%nat → (2 * i < n)%nat.
Proof. intros H. pose proof (Nat.div_mod_eq (n + 1) 2). pose proof (Nat.mod_upper_bound (n + 1) 2). lia. Qed.
Lemma quarter_lt i n : (i < (n + 3) / 4)%nat → (4 * i < n)%nat.
Proof. intros H. pose proof (Nat.div_mod_eq (n + 3) 4). pose proof (Nat.mod_upper_bound (n + 3) 4). lia. Qed.

Lemma writes_rows (f : list bool → St Writer written) g b :
  (∀ l, writes (f l) (g l)) →
  writes (each f b) (concat (map (λ i, g (default [] (b !! i))) (seq 0 (length b)))).
Proof.
  intros H. rewrite <- (seq_lookup_map [] g b). apply writes_each, Forall_forall. by intros.
Qed.

Lemma steps_map step len : steps step len = map (λ i, (i * step)%nat) (seq 0 ((len + step - 1) / step)).
Proof. reflexivity. Qed.
Lemma writes_steps {f : nat → St Writer written} {g : nat → list token} step len n :
  ((len + step - 1) / step = n)%nat → (∀ i, (i < n)%nat → writes (f (i * step)%nat) (g i)) →
  writes (each f (steps step len)) (concat (map g (seq 0 n))).
Proof.
  intros Hn H. rewrite steps_map, Hn.
  assert (∀ l, Forall (λ i, writes (f (i * step)%nat) (g i)) l →
    writes (each f (map (λ i, (i * step)%nat) l)) (concat (map g l))) as Hall.
  { induction 1 as [|i l Hi _ IH]; [intros out; cbn; by rewrite app_nil_r|]. cbn [map each concat]. by apply writes_then. }
  apply Hall, Forall_seq. intros i Hi. apply H. lia.
Qed.

Lemma writes_compact_row b w i :
  rectangular w b → (2 * i < length b)%nat →
  writes (each (λ ct : nat * bool,
            match b !! S (i * 2) with
            | None => write (compact_cell ct.2 false)
            | Some below => match below !! ct.1 with
                            | Some bottomDark => write (compact_cell ct.2 bottomDark)
                            | None => ret WPanic
                            end
            end) (imap pair (default [] (b !! (i * 2)%nat))))
    (map (λ j, TGlyph (compact_glyph (module_at b (2 * i) j) (module_at b (2 * i + 1) j))) (seq 0 w)).
Proof.
  intros Hr Hi. rewrite Nat.mul_comm. rewrite (imap_seq false), (rectangular_row w) by done.
  eapply writes_eq; [apply concat_singleton|].
  assert (∀ l, Forall (λ j, (j < w)%nat) l →
    writes (each (λ ct : nat * bool,
            match b !! S (2 * i) with
            | None => write (compact_cell ct.2 false)
            | Some below => match below !! ct.1 with
                            | Some bottomDark => write (compact_cell ct.2 bottomDark)
                            | None => ret WPanic
                            end
            end) (map (λ j, (j, default false (default [] (b !! (2 * i)%nat) !! j))) l))
    (concat (map (λ j, [TGlyph (compact_glyph (module_at b (2 * i) j) (module_at b (2 * i + 1) j))]) l))) as Hall.
  { induction 1 as [|j l Hj _ IH]; [intros out; cbn; by rewrite app_nil_r|]. cbn [map each concat].
    apply writes_then; [|exact IH]. cbn [fst snd]. rewrite <- module_at_row.
    rewrite (module_at_row b (2 * i + 1)), Nat.add_1_r.
    destruct (b !! S (2 * i)) as [below|] eqn:E; cbn [default from_option id].
    - assert (length below = w) as Hlen.
      { unfold rectangular in Hr. rewrite Forall_forall in Hr. by eapply Hr, list_elem_of_lookup_2. }
      destruct (lookup_lt_is_Some_2 below j) as [d Hd]; [by rewrite Hlen|]. rewrite Hd. simpl.
      apply writes_write, compact_str.
    - apply writes_write, compact_str. }
  apply Hall, Forall_seq. lia.
Qed.

Lemma append_nothing s : s +:+ "" = s.
Proof. induction s as [|c s IH]; [done|]. change (String c (s +:+ "") = String c s). by rewrite IH. Qed.

Lemma writes_render mode b w indent :
  rectangular w b →
  writes (render_bitmap mode b indent)
    (concat (map (λ i, line_tokens indent [] (line_body mode b w i)) (seq 0 (line_count mode (length b))))).
Proof.
  intros Hr. destruct mode; cbn [render_bitmap line_count].
  - apply (writes_rows _ (λ l, line_tokens indent [] (concat (map camera_tokens l)))). intros l.
    rewrite <- (append_nothing (Repeat " " indent)).
    apply (line_writes indent [] ""); [done|]. apply writes_each, Forall_forall. intros d _. by destruct d; apply writes_write.
  - apply (writes_rows _ (λ l, line_tokens indent [] ([TStyle Ink] ++ concat (map large_tokens l)))). intros l.
    apply line_writes; [done|]. apply writes_each, Forall_forall. intros d _. by destruct d; apply writes_write.
  - apply writes_steps; [f_equal; lia|]. intros i Hi%half_lt.
    apply (line_writes indent [TStyle Ink]); [done|]. by apply writes_compact_row.
  - apply writes_steps; [f_equal; lia|]. intros i Hi%quarter_lt.
    apply (line_writes indent [TStyle Ink]); [done|]. eapply writes_eq; [apply concat_singleton|].
    apply writes_steps.
    + rewrite rectangular_row with (w := w) by (done || lia). f_equal. lia.
    + intros j _. rewrite (Nat.mul_comm i), (Nat.mul_comm j). apply writes_write, braille_str.
Qed.

(** ** What is shown *)

Definition in_colour (s : style) : bool := match s with Uncoloured => false | _ => true end.

Lemma camera_cells s l :
  coloured s (concat (map camera_tokens l)) = true
  ∧ (cells s (concat (map camera_tokens l))).2
    = concat (map (λ d : bool, let c := (if d then BlackCells else WhiteCells, GSpace) in [c; c]) l).
Proof.
  revert s. induction l as [|d l IH]; intros s; [done|]. cbn [map concat camera_tokens app].
  destruct (IH (if d then BlackCells else WhiteCells)) as [H1 H2]. destruct d; cbn; rewrite H1, H2; done.
Qed.
Lemma large_cells l :
  coloured Ink (concat (map large_tokens l)) = true
  ∧ (cells Ink (concat (map large_tokens l))).2
    = concat (map (λ d : bool, let c := (Ink, if d then GFull else GSpace) in [c; c]) l).
Proof. induction l as [|d l [H1 H2]]; [done|]. cbn. by rewrite H1, H2. Qed.
Lemma glyph_cells {A} (g : A → glyph) l :
  coloured Ink (map (λ j, TGlyph (g j)) l) = true ∧ (cells Ink (map (λ j, TGlyph (g j)) l)).2 = map (λ j, (Ink, g j)) l.
Proof. induction l as [|d l [H1 H2]]; [done|]. cbn. by rewrite H1, H2. Qed.

Lemma line_cells mode b w i :
  rectangular w b → (i < line_count mode (length b))%nat →
  coloured Uncoloured (line_body mode b w i) = true
  ∧ (cells Uncoloured (line_body mode b w i)).2 = map (cell_at mode b i) (seq 0 (column_count mode w)).
Proof.
  intros Hr Hi. destruct mode; cbn [line_body line_count column_count cells coloured] in *.
  - destruct (camera_cells Uncoloured (default [] (b !! i))) as [H1 H2]. split; [done|].
    rewrite H2, (twice_seq false (λ d : bool, (if d then BlackCells else WhiteCells, GSpace))).
    rewrite (rectangular_row w) by done. apply map_ext. intros j. unfold cell_at. by rewrite module_at_row.
  - destruct (large_cells (default [] (b !! i))) as [H1 H2]. split; [done|].
    rewrite H2, (twice_seq false (λ d : bool, (Ink, if d then GFull else GSpace))).
    rewrite (rectangular_row w) by done. apply map_ext. intros j. unfold cell_at. by rewrite module_at_row.
  - apply glyph_cells.
  - apply glyph_cells.
Qed.

Lemma ok_list l : forallb (λ t, match t with TGlyph (GBraille _) => false | _ => true end) l = true → Forall token_ok l.
Proof.
  intros H. apply Forall_forall. intros t Ht. rewrite forallb_forall in H. apply list_elem_of_In, H in Ht.
  by destruct t as [[]| |].
Qed.

Lemma line_ok mode b w indent i : Forall token_ok (line_tokens indent [] (line_body mode b w i)).
Proof.
  unfold line_tokens. apply Forall_app. split; [by apply Forall_replicate|]. cbn [app].
  apply Forall_app. split; [|by apply ok_list]. destruct mode; cbn [line_body].
  - apply Forall_concat, Forall_map, Forall_forall. intros d _. by destruct d; apply ok_list.
  - constructor; [done|]. apply Forall_concat, Forall_map, Forall_forall. intros d _. by destruct d; apply ok_list.
  - constructor; [done|]. apply Forall_map, Forall_forall. intros j _. simpl.
    by destruct (module_at b _ _), (module_at b _ _).
  - constructor; [done|]. apply Forall_map, Forall_forall. intros j _. simpl.
    destruct (braille_bits b (i + (i + (i + (i + 0)))) (j + (j + 0))) as [H _]. lia.
Qed.

Lemma screen_render mode b w indent :
  rectangular w b →
  render_bitmap mode b indent (mkWriter [] []) =
    (WOk, mkWriter (show (concat (map (λ i, line_tokens indent [] (line_body mode b w i))
                                    (seq 0 (line_count mode (length b)))))) [])
  ∧ read_screen (show (concat (map (λ i, line_tokens indent [] (line_body mode b w i))
                                 (seq 0 (line_count mode (length b))))))
    = Some (grid mode b (line_count mode (length b)) (column_count mode w)).
Proof.
  intros Hr. split; [by rewrite (writes_render mode b w indent Hr)|].
  rewrite read_screen_show by (apply Forall_concat, Forall_map, Forall_forall; intros i _; apply line_ok).
  f_equal. rewrite screen_all.
  - apply map_ext_in. intros i Hi%list_elem_of_In%elem_of_seq. apply line_cells; [done|lia].
  - apply Forall_seq. intros i Hi. apply line_cells; [done|lia].
Qed.

(** ** The dots are the modules *)

Lemma half_index i r : (r < 4)%nat → ((4 * i + r) / 2 = if r <? 2 then 2 * i else 2 * i + 1)%nat.
Proof.
  intros Hr. symmetry. destruct (Nat.ltb_spec r 2).
  - apply (Nat.div_unique _ _ _ r); lia.
  - apply (Nat.div_unique _ _ _ (r - 2)); lia.
Qed.

Lemma dot_module mode b i j r k :
  (r < 4)%nat → (k < 2)%nat →
  dot (cell_at mode b i j) r k
  = module_at b ((4 * i + r) / (module_size mode).1) ((2 * j + k) / (module_size mode).2).
Proof.
  intros Hr Hk.
  assert ((2 * j + k) / 2 = j)%nat as Hj by (symmetry; apply (Nat.div_unique _ _ _ k); lia).
  assert ((2 * j + k) / 4 = j / 2)%nat as Hj4.
  { change 4%nat with (2 * 2)%nat. by rewrite <- Nat.Div0.div_div, Hj. }
  assert ((4 * i + r) / 4 = i)%nat as Hi by (symmetry; apply (Nat.div_unique _ _ _ r); lia).
  destruct mode; cbn [module_size fst snd cell_at].
  - rewrite Hi, Hj4. unfold dot. simpl. by destruct (module_at _ _ _).
  - rewrite Hi, Hj4. unfold dot. simpl. by destruct (module_at _ _ _).
  - rewrite Hj, (half_index i r Hr). unfold dot. cbn [fst snd].
    destruct (r <? 2)%nat eqn:E; destruct (module_at b (2 * i) j), (module_at b (2 * i + 1) j); cbn; by rewrite ?E.
  - rewrite !Nat.div_1_r. unfold dot. cbn [fst snd]. rewrite (proj2 (braille_bits _ _ _)) by done.
    by destruct (module_at _ _ _).
Qed.

Lemma pixel_grid mode b rows columns y x :
  (y < 4 * rows)%nat → (x < 2 * columns)%nat →
  pixel (grid mode b rows columns) y x
  = Some (module_at b (y / (module_size mode).1) (x / (module_size mode).2)).
Proof.
  intros Hy Hx. unfold pixel, grid. change (map ?f ?l) with (f <$> l).
  assert (y / 4 < rows)%nat by (apply Nat.Div0.div_lt_upper_bound; lia).
  assert (x / 2 < columns)%nat by (apply Nat.Div0.div_lt_upper_bound; lia).
  rewrite list_lookup_fmap, lookup_seq_lt by done. cbn [fmap option_fmap option_map mbind option_bind Nat.add].
  rewrite list_lookup_fmap, lookup_seq_lt by done. cbn [fmap option_fmap option_map mbind option_bind Nat.add]. f_equal.
  pose proof (Nat.mod_upper_bound y 4). pose proof (Nat.mod_upper_bound x 2).
  rewrite dot_module by lia. by rewrite <- !Nat.div_mod_eq.
Qed.

(** ** The image *)

Definition shade_of (dark : bool) : Z := if dark then 0%Z else 255%Z.

Lemma set_row_lookup (a n y : nat) (s : Z) (img : gmap (nat * nat) Z) (x' y' : nat) :
  foldl (λ (img : gmap (nat * nat) Z) x, <[(x, y) := s]> img) img (seq a n) !! (x', y')
  = if decide (y = y' ∧ a ≤ x' < a + n)%nat then Some s else img !! (x', y').
Proof.
  revert a img. induction n as [|n IH]; intros a img; cbn [seq foldl].
  - case_decide; [lia|done].
  - rewrite IH, lookup_insert.
    destruct (decide (y = y' ∧ S a ≤ x' < S a + n)%nat), (decide (y = y' ∧ a ≤ x' < a + S n)%nat); try done; try lia.
    + assert (a = x' ∧ y = y') as [-> ->] by lia. by rewrite decide_True.
    + rewrite decide_False; [done|]. intros [= -> ->]. lia.
Qed.
Lemma set_block_lookup (c p r n : nat) (s : Z) (img : gmap (nat * nat) Z) (x' y' : nat) :
  foldl (λ (img : gmap (nat * nat) Z) y, foldl (λ (img : gmap (nat * nat) Z) x, <[(x, y) := s]> img) img (seq c p)) img (seq r n) !! (x', y')
  = if decide (r ≤ y' < r + n ∧ c ≤ x' < c + p)%nat then Some s else img !! (x', y').
Proof.
  revert r img. induction n as [|n IH]; intros r img; cbn [seq foldl].
  - case_decide; [lia|done].
  - rewrite IH, set_row_lookup. repeat case_decide; (done || lia).
Qed.
Lemma block_index n k : (n * 5 ≤ k < n * 5 + 5 ↔ n = k / 5)%nat.
Proof.
  split; [intros H; apply (Nat.div_unique _ _ _ (k - n * 5)); lia|]. intros ->.
  pose proof (Nat.div_mod_eq k 5). pose proof (Nat.mod_upper_bound k 5). lia.
Qed.
Lemma set_module_lookup (row column : nat) (dark : bool) (img : gmap (nat * nat) Z) (x y : nat) :
  set_module row column dark img !! (x, y)
  = if decide (row = y / 5 ∧ column = x / 5)%nat then Some (shade_of dark) else img !! (x, y).
Proof.
  unfold set_module, modulePixels. rewrite set_block_lookup.
  pose proof (block_index row y) as Hy. pose proof (block_index column x) as Hx.
  destruct (decide (row * 5 ≤ y < row * 5 + 5 ∧ column * 5 ≤ x < column * 5 + 5)%nat),
    (decide (row = y / 5 ∧ column = x / 5)%nat); try done; [tauto|tauto].
Qed.
Lemma set_modules_lookup (row : nat) (l : list bool) (img : gmap (nat * nat) Z) (x y : nat) :
  foldl (λ (img : gmap (nat * nat) Z) cd, set_module row cd.1 cd.2 img) img (imap pair l) !! (x, y)
  = match (if decide (row = y / 5)%nat then l !! (x / 5)%nat else None) with
    | Some d => Some (shade_of d)
    | None => img !! (x, y)
    end.
Proof.
  induction l as [|d l IH] using rev_ind; [by case_decide|].
  rewrite imap_app, foldl_app. cbn [imap foldl fst snd]. rewrite set_module_lookup, IH, Nat.add_0_r.
  rewrite lookup_app. destruct (decide (row = y / 5)%nat) as [Hr|Hr]; [|by rewrite decide_False by tauto].
  destruct (l !! _) as [d'|] eqn:E; [apply lookup_lt_Some in E|apply lookup_ge_None in E].
  - rewrite decide_False; [done|]. lia.
  - destruct (decide (row = y / 5 ∧ length l = x / 5)%nat) as [H|H].
    + by replace (x / 5 - length l)%nat with 0%nat by lia.
    + destruct (x / 5 - length l)%nat as [|n] eqn:En; [lia|done].
Qed.
Lemma png_lookup b (x y : nat) :
  png_image b !! (x, y) = shade_of <$> (b !! (y / 5)%nat ≫= λ l, l !! (x / 5)%nat).
Proof.
  unfold png_image. induction b as [|l b IH] using rev_ind; [cbn [imap foldl]; by rewrite lookup_empty|].
  rewrite imap_app, foldl_app. cbn [imap foldl fst snd]. rewrite set_modules_lookup, IH, Nat.add_0_r, lookup_app.
  case_decide as Hd.
  - destruct (b !! _) as [l'|] eqn:E; [apply lookup_lt_Some in E; lia|].
    rewrite <- Hd, Nat.sub_diag. simpl. by destruct (l !! _).
  - destruct (b !! _) as [l'|] eqn:E; [done|]. apply lookup_ge_None in E.
    destruct (y / 5 - length b)%nat as [|n] eqn:En; [|done]. lia.
Qed.

(** ** No rendering panics *)

Definition calm_writer (m : St Writer written) : Prop := ∀ w, (m w).1 ≠ WPanic.

Lemma calm_write s : calm_writer (write s).
Proof. intros [out [|[n|] f]]; done. Qed.
Lemma calm_then m k : calm_writer m → calm_writer k → calm_writer (and_then m k).
Proof.
  intros Hm Hk w. unfold and_then. cbn [bind st_monad]. pose proof (Hm w).
  destruct (m w) as [[| |] w']; [apply Hk|done|done].
Qed.
Lemma calm_each {A} (f : A → St Writer written) l : (∀ x, x ∈ l → calm_writer (f x)) → calm_writer (each f l).
Proof.
  induction l as [|x l IH]; intros H; [done|]. apply calm_then; [apply H; by left|]. apply IH.
  intros y Hy. apply H. by right.
Qed.

Lemma calm_render mode b w indent : rectangular w b → calm_writer (render_bitmap mode b indent).
Proof.
  intros Hr. destruct mode; apply calm_each; intros row Hrow;
    (apply calm_then; [apply calm_write|]); (apply calm_then; [|apply calm_write]); apply calm_each;
    intros ct Hct; try apply calm_write.
  destruct (b !! S row) as [below|] eqn:E; [|apply calm_write].
  assert (length below = w) as Hlen.
  { unfold rectangular in Hr. rewrite Forall_forall in Hr. by eapply Hr, list_elem_of_lookup_2. }
  destruct (b !! row) as [l|] eqn:El; [|apply lookup_ge_None in El; apply lookup_lt_Some in E; lia].
  assert (length l = w) as Hl.
  { unfold rectangular in Hr. rewrite Forall_forall in Hr. by eapply Hr, list_elem_of_lookup_2. }
  cbn in Hct. rewrite (imap_seq false) in Hct. apply list_elem_of_In, in_map_iff in Hct as (j&<-&Hj).
  apply list_elem_of_In, elem_of_seq in Hj. cbn [fst].
  destruct (lookup_lt_is_Some_2 below j) as [d ->]; [lia|]. apply calm_write.
Qed.

(** ** The code is drawn *)

Definition matrix_dark (m : BitMatrix) (row column : nat) : bool :=
  (row <? GetHeight m)%nat && (column <? GetWidth m)%nat && GetBit m column row.

Lemma qrBitmap_shape encode content m b :
  encode content = Some m → qrBitmap encode content = Some b →
  length b = GetHeight m ∧ rectangular (GetWidth m) b ∧ (∀ i j, module_at b i j = matrix_dark m i j)
  ∧ ∀ i j, (i < GetHeight m)%nat → (j < GetWidth m)%nat → (b !! i ≫= λ l, l !! j) = Some (GetBit m j i).
Proof.
  unfold qrBitmap. intros ->. cbn [fmap option_fmap option_map]. intros [= <-].
  assert (∀ i, map (λ row, map (λ column, GetBit m column row) (seq 0 (GetWidth m))) (seq 0 (GetHeight m)) !! i
    = if decide (i < GetHeight m)%nat then Some (map (λ column, GetBit m column i) (seq 0 (GetWidth m))) else None) as Hrow.
  { intros i. change (map ?f ?l) with (f <$> l). rewrite list_lookup_fmap.
    case_decide; [by rewrite lookup_seq_lt|by rewrite lookup_seq_ge by lia]. }
  assert (∀ i j, map (λ column, GetBit m column i) (seq 0 (GetWidth m)) !! j
    = if decide (j < GetWidth m)%nat then Some (GetBit m j i) else None) as Hcol.
  { intros i j. change (map ?f ?l) with (f <$> l). rewrite list_lookup_fmap.
    case_decide; [by rewrite lookup_seq_lt|by rewrite lookup_seq_ge by lia]. }
  split_and!.
  - by rewrite length_map, length_seq.
  - apply Forall_map, Forall_forall. intros i _. simpl. by rewrite length_map, length_seq.
  - intros i j. unfold module_at, matrix_dark. rewrite Hrow.
    destruct (Nat.ltb_spec i (GetHeight m)); case_decide; try lia; [|done].
    cbn [mbind option_bind]. rewrite Hcol. destruct (Nat.ltb_spec j (GetWidth m)); case_decide; try lia; done.
  - intros i j Hi Hj. rewrite Hrow, decide_True by done. cbn [mbind option_bind]. by rewrite Hcol, decide_True.
Qed.

Lemma picture_fits mode h w :
  (h * (module_size mode).1 ≤ 4 * line_count mode h)%nat ∧ (w * (module_size mode).2 ≤ 2 * column_count mode w)%nat.
Proof.
  pose proof (Nat.div_mod_eq (h + 1) 2). pose proof (Nat.mod_upper_bound (h + 1) 2).
  pose proof (Nat.div_mod_eq (h + 3) 4). pose proof (Nat.mod_upper_bound (h + 3) 4).
  pose proof (Nat.div_mod_eq (w + 1) 2). pose proof (Nat.mod_upper_bound (w + 1) 2).
  destruct mode; cbn [module_size line_count column_count fst snd]; lia.
Qed.

(** C40. A pairing link's code is drawn as it is: in each of the four renderings a
    terminal shows every module, as dots of the same size, dark where the code is
    dark and light where it is light or outside of it, and the PNG has a square
    of five black or white pixels for each module; and no rendering panics,
    whatever writes fail. *)
Theorem pairing_code_drawn encode content mode indent m :
  encode content = Some m →
  (∀ w, (renderTerminalQR encode content mode indent w).1 ≠ WPanic)
  ∧ (∃ out screen, renderTerminalQR encode content mode indent (mkWriter [] []) = (WOk, mkWriter out [])
      ∧ read_screen out = Some screen
      ∧ (GetHeight m * (module_size mode).1 ≤ 4 * length screen)%nat
      ∧ ∃ columns, Forall (λ line, length line = columns) screen
          ∧ (GetWidth m * (module_size mode).2 ≤ 2 * columns)%nat
          ∧ ∀ y x, (y < 4 * length screen)%nat → (x < 2 * columns)%nat →
              pixel screen y x = Some (matrix_dark m (y / (module_size mode).1) (x / (module_size mode).2)))
  ∧ ∃ b, qrBitmap encode content = Some b
      ∧ ∀ x y, (x < 5 * GetWidth m)%nat → (y < 5 * GetHeight m)%nat →
          png_image b !! (x, y) = Some (shade_of (GetBit m (x / 5) (y / 5))).
Proof.
  intros Hm. destruct (qrBitmap encode content) as [b|] eqn:Eb; [|by unfold qrBitmap in Eb; rewrite Hm in Eb].
  destruct (qrBitmap_shape _ _ _ _ Hm Eb) as (Hlen&Hr&Hdark&Hin). unfold renderTerminalQR. rewrite Eb.
  destruct (picture_fits mode (GetHeight m) (GetWidth m)) as [Hh Hw]. split_and!.
  - by eapply calm_render.
  - destruct (screen_render mode b _ indent Hr) as [-> Hscreen]. do 2 eexists. split; [done|]. split; [exact Hscreen|].
    rewrite Hlen. unfold grid at 1. rewrite length_map, length_seq. split; [done|].
    exists (column_count mode (GetWidth m)). split; [|split; [done|]].
    + apply Forall_map, Forall_forall. intros i _. simpl. by rewrite length_map, length_seq.
    + intros y x Hy Hx. unfold grid in Hy. rewrite length_map, length_seq in Hy. rewrite pixel_grid by done. by rewrite Hdark.
  - exists b. split; [done|]. intros x y Hx Hy. rewrite png_lookup, Hin; [done|..]; apply Nat.Div0.div_lt_upper_bound; lia.
Qed.

(** ** The address of a link *)

(** detectLANIPv4 takes the best address there is, the first of the best. *)
Lemma better_best l best :
  ∃ r, foldl better best l = r
  ∧ match r with
    | None => best = None ∧ l = []
    | Some c => (best = Some c ∧ Forall (λ x, (x.2 ≤ c.2)%Z) l)
        ∨ ∃ l1 l2, l = l1 ++ c :: l2 ∧ Forall (λ x, (x.2 < c.2)%Z) l1 ∧ Forall (λ x, (x.2 ≤ c.2)%Z) l2
            ∧ ∀ b, best = Some b → (b.2 < c.2)%Z
    end.
Proof.
  eexists. split; [done|]. revert best. induction l as [|x l IH]; intros best; cbn [foldl].
  { destruct best; [by left|done]. }
  specialize (IH (better best x)). destruct (foldl better (better best x) l) as [c|].
  2:{ destruct IH as [Hb _]. destruct best as [b|]; [|done]. unfold better in Hb. by destruct (_ <? _)%Z. }
  destruct IH as [[Hb Hl]|(l1&l2&->&H1&H2&Hlt)].
  - unfold better in Hb. destruct best as [b|]; [destruct (Z.ltb_spec b.2 x.2)|]; injection Hb as <-.
    + right. exists [], l. split_and!; [done..|]. by intros ? [= <-].
    + left. split; [done|]. by constructor.
    + right. exists [], l. by split_and!.
  - right. exists (x :: l1), l2. split_and!; [done| |done|].
    + constructor; [|done]. unfold better in Hlt. destruct best as [b|]; [destruct (Z.ltb_spec b.2 x.2)|].
      * by apply Hlt.
      * specialize (Hlt b eq_refl). lia.
      * by apply Hlt.
    + intros b ->. unfold better in Hlt. destruct (Z.ltb_spec b.2 x.2); [specialize (Hlt x eq_refl); lia|by apply Hlt].
Qed.

Lemma detectLANIPv4_best interfaces ip :
  detectLANIPv4 (Some interfaces) = Some ip →
  ∃ l1 l2 score, interfaces ≫= candidates = l1 ++ (ip, score) :: l2
    ∧ Forall (λ x, (x.2 < score)%Z) l1 ∧ Forall (λ x, (x.2 ≤ score)%Z) l2.
Proof.
  unfold detectLANIPv4. cbn [mbind option_bind]. intros H.
  destruct (better_best (interfaces ≫= candidates) None) as (r&Hr&Hbest). rewrite Hr in H.
  destruct r as [[ip' score]|]; [|done]. injection H as ->.
  destruct Hbest as [[? _]|(l1&l2&E&H1&H2&_)]; [done|]. by exists l1, l2, score.
Qed.
