(* ===== verification/Scenario.v ===== *)
(** * A concrete session with the relay

    A small database built by the store's own calls, and the instances of the
    library's theorems on it and on a small hub: every hypothesis a theorem
    makes holds of a state the program reaches. *)

From S2P Require Import Prelude GoStd GoTime Json Protocol Envelope Payloads.
From S2P Require Import Sql Tables RuntimeDB RuntimeSql RuntimeHistory RunStore Outbox Bootstrap Listing RuntimeStore.
From S2P Require Import RunSpec EventSpec Threads Hub Router HubSafety Gateway Coordinator CoordSpec PgStore.
#[local] Open Scope string_scope.

#[local] Existing Instance plain_jsonb.
#[local] Existing Instance byte_collation.

(** A project and a session, by their calls. *)
Definition session_calls : list Call :=
  [CUpsertProjects 1000 [mkProject "p" "Project"];
   CCreateSession 2000 [1] "p" "title" "key" "hash"]%Z.
Definition db_session : DB := Eval vm_compute in w_db (run_calls session_calls (calm empty_db)).

(** A run of that session as well. *)
Definition run_call1 : Call := (CCreateRun 3000 [2] [3] "session_01" "do it" "profile" "k" "h")%Z.
Definition db_run : DB := Eval vm_compute in w_db (run_calls (session_calls ++ [run_call1]) (calm empty_db)).

Lemma rely_none (R : relation DB) (d : DB) fs : rely R (mkWorld d fs []).
Proof. constructor. Qed.

(** Another client that changes nothing. *)
Lemma rely_idle (R : relation DB) `{!PreOrder R} (d : DB) fs : rely R (mkWorld d fs [id]).
Proof. constructor; [intros d'; reflexivity|constructor]. Qed.

Lemma db_session_wf : db_wf db_session.
Proof.
  change db_session with (w_db (run_calls session_calls (calm empty_db))).
  apply run_calls_good; [apply rely_none|exact empty_db_wf].
Qed.
Lemma db_run_wf : db_wf db_run.
Proof.
  change db_run with (w_db (run_calls (session_calls ++ [run_call1]) (calm empty_db))).
  apply run_calls_good; [apply rely_none|exact empty_db_wf].
Qed.

(** ** The run operations *)

(** A world with no other clients in which the third round trip loses its reply. *)
Definition flaky (d : DB) : World DB := mkWorld d [Done; Done; Done; LostReply] [].

Lemma CreateRun_spec_witness :
  let call := CreateRun 3000 [2%Z] [3%Z] "session_01" "do it" "profile" "k" "h" in
  w_env (flaky db_session) = [] ∧
  create_run_outcome 3000 [2%Z] [3%Z] "session_01" "do it" "profile" "k" "h" db_session
    (call (flaky db_session)).1 (w_db (call (flaky db_session)).2).
Proof.
  split; [reflexivity|].
  apply (CreateRun_spec 3000 [2%Z] [3%Z] "session_01" "do it" "profile" "k" "h" (flaky db_session));
    [reflexivity|apply surjective_pairing].
Defined.

(** The commit of the first call loses its reply; the run is there all the same. *)
Definition lost_commit : World DB :=
  mkWorld db_session [Done; Done; Done; Done; Done; Done; Done; Done; LostReply] [].

Lemma CreateRun_retry_witness :
  let call := CreateRun 3000 [2%Z] [3%Z] "session_01" "do it" "profile" "k" "h" in
  db_error (call lost_commit).1 ∧
  ∃ w2, CreateRun 4000 [4%Z] [5%Z] "session_01" "do it" "profile" "k" "h" (calm (w_db (call lost_commit).2))
        = (Ok (created_before 3000 [2%Z] "session_01" "do it" "profile" "k" "h"), w2)
        ∧ w_db w2 = w_db (call lost_commit).2.
Proof.
  split; [exists IOFailure; vm_compute; reflexivity|].
  apply (CreateRun_retry 3000 [2%Z] [3%Z] "session_01" "do it" "profile" "k" "h" lost_commit
           (CreateRun 3000 [2%Z] [3%Z] "session_01" "do it" "profile" "k" "h" lost_commit).1).
  - reflexivity.
  - apply surjective_pairing.
  - intros H. apply (f_equal (λ d, bool_decide (runs d = ∅))) in H. vm_compute in H. discriminate H.
Defined.

Lemma session_bound :
  ∃ s, sessions db_session !! "session_01" = Some s ∧ se_key s = Some "key" ∧ se_hash s = Some "hash".
Proof.
  destruct (sessions db_session !! "session_01") as [s|] eqn:Es; [|vm_compute in Es; discriminate Es].
  exists s. split; [reflexivity|]. vm_compute in Es. injection Es as <-. split; reflexivity.
Qed.

Lemma CreateSession_idempotent_witness :
  let call := CreateSession 5000 [9%Z] "p" "title" "key" "hash" in
  ∃ x created w', call (mkWorld db_session [] [id]) = (Ok (x, created), w') ∧
    created = false ∧ s_ID x = "session_01" ∧ "hash" = "hash".
Proof.
  intros call.
  destruct (call (mkWorld db_session [] [id])) as [[[x created]|e] w'] eqn:E;
    [|exfalso; vm_compute in E; discriminate E].
  exists x, created, w'. split; [reflexivity|].
  apply (CreateSession_idempotent 5000 [9%Z] "p" "title" "key" "hash" "session_01" "hash"
           (mkWorld db_session [] [id]) x created w'); [|exact E].
  split; [exact (rely_idle good db_session [])|split; [exact db_session_wf|]].
  exact session_bound.
Defined.

Definition started_payload : RawMessage :=
  Raw (JObj [("thread_id", JStr "thread"); ("turn_id", JStr "turn")]).

Lemma AppendAgentEvent_spec_witness :
  let call := AppendAgentEvent 6000 6500 "run_02" 1 "turn.started" started_payload "" in
  let w' := (call (calm db_run)).2 in
  w_env (calm db_run) = [] ∧
  ((w_db w' = db_run ∧
     (db_error (call (calm db_run)).1 ∨
      (is_Some (rows (run_events db_run) "run_02" !! 1%Z) ∧
       (∀ r, runs db_run !! "run_02" = Some r → (call (calm db_run)).1 = Ok (scanRun "run_02" r)))))
   ∨ (∃ p0 p r, started_payload = Raw p0 ∧ jsonb p0 = Some p ∧ runs db_run !! "run_02" = Some r
        ∧ (0 < 1)%Z ∧ rows (run_events db_run) "run_02" !! 1%Z = None
        ∧ event_applied 6000 6500 "run_02" 1 "turn.started" started_payload "" r p db_run (w_db w')
        ∧ (db_error (call (calm db_run)).1 ∨
           (call (calm db_run)).1
             = Ok (scanRun "run_02" (advance_run 6000 1 "turn.started" (tr_TurnID (turn_ref started_payload)) r))))).
Proof.
  intros call w'. split; [reflexivity|].
  apply (AppendAgentEvent_spec 6000 6500 "run_02" 1 "turn.started" started_payload "" (calm db_run));
    [reflexivity|apply surjective_pairing].
Defined.

(** ** The hub *)

Definition env0 : Env := mkEnv 1000000000 (λ n, [Z.of_nat n]) 0.
Lemma env0_ok : env_ok env0.
Proof. split; [unfold printable_time; vm_compute; by split| |]; done. Qed.
Definition hub0 : HubState := mkHub ∅ NewRegistry 64 [] env0.
Definition no_observer : option (Observer unit) := None.
Definition no_text (_ : invalid) : string := "invalid message".
Definition frame_size (_ : json) : Z := 100.
Definition utc (_ : Message) : Z := 0.

Definition app_message (type : string) : json :=
  JObj [("spec_version", JStr "2.0"); ("message_id", JStr "m"); ("type", JStr type);
        ("occurred_at", JStr "2024-05-01T10:00:00Z"); ("trace_id", JStr "trace");
        ("sender", JObj [("kind", JStr "device"); ("id", JStr "forged")]); ("payload", JObj [])].

(** The Agent and the App connect; the App asks for the threads and claims to
    be a device. *)
Definition hub1 := (open_connection no_observer 1 RoleAgent (hub0, tt)).2.
Definition hub2 := (open_connection no_observer 2 RoleApp hub1).2.
Definition ask_threads : Frame := TextFrame (Some (app_message TypeThreadList)).
Definition hub3 := (read_turn (M := RSt unit) no_observer no_text 2 RoleApp ask_threads hub2).2.
(** Their handlers, reading on. *)
Definition readers : list (Thread (O := unit)) :=
  [mkThread (Some (1%Z, RoleAgent)) (Finished true); mkThread (Some (2%Z, RoleApp)) (Finished true)].

Lemma hub3_reachable : rtc (hub_step no_observer no_text utc frame_size 1000) (hub0, tt, []) (hub3, readers).
Proof.
  etrans; [apply (ServeRole_alone no_observer no_text utc frame_size 1000 1 RoleAgent (hub0, tt) []); [by right|done]|].
  etrans; [apply (ServeRole_alone no_observer no_text utc frame_size 1000 2 RoleApp hub1); [by left|done]|].
  exact (read_turn_alone no_observer no_text utc frame_size 1000 1 2 RoleApp ask_threads hub2 readers eq_refl).
Qed.
Lemma hub0_initial : initial_hub (hub0, tt, [] : list (Thread (O := unit))).
Proof. split; [|split]; reflexivity. Qed.

Definition forwarded : Message :=
  mkMessage "2.0" "m" TypeThreadList 1714557600000000000 "trace" (mkSender "user" "local-user") (Raw (JObj [])) 0.

Lemma hub_provenance_witness :
  hub_peers hub3.1 !! 1%Z = Some (mkPeer RoleAgent [forwarded] false) ∧
  (Kind (m_Sender forwarded) = "relay" ∨
   (m_Sender forwarded = CanonicalSender RoleApp ∧ AllowedFrom RoleApp (m_Type forwarded) = true ∧
    (RoleAgent = RoleAgent → m_Type forwarded ≠ TypeSourceRead))).
Proof.
  split; [vm_compute; reflexivity|].
  apply (hub_provenance no_observer no_text utc frame_size 1000 I (hub0, tt, []) (hub3, readers) 1
           (mkPeer RoleAgent [forwarded] false) forwarded).
  - exact hub0_initial.
  - exact hub3_reachable.
  - vm_compute; reflexivity.
  - left.
Defined.

(** The Agent connects again while its first connection is open: its peer is
    there, its handler about to register it. *)
Definition again : RState unit * list (Thread (O := unit)) :=
  ((on_hub (accept 3 RoleAgent) hub3).2, (readers ++ [mkThread (Some (3%Z, RoleAgent)) (ServeRole no_observer 3 RoleAgent)])%list).

Lemma hub_single_connection_witness :
  let h := again.1.1 in
  (peer_closed <$> hub_peers h !! 1%Z = Some false ∧ peer_closed <$> hub_peers h !! 3%Z = Some false
   ∧ current RoleAgent (hub_registry h) = Some 1%Z)
  ∧ (∀ id p, hub_peers h !! id = Some p → peer_closed p = false →
       current (peer_role p) (hub_registry h) = Some id
       ∨ Exists (registers id (peer_role p)) again.2 ∨ Exists (closes id) again.2)
  ∧ (Forall idle again.2 → ∀ i j p q, hub_peers h !! i = Some p → hub_peers h !! j = Some q →
       peer_role p = peer_role q → peer_closed p = false → peer_closed q = false →
       i = j ∧ current (peer_role p) (hub_registry h) = Some i)
  ∧ (∀ role id, current role (hub_registry h) = Some id →
       ∃ p, hub_peers h !! id = Some p ∧ peer_role p = role)
  ∧ (∀ id p, hub_peers h !! id = Some p → (length (peer_queue p) ≤ hub_capacity h)%nat).
Proof.
  split; [vm_compute; split; [|split]; reflexivity|].
  apply (hub_single_connection no_observer no_text utc frame_size 1000 I (hub0, tt, []) again).
  - exact hub0_initial.
  - eapply rtc_r; [exact hub3_reachable|]. apply (step_accept no_observer no_text utc frame_size 1000 3 RoleAgent hub3).
    + right. reflexivity.
    + vm_compute. reflexivity.
Defined.

Lemma hub_frames_decode_witness :
  hub_peers hub3.1 !! 1%Z = Some (mkPeer RoleAgent [forwarded] false) ∧
  (∀ m, m ∈ [forwarded] → Validate m = Ok tt ∧ in_int64 (m_AgentSequence m) = true)
  ∧ (∀ ok j h', write_message utc frame_size 1000 ok 1 hub3.1 = (Some j, h') →
       (frame_size j ≤ 1000)%Z ∧ ∃ m rest, [forwarded] = m :: rest ∧ Decode (Some j) = Ok m
       ∧ hub_peers h' !! 1%Z = Some (mkPeer RoleAgent rest false)).
Proof.
  assert (hub_peers hub3.1 !! 1%Z = Some (mkPeer RoleAgent [forwarded] false)) as Hp by (vm_compute; reflexivity).
  split; [exact Hp|].
  exact (hub_frames_decode no_observer no_text utc frame_size 1000 I (hub0, tt, []) (hub3, readers) 1 _
           (λ _, eq_refl) hub0_initial hub3_reachable Hp).
Defined.

(** ** The source gateway: the Agent answers the request under its trace id *)

Definition request : json := JObj [].
Definition gate0 : Gate := @mkGate SourceResult hub3.1 ∅ ∅ [].
Definition start0 := start_request (Err ErrSourceAgentOffline) (Err ErrSourceBusy) (Err ErrSourceUnavailable : SourceResult)
                       TypeSourceRead request (hub3.1, ∅).
Definition trace0 : string := Eval vm_compute in match start0.1 with Waiting t => t | Gateway.Failed _ => "" end.
Definition answer0 : SourceResult := Err (SourceRemoteError "NOT_FOUND" "no such file").
Definition answer_message : Message :=
  mkMessage "2.0" "a" TypeSourceReadFailed 1714557600000000000 trace0 (mkSender "device" "local-mac")
    (Raw (JObj [("code", JStr "NOT_FOUND"); ("message", JStr "no such file")])) 0.
Definition gate2 : Gate :=
  mkGate start0.2.1 (SourceHandle answer_message start0.2.2).2 (offered answer_message (<[trace0 := []]> ∅)) [].

Lemma gate2_reachable :
  rtc (gate_step (Err ErrSourceAgentOffline) (Err ErrSourceBusy) (Err ErrSourceUnavailable) (Err SourceContextDone)
         TypeSourceRead) gate0 gate2.
Proof.
  eapply rtc_l; [apply (gate_wait _ _ _ _ TypeSourceRead request hub3.1 ∅ ∅ [] trace0 start0.2.1 start0.2.2)|].
  - reflexivity.
  - vm_compute; reflexivity.
  - apply rtc_once. exact (gate_answer _ _ _ _ _ answer_message _ _ _ _).
Qed.

Lemma gateway_correct_witness :
  (size (gate_waiters gate2) ≤ 16)%nat ∧ dom (gate_waiters gate2) = dom (gate_answers gate2) ∧
  (∀ t l done_ prefer r g', gate_answers gate2 !! t = Some l →
     finish_request (Err SourceContextDone) done_ prefer t (gate_waiters gate2) = (Some r, g') →
     r = Err SourceContextDone ∨ head l = Some r)
  ∧ finish_request (Err SourceContextDone) false false trace0 (gate_waiters gate2) = (Some answer0, ∅).
Proof.
  destruct (gateway_correct (Err ErrSourceAgentOffline) (Err ErrSourceBusy) (Err ErrSourceUnavailable)
    (Err SourceContextDone) TypeSourceRead gate0 gate2 (conj eq_refl eq_refl) gate2_reachable) as (H1&H2&H3&_).
  split; [exact H1|split; [exact H2|split; [exact H3|]]]. vm_compute; reflexivity.
Defined.

(** ** The coordinator over PostgresStore, with a broker that accepts everything *)

#[local] Instance open_broker : BrokerI unit := {|
  b_AppendRunEvent _ _ _ _ _ := ret true; b_NotifyRun _ := ret tt; b_NotifySession _ := ret tt;
  b_SetAgentPresence _ := ret tt |}.

Definition coord0 : Coord (World DB) unit := mkCoord (calm db_run) tt ∅ ∅ ∅ "worker" 7000 [].
Definition agent_event : Message :=
  mkMessage "2.0" "e" TypeTurnStarted 1714557600000000000 "run_02" (mkSender "device" "local-mac") started_payload 1.

Lemma durable_ack_sound_witness :
  let s' := (Handle (M := RSt (Coord (World DB) unit)) (Some coordinator) 1 RoleAgent agent_event (hub3.1, coord0)).2 in
  existsb (λ m, String.eqb (m_Type m) TypeRuntimeDurableAck)
    (default [] (peer_queue <$> hub_peers s'.1 !! 1%Z)) = true ∧
  queues_get (answer_ok 1 agent_event (hub3.1, coord0) s') hub3.1 s'.1.
Proof.
  split; [vm_compute; reflexivity|].
  apply (durable_ack_sound (W := World DB) (B := unit) 1 agent_event (hub3.1, coord0)). exact (rely_none keeps_events db_run []).
Defined.
