(* ===== verification/SyncScenario.v ===== *)
(** * A concrete outbox and a concrete bootstrap

    The instances of the theorems on cancellation, the command outbox, the sync
    jobs and the bootstrap import, on databases the store's own calls build. *)

From S2P Require Import Prelude GoStd GoTime Json Payloads.
From S2P Require Import Sql Tables RuntimeDB RuntimeSql RuntimeHistory RunStore Outbox Bootstrap Listing RuntimeStore.
From S2P Require Import RunSpec EventSpec OutboxSpec SyncSpec ImportSpec Scenario.
#[local] Open Scope string_scope.

#[local] Existing Instance plain_jsonb.
#[local] Existing Instance byte_collation.

(** ** Cancellation *)

(** Every reply of the first four round trips arrives. *)
Lemma RequestCancel_spec_witness :
  let call := RequestCancel 5000 5500 [7%Z] "run_02" in
  w_env (calm db_run) = [] ∧
  cancel_outcome 5000 5500 [7%Z] "run_02" db_run (call (calm db_run)).1 (w_db (call (calm db_run)).2)
  ∧ (∃ c, outbox (w_db (call (calm db_run)).2) !! "cmd_07" = Some c ∧ co_type c = "run.cancel").
Proof.
  split; [reflexivity|split].
  - apply (RequestCancel_spec 5000 5500 [7%Z] "run_02" (calm db_run)); [reflexivity|apply surjective_pairing].
  - destruct (outbox _ !! "cmd_07") as [c|] eqn:E; [|vm_compute in E; discriminate E].
    exists c. split; [reflexivity|]. vm_compute in E. injection E as <-. reflexivity.
Defined.

(** ** The outbox *)

(** The start command of the run is there to claim. *)
Lemma ClaimCommands_spec_witness :
  let call := ClaimCommands 8000 "worker" [] 0 in
  let items := select_claimable 8000 [] 16 db_run in
  map fst items = ["cmd_03"] ∧
  ((w_db (call (calm db_run)).2 = db_run ∧ db_error (call (calm db_run)).1) ∨
   (claimed 8000 "worker" items db_run (w_db (call (calm db_run)).2) ∧
    ((call (calm db_run)).1 = Ok (map scanCommand items) ∨ db_error (call (calm db_run)).1))).
Proof.
  split; [vm_compute; reflexivity|].
  apply (ClaimCommands_spec 8000 "worker" [] 0 (calm db_run)); [reflexivity|apply surjective_pairing].
Defined.

(** A worker claims the command; a retry by another session of the same client
    and a cancellation later, a second worker finds nothing. *)
Definition db_claimed : DB := Eval vm_compute in w_db (ClaimCommands 8000 "worker" [] 0 (calm db_run)).2.
Definition meanwhile : list Call :=
  [CCreateRun 8100 [5] [6] "session_01" "more" "profile" "k2" "h2"; CRequestCancel 8200 8250 [8] "run_02"]%Z.

Definition cmds_of (res : result rt_error (list Command)) : list Command :=
  match res with Ok l => l | Err _ => [] end.

Lemma claim_lease_exclusive_witness :
  let second := ClaimCommands 9000 "other" [] 16 (run_calls meanwhile (mkWorld db_claimed [] [id])) in
  map c_ID (cmds_of second.1) = ["cmd_06"; "cmd_08"] ∧ "cmd_03" ∉ map c_ID (cmds_of second.1).
Proof.
  cbv zeta. split; [vm_compute; reflexivity|].
  set (second := ClaimCommands 9000 "other" [] 16 (run_calls meanwhile (mkWorld db_claimed [] [id]))).
  assert (second.1 = Ok (cmds_of second.1)) as E by (vm_compute; reflexivity).
  apply (claim_lease_exclusive 8000 "worker" [] 0 (calm db_run)
           (cmds_of (ClaimCommands 8000 "worker" [] 0 (calm db_run)).1)
           (ClaimCommands 8000 "worker" [] 0 (calm db_run)).2 "cmd_03"
           (mkWorld db_claimed [] [id]) meanwhile 9000 "other" [] 16 (cmds_of second.1) second.2).
  - reflexivity.
  - vm_compute; reflexivity.
  - rewrite <- (bool_decide_spec _). vm_compute; reflexivity.
  - vm_compute; reflexivity.
  - apply rely_idle, _.
  - repeat constructor.
  - vm_compute; discriminate.
  - rewrite <- E. apply surjective_pairing.
Defined.

(** ** Sync jobs *)

Lemma CreateSyncJob_spec_witness :
  let call := CreateSyncJob 9000 [4%Z] [5%Z] "sync-key" in
  create_sync_outcome 9000 [4%Z] [5%Z] "sync-key" db_run (call (flaky db_run)).1 (w_db (call (flaky db_run)).2)
  ∧ db_error (call (flaky db_run)).1.
Proof.
  split.
  - apply (CreateSyncJob_spec 9000 [4%Z] [5%Z] "sync-key" (flaky db_run)); [reflexivity|apply surjective_pairing].
  - exists IOFailure. vm_compute. reflexivity.
Defined.

(** A job, and its first batch: one project, one thread of it and one turn. *)
Definition sync_call : Call := (CCreateSyncJob 9000 [4] [5] "sync-key")%Z.
Definition db_sync : DB := Eval vm_compute in w_db (run_calls (session_calls ++ [run_call1; sync_call]) (calm empty_db)).

Definition imported_turn : BootstrapRun :=
  mkBRun "run_thread_turn" "session_thread" "turn" "completed" "prompt" (Some 100%Z) (Some 200%Z)
    [mkBEvent 1 "turn.item.completed" (Raw (JObj [("text", JStr "hello")])) 150%Z;
     mkBEvent 2 "turn.completed" (Raw (JObj [])) 200%Z].
Definition first_batch : BootstrapBatch :=
  mkBatch "cmd_05" "sync_04" "snap" 0 "sum" 1 1 true [mkBProject "q" "Q"]
    [mkBSession "session_thread" "q" "thread" "Thread"] [imported_turn] true.

Lemma ApplyBootstrapBatch_spec_witness :
  let call := ApplyBootstrapBatch 9500 first_batch in
  apply_outcome 9500 first_batch db_sync (call (calm db_sync)).1 (w_db (call (calm db_sync)).2)
  ∧ match (call (calm db_sync)).1 with Ok j => sj_LastCommittedBatchNo j = 0%Z ∧ sj_Status j = "completed" | Err _ => False end.
Proof.
  split.
  - apply (ApplyBootstrapBatch_spec 9500 first_batch (calm db_sync)); [reflexivity|apply surjective_pairing].
  - vm_compute. split; reflexivity.
Defined.


Lemma db_sync_wf : db_wf db_sync.
Proof.
  change db_sync with (w_db (run_calls (session_calls ++ [run_call1; sync_call]) (calm empty_db))).
  apply run_calls_good; [apply rely_none|exact empty_db_wf].
Qed.

(** The turn, imported into the session the relay has. *)
Definition turn_ids : gmap string string := {["session_thread" := "session_01"]}.
Definition turn_imported : DB := Eval vm_compute in
  t_db (import_run 9500 turn_ids 0 imported_turn (live db_sync)).2.

Lemma import_run_idempotent_witness :
  import_run 9500 turn_ids 0 imported_turn (live db_sync) = (Ok 1%Z, live turn_imported) ∧
  import_run 9900 turn_ids 5 imported_turn (live turn_imported) = (Ok 6%Z, live turn_imported).
Proof.
  assert (import_run 9500 turn_ids 0 imported_turn (live db_sync) = (Ok 1%Z, live turn_imported)) as H
    by (vm_compute; reflexivity).
  split; [exact H|].
  refine (proj2 import_run_idempotent 9500%Z turn_ids imported_turn 0%Z db_sync 1%Z turn_imported 9900%Z 5%Z _ _ _ H).
  - intros p q Hpq. injection Hpq as <-. reflexivity.
  - split; [repeat split| |reflexivity].
    apply Forall_cons_2; [|apply Forall_cons_2; [|apply Forall_nil_2]];
      (eexists; eexists; split; [reflexivity|vm_compute; reflexivity]).
  - exact db_sync_wf.
Defined.
