(* ===== verification/AuthScenario.v ===== *)
(** * A concrete client of the auth service

    A pairing grant, its exchange, a refresh, a replay and a revocation, by the
    service's own calls: the instances of the theorems on credentials. *)

From S2P Require Import Prelude GoStd GoTime GoCrypto.
From S2P Require Import Sql Tables AuthDB AuthStore AuthService AuthEffects AuthInvariant AuthSpec AuthSafety AuthFlow.
#[local] Open Scope string_scope.
#[local] Open Scope Z_scope.

Definition cfg : Config := Eval vm_compute in NewService (mkConfig 0 0 0).

(** Random bytes, one value per draw. *)
Definition draw (n : nat) (b : Z) : list Z := replicate n b.

Lemma draw_bytes n b : is_byte b → secret_bytes n (draw n b).
Proof. intros Hb. split; [by apply Forall_replicate|apply length_replicate]. Qed.

Definition t0 : Z := 1000 * second.
Definition pairing_code : string := Eval vm_compute in randomSecret (draw 32 1).
Definition create_grant : AuthCall := ACreatePairingGrant t0 (draw 32 1) (draw 18 2) " Phone " [" runtime:read"; "source:read"].
Definition exchange_code : AuthCall :=
  AExchangePairingGrant (t0 + second) (draw 18 3) (draw 32 4) (draw 18 5) (draw 32 6) (draw 18 7) pairing_code.
Definition access_token : string := Eval vm_compute in (newToken "at" (draw 18 3) (draw 32 4)).2.
Definition refresh_token : string := Eval vm_compute in (newToken "rt" (draw 18 5) (draw 32 6)).2.

Definition db_granted : ADB := Eval vm_compute in w_db (auth_calls cfg [create_grant] (calm empty_adb)).
Definition db_paired : ADB := Eval vm_compute in w_db (auth_calls cfg [exchange_code] (calm db_granted)).
Definition rotate_once : AuthCall := ARefresh (t0 + 2 * second) (draw 18 8) (draw 32 9) (draw 32 10) refresh_token.
Definition db_rotated : ADB := Eval vm_compute in w_db (auth_calls cfg [rotate_once] (calm db_paired)).

(** The world of a server that shares the database with one that is idle. *)
Definition shared (d : ADB) : World ADB := mkWorld d [] [id].
Lemma shared_rely d : rely auth_good (shared d).
Proof. constructor; [intros d'; reflexivity|constructor]. Qed.

Lemma calm_rely d : rely auth_good (calm d).
Proof. constructor. Qed.
Lemma db_granted_wf : auth_wf db_granted.
Proof.
  change db_granted with (w_db (auth_calls cfg [create_grant] (calm empty_adb))).
  apply auth_calls_good; [apply calm_rely|exact empty_adb_wf].
Qed.
Lemma db_paired_wf : auth_wf db_paired.
Proof.
  change db_paired with (w_db (auth_calls cfg [exchange_code] (calm db_granted))).
  apply auth_calls_good; [apply calm_rely|exact db_granted_wf].
Qed.
Lemma db_rotated_wf : auth_wf db_rotated.
Proof.
  change db_rotated with (w_db (auth_calls cfg [rotate_once] (calm db_paired))).
  apply auth_calls_good; [apply calm_rely|exact db_paired_wf].
Qed.

Lemma auth_invariant_witness :
  let w := auth_calls cfg [create_grant; exchange_code; rotate_once; AListClients]
             (mkWorld empty_adb [Done; Done; Done; Done; Done; Done; Done; LostReply] [id; id]) in
  size (clients (w_db w)) = 1%nat ∧ auth_wf (w_db w) ∧ auth_grows empty_adb (w_db w).
Proof.
  split; [vm_compute; reflexivity|].
  apply (auth_invariant cfg [create_grant; exchange_code; rotate_once; AListClients]
           (mkWorld empty_adb [Done; Done; Done; Done; Done; Done; Done; LostReply] [id; id])).
  - repeat (constructor; [intros d; reflexivity|]). constructor.
  - exact empty_adb_wf.
Defined.

(** Both uses of the token are made; only the first succeeds. *)
Lemma refresh_token_once_witness :
  let first := Refresh cfg (t0 + 2 * second) (draw 18 8) (draw 32 9) (draw 32 10) refresh_token (shared db_paired) in
  let again := Refresh cfg (t0 + 3 * second) (draw 18 11) (draw 32 12) (draw 32 13) refresh_token
                 (auth_calls cfg [AAuthenticate (t0 + 2 * second) access_token] first.2) in
  is_ok first.1 = true ∧ is_ok again.1 = false.
Proof.
  set (first := Refresh _ _ _ _ _ _ _). cbv zeta. split; [vm_compute; reflexivity|].
  destruct first as [[pair|e] w1] eqn:E1;
    [|exfalso; apply (f_equal (λ x, is_ok x.1)) in E1; vm_compute in E1; discriminate E1].
  apply (refresh_token_once cfg (t0 + 2 * second) (draw 18 8) (draw 32 9) (draw 32 10) refresh_token
           (shared db_paired) pair w1 [AAuthenticate (t0 + 2 * second) access_token]
           (t0 + 3 * second) (draw 18 11) (draw 32 12) (draw 32 13) _
           (Refresh cfg (t0 + 3 * second) (draw 18 11) (draw 32 12) (draw 32 13) refresh_token
              (auth_calls cfg [AAuthenticate (t0 + 2 * second) access_token] w1)).2).
  - apply shared_rely.
  - exact db_paired_wf.
  - exact E1.
  - apply surjective_pairing.
Defined.

Lemma pairing_code_once_witness :
  let first := ExchangePairingGrant cfg (t0 + second) (draw 18 3) (draw 32 4) (draw 18 5) (draw 32 6) (draw 18 7)
                 pairing_code (shared db_granted) in
  let again := ExchangePairingGrant cfg (t0 + second) (draw 18 13) (draw 32 14) (draw 18 15) (draw 32 16) (draw 18 17)
                 pairing_code (auth_calls cfg [] first.2) in
  is_ok first.1 = true ∧ is_ok again.1 = false.
Proof.
  set (first := ExchangePairingGrant _ _ _ _ _ _ _ _ _). cbv zeta. split; [vm_compute; reflexivity|].
  destruct first as [[pair|e] w1] eqn:E1;
    [|exfalso; apply (f_equal (λ x, is_ok x.1)) in E1; vm_compute in E1; discriminate E1].
  apply (pairing_code_once cfg (t0 + second) (draw 18 3) (draw 32 4) (draw 18 5) (draw 32 6) (draw 18 7) pairing_code
           (shared db_granted) pair w1 [] (t0 + second) (draw 18 13) (draw 32 14) (draw 18 15) (draw 32 16)
           (draw 18 17) _
           (ExchangePairingGrant cfg (t0 + second) (draw 18 13) (draw 32 14) (draw 18 15) (draw 32 16) (draw 18 17)
              pairing_code (auth_calls cfg [] w1)).2).
  - apply shared_rely.
  - exact db_granted_wf.
  - exact E1.
  - apply surjective_pairing.
Defined.

Definition client_id : string := Eval vm_compute in randomID "client" (draw 18 7).

Definition phone : Principal :=
  Eval vm_compute in mkPrincipal client_id "Phone" (randomID "rt" (draw 18 5)) ["runtime:read"; "source:read"].

Lemma RevokeClient_final_witness :
  let w1 := (RevokeClient (t0 + 4 * second) client_id "control_revoke" (shared db_rotated)).2 in
  (∃ p, (Authenticate (t0 + 3 * second) access_token (shared db_rotated)).1 = Ok p ∧ pl_ClientID p = client_id)
  ∧ client_locked_out cfg client_id w1.
Proof.
  split.
  - exists phone. split; vm_compute; reflexivity.
  - apply (RevokeClient_final cfg (t0 + 4 * second) client_id "control_revoke" (shared db_rotated)).
    + apply shared_rely.
    + exact db_rotated_wf.
    + vm_compute. reflexivity.
Defined.

(** The refresh token that was rotated is presented again. *)
Lemma session_revocation_final_witness :
  let call := Refresh cfg (t0 + 4 * second) (draw 18 18) (draw 32 19) (draw 32 20) refresh_token (shared db_rotated) in
  call.1 = Err ErrRefreshReplay ∧
  ∃ i secret, parseToken refresh_token "rt" = Ok (i, secret) ∧ session_locked_out cfg i call.2.
Proof.
  set (call := Refresh _ _ _ _ _ _ _). cbv zeta.
  assert (call.1 = Err ErrRefreshReplay) as E by (vm_compute; reflexivity). split; [exact E|].
  apply (session_revocation_final cfg (t0 + 4 * second) (draw 18 18) (draw 32 19) (draw 32 20) refresh_token ""
           (shared db_rotated) call.2).
  - apply shared_rely.
  - exact db_rotated_wf.
  - left. rewrite <- E. apply surjective_pairing.
Defined.

Lemma principal_paired_witness :
  ∃ d i g t secret x s c, auth_wf d ∧ auth_grows db_rotated d
    ∧ grants d !! i = Some g ∧ gr_client g = Some (pl_ClientID phone) ∧ gr_consumed g ≠ None
    ∧ gr_name g = pl_ClientName phone ∧ gr_scopes g = pl_Scopes phone
    ∧ Forall (λ s, s ∈ DefaultScopes) (pl_Scopes phone)
    ∧ parseToken access_token "at" = Ok (t, secret) ∧ access d !! t = Some x ∧ ac_hash x = tokenHash secret
    ∧ ac_client x = pl_ClientID phone ∧ ac_session x = pl_SessionID phone
    ∧ rsessions d !! pl_SessionID phone = Some s ∧ rf_client s = pl_ClientID phone
    ∧ clients d !! pl_ClientID phone = Some c
    ∧ ac_revoked x = None ∧ rf_revoked s = None ∧ cr_revoked c = None ∧ (t0 + 3 * second < ac_expires x)%Z.
Proof.
  set (call := Authenticate (t0 + 3 * second) access_token (shared db_rotated)).
  apply (principal_paired (t0 + 3 * second) access_token (shared db_rotated) phone call.2).
  - apply shared_rely.
  - exact db_rotated_wf.
  - assert (call.1 = Ok phone) as E by (vm_compute; reflexivity). rewrite <- E. apply surjective_pairing.
Defined.

Lemma Refresh_spec_witness :
  let call := Refresh cfg (t0 + 2 * second) (draw 18 8) (draw 32 9) (draw 32 10) refresh_token
                (mkWorld db_paired [Done; Done; Done; LostReply] []) in
  auth_db_error call.1 ∧
  refresh_outcome cfg (t0 + 2 * second) (draw 18 8) (draw 32 9) (draw 32 10) refresh_token db_paired call.1 (w_db call.2).
Proof.
  split; [exists IOFailure; vm_compute; reflexivity|].
  apply (Refresh_spec cfg (t0 + 2 * second) (draw 18 8) (draw 32 9) (draw 32 10) refresh_token
           (mkWorld db_paired [Done; Done; Done; LostReply] [])); [reflexivity|apply surjective_pairing].
Defined.

Lemma token_roundtrip_witness :
  parseToken access_token "at" = Ok (randomID "at" (draw 18 3), randomSecret (draw 32 4))
  ∧ Forall (λ c, graphic c = true) (str_bytes access_token).
Proof.
  apply (token_roundtrip "at" (draw 18 3) (draw 32 4)); [by left|apply draw_bytes; done..].
Defined.

Lemma pairing_flow_witness :
  let w := auth_calls cfg [] (calm empty_adb) in
  let create := CreatePairingGrant cfg t0 (draw 32 1) (draw 18 2) " Phone " [" runtime:read"; "source:read"] w in
  let exchange := ExchangePairingGrant cfg (t0 + second) (draw 18 3) (draw 32 4) (draw 18 5) (draw 32 6) (draw 18 7)
                    pairing_code create.2 in
  is_ok exchange.1 = true ∧
  (auth_db_error exchange.1 ∨ ∃ pair, exchange.1 = Ok pair ∧
     paired "Phone" ["runtime:read"; "source:read"] (t0 + second) (draw 18 3) (draw 18 5) (draw 18 7)
       exchange.2 pair).
Proof.
  cbv zeta. set (create := CreatePairingGrant _ _ _ _ _ _ _). split; [vm_compute; reflexivity|].
  assert (create.1 = Ok (mkLink pairing_code (t0 + 10 * minute))) as E by (vm_compute; reflexivity).
  apply (pairing_flow cfg t0 (draw 32 1) (draw 18 2) " Phone " [" runtime:read"; "source:read"]
           (calm empty_adb) (mkLink pairing_code (t0 + 10 * minute)) create.2
           (t0 + second) (draw 18 3) (draw 32 4) (draw 18 5) (draw 32 6) (draw 18 7)).
  - reflexivity.
  - by apply draw_bytes.
  - by apply draw_bytes.
  - by apply draw_bytes.
  - vm_compute; reflexivity.
  - rewrite <- E. apply surjective_pairing.
  - vm_compute; reflexivity.
  - apply surjective_pairing.
Defined.
