(* ===== verification/RelayCtl.v ===== *)
(** * cmd/relayctl

    The command line client of the relay: an App that lists, reads, starts and
    interrupts turns, and a client of Auth Control.  What a command does is a
    log of actions (what it dials, sends and prints) and an exit code.  The
    network's answers, the environment variables and the texts that other
    packages print are parameters. *)

From S2P Require Import Prelude GoStd GoTime GoDuration GoFlag GoURL GoClient Json Protocol Payloads AgentPayloads.
#[local] Open Scope string_scope.

Definition defaultAppURL := "ws://127.0.0.1:18765/ws/app".
Definition defaultAuthControlURL := "http://127.0.0.1:18776".

(** ** Actions and errors *)

Inductive ctl_error :=
| ConnectFailed
| MarshalFailed
| WriteFailed
| ReadFailed                               (** also when the 15 seconds are over *)
| RejectedBy (code message : string)
| DecodePayloadFailed (type : string)
| RequestInvalid
| ControlUnreachable
| ControlBody
| ControlStatus (status : Z) (text : string)
| ControlDecode.

Inductive action :=
| Dialed (url : string)
| Sent (frame : json)
| Requested (method url : string) (body : option json)
| Stdout (text : string)
| Stderr (text : string)
| StderrErr (prefix : string) (e : ctl_error).   (** the prefix, the error's text and a newline *)

(** The clock and the random ids, and what was done so far, latest last. *)
Record World := mkWorld { w_env : Env; w_log : list action }.
Definition Ctl := St World.

Definition act (a : action) : Ctl unit := modify (λ w, mkWorld (w_env w) (w_log w ++ [a])%list).
Definition newline : string := String (Ascii.ascii_of_nat 10) "".
Definition println (s : string) : Ctl unit := act (Stdout (s +:+ newline)).
Definition eprintln (s : string) : Ctl unit := act (Stderr (s +:+ newline)).
Definition eprint_err (e : ctl_error) : Ctl unit := act (StderrErr "" e).
Definition tab : string := String (Ascii.ascii_of_nat 9) "".

Definition fail_with {A} (code : A) (e : ctl_error) : Ctl A := let! _ := eprint_err e in ret code.

Definition sender : Sender := mkSender "user" "relayctl".

(** protocol.NewMessage, its error ignored *)
Definition new_message (type traceID : string) (payload : json) : Ctl Message := λ w,
  let '(m, env) := build_message type traceID sender payload (w_env w) in (m, mkWorld env (w_log w)).
Definition new_id : Ctl string := λ w, let '(i, env) := draw (w_env w) in (i, mkWorld env (w_log w)).

(** writeMessage; [written] is whether the connection took the frame. *)
Definition writeMessage (written : bool) (m : Message) : Ctl (option ctl_error) :=
  match json_Message 0 m with
  | None => ret (Some MarshalFailed)
  | Some frame =>
      if written then let! _ := act (Sent frame) in ret None else ret (Some WriteFailed)
  end.

(** ** The connection *)

(** What a connection does: whether it takes the request, and the values of the
    frames it delivers ([None]: not JSON) before a read fails. *)
Record Conn := mkConn { cn_writes : bool; cn_frames : list (option json) }.

(** The reply request waits for. *)
Fixpoint await (traceID expectedType : string) (frames : list (option json)) : result ctl_error Message :=
  match frames with
  | [] => Err ReadFailed
  | data :: frames =>
      match Decode data with
      | Err _ => await traceID expectedType frames
      | Ok response =>
          if negb (String.eqb (m_TraceID response) traceID) then await traceID expectedType frames
          else if String.eqb (m_Type response) TypeTurnRejected then
            let '(payload, _) := PayloadAs zero_TurnRejected dec_TurnRejected response in
            Err (RejectedBy (rj_Code payload) (rj_Message payload))
          else if String.eqb (m_Type response) expectedType then Ok response
          else await traceID expectedType frames
      end
  end.

(** ** Auth Control's answers *)

Inductive http_outcome :=
| RequestRefused                           (** not a URL *)
| Unreachable
| Answered (status : Z) (location : Location)
    (body : option (string * option json)).  (** the body and its JSON value, when it could be read *)

Record PairingData := mkPairingData { pd_Code : string; pd_ExpiresAt : Z }.
Definition zero_PairingData := mkPairingData "" zero_time.
Definition dec_PairingData : Dec PairingData :=
  dec_struct ["code"; "expires_at"] (λ get p,
    let! c := get _ "code" dec_string (pd_Code p) in
    let! e := get _ "expires_at" dec_time (pd_ExpiresAt p) in
    ret (mkPairingData c e)).
Definition dec_PairingResponse : Dec PairingData :=
  dec_struct ["data"] (λ get p, get _ "data" dec_PairingData p).

Record ClientItem := mkClientItem {
  ci_ID : string; ci_Name : string; ci_LastSeen : option Z; ci_RevokedAt : option Z }.
Definition zero_ClientItem := mkClientItem "" "" None None.
Definition dec_ClientItem : Dec ClientItem :=
  dec_struct ["client_id"; "name"; "last_seen_at"; "revoked_at"] (λ get c,
    let! i := get _ "client_id" dec_string (ci_ID c) in
    let! n := get _ "name" dec_string (ci_Name c) in
    let! l := get _ "last_seen_at" (dec_ptr zero_time dec_time) (ci_LastSeen c) in
    let! r := get _ "revoked_at" (dec_ptr zero_time dec_time) (ci_RevokedAt c) in
    ret (mkClientItem i n l r)).
Definition dec_ClientsResponse : Dec (list ClientItem) :=
  dec_struct ["data"] (λ get l,
    get _ "data" (dec_struct ["items"] (λ get l, get _ "items" (dec_slice zero_ClientItem dec_ClientItem) l)) l).

(** ** The loop of turn

    A goroutine reads frames into a channel of one message; the loop takes a
    message or a signal, whichever is there; the signal handler leaves one
    signal pending until signal.Stop, after which a signal ends the process. *)

Notation received := (result ctl_error Message) (only parsing).

Inductive reader := Reading | Holding (r : received) | ReaderDone.
Inductive exit := Code (code : Z) | KilledBySignal.

Record TurnState := mkTurnState {
  t_trace : string;
  t_reader : reader;
  t_channel : option received;
  t_pending : bool;
  t_stopped : bool;
  t_thread : string;
  t_turn : string;
  t_world : World;
  t_exit : option exit;
}.

Definition set_reader r c s := mkTurnState (t_trace s) r c (t_pending s) (t_stopped s) (t_thread s) (t_turn s) (t_world s) (t_exit s).
Definition set_pending b s := mkTurnState (t_trace s) (t_reader s) (t_channel s) b (t_stopped s) (t_thread s) (t_turn s) (t_world s) (t_exit s).
Definition set_stopped s := mkTurnState (t_trace s) (t_reader s) (t_channel s) (t_pending s) true (t_thread s) (t_turn s) (t_world s) (t_exit s).
Definition set_active th tu s := mkTurnState (t_trace s) (t_reader s) (t_channel s) (t_pending s) (t_stopped s) th tu (t_world s) (t_exit s).
Definition set_world w s := mkTurnState (t_trace s) (t_reader s) (t_channel s) (t_pending s) (t_stopped s) (t_thread s) (t_turn s) w (t_exit s).
Definition set_exit e s := mkTurnState (t_trace s) (t_reader s) (t_channel s) (t_pending s) (t_stopped s) (t_thread s) (t_turn s) (t_world s) (Some e).

(** The loop when it is entered. *)
Definition turn_start (traceID : string) (w : World) : TurnState :=
  mkTurnState traceID Reading None false false "" "" w None.

Definition on_world {A} (m : Ctl A) (s : TurnState) : A * TurnState :=
  let '(a, w) := m (t_world s) in (a, set_world w s).

Section Printing.
Context (raw_text : RawMessage → string).   (** the text a payload came with *)

(** printTurnEvent: the exit code of a terminal event. *)
Definition printTurnEvent (message : Message) : Ctl (option Z) :=
  let t := m_Type message in
  if String.eqb t TypeTurnStarted then
    let '(p, _) := PayloadAs zero_TurnStarted dec_TurnStarted message in
    let! _ := eprintln ("[relayctl] thread=" +:+ st_ThreadID p +:+ " turn=" +:+ st_TurnID p) in ret None
  else if String.eqb t TypeTurnOutput then
    let '(p, _) := PayloadAs zero_TurnOutput dec_TurnOutput message in
    let! _ := act (if String.eqb (ou_Stream p) "stderr" then Stderr (ou_Text p) else Stdout (ou_Text p)) in ret None
  else if String.eqb t TypeTurnItemStarted then
    let '(p, _) := PayloadAs zero_TurnItem dec_TurnItem message in
    let! _ := eprintln ("[relayctl] item started sequence=" +:+ decimal (ti_Sequence p) +:+ " id="
                        +:+ it_ID (ti_Item p) +:+ " type=" +:+ it_Type (ti_Item p)) in ret None
  else if String.eqb t TypeTurnItemDelta then
    let '(p, _) := PayloadAs zero_TurnDelta dec_TurnDelta message in
    let! _ := eprintln ("[relayctl] item delta sequence=" +:+ decimal (de_Sequence p) +:+ " id=" +:+ de_ItemID p
                        +:+ " field=" +:+ de_Field p +:+ " bytes=" +:+ decimal (strlen (de_Delta p))) in ret None
  else if String.eqb t TypeTurnItemDone then
    let '(p, _) := PayloadAs zero_TurnItem dec_TurnItem message in
    let! _ := eprintln ("[relayctl] item completed sequence=" +:+ decimal (ti_Sequence p) +:+ " id="
                        +:+ it_ID (ti_Item p) +:+ " type=" +:+ it_Type (ti_Item p)) in ret None
  else if String.eqb t TypeTurnCompleted then
    let '(p, _) := PayloadAs zero_TurnCompleted dec_TurnCompleted message in
    let! _ := eprintln (newline +:+ "[relayctl] completed in "
                        +:+ DurationString (wrap_int64 (tc_DurationMS p * millisecond)) +:+ "; changed files: "
                        +:+ decimal (Z.of_nat (length (tc_ChangedFiles p)))) in
    let! _ := if String.eqb (tc_Summary p) "" then ret tt else println (newline +:+ tc_Summary p) in
    let! _ := if String.eqb (tc_Diff p) "" then ret tt
              else println (newline +:+ "Git diff:" +:+ newline +:+ tc_Diff p) in
    ret (Some 0%Z)
  else if String.eqb t TypeTurnFailed || String.eqb t TypeTurnRejected then
    let! _ := eprintln (newline +:+ "[relayctl] " +:+ t +:+ ": " +:+ raw_text (m_Payload message)) in ret (Some 1%Z)
  else if String.eqb t TypeTurnInterrupted then
    let! _ := eprintln (newline +:+ "[relayctl] turn interrupted") in ret (Some 130%Z)
  else ret None.

(** The case of a message. *)
Definition on_message (r : received) (s : TurnState) : TurnState :=
  match r with
  | Err e => set_exit (Code 1) (on_world (act (StderrErr "Relay connection ended: " e)) s).2
  | Ok m =>
      if negb (String.eqb (m_TraceID m) (t_trace s)) && negb (String.eqb (m_Type m) TypeAgentStatus) then s
      else
        let s := if String.eqb (m_Type m) TypeTurnStarted then
                   let '(p, _) := PayloadAs zero_TurnStarted dec_TurnStarted m in
                   set_active (st_ThreadID p) (st_TurnID p) s
                 else s in
        let '(terminal, s) := on_world (printTurnEvent m) s in
        match terminal with Some code => set_exit (Code code) s | None => s end
  end.

(** The case of a signal; [again]: another one came before signal.Stop. *)
Definition on_signal (written again : bool) (s : TurnState) : TurnState :=
  if String.eqb (t_thread s) "" || String.eqb (t_turn s) "" then
    (on_world (eprintln "turn has not started yet") s).2
  else
    let '(interrupt, s) := on_world (new_message TypeTurnInterrupt (t_trace s)
                                       (json_TurnInterrupt (mkTurnRef (t_thread s) (t_turn s)))) s in
    let '(err, s) := on_world (writeMessage written interrupt) s in
    match err with
    | Some e => set_exit (Code 1) (on_world (act (StderrErr "interrupt failed: " e)) s).2
    | None => set_stopped (set_pending (again && negb (t_stopped s))
                             (on_world (eprintln "[relayctl] interruption requested") s).2)
    end.

Inductive label :=
| FrameRead (data : option json)   (** the goroutine reads a frame *)
| FrameFails                       (** its read fails *)
| Delivered                        (** it puts what it holds into the channel *)
| TakeMessage                      (** the loop takes it out *)
| SignalRaised                     (** SIGINT or SIGTERM *)
| TakeSignal (written again : bool).   (** the loop takes the pending signal *)

Definition turn_step (l : label) (s : TurnState) : option TurnState :=
  match t_exit s with
  | Some _ => None
  | None =>
      match l with
      | FrameRead data =>
          match t_reader s with
          | Reading => Some (match Decode data with Ok m => set_reader (Holding (Ok m)) (t_channel s) s | Err _ => s end)
          | _ => None
          end
      | FrameFails =>
          match t_reader s with
          | Reading => Some (set_reader (Holding (Err ReadFailed)) (t_channel s) s)
          | _ => None
          end
      | Delivered =>
          match t_reader s, t_channel s with
          | Holding r, None => Some (set_reader (if is_ok r then Reading else ReaderDone) (Some r) s)
          | _, _ => None
          end
      | TakeMessage =>
          match t_channel s with
          | Some r => Some (on_message r (set_reader (t_reader s) None s))
          | None => None
          end
      | SignalRaised => Some (if t_stopped s then set_exit KilledBySignal s else set_pending true s)
      | TakeSignal written again =>
          if t_pending s then Some (on_signal written again (set_pending false s)) else None
      end
  end.

Fixpoint turn_run (ls : list label) (s : TurnState) : option TurnState :=
  match ls with
  | [] => Some s
  | l :: ls => match turn_step l s with Some s' => turn_run ls s' | None => None end
  end.

(** ** Commands *)

Context (getenv : string → string)
        (connect : string → option Conn)               (* websocket.Dial *)
        (http : string → string → option json → http_outcome)
        (schedule : list label)                        (* what happens to turn's loop *)
        (watched : list (option json)) (signalled : bool) (* what watch reads, and why it ends *)
        (indent : Message → string) (indent_value : any → string) (* json.MarshalIndent *)
        (format_time local_time : Z → string)          (* RFC 3339, in the time's zone and in the local one *)
        (quote : string → string).                     (* strconv.Quote *)

Definition envOrDefault (name fallback : string) : string :=
  let value := getenv name in if String.eqb value "" then fallback else value.

(** The answer of a command line: an exit code, a signal, or still running. *)
Inductive outcome := Exited (code : Z) | Killed | Running.

Definition dial (url : string) : Ctl (result ctl_error Conn) :=
  let! _ := act (Dialed url) in
  ret (match connect url with Some c => Ok c | None => Err ConnectFailed end).

Definition request (url : string) (message : Message) (expectedType : string) : Ctl (result ctl_error Message) :=
  let! connection := dial url in
  match connection with
  | Err e => ret (Err e)
  | Ok c =>
      let! err := writeMessage (cn_writes c) message in
      match err with
      | Some e => ret (Err e)
      | None => ret (await (m_TraceID message) expectedType (cn_frames c))
      end
  end.

(** A flag set parsed, or exit code 2. *)
Definition with_flags (fs : list (string * flag_value)) (arguments : list string)
    (k : list (string * flag_value) → list string → Ctl Z) : Ctl Z :=
  match GoFlag.Parse fs arguments with Some (fs, args) => k fs args | None => ret 2%Z end.
Definition url_flag : string * flag_value := ("url", FString (envOrDefault "RELAY_APP_URL" defaultAppURL)).
Definition control_flag : string * flag_value :=
  ("control-url", FString (envOrDefault "AUTH_CONTROL_URL" defaultAuthControlURL)).

(** The request of a listing, its reply and the reply's payload. *)
Definition query (url type : string) (payload : json) (expectedType : string) : Ctl (result ctl_error Message) :=
  let! traceID := new_id in
  let! message := new_message type traceID payload in
  request url message expectedType.
Definition with_payload {T} (zero : T) (d : Dec T) (response : result ctl_error Message) (k : T → Ctl Z) : Ctl Z :=
  match response with
  | Err e => fail_with 1%Z e
  | Ok m => match PayloadAs zero d m with
            | (payload, true) => k payload
            | _ => fail_with 1%Z (DecodePayloadFailed (m_Type m))
            end
  end.
Definition print_each {A} (l : list A) (line : A → string) : Ctl Z :=
  let! _ := st_each l (λ a, println (line a)) in ret 0%Z.

Definition profiles (arguments : list string) : Ctl Z :=
  with_flags [url_flag; ("project", FString "")] arguments (λ fs _,
    let projectID := flag_string "project" fs in
    if String.eqb projectID "" then let! _ := eprintln "project is required" in ret 2%Z
    else
      let! response := query (flag_string "url" fs) TypeExecutionProfileList (json_ExecutionProfileList projectID)
                         TypeExecutionProfileSnapshot in
      with_payload zero_ProfileSnapshot dec_ProfileSnapshot response (λ payload,
        print_each (es_Profiles payload) (λ p,
          ep_ID p +:+ tab +:+ "allowed=" +:+ (if ep_Allowed p then "true" else "false")
          +:+ (if String.eqb (ep_ID p) (es_DefaultProfileID payload) then tab +:+ "default" else "")
          +:+ tab +:+ ep_Description p))).

Definition projects (arguments : list string) : Ctl Z :=
  with_flags [url_flag] arguments (λ fs _,
    let! response := query (flag_string "url" fs) TypeProjectList json_ProjectList TypeProjectSnapshot in
    with_payload [] dec_ProjectSnapshot response (λ payload,
      print_each payload (λ p,
        pp_ID p +:+ tab +:+ pp_Name p +:+ tab +:+ decimal (pp_ThreadCount p) +:+ " threads" +:+ tab +:+ pp_Path p))).

Definition threads (arguments : list string) : Ctl Z :=
  with_flags [url_flag; ("project", FString "")] arguments (λ fs _,
    let projectID := flag_string "project" fs in
    if String.eqb projectID "" then let! _ := eprintln "project is required" in ret 2%Z
    else
      let! response := query (flag_string "url" fs) TypeThreadList (json_ThreadList projectID) TypeThreadSnapshot in
      with_payload zero_ThreadSnapshot dec_ThreadSnapshot response (λ payload,
        print_each (tsn_Threads payload) (λ t,
          lt_ID t +:+ tab +:+ lt_Status t +:+ tab +:+ format_time (lt_UpdatedAt t) +:+ tab +:+ lt_Title t))).

Definition thread (arguments : list string) : Ctl Z :=
  with_flags [url_flag; ("project", FString ""); ("thread", FString "")] arguments (λ fs _,
    let projectID := flag_string "project" fs in
    let threadID := flag_string "thread" fs in
    if String.eqb projectID "" || String.eqb threadID "" then
      let! _ := eprintln "project and thread are required" in ret 2%Z
    else
      let! response := query (flag_string "url" fs) TypeThreadRead (json_ThreadRead projectID threadID)
                         TypeThreadDetail in
      match response with
      | Err e => fail_with 1%Z e
      | Ok m => let! _ := println (indent m) in ret 0%Z
      end).

(** strings.Join with a space *)
Fixpoint join_spaces (l : list string) : string :=
  match l with [] => "" | [s] => s | s :: l => s +:+ " " +:+ join_spaces l end.

(** turn before its loop: an exit code, or the loop's state. *)
Definition turn_begin (arguments : list string) : Ctl (Z + TurnState) :=
  match GoFlag.Parse [url_flag; ("project", FString ""); ("thread", FString ""); ("prompt", FString "");
                      ("profile", FString "")] arguments with
  | None => ret (inl 2%Z)
  | Some (fs, args) =>
      let prompt := flag_string "prompt" fs in
      let prompt := if String.eqb prompt "" && (0 <? length args)%nat then join_spaces args else prompt in
      let projectID := flag_string "project" fs in
      if String.eqb projectID "" || String.eqb (TrimSpace prompt) "" then
        let! _ := eprintln "project and prompt are required" in ret (inl 2%Z)
      else
        let! connection := dial (flag_string "url" fs) in
        match connection with
        | Err e => fail_with (inl 1%Z) e
        | Ok c =>
            let! traceID := new_id in
            let! start := new_message TypeTurnStart traceID
              (json_TurnStart (mkTurnStart "" "" projectID (flag_string "thread" fs) (TrimSpace prompt)
                                 (flag_string "profile" fs))) in
            let! err := writeMessage (cn_writes c) start in
            match err with
            | Some e => fail_with (inl 1%Z) e
            | None => λ w, (inr (turn_start traceID w), w)
            end
        end
  end.

Definition turn (arguments : list string) : Ctl outcome := λ w,
  let '(r, w) := turn_begin arguments w in
  match r with
  | inl code => (Exited code, w)
  | inr s => match turn_run schedule s with
             | Some s' => (match t_exit s' with
                           | Some (Code c) => Exited c | Some KilledBySignal => Killed | None => Running
                           end, t_world s')
             | None => (Running, w)
             end
  end.

Definition watch (arguments : list string) : Ctl Z :=
  with_flags [url_flag] arguments (λ fs _,
    let! connection := dial (flag_string "url" fs) in
    match connection with
    | Err e => fail_with 1%Z e
    | Ok _ =>
        let! _ := st_each watched (λ data, match data ≫= to_any with Some v => println (indent_value v) | None => ret tt end) in
        if signalled then ret 0%Z
        else let! _ := act (StderrErr "Relay connection ended: " ReadFailed) in ret 1%Z
    end).

(** Client.send *)
Definition send (method url : string) (body : option json) : Ctl (option (Z * Location * option (string * option json))) :=
  match http method url body with
  | RequestRefused => ret None
  | Unreachable => let! _ := act (Requested method url body) in ret None
  | Answered status location content =>
      let! _ := act (Requested method url body) in ret (Some (status, location, content))
  end.

(** controlRequest; [target] is what the body is decoded into, if anything. *)
Definition controlRequest {T} (method endpoint : string) (body : option json) (target : option (T * Dec T))
    : Ctl (result ctl_error (option T)) :=
  match http method endpoint body with
  | RequestRefused => ret (Err RequestInvalid)
  | _ =>
      let! answer := Do send method endpoint body in
      ret (match answer with
           | None => Err ControlUnreachable
           | Some (_, None) => Err ControlBody
           | Some (status, Some (text, value)) =>
               if (status <? 200)%Z || (300 <=? status)%Z then Err (ControlStatus status (TrimSpace text))
               else match target with
                    | None => Ok None
                    | Some (zero, d) =>
                        if String.eqb text "" then Ok (Some zero)
                        else match value with
                             | Some j => match d j zero with (t, true) => Ok (Some t) | _ => Err ControlDecode end
                             | None => Err ControlDecode
                             end
                    end
           end)
  end.

Definition slash : Ascii.ascii := Ascii.ascii_of_nat 47.

(** The origin of the Mobile Web Gateway, as pair accepts it. *)
Definition pair_origin (origin : string) : option URL :=
  match GoURL.Parse (TrimRight (TrimSpace origin) slash) with
  | None => None
  | Some u =>
      if negb (String.eqb (u_Scheme u) "http") && negb (String.eqb (u_Scheme u) "https")
         || String.eqb (u_Host u) "" || negb (String.eqb (u_Path u) "") || negb (String.eqb (u_RawQuery u) "")
         || negb (String.eqb (u_Fragment u) "") then None
      else Some u
  end.

Definition pair (arguments : list string) : Ctl Z :=
  with_flags [control_flag; ("origin", FString ""); ("name", FString "Mobile Web")] arguments (λ fs _,
    match pair_origin (flag_string "origin" fs) with
    | None => let! _ := eprintln "origin must be an explicit http(s) origin without a path" in ret 2%Z
    | Some u =>
        let! response := controlRequest "POST" (flag_string "control-url" fs +:+ "/v1/auth-control/pairing-grants")
                           (Some (JObj [("name", JStr (flag_string "name" fs))]))
                           (Some (zero_PairingData, dec_PairingResponse)) in
        match response with
        | Err e => fail_with 1%Z e
        | Ok data =>
            let data := default zero_PairingData data in
            let! _ := println (origin_string u +:+ "/pair#code=" +:+ QueryEscape (pd_Code data)) in
            let! _ := eprintln ("Pairing link expires at " +:+ local_time (pd_ExpiresAt data)) in
            ret 0%Z
        end
    end).

Definition authClients (arguments : list string) : Ctl Z :=
  with_flags [control_flag] arguments (λ fs _,
    let! response := controlRequest "GET" (flag_string "control-url" fs +:+ "/v1/auth-control/clients") None
                       (Some ([], dec_ClientsResponse)) in
    match response with
    | Err e => fail_with 1%Z e
    | Ok items =>
        print_each (default [] items) (λ c,
          ci_ID c +:+ tab +:+ (match ci_RevokedAt c with Some _ => "revoked" | None => "active" end) +:+ tab
          +:+ ci_Name c +:+ tab +:+ "last_seen="
          +:+ match ci_LastSeen c with Some t => local_time t | None => "never" end)
    end).

Definition revokeClient (arguments : list string) : Ctl Z :=
  with_flags [control_flag; ("client", FString "")] arguments (λ fs _,
    let clientID := flag_string "client" fs in
    if String.eqb (TrimSpace clientID) "" then let! _ := eprintln "client is required" in ret 2%Z
    else
      let! response := controlRequest "POST"
        (flag_string "control-url" fs +:+ "/v1/auth-control/clients/" +:+ PathEscape clientID +:+ "/revoke")
        (Some (JObj [])) (None : option (unit * Dec unit)) in
      match response with
      | Err e => fail_with 1%Z e
      | Ok _ => let! _ := println ("revoked " +:+ clientID) in ret 0%Z
      end).

Definition quotation : string := String (Ascii.ascii_of_nat 34) EmptyString.
Fixpoint join_lines (l : list string) : string :=
  match l with
  | [] => EmptyString
  | [s] => s
  | s :: l => s +:+ newline +:+ join_lines l
  end.
Definition usage : string := join_lines
  ["Codex Remote Relay control client";
   EmptyString;
   "Usage:";
   "  relayctl projects [--url ws://HOST:18765/ws/app]";
   "  relayctl profiles --project PROJECT_ID";
   "  relayctl threads --project PROJECT_ID";
   "  relayctl thread --project PROJECT_ID --thread THREAD_ID";
   "  relayctl turn --project PROJECT_ID [--thread THREAD_ID] [--profile PROFILE_ID] --prompt TEXT";
   "  relayctl watch";
   "  relayctl pair --origin http://LAN_IP:18774 [--name " +:+ quotation +:+ "My iPhone" +:+ quotation +:+ "]";
   "  relayctl auth-clients";
   "  relayctl revoke-client --client CLIENT_ID";
   EmptyString;
   "Commands:";
   "  projects  List Git projects exposed by the Mac Agent";
   "  profiles  List App Server permission profiles allowed for one project";
   "  threads   List Codex sessions for one project";
   "  thread    Read one Codex thread with its persisted turns and items";
   "  turn      Start a new Codex turn or continue an existing thread";
   "  watch          Print every Relay event as formatted JSON";
   "  pair           Create a short-lived, one-time Mobile Web pairing link";
   "  auth-clients   List paired Runtime clients through loopback Auth Control";
   "  revoke-client  Revoke a paired client and all of its sessions"].
Definition printUsage : Ctl unit := eprintln usage.

Definition realMain (arguments : list string) : Ctl outcome :=
  match arguments with
  | [] => let! _ := printUsage in ret (Exited 2)
  | command :: arguments =>
      let run (c : list string → Ctl Z) := let! code := c arguments in ret (Exited code) in
      if String.eqb command "projects" then run projects
      else if String.eqb command "profiles" then run profiles
      else if String.eqb command "threads" then run threads
      else if String.eqb command "thread" then run thread
      else if String.eqb command "turn" then turn arguments
      else if String.eqb command "watch" then run watch
      else if String.eqb command "pair" then run pair
      else if String.eqb command "auth-clients" then run authClients
      else if String.eqb command "revoke-client" then run revokeClient
      else if existsb (String.eqb command) ["help"; "--help"; "-h"] then let! _ := printUsage in ret (Exited 0)
      else
        let! _ := act (Stderr ("unknown command " +:+ quote command +:+ newline +:+ newline)) in
        let! _ := printUsage in ret (Exited 2)
  end.
End Printing.
