(* ===== verification/RelayCtlSpec.v ===== *)
(** * What relayctl does with what it receives

    A request returns the first reply of its own trace; the loop of turn, in
    every interleaving of its reader, the signals and the loop itself, ends with
    the code of the first event that ends its own turn, prints the output of its
    own turn in order, and interrupts only that turn. *)

From S2P Require Import Prelude GoStd GoTime GoTimeSpec GoDuration GoFlag GoURL Json Protocol Envelope.
From S2P Require Import Payloads AgentPayloads RelayCtl.
#[local] Open Scope string_scope.

(** ** The reply of a request *)

(** A frame request does not skip. *)
Definition relevant (traceID expectedType : string) (data : option json) : bool :=
  match Decode data with
  | Ok m => String.eqb (m_TraceID m) traceID
            && (String.eqb (m_Type m) TypeTurnRejected || String.eqb (m_Type m) expectedType)
  | Err _ => false
  end.

Lemma await_skip traceID expectedType pre frames :
  Forall (λ d, relevant traceID expectedType d = false) pre →
  await traceID expectedType (pre ++ frames) = await traceID expectedType frames.
Proof.
  induction 1 as [|d pre Hd Hpre IH]; [done|]. cbn [app await]. unfold relevant in Hd.
  destruct (Decode d) as [m|]; [|exact IH]. destruct (String.eqb (m_TraceID m) traceID); [|exact IH].
  simpl in Hd |- *. apply orb_false_iff in Hd as [-> ->]. exact IH.
Qed.

Lemma await_reply traceID expectedType data frames m :
  Decode data = Ok m → m_TraceID m = traceID → m_Type m = expectedType → expectedType ≠ TypeTurnRejected →
  await traceID expectedType (data :: frames) = Ok m.
Proof.
  intros Hd Ht He Hr. cbn [await]. rewrite Hd, Ht, He, !String.eqb_refl. simpl.
  by rewrite (proj2 (String.eqb_neq _ _) Hr).
Qed.

(** What a request returns: the first frame of its trace that is the expected
    reply or a rejection. *)
Lemma await_spec traceID expectedType frames :
  (Forall (λ d, relevant traceID expectedType d = false) frames ∧ await traceID expectedType frames = Err ReadFailed)
  ∨ ∃ pre data post m, frames = (pre ++ data :: post)%list
      ∧ Forall (λ d, relevant traceID expectedType d = false) pre
      ∧ Decode data = Ok m ∧ m_TraceID m = traceID
      ∧ ((m_Type m = TypeTurnRejected ∧
            let p := (PayloadAs zero_TurnRejected dec_TurnRejected m).1 in
            await traceID expectedType frames = Err (RejectedBy (rj_Code p) (rj_Message p)))
         ∨ (m_Type m ≠ TypeTurnRejected ∧ m_Type m = expectedType ∧ await traceID expectedType frames = Ok m)).
Proof.
  induction frames as [|d frames IH]; [by left|]. destruct (relevant traceID expectedType d) eqn:Hd.
  - right. unfold relevant in Hd. destruct (Decode d) as [m|] eqn:Em; [|done].
    apply andb_true_iff in Hd as [Ht%String.eqb_eq Ho].
    exists [], d, frames, m. split_and!; [done|constructor|done|done|]. cbn [await].
    rewrite Em, Ht, String.eqb_refl. simpl. destruct (String.eqb_spec (m_Type m) TypeTurnRejected) as [Hr|Hr].
    + left. split; [done|]. by destruct (PayloadAs _ _ m).
    + right. simpl in Ho. rewrite Ho. apply String.eqb_eq in Ho. by split_and!.
  - assert (await traceID expectedType (d :: frames) = await traceID expectedType frames) as Ha
      by (apply (await_skip _ _ [d]); by constructor).
    rewrite Ha. destruct IH as [[HF IH]|(pre&data&post&m&->&HF&Hm)].
    + left. split; [by constructor|done].
    + right. exists (d :: pre), data, post, m. split_and!; [done|by constructor|apply Hm..].
Qed.

(** ** The loop of turn *)

(** The code with which an event ends its turn. *)
Definition event_code (m : Message) : option Z :=
  let t := m_Type m in
  if String.eqb t TypeTurnCompleted then Some 0%Z
  else if String.eqb t TypeTurnFailed || String.eqb t TypeTurnRejected then Some 1%Z
  else if String.eqb t TypeTurnInterrupted then Some 130%Z
  else None.

(** What an event adds to the standard output. *)
Definition event_output (m : Message) : string :=
  let t := m_Type m in
  if String.eqb t TypeTurnOutput then
    let p := (PayloadAs zero_TurnOutput dec_TurnOutput m).1 in
    if String.eqb (ou_Stream p) "stderr" then "" else ou_Text p
  else if String.eqb t TypeTurnCompleted then
    let p := (PayloadAs zero_TurnCompleted dec_TurnCompleted m).1 in
    (if String.eqb (tc_Summary p) "" then "" else newline +:+ tc_Summary p +:+ newline)
    +:+ (if String.eqb (tc_Diff p) "" then "" else newline +:+ "Git diff:" +:+ newline +:+ tc_Diff p +:+ newline)
  else "".

Definition own (traceID : string) (m : Message) : bool := String.eqb (m_TraceID m) traceID.
Definition verdict (traceID : string) (m : Message) : option Z := if own traceID m then event_code m else None.
Definition output (traceID : string) (m : Message) : string := if own traceID m then event_output m else "".

(** The turn the messages so far say is running. *)
Definition active (traceID : string) (ms : list Message) : string * string :=
  foldl (λ a m, if own traceID m && String.eqb (m_Type m) TypeTurnStarted then
                  let p := (PayloadAs zero_TurnStarted dec_TurnStarted m).1 in (st_ThreadID p, st_TurnID p)
                else a) ("", "") ms.

Definition concat_strings (l : list string) : string := foldr String.append "" l.
Definition stdout (log : list action) : string :=
  concat_strings (map (λ a, match a with Stdout t => t | _ => "" end) log).
Definition sent (log : list action) : list json := omap (λ a, match a with Sent j => Some j | _ => None end) log.

Lemma append_nil s : s +:+ "" = s.
Proof. induction s as [|c s IH]; [done|]. change (String c (s +:+ "") = String c s). by rewrite IH. Qed.
Lemma append_assoc r s t : (r +:+ s) +:+ t = r +:+ (s +:+ t).
Proof.
  induction r as [|c r IH]; [done|]. change (String c ((r +:+ s) +:+ t) = String c (r +:+ (s +:+ t))). by rewrite IH.
Qed.
Lemma concat_strings_app l k : concat_strings (l ++ k)%list = concat_strings l +:+ concat_strings k.
Proof. induction l as [|s l IH]; simpl; [done|]. by rewrite IH, append_assoc. Qed.
Lemma stdout_app l k : stdout (l ++ k)%list = stdout l +:+ stdout k.
Proof. unfold stdout. by rewrite map_app, concat_strings_app. Qed.
Lemma sent_app l k : sent (l ++ k)%list = (sent l ++ sent k)%list.
Proof. unfold sent. apply omap_app. Qed.

(** printTurnEvent only prints. *)
Lemma printTurnEvent_spec raw_text m w :
  ∃ l, printTurnEvent raw_text m w = (event_code m, mkWorld (w_env w) (w_log w ++ l)%list)
    ∧ stdout l = event_output m ∧ sent l = [].
Proof.
  unfold printTurnEvent, event_code, event_output.
  set (t := m_Type m).
  destruct (String.eqb_spec t TypeTurnStarted) as [->|].
  { destruct (PayloadAs _ _ m) as [p ok]. eexists. split; [reflexivity|by split]. }
  destruct (String.eqb_spec t TypeTurnOutput) as [->|].
  { destruct (PayloadAs _ _ m) as [p ok]. eexists. split; [reflexivity|]. simpl.
    destruct (String.eqb (ou_Stream p) "stderr"); split; try done. unfold stdout. simpl. apply append_nil. }
  destruct (String.eqb_spec t TypeTurnItemStarted) as [->|].
  { destruct (PayloadAs _ _ m) as [p ok]. eexists. split; [reflexivity|by split]. }
  destruct (String.eqb_spec t TypeTurnItemDelta) as [->|].
  { destruct (PayloadAs _ _ m) as [p ok]. eexists. split; [reflexivity|by split]. }
  destruct (String.eqb_spec t TypeTurnItemDone) as [->|].
  { destruct (PayloadAs _ _ m) as [p ok]. eexists. split; [reflexivity|by split]. }
  destruct (String.eqb_spec t TypeTurnCompleted) as [->|].
  { destruct (PayloadAs _ _ m) as [p ok]. simpl.
    destruct (String.eqb (tc_Summary p) ""), (String.eqb (tc_Diff p) ""); simpl;
      rewrite <- ?app_assoc; eexists; (split; [reflexivity|]); split; try done;
      unfold stdout; simpl; by rewrite ?append_nil, ?append_assoc. }
  destruct (_ || _); [eexists; split; [reflexivity|by split]|].
  destruct (String.eqb t TypeTurnInterrupted); [eexists; split; [reflexivity|by split]|].
  exists []. rewrite app_nil_r. by destruct w.
Qed.

(** Messages the reader has read, in order. *)
Definition decoded (ls : list label) : list Message :=
  omap (λ l, match l with
             | FrameRead d => match Decode d with Ok m => Some m | Err _ => None end
             | _ => None
             end) ls.
Definition held (r : result ctl_error Message) : list Message := match r with Ok m => [m] | Err _ => [] end.
(** Those the loop has not taken yet. *)
Definition in_flight (s : TurnState) : list Message :=
  (match t_channel s with Some r => held r | None => [] end
   ++ match t_reader s with Holding r => held r | _ => [] end)%list.

(** Those the loop has taken: one per step that takes a message. *)
Definition takes (ls : list label) : nat :=
  length (omap (λ l, match l with TakeMessage => Some tt | _ => None end) ls).
Definition taken_by (ls : list label) : list Message := take (takes ls) (decoded ls).

Section Turn.
Context (raw_text : RawMessage → string) (traceID : string) (Htrace : traceID ≠ "") (w0 : World).

(** The frame asks to interrupt the turn. *)
Definition interrupts (turn : string * string) (j : json) : Prop :=
  ∃ i, Decode (Some j) = Ok i ∧ m_Type i = TypeTurnInterrupt ∧ m_TraceID i = traceID ∧ m_Sender i = sender
    ∧ m_Payload i = Raw (json_TurnInterrupt (mkTurnRef turn.1 turn.2)).

(** What a signal taken after the steps [done_] asks to interrupt: the turn that
    the last turn.started taken until then named, when one did. *)
Definition asked (done_ : list label) (l : label) : list (string * string) :=
  match l with
  | TakeSignal true _ =>
      let turn := active traceID (taken_by done_) in
      if String.eqb turn.1 "" || String.eqb turn.2 "" then [] else [turn]
  | _ => []
  end.
Fixpoint asked_from (done_ ls : list label) : list (string * string) :=
  match ls with
  | [] => []
  | l :: ls => (asked done_ l ++ asked_from (done_ ++ [l]) ls)%list
  end.
(** The turns the loop asks to interrupt, signal by signal. *)
Definition all_asked (ls : list label) : list (string * string) := asked_from [] ls.

Lemma all_asked_snoc ls l : all_asked (ls ++ [l]) = (all_asked ls ++ asked ls l)%list.
Proof.
  assert (∀ done_, asked_from done_ (ls ++ [l]) = (asked_from done_ ls ++ asked (done_ ++ ls) l)%list) as H.
  { induction ls as [|k ls IH]; intros done_; simpl.
    - by rewrite !app_nil_r.
    - by rewrite IH, <- !app_assoc. }
  exact (H []).
Qed.

(** How the loop has ended, if it has. *)
Definition ending (ls : list label) (s : TurnState) (taken : list Message) : Prop :=
  match t_exit s with
  | None => Forall (λ m, verdict traceID m = None) taken
  | Some (Code c) =>
      (∃ before m, taken = (before ++ [m])%list ∧ Forall (λ m, verdict traceID m = None) before
                   ∧ verdict traceID m = Some c)
      ∨ (c = 1%Z ∧ Forall (λ m, verdict traceID m = None) taken
         ∧ ((FrameFails ∈ ls ∧ taken = decoded ls) ∨ ∃ again, TakeSignal false again ∈ ls))
  | Some KilledBySignal => Forall (λ m, verdict traceID m = None) taken ∧ t_stopped s = true
  end.

Record turn_inv (ls : list label) (s : TurnState) (taken : list Message) : Prop := {
  ti_trace : t_trace s = traceID;
  ti_env : env_ok (w_env (t_world s));
  ti_order : (taken ++ in_flight s)%list = decoded ls;
  ti_active : (t_thread s, t_turn s) = active traceID taken;
  ti_stdout : stdout (w_log (t_world s)) = stdout (w_log w0) +:+ concat_strings (map (output traceID) taken);
  ti_taken : taken = taken_by ls;
  ti_takes : t_exit s = None → takes ls = length taken;
  ti_sent : ∃ js, sent (w_log (t_world s)) = (sent (w_log w0) ++ js)%list ∧ Forall2 interrupts (all_asked ls) js
    ∧ (length js + (if t_stopped s && t_pending s then 1 else 0) ≤ (if t_stopped s then 2 else 0))%nat;
  ti_channel : ∀ e, t_channel s = Some (Err e) → t_reader s = ReaderDone;
  ti_failed : ∀ e, t_channel s = Some (Err e) ∨ t_reader s = Holding (Err e) → FrameFails ∈ ls;
  ti_ending : ending ls s taken;
}.

Lemma decoded_app ls ls' : decoded (ls ++ ls') = (decoded ls ++ decoded ls')%list.
Proof. unfold decoded. apply omap_app. Qed.

Lemma takes_snoc ls l : takes (ls ++ [l]) = (takes ls + match l with TakeMessage => 1 | _ => 0 end)%nat.
Proof. unfold takes. rewrite omap_app, length_app. by destruct l. Qed.

(** A step that takes no message, and one that does. *)
Lemma taken_quiet ls l taken rest :
  (taken ++ rest)%list = decoded ls → takes ls = length taken → l ≠ TakeMessage → taken = taken_by (ls ++ [l]).
Proof.
  intros Ho Ht Hl. unfold taken_by. rewrite takes_snoc, decoded_app, <- Ho, Ht.
  assert ((match l with TakeMessage => 1 | _ => 0 end) = 0)%nat as -> by (by destruct l).
  by rewrite Nat.add_0_r, <- app_assoc, take_app_length.
Qed.
Lemma takes_quiet ls l : l ≠ TakeMessage → takes (ls ++ [l]) = takes ls.
Proof. intros Hl. rewrite takes_snoc. destruct l; by rewrite ?Nat.add_0_r. Qed.
Lemma taken_more ls taken m rest :
  (taken ++ m :: rest)%list = decoded ls → takes ls = length taken →
  (taken ++ [m])%list = taken_by (ls ++ [TakeMessage])
  ∧ takes (ls ++ [TakeMessage]) = length (taken ++ [m]).
Proof.
  intros Ho Ht. unfold taken_by. rewrite takes_snoc, decoded_app, <- Ho, Ht, app_nil_r, length_app.
  split; [|done]. change (m :: rest) with ([m] ++ rest)%list. rewrite app_assoc, take_app_le.
  - rewrite take_ge; [done|]. rewrite length_app. simpl. lia.
  - rewrite length_app. simpl. lia.
Qed.
Lemma asked_quiet ls l : (∀ b, l ≠ TakeSignal true b) → all_asked (ls ++ [l]) = all_asked ls.
Proof. intros Hl. rewrite all_asked_snoc. destruct l as [| | | | |[|] b]; simpl; try apply app_nil_r. by destruct (Hl b). Qed.

Lemma active_snoc ms m :
  active traceID (ms ++ [m]) =
    if own traceID m && String.eqb (m_Type m) TypeTurnStarted then
      let p := (PayloadAs zero_TurnStarted dec_TurnStarted m).1 in (st_ThreadID p, st_TurnID p)
    else active traceID ms.
Proof. unfold active. by rewrite foldl_app. Qed.

(** A step of the reader or a signal that only adds what it must. *)
Lemma inv_quiet ls l s s' taken :
  turn_inv ls s taken → t_exit s = None → t_exit s' = None → t_trace s' = t_trace s → t_world s' = t_world s →
  t_thread s' = t_thread s → t_turn s' = t_turn s → t_stopped s' = t_stopped s →
  (t_stopped s = true → t_pending s' = t_pending s) → l ≠ TakeMessage → (∀ b, l ≠ TakeSignal true b) →
  in_flight s' = (in_flight s ++ decoded [l])%list →
  (∀ e, t_channel s' = Some (Err e) → t_reader s' = ReaderDone) →
  (∀ e, t_channel s' = Some (Err e) ∨ t_reader s' = Holding (Err e) → FrameFails ∈ (ls ++ [l])%list) →
  turn_inv (ls ++ [l]) s' taken.
Proof.
  intros [] Hx Hx' Ht Hw Hth Htu Hst Hpe Hlt Hls Hf Hc Hfail. split; rewrite ?Ht, ?Hw, ?Hth, ?Htu; try done.
  - by rewrite Hf, app_assoc, ti_order0, decoded_app.
  - eapply taken_quiet; [exact ti_order0|by apply ti_takes0|done].
  - intros _. rewrite takes_quiet by done. by apply ti_takes0.
  - destruct ti_sent0 as (js&H1&H2&H3). exists js. rewrite asked_quiet by done. split_and!; try done. rewrite Hst.
    destruct (t_stopped s); [by rewrite Hpe|done].
  - unfold ending in *. by rewrite Hx in ti_ending0; rewrite Hx'.
Qed.

(** The loop takes a message. *)
Lemma inv_message ls s taken m :
  turn_inv ls s taken → t_exit s = None → t_channel s = Some (Ok m) →
  turn_inv (ls ++ [TakeMessage]) (on_message raw_text (Ok m) (set_reader (t_reader s) None s)) (taken ++ [m]).
Proof.
  intros [] Hx Hch. destruct s as [tr rd ch pe sto th tu w ex]. simpl in *. subst tr ch ex.
  unfold ending in ti_ending0. simpl in ti_ending0.
  assert (decoded (ls ++ [TakeMessage]) = decoded ls) as Hd by (rewrite decoded_app; apply app_nil_r).
  assert (∀ s', t_channel s' = None → t_reader s' = rd →
            (taken ++ [m] ++ in_flight s')%list = decoded (ls ++ [TakeMessage])) as Horder.
  { intros s' H1 H2. rewrite Hd, <- ti_order0. unfold in_flight. simpl. by rewrite H1, H2. }
  assert (∀ e, None = Some (Err e : result ctl_error Message) ∨ rd = Holding (Err e) → FrameFails ∈ (ls ++ [TakeMessage])%list) as Hfail.
  { intros e [|He]; [done|]. apply elem_of_app. left. apply (ti_failed0 e). by right. }
  destruct ti_sent0 as (js&Hs1&Hs2&Hs3).
  assert (Forall2 interrupts (all_asked (ls ++ [TakeMessage])) js) as Hs2' by (by rewrite asked_quiet).
  assert ((taken ++ [m])%list = taken_by (ls ++ [TakeMessage]) ∧ takes (ls ++ [TakeMessage]) = length (taken ++ [m]))
    as [Htk Htn].
  { unfold in_flight in ti_order0. simpl in ti_order0. eapply taken_more; [exact ti_order0|by apply ti_takes0]. }
  unfold on_message. simpl. destruct (own traceID m) eqn:Eo; unfold own in Eo; rewrite Eo; simpl.
  - match goal with |- context [on_world _ ?x] => set (s1 := x) end.
    assert (t_trace s1 = traceID ∧ t_reader s1 = rd ∧ t_channel s1 = None ∧ t_pending s1 = pe ∧ t_stopped s1 = sto
            ∧ t_world s1 = w ∧ t_exit s1 = None ∧ (t_thread s1, t_turn s1) = active traceID (taken ++ [m]))
      as (H1&H2&H3&H4&H5&H6&H7&H8).
    { unfold s1. rewrite active_snoc. unfold own. rewrite Eo. simpl. destruct (String.eqb (m_Type m) TypeTurnStarted).
      - destruct (PayloadAs _ _ m) as [p ok]. by split_and!.
      - by split_and!. }
    clearbody s1. destruct s1 as [tr1 rd1 ch1 pe1 sto1 th1 tu1 w1 ex1]. simpl in *.
    subst tr1 rd1 ch1 pe1 sto1 w1 ex1.
    destruct (printTurnEvent_spec raw_text m w) as (l&Hp&Hl1&Hl2). unfold on_world. simpl. rewrite Hp.
    assert (verdict traceID m = event_code m ∧ output traceID m = event_output m) as [Hv Ho]
      by (unfold verdict, output, own; by rewrite Eo).
    destruct (event_code m) as [c|] eqn:Ec; split; simpl; try done.
    all: try (rewrite <- app_assoc; by apply Horder).
    all: try (rewrite stdout_app, ti_stdout0, map_app, concat_strings_app, Hl1; simpl; by rewrite append_nil, append_assoc, Ho).
    all: try (exists js; rewrite sent_app, Hl2, app_nil_r; by split_and!).
    + unfold ending. simpl. left. exists taken, m. by rewrite Hv.
    + unfold ending. simpl. apply Forall_app. split; [done|]. constructor; [by rewrite Hv|done].
  - assert (verdict traceID m = None ∧ output traceID m = "") as [Hv Ho] by (unfold verdict, output, own; by rewrite Eo).
    assert (active traceID (taken ++ [m]) = active traceID taken) as Ha by (rewrite active_snoc; unfold own; by rewrite Eo).
    assert (turn_inv (ls ++ [TakeMessage]) (mkTurnState traceID rd None pe sto th tu w None) (taken ++ [m])) as Hsame.
    { split; simpl; try done.
      - rewrite <- app_assoc. by apply Horder.
      - by rewrite Ha.
      - rewrite ti_stdout0, map_app, concat_strings_app. simpl. by rewrite Ho, !append_nil.
      - by exists js.
      - unfold ending. simpl. apply Forall_app. by repeat constructor. }
    destruct (String.eqb_spec (m_Type m) TypeAgentStatus) as [Et|]; [|exact Hsame].
    simpl. rewrite Et. simpl. unfold on_world, printTurnEvent, set_world. rewrite Et. exact Hsame.
Qed.

(** The connection is over: every message read was taken before. *)
Lemma inv_failed ls s taken e :
  turn_inv ls s taken → t_exit s = None → t_channel s = Some (Err e) →
  turn_inv (ls ++ [TakeMessage]) (on_message raw_text (Err e) (set_reader (t_reader s) None s)) taken.
Proof.
  intros [] Hx Hch. pose proof (ti_channel0 e Hch) as Hrd. pose proof (ti_failed0 e (or_introl Hch)) as Hfr.
  assert (decoded (ls ++ [TakeMessage]) = decoded ls) as Hd by (rewrite decoded_app; apply app_nil_r).
  assert (taken = decoded ls) as Htk by (rewrite <- ti_order0; unfold in_flight; rewrite Hch, Hrd; simpl; by rewrite app_nil_r).
  unfold ending in ti_ending0. rewrite Hx in ti_ending0.
  destruct s as [tr rd ch pe sto th tu w ex]. simpl in *. subst tr rd ch ex. split; simpl; try done.
  - rewrite Hd, <- Htk. unfold in_flight. simpl. by rewrite app_nil_r.
  - rewrite stdout_app. unfold stdout at 2. simpl. by rewrite append_nil.
  - unfold taken_by. rewrite takes_snoc, Hd, <- Htk, take_ge; [done|]. rewrite (ti_takes0 eq_refl). lia.
  - rewrite sent_app. simpl. rewrite app_nil_r, asked_quiet by done. exact ti_sent0.
  - by intros e' [|].
  - unfold ending. simpl. right. split_and!; [done|done|]. left. split; [by apply elem_of_app; left|by rewrite Hd].
Qed.

(** The loop takes a signal. *)
Lemma inv_signal ls s taken written again :
  turn_inv ls s taken → t_exit s = None → t_pending s = true →
  turn_inv (ls ++ [TakeSignal written again]) (on_signal written again (set_pending false s)) taken.
Proof.
  intros [] Hx Hpe. destruct s as [tr rd ch pe sto th tu w ex]. simpl in *. subst tr pe ex.
  unfold ending in ti_ending0. simpl in ti_ending0.
  assert (decoded (ls ++ [TakeSignal written again]) = decoded ls) as Hd by (rewrite decoded_app; apply app_nil_r).
  assert (∀ e, ch = Some (Err e) ∨ rd = Holding (Err e) → FrameFails ∈ (ls ++ [TakeSignal written again])%list) as Hfail
    by (intros e He; apply elem_of_app; left; by apply (ti_failed0 e)).
  assert (taken = taken_by (ls ++ [TakeSignal written again])) as Htk
    by (eapply taken_quiet; [exact ti_order0|by apply ti_takes0|done]).
  assert (takes (ls ++ [TakeSignal written again]) = length taken) as Htn
    by (rewrite takes_quiet by done; by apply ti_takes0).
  assert (asked ls (TakeSignal written again) =
            if written then if String.eqb th "" || String.eqb tu "" then [] else [(th, tu)] else []) as Hask
    by (unfold asked; destruct written; [|done]; by rewrite <- ti_taken0, <- ti_active0).
  destruct ti_sent0 as (js&Hs1&Hs2&Hs3). unfold on_signal. simpl.
  destruct (String.eqb th "" || String.eqb tu "") eqn:Eq.
  - split; simpl; try done.
    + by rewrite Hd.
    + rewrite stdout_app. unfold stdout at 2. simpl. by rewrite append_nil.
    + exists js. rewrite sent_app. simpl. rewrite app_nil_r, all_asked_snoc, Hask.
      split_and!; [done|by destruct written; rewrite app_nil_r|]. rewrite andb_false_r. lia.
  - apply orb_false_iff in Eq as [Hth%String.eqb_neq Htu%String.eqb_neq].
    unfold on_world, new_message. simpl.
    destruct (build_message TypeTurnInterrupt traceID sender (json_TurnInterrupt (mkTurnRef th tu)) (w_env w))
      as [i env'] eqn:Eb.
    apply build_message_sound in Eb as (Henv&Hw&Hty&Hse&Hpl&Htr&j&Hj&Hdec); [|done..].
    unfold writeMessage. rewrite Hj. specialize (Htr Htrace). destruct written; simpl.
    + assert (interrupts (th, tu) j) as Hint by (exists i; by split_and!).
      split; simpl; try done.
      * by rewrite Hd.
      * rewrite !stdout_app. unfold stdout at 2 3. simpl. by rewrite !append_nil.
      * exists (js ++ [j])%list. rewrite !sent_app. simpl. rewrite app_nil_r, Hs1, <- app_assoc.
        split_and!; [done|rewrite all_asked_snoc, Hask; apply Forall2_app; by repeat constructor|].
        rewrite length_app. simpl. destruct sto, again; simpl in *; lia.
    + split; simpl; try done.
      * by rewrite Hd.
      * rewrite stdout_app. unfold stdout at 2. simpl. by rewrite append_nil.
      * exists js. rewrite sent_app. simpl. rewrite app_nil_r, all_asked_snoc, Hask, app_nil_r.
        split_and!; [done..|]. rewrite andb_false_r. lia.
      * unfold ending. simpl. right. split_and!; [done|done|]. right. exists again.
        apply elem_of_app. right. by apply list_elem_of_singleton.
Qed.

Lemma turn_step_inv ls l s s' taken :
  turn_inv ls s taken → turn_step raw_text l s = Some s' → ∃ taken', turn_inv (ls ++ [l]) s' taken'.
Proof.
  intros Hi H. unfold turn_step in H. destruct (t_exit s) eqn:Hx; [done|].
  pose proof Hi as []. clear ti_taken0. destruct s as [tr rd ch pe sto th tu w ex]. simpl in *. subst tr ex.
  assert (∀ e, ch = Some (Err e) ∨ rd = Holding (Err e) → FrameFails ∈ (ls ++ [l])%list) as Hfail
    by (intros e He; apply elem_of_app; left; by apply (ti_failed0 e)).
  destruct l as [data| | | | |written again].
  - destruct rd; simplify_eq. exists taken. destruct (Decode data) as [m|] eqn:Ed.
    + eapply inv_quiet; try done; simpl.
      * unfold in_flight. simpl. rewrite Ed. by rewrite app_nil_r.
      * intros e He. by apply ti_channel0 in He.
      * intros e [He|[=]]. apply (Hfail e). by left.
    + eapply inv_quiet; try done. simpl. rewrite Ed. by rewrite app_nil_r.
  - destruct rd; simplify_eq. exists taken. eapply inv_quiet; try done; simpl.
    + unfold in_flight. simpl. by rewrite !app_nil_r.
    + intros e He. by apply ti_channel0 in He.
    + intros e _. apply elem_of_app. right. by apply list_elem_of_singleton.
  - destruct rd as [|r|], ch; simplify_eq. exists taken. eapply inv_quiet; try done; simpl.
    + unfold in_flight. simpl. destruct r; simpl; by rewrite ?app_nil_r.
    + intros e [= ->]. done.
    + intros e [[= ->]|Hr]; [apply (Hfail e); by right|]. by destruct (is_ok r).
  - destruct ch as [[m|e]|]; simplify_eq.
    + exists (taken ++ [m])%list. by apply (inv_message ls _ taken m Hi).
    + exists taken. by apply (inv_failed ls _ taken e Hi).
  - simplify_eq. exists taken. destruct sto.
    + destruct Hi. split; simpl; try done.
      * by rewrite decoded_app; simpl; rewrite app_nil_r.
      * eapply taken_quiet; [exact ti_order1|by apply ti_takes1|done].
      * by rewrite asked_quiet.
    + eapply inv_quiet; try done. simpl. by rewrite app_nil_r.
  - destruct pe; simplify_eq. exists taken. by apply (inv_signal ls _ taken written again Hi).
Qed.

Lemma turn_run_inv ls done_ s s' taken :
  turn_inv done_ s taken → turn_run raw_text ls s = Some s' → ∃ taken', turn_inv (done_ ++ ls) s' taken'.
Proof.
  revert done_ s taken. induction ls as [|l ls IH]; intros done_ s taken Hi H; simpl in H.
  - simplify_eq. rewrite app_nil_r. eauto.
  - destruct (turn_step raw_text l s) as [s1|] eqn:Es; [|done].
    destruct (turn_step_inv _ _ _ _ _ Hi Es) as [t1 H1].
    destruct (IH _ _ _ H1 H) as [t2 H2]. exists t2. by rewrite <- app_assoc in H2.
Qed.

Lemma turn_start_inv : env_ok (w_env w0) → turn_inv [] (turn_start traceID w0) [].
Proof.
  intros He. split; simpl; try done.
  - unfold concat_strings. simpl. by rewrite append_nil.
  - exists []. rewrite app_nil_r. by split_and!.
  - by intros e [|].
  - unfold ending. simpl. constructor.
Qed.

(** Taking a message ends the loop exactly with the message's code. *)
Lemma on_message_exit m s :
  t_exit s = None → t_trace s = traceID →
  let s' := on_message raw_text (Ok m) s in
  t_exit s' = Code <$> verdict traceID m ∧ t_reader s' = t_reader s ∧ t_channel s' = t_channel s ∧ t_trace s' = traceID.
Proof.
  destruct s as [tr rd ch pe sto th tu w ex]. simpl. intros -> ->. unfold on_message, verdict, own. simpl.
  destruct (String.eqb (m_TraceID m) traceID) eqn:Eo; simpl.
  - match goal with |- context [on_world _ ?x] => set (s1 := x) end.
    assert (t_reader s1 = rd ∧ t_channel s1 = ch ∧ t_exit s1 = None ∧ t_trace s1 = traceID) as (H1&H2&H3&H4)
      by (unfold s1; destruct (String.eqb (m_Type m) TypeTurnStarted); [destruct (PayloadAs _ _ m)|]; by split_and!).
    clearbody s1. unfold on_world. destruct (printTurnEvent_spec raw_text m (t_world s1)) as (l&->&_).
    destruct (event_code m); by split_and!.
  - destruct (String.eqb_spec (m_Type m) TypeAgentStatus) as [Et|]; simpl; [|by split_and!].
    rewrite Et. simpl. unfold on_world, printTurnEvent. rewrite Et. by split_and!.
Qed.

Ltac own_steps := repeat (apply Forall_cons_2; [auto|]); apply Forall_nil_2.

(** What the reader has read is taken without the network's help. *)
Lemma turn_drains ls s taken pre m post c :
  turn_inv ls s taken → t_exit s = None → in_flight s = (pre ++ m :: post)%list →
  Forall (λ x, verdict traceID x = None) pre → verdict traceID m = Some c →
  ∃ own_steps s', Forall (λ l, l = Delivered ∨ l = TakeMessage) own_steps
    ∧ turn_run raw_text own_steps s = Some s' ∧ t_exit s' = Some (Code c).
Proof.
  intros [] Hx Hf Hpre Hm. unfold in_flight in Hf.
  (* the message the channel holds is taken, then the one the reader holds *)
  assert (∀ s1 x, t_exit s1 = None → t_trace s1 = traceID → t_channel s1 = Some (Ok x) →
            ∃ s2, turn_step raw_text TakeMessage s1 = Some s2 ∧ t_exit s2 = Code <$> verdict traceID x
              ∧ t_reader s2 = t_reader s1 ∧ t_channel s2 = None ∧ t_trace s2 = traceID) as Htake.
  { intros s1 x H1 H2 H3. unfold turn_step. rewrite H1, H3. eexists. split; [done|].
    destruct (on_message_exit x (set_reader (t_reader s1) None s1)) as (?&?&?&?); [done..|]. by split_and!. }
  assert (∀ s1 x, t_exit s1 = None → t_trace s1 = traceID → t_channel s1 = None → t_reader s1 = Holding (Ok x) →
            ∃ s2, turn_step raw_text Delivered s1 = Some s2 ∧ t_exit s2 = None ∧ t_trace s2 = traceID
              ∧ t_channel s2 = Some (Ok x)) as Hput.
  { intros s1 x H1 H2 H3 H4. unfold turn_step. rewrite H1, H3, H4. eexists. split; [done|]. by split_and!. }
  assert (∀ s1, t_exit s1 = None → t_trace s1 = traceID → t_channel s1 = None → t_reader s1 = Holding (Ok m) →
            ∃ s', turn_run raw_text [Delivered; TakeMessage] s1 = Some s' ∧ t_exit s' = Some (Code c)) as Hlast.
  { intros s1 H1 H2 H3 H4. destruct (Hput s1 m) as (s2&Hs2&?&?&?); [done..|].
    destruct (Htake s2 m) as (s3&Hs3&He&_); [done..|]. exists s3. simpl. rewrite Hs2, Hs3, He. by rewrite Hm. }
  destruct (t_channel s) as [[x|e]|] eqn:Hc; simpl in Hf.
  - destruct (Htake s x Hx ti_trace0 Hc) as (s2&Hs2&He&Hr2&Hc2&Ht2). destruct pre as [|y pre]; simplify_eq/=.
    + exists [TakeMessage], s2. split_and!; [by own_steps|simpl; by rewrite Hs2|by rewrite He, Hm].
    + apply Forall_cons in Hpre as [Hy0 Hpre]. rewrite Hy0 in He. destruct (t_reader s) as [|[z|e]|] eqn:Er; simpl in *; simplify_eq/=;
        try by destruct pre.
      assert (z = m) as -> by (destruct pre as [|? []]; by simplify_eq/=).
      destruct (Hlast s2) as (s'&Hs'&He'); [done..|].
      exists [TakeMessage; Delivered; TakeMessage], s'. split_and!; [by own_steps|simpl in *; by rewrite Hs2|done].
  - rewrite (ti_channel0 e eq_refl) in Hf. by destruct pre.
  - destruct (t_reader s) as [|[y|e]|] eqn:Er; simpl in *; try by destruct pre.
    assert (y = m) as -> by (destruct pre as [|? []]; by simplify_eq/=).
    destruct (Hlast s Hx ti_trace0 Hc Er) as (s'&Hs'&He'). exists [Delivered; TakeMessage], s'.
    by split_and!; [own_steps|..].
Qed.

(** C24. In every interleaving of the reader, the signals and the loop: the loop
    takes the messages the reader decoded, in order, and none is lost; the exit
    code is that of the first event that ends the command's own turn (0
    completed, 1 failed or rejected, 130 interrupted), or 1 when the connection
    ended, after every message read was taken, or an interrupt could not be
    written, and a signal kills the process only after an interrupt was sent;
    the standard output is the output of the own turn's events in order; and the
    frames sent after the start are exactly those that ask, for each signal the
    loop took and wrote, to interrupt the turn that the last own turn.started
    taken by then had named, two at most, and none for a signal taken before
    that.  And once an event that ends the turn was read, the loop's own steps
    take it to that event's code. *)
Theorem turn_outcome ls s :
  env_ok (w_env w0) → turn_run raw_text ls (turn_start traceID w0) = Some s →
  let taken := taken_by ls in
    (taken ++ in_flight s)%list = decoded ls
    ∧ ending ls s taken
    ∧ stdout (w_log (t_world s)) = stdout (w_log w0) +:+ concat_strings (map (output traceID) taken)
    ∧ (∃ js, sent (w_log (t_world s)) = (sent (w_log w0) ++ js)%list ∧ Forall2 interrupts (all_asked ls) js
        ∧ (length js ≤ 2)%nat)
    ∧ ∀ pre m post c, t_exit s = None → in_flight s = (pre ++ m :: post)%list →
        Forall (λ x, verdict traceID x = None) pre → verdict traceID m = Some c →
        ∃ own_steps s', Forall (λ l, l = Delivered ∨ l = TakeMessage) own_steps
          ∧ turn_run raw_text own_steps s = Some s' ∧ t_exit s' = Some (Code c).
Proof.
  intros He Hr taken. destruct (turn_run_inv ls [] _ _ [] (turn_start_inv He) Hr) as [taken' Hi].
  pose proof Hi as []. simpl in ti_taken0. assert (taken' = taken) as -> by exact ti_taken0.
  split_and!; [done..| |].
  - destruct ti_sent0 as (js&?&?&?). exists js. split_and!; [done..|]. destruct (t_stopped s); lia.
  - intros pre m post c Hx Hf Hp Hm. by eapply turn_drains.
Qed.

End Turn.
