(* ===== verification/RelayFlow.v ===== *)
(** * A request of relayctl through the relay

    The router and the coordinator between relayctl, connected as the App, and
    the Agent: what relayctl writes reaches the Agent, and the Agent's answer is
    what the request returns. *)

From S2P Require Import Prelude GoStd GoTime Json Protocol Envelope Payloads AgentPayloads.
From S2P Require Import Threads Hub Router Gateway Coordinator RelayCtl RelayCtlSpec.
#[local] Open Scope string_scope.

Section Forward.
Context {O : Type} (observer : option (Observer O)) (error_text : invalid → string).

(** A frame of the App reaches the Agent, under the App's name. *)
Lemma app_frame_forwarded id ag pa data m s :
  Decode data = Ok m → AllowedFrom RoleApp (m_Type m) = true → ready RoleAgent ag pa s.1 →
  ∃ h', read_frame (M := RSt O) observer error_text id RoleApp (TextFrame data) s = (true, (h', s.2))
    ∧ queued ag pa (with_sender m (CanonicalSender RoleApp)) s.1 h'.
Proof.
  intros Hd Ha Hready. set (m' := with_sender m (CanonicalSender RoleApp)).
  destruct (RememberAppState_regs m' (hub_registry s.1)) as [H1 H2].
  assert (ready RoleAgent ag pa (set_registry (RememberAppState m' (hub_registry s.1)) s.1)) as Hr2
    by (by apply ready_registry).
  exists (set_peers (<[ag := enqueue m' pa]> (hub_peers s.1))
            (set_registry (RememberAppState m' (hub_registry s.1)) s.1)).
  split; [|by split_and!].
  assert (Handle (M := RSt O) observer id RoleApp m s = forward (M := RSt O) observer id RoleApp m' s) as Hh
    by (unfold Handle; rewrite Ha; by destruct observer).
  unfold read_frame. rewrite Hd. cbn [bind ret st_monad]. rewrite Hh.
  unfold forward, hub, on_hub, atomic, atomic_st, modify, gets. cbn [bind ret st_monad fst snd].
  change (String.eqb RoleApp RoleAgent) with false. cbv iota. fold m'. cbn [hub_registry set_registry].
  pose proof (proj1 Hr2) as Hcur. change (other_role RoleApp) with RoleAgent. cbn [hub_registry set_registry] in Hcur.
  rewrite Hcur. cbn [fst snd]. rewrite (Send_ready _ _ _ m' _ Hr2). by destruct observer.
Qed.

(** A message of the Agent that the observer declines reaches the App. *)
Lemma agent_frame_forwarded ob id app pa data m s :
  observer = Some ob → Decode data = Ok m → AllowedFrom RoleAgent (m_Type m) = true → ready RoleApp app pa s.1 →
  AgentMessage ob id (with_sender m (CanonicalSender RoleAgent)) s = (false, s) →
  (∀ f x, AgentMessageForwarded ob = Some f → f id (with_sender m (CanonicalSender RoleAgent)) x = (tt, x)) →
  ∃ h', read_frame (M := RSt O) observer error_text id RoleAgent (TextFrame data) s = (true, (h', s.2))
    ∧ queued app pa (with_sender m (CanonicalSender RoleAgent)) s.1 h'.
Proof.
  intros -> Hd Ha Hready Hdecl Hfwd. set (m' := with_sender m (CanonicalSender RoleAgent)) in *.
  destruct (RememberAgentState_regs m' (hub_registry s.1)) as [H1 H2].
  assert (ready RoleApp app pa (set_registry (RememberAgentState m' (hub_registry s.1)) s.1)) as Hr2
    by (by apply ready_registry).
  exists (set_peers (<[app := enqueue m' pa]> (hub_peers s.1))
            (set_registry (RememberAgentState m' (hub_registry s.1)) s.1)).
  split; [|by split_and!].
  assert (Handle (M := RSt O) (Some ob) id RoleAgent m s = forward (M := RSt O) (Some ob) id RoleAgent m' s) as Hh.
  { unfold Handle, atomic, atomic_st. rewrite Ha. cbn [negb bind ret st_monad].
    change (String.eqb RoleAgent RoleAgent) with true. cbv iota. fold m'. by rewrite Hdecl. }
  unfold read_frame. rewrite Hd. cbn [bind ret st_monad]. rewrite Hh.
  unfold forward, hub, on_hub, atomic, atomic_st, modify, gets. cbn [bind ret st_monad fst snd].
  change (String.eqb RoleAgent RoleAgent) with true. cbv iota. fold m'. cbn [hub_registry set_registry].
  pose proof (proj1 Hr2) as Hcur. change (other_role RoleAgent) with RoleApp. cbn [hub_registry set_registry] in Hcur.
  rewrite Hcur. cbn [fst snd]. rewrite (Send_ready _ _ _ m' _ Hr2).
  destruct (AgentMessageForwarded ob) as [f|] eqn:Ef; [|done]. by rewrite (Hfwd f _ eq_refl).
Qed.
End Forward.

(** The listings relayctl asks for, with their replies. *)
Definition listings : list (string * string) :=
  [(TypeProjectList, TypeProjectSnapshot); (TypeExecutionProfileList, TypeExecutionProfileSnapshot);
   (TypeThreadList, TypeThreadSnapshot); (TypeThreadRead, TypeThreadDetail)].

Section Query.
Context {W B : Type} `{SI : !StoreI W, BI : !BrokerI B}.

(** The coordinator has no part in the answer to a listing an App asked for. *)
Lemma coordinator_declines type reply id (m : Message) (s : RState (Coord W B)) :
  (type, reply) ∈ listings → m_Type m = reply → m_TraceID m ≠ projectRefreshTraceID →
  co_profiles s.2 !! m_TraceID m = None →
  AgentMessage coordinator id m s = (false, s)
  ∧ ∀ f x, AgentMessageForwarded (coordinator (W := W) (B := B)) = Some f → f id m x = (tt, x).
Proof.
  intros Hin Ht Htr Hw. split.
  - simpl. unfold agent_message, on_source, on_profiles. simpl.
    destruct s as [h [st br so pr ru wo no lo]]. simpl in *.
    unfold listings in Hin. rewrite !elem_of_cons in Hin. destruct Hin as [Hin|[Hin|[Hin|[Hin|Hin]]]];
      [| | | |by apply elem_of_nil in Hin]; injection Hin as -> ->; unfold SourceHandle, ProfilesHandle;
      rewrite Ht; simpl; rewrite ?Hw; simpl; rewrite ?Ht; simpl; try done.
    unfold on_project_snapshot. by rewrite (proj2 (String.eqb_neq _ _) Htr).
  - intros f x [= <-]. unfold agent_message_forwarded.
    unfold listings in Hin. rewrite !elem_of_cons in Hin. destruct Hin as [Hin|[Hin|[Hin|[Hin|Hin]]]];
      [| | | |by apply elem_of_nil in Hin]; injection Hin as -> ->; rewrite Ht; by rewrite orb_true_r.
Qed.

Lemma new_id_ok w : env_ok (w_env w) → (new_id w).1 ≠ "" ∧ env_ok (w_env (new_id w).2) ∧ w_log (new_id w).2 = w_log w.
Proof.
  intros He. unfold new_id. destruct (draw (w_env w)) as [i env] eqn:Ed. simpl.
  destruct (draw_ok _ _ _ He Ed). by split_and!.
Qed.

(** C23. A listing asked for with relayctl is answered: the request is one frame
    that the relay accepts and passes to the Agent unchanged but for its sender,
    in the name of the App; the Agent's reply of the same trace is passed to the
    App, in the Agent's name, whatever the coordinator is doing for its own
    runs, projects and waiting profile requests; and the frame it is written as
    is what relayctl's request returns, whatever other frames came before. *)
Theorem relayctl_query_answered connect error_text url type reply payload w (s : RState (Coord W B)) app pa ag qa :
  env_ok (w_env w) → (type, reply) ∈ listings →
  ready RoleApp app pa s.1 → ready RoleAgent ag qa s.1 →
  (new_id w).1 ≠ projectRefreshTraceID → co_profiles s.2 !! (new_id w).1 = None →
  let traceID := (new_id w).1 in
  let m := (RelayCtl.new_message type traceID payload (new_id w).2).1 in
  ∃ j, json_Message 0 m = Some j ∧
  let s1 := (read_frame (M := RSt (Coord W B)) (Some coordinator) error_text app RoleApp (TextFrame (Some j)) s).2 in
  hub_peers s1.1 !! ag = Some (enqueue (with_sender m (mkSender "user" "local-user")) qa) ∧
  ∀ data r, Decode data = Ok r → m_TraceID r = traceID → m_Type r = reply →
    let s2 := (read_frame (M := RSt (Coord W B)) (Some coordinator) error_text ag RoleAgent (TextFrame data) s1).2 in
    let r' := with_sender r (mkSender "device" "local-mac") in
    hub_peers s2.1 !! app = Some (enqueue r' pa) ∧
    ∀ zone j' pre post, (zone mod 60 = 0)%Z → json_Message zone r' = Some j' →
      Forall (λ d, relevant traceID reply d = false) pre →
      connect url = Some (mkConn true (pre ++ Some j' :: post)) →
      (query connect url type payload reply w).1 = Ok r'
      ∧ sent (w_log (query connect url type payload reply w).2) = (sent (w_log w) ++ [j])%list.
Proof.
  intros He Hin Happ Hag Href Hwait traceID m.
  destruct (new_id_ok w He) as (Ht0&He1&Hlog1). fold traceID in Ht0.
  assert (type ≠ "" ∧ AllowedFrom RoleApp type = true ∧ AllowedFrom RoleAgent reply = true ∧ reply ≠ TypeTurnRejected)
    as (Hty&Hallow&Hreply&Hrej).
  { unfold listings in Hin. rewrite !elem_of_cons in Hin.
    destruct Hin as [Hin|[Hin|[Hin|[Hin|Hin]]]]; [| | | |by apply elem_of_nil in Hin]; injection Hin as -> ->;
      by split_and!. }
  destruct (build_message type traceID RelayCtl.sender payload (w_env (new_id w).2)) as [m0 env0] eqn:Eb.
  assert (m = m0) as Hm by (unfold m, RelayCtl.new_message; by rewrite Eb).
  pose proof (build_message_sound type traceID RelayCtl.sender payload _ _ _ He1 Hty ltac:(done) ltac:(done) Eb)
    as (_&Hw&Hmt&_&_&Hmtr&j&Hj&Hdec). rewrite <- Hm in *.
  exists j. split; [done|].
  assert (ag ≠ app) as Hne.
  { intros ->. destruct Happ as (_&H1&H2&_), Hag as (_&H3&H4&_). rewrite H1 in H3. simplify_eq. by rewrite H2 in H4. }
  destruct (app_frame_forwarded (Some (coordinator (W := W) (B := B))) error_text app ag qa (Some j) m s) as (h1&Hr1&Hq1);
    [done|by rewrite Hmt|done|]. rewrite Hr1. cbv zeta. cbn [snd fst]. split.
  { destruct Hq1 as (->&_). by rewrite lookup_insert_eq. }
  intros data r Hr Hrt Hrty. set (r' := with_sender r (mkSender "device" "local-mac")).
  pose proof (ready_queued _ _ _ _ _ _ _ _ Hq1 Hne Happ) as Happ1.
  destruct (coordinator_declines type reply ag r' (h1, s.2) Hin) as [Hd1 Hd2];
    [done|by simpl; rewrite Hrt|by simpl; rewrite Hrt|].
  destruct (agent_frame_forwarded (Some coordinator) error_text coordinator ag app pa data r (h1, s.2))
    as (h2&Hr2&Hq2); [done|done|by rewrite Hrty|exact Happ1|exact Hd1|intros f x; apply Hd2|].
  rewrite Hr2. cbn [snd fst]. split.
  { destruct Hq2 as (->&_). by rewrite lookup_insert_eq. }
  intros zone j' pre post Hz Hj' Hpre Hconn.
  assert (Decode (Some j') = Ok r') as Hdec'.
  { eapply Decode_json_Message; [done| |done]. apply with_sender_well_formed; [done|done|].
    by eapply Decode_well_formed. }
  assert (query connect url type payload reply w
          = (await (m_TraceID m) reply (pre ++ Some j' :: post),
             mkWorld env0 ((w_log w ++ [Dialed url]) ++ [Sent j]))) as Hq.
  { unfold query. cbn [bind st_monad]. destruct (new_id w) as [t w1]. simpl in *.
    unfold RelayCtl.new_message. simpl. fold traceID. rewrite Eb. unfold request, dial, act, modify. simpl. rewrite Hconn. simpl.
    unfold writeMessage. rewrite Hj. simpl. unfold act, modify. simpl. by rewrite Hlog1. }
  rewrite Hq. simpl. split.
  - rewrite (Hmtr Ht0), await_skip by done. by apply await_reply.
  - rewrite !sent_app. simpl. by rewrite app_nil_r.
Qed.
End Query.
