(* ===== verification/AuthJSON.v ===== *)
(** * The auth responses as JSON

    What writeData and writeAuthError encode, and that the command line tools
    read back what the control endpoints wrote.  [zone] is the offset of the
    local time zone at an instant. *)

From S2P Require Import Prelude GoStd GoTime GoTimeSpec Json GoHTTP.
From S2P Require Import PairRun RelayCtl AuthStore AuthService AuthHTTP.
#[local] Open Scope string_scope.

Section AuthJSON.
Context (zone : Z → Z).

Definition json_time (t : Z) : option json := JStr <$> MarshalTime (zone t) t.

(** Scopes are never an empty list. *)
Definition json_strings (l : list string) : json := JArr (map JStr l).
(** A pointer to a time, with omitempty *)
Definition opt_time (name : string) (t : option Z) : option (list (string * json)) :=
  match t with Some t => (λ v, [(name, v)]) <$> json_time t | None => Some [] end.

Definition json_Client (c : Client) : option json :=
  created ← json_time (cn_CreatedAt c);
  seen ← opt_time "last_seen_at" (cn_LastSeenAt c);
  revoked ← opt_time "revoked_at" (cn_RevokedAt c);
  Some (JObj (req "client_id" (JStr (cn_ID c)) ++ req "name" (JStr (cn_Name c))
              ++ req "scopes" (json_strings (cn_Scopes c)) ++ req "created_at" created ++ seen ++ revoked)%list).

Definition json_Link (l : PairingLink) : option json :=
  (λ e, JObj [("code", JStr (lk_Code l)); ("expires_at", e)]) <$> json_time (lk_ExpiresAt l).

Definition json_AuthData (d : AuthData) : option json :=
  match d with
  | DPair p =>
      expires ← json_time (tj_AccessExpiresAt p); client ← json_Client (tj_Client p);
      Some (JObj [("access_token", JStr (tj_AccessToken p)); ("token_type", JStr (tj_TokenType p));
                  ("expires_in", JInt (tj_ExpiresIn p)); ("access_expires_at", expires); ("client", client)])
  | DNative p =>
      expires ← json_time (nt_AccessExpiresAt p); refresh ← json_time (nt_RefreshExpires p);
      client ← json_Client (nt_Client p);
      Some (JObj [("access_token", JStr (nt_AccessToken p)); ("token_type", JStr (nt_TokenType p));
                  ("expires_in", JInt (nt_ExpiresIn p)); ("access_expires_at", expires);
                  ("refresh_token", JStr (nt_RefreshToken p)); ("refresh_expires_at", refresh); ("client", client)])
  | DPrincipal p =>
      Some (JObj [("client_id", JStr (pj_ClientID p)); ("client_name", JStr (pj_ClientName p));
                  ("scopes", json_strings (pj_Scopes p))])
  | DLink l => json_Link l
  | DClients items => (λ js, JObj [("items", JArr js)]) <$> mapM json_Client items
  end.

Definition json_meta : json := JObj [("schema_version", JInt 1)].

(** The body that is written: nothing when the value has no JSON. *)
Definition json_response (r : ARes) : option json :=
  match rs_Body r with
  | Data d => (λ v, JObj [("data", v); ("meta", json_meta); ("success", JBool true)]) <$> json_AuthData d
  | ErrorBody code retryable =>
      Some (JObj [("error", JObj [("code", JStr code); ("message", JStr code); ("retryable", JBool retryable)]);
                  ("meta", json_meta); ("success", JBool false)])
  | _ => None
  end.

(** ** Reading them *)

Hypothesis whole_minutes : ∀ t, (zone t mod 60 = 0)%Z.

Lemma dec_json_time t j t0 : json_time t = Some j → dec_time j t0 = (t, true).
Proof.
  unfold json_time. destruct (MarshalTime (zone t) t) as [s|] eqn:E; [|done]. intros [= <-].
  apply ParseRFC3339_marshal in E; [|done]. unfold dec_time. by rewrite E.
Qed.

(** pairqr reads the link that was written. *)
Lemma pairqr_reads_link r l j :
  rs_Body r = Data (DLink l) → json_response r = Some j →
  PairRun.dec_grantEnvelope j PairRun.zero_grantEnvelope
  = (PairRun.mkEnvelope true (lk_Code l) (lk_ExpiresAt l), true).
Proof.
  intros Hb. unfold json_response. rewrite Hb. simpl. unfold json_Link.
  destruct (json_time (lk_ExpiresAt l)) as [e|] eqn:Ee; [|done]. simpl. intros [= <-].
  unfold PairRun.dec_grantEnvelope, PairRun.dec_grant_data. do 2 read_struct. by rewrite (dec_json_time _ _ _ Ee).
Qed.

(** relayctl reads it too. *)
Lemma relayctl_reads_link r l j :
  rs_Body r = Data (DLink l) → json_response r = Some j →
  RelayCtl.dec_PairingResponse j RelayCtl.zero_PairingData
  = (RelayCtl.mkPairingData (lk_Code l) (lk_ExpiresAt l), true).
Proof.
  intros Hb. unfold json_response. rewrite Hb. simpl. unfold json_Link.
  destruct (json_time (lk_ExpiresAt l)) as [e|] eqn:Ee; [|done]. simpl. intros [= <-].
  unfold RelayCtl.dec_PairingResponse, RelayCtl.dec_PairingData. do 2 read_struct. by rewrite (dec_json_time _ _ _ Ee).
Qed.

Definition client_item (c : Client) : RelayCtl.ClientItem :=
  RelayCtl.mkClientItem (cn_ID c) (cn_Name c) (cn_LastSeenAt c) (cn_RevokedAt c).

Lemma dec_ptr_time t j : json_time t = Some j → dec_ptr zero_time dec_time j None = (Some t, true).
Proof.
  intros H. assert (j ≠ JNull) as Hj by (unfold json_time in H; intros ->; by destruct (MarshalTime _ _)).
  unfold dec_ptr. simpl. rewrite (dec_json_time _ _ _ H). by destruct j.
Qed.

Lemma dec_json_Client c j : json_Client c = Some j → RelayCtl.dec_ClientItem j RelayCtl.zero_ClientItem = (client_item c, true).
Proof.
  unfold json_Client. intros H. apply bind_Some in H as (cr&Hcr&H). apply bind_Some in H as (se&Hse&H).
  apply bind_Some in H as (re&Hre&H). apply (inj Some) in H as <-.
  unfold opt_time in *. unfold RelayCtl.dec_ClientItem, client_item, req.
  destruct (cn_LastSeenAt c) as [s|] eqn:E1; [destruct (json_time s) as [vs|] eqn:Es; [|done]|];
    apply (inj Some) in Hse as <-;
  (destruct (cn_RevokedAt c) as [v|] eqn:E2; [destruct (json_time v) as [vr|] eqn:Er; [|done]|];
    apply (inj Some) in Hre as <-);
  cbn [app]; read_struct; cbn [RelayCtl.ci_LastSeen RelayCtl.ci_RevokedAt RelayCtl.zero_ClientItem];
    repeat match goal with H : json_time ?t = Some ?v |- _ =>
             try rewrite (dec_ptr_time t v H); clear H end; reflexivity.
Qed.

Lemma dec_json_Clients items js :
  mapM json_Client items = Some js →
  dec_elems RelayCtl.zero_ClientItem RelayCtl.dec_ClientItem js = (map client_item items, true).
Proof.
  revert js. induction items as [|c items IH]; intros js H.
  { apply (inj Some) in H as <-. done. }
  change (mapM json_Client (c :: items)) with (json_Client c ≫= λ j, mapM json_Client items ≫= λ js, Some (j :: js)) in H.
  apply bind_Some in H as (j&Hj&H). apply bind_Some in H as (rest&Hrest&H). apply (inj Some) in H as <-.
  simpl. by rewrite (dec_json_Client _ _ Hj), (IH _ Hrest).
Qed.

(** The clients relayctl lists are the clients that were written. *)
Lemma relayctl_reads_clients r items j :
  rs_Body r = Data (DClients items) → json_response r = Some j →
  RelayCtl.dec_ClientsResponse j [] = (map client_item items, true).
Proof.
  intros Hb. unfold json_response. rewrite Hb. simpl. destruct (mapM json_Client items) as [js|] eqn:E; [|done].
  simpl. intros [= <-]. unfold RelayCtl.dec_ClientsResponse. do 2 read_struct. unfold dec_slice.
  by rewrite (dec_json_Clients _ _ E).
Qed.
End AuthJSON.
