(* ===== verification/PairFlow.v ===== *)
(** * A device paired with pairqr

    pairqr against Auth Control: the link it shows carries a code that a device
    can exchange. *)

From S2P Require Import Prelude GoStd GoTime GoTimeSpec GoCrypto GoFlag GoNet GoURL GoClient Json GoHTTP PairQR PairRun.
From S2P Require Import Sql Tables AuthDB AuthStore AuthService AuthEffects AuthFlow AuthHTTP AuthJSON.
From Stdlib Require Import Ascii.
#[local] Open Scope string_scope.

Section Presenting.
Context (encode : string → option BitMatrix) (cwd : option string)
        (mkdir_ok open_ok png_ok close_ok chmod_ok : string → bool)
        (no_color stdout_device stderr_device : bool)
        (error_text : pair_error → string) (local_time : Z → string).

(** What may be done to files for a link: a directory of the user alone, a file
    of the user alone, and in it the code of the link. *)
Definition file_effect (link : string) (e : effect) : Prop :=
  match e with
  | Requested _ _ _ => False
  | Mkdir _ mode => mode = 448%Z
  | Opened _ mode | Chmod _ mode => mode = 384%Z
  | Encoded _ width height pixels =>
      ∃ row b, qrBitmap encode link = Some (row :: b) ∧ pixels = png_image (row :: b)
        ∧ width = (length row * modulePixels)%nat ∧ height = (S (length b) * modulePixels)%nat
  end.

(** Output was appended, and files were written for the link, nothing else. *)
Definition presents (link : string) (s s' : PState) : Prop :=
  wr_out (ps_stdout s) `prefix_of` wr_out (ps_stdout s')
  ∧ (wr_faults (ps_stdout s) = [] → wr_faults (ps_stdout s') = [])
  ∧ ∃ files, ps_log s' = (ps_log s ++ files)%list ∧ Forall (file_effect link) files.

Definition presenting {A} (link : string) (m : St PState A) : Prop := ∀ s, presents link s (m s).2.

Lemma presents_refl link s : presents link s s.
Proof. split_and!; [done..|]. exists []. by rewrite app_nil_r. Qed.
Lemma presents_trans link s1 s2 s3 : presents link s1 s2 → presents link s2 s3 → presents link s1 s3.
Proof.
  intros (H1&F1&l1&E1&G1) (H2&F2&l2&E2&G2). split_and!; [by etrans|auto|]. exists (l1 ++ l2)%list.
  rewrite E2, E1, app_assoc. split; [done|]. by apply Forall_app.
Qed.
(** What a step did, taken from its equation. *)
Lemma presenting_eq {A} link (m : St PState A) s a s' : presenting link m → m s = (a, s') → presents link s s'.
Proof. intros H E. specialize (H s). by rewrite E in H. Qed.

Lemma presenting_ret {A} link (a : A) : presenting link (ret a).
Proof. intros s. apply presents_refl. Qed.
Lemma presenting_bind {A B} link (m : St PState A) (k : A → St PState B) :
  presenting link m → (∀ a, presenting link (k a)) → presenting link (let! a := m in k a).
Proof.
  intros Hm Hk s. cbn [bind st_monad]. specialize (Hm s). destruct (m s) as [a s1]. cbn [fst snd] in *.
  eapply presents_trans; [exact Hm|apply Hk].
Qed.
Lemma presenting_eff link e : file_effect link e → presenting link (eff e).
Proof. intros He s. split_and!; [done..|]. exists [e]. split; [done|by constructor]. Qed.

(** ** Writers only grow *)

Definition appends {A} (m : St Writer A) : Prop :=
  ∀ w, wr_out w `prefix_of` wr_out (m w).2 ∧ (wr_faults w = [] → wr_faults (m w).2 = []).
Lemma appends_write text : appends (write text).
Proof.
  intros [out faults]. unfold write. simpl. destruct faults as [|[n|] faults]; simpl; (split; [by eexists|done]).
Qed.
Lemma appends_ret {A} (a : A) : appends (ret a).
Proof. by intros w. Qed.
Lemma appends_then m k : appends m → appends k → appends (and_then m k).
Proof.
  intros Hm Hk w. unfold and_then. cbn [bind st_monad]. destruct (Hm w) as [H1 H2].
  destruct (m w) as [[| |] w1]; cbn [fst snd] in *; [|by split..]. destruct (Hk w1). split; [by etrans|auto].
Qed.
Lemma appends_each {A} (f : A → St Writer written) l : (∀ a, appends (f a)) → appends (each f l).
Proof. intros Hf. induction l as [|a l IH]; [apply appends_ret|]. by apply appends_then. Qed.

Lemma appends_render link mode indent : appends (renderTerminalQR encode link mode indent).
Proof.
  unfold renderTerminalQR. destruct (qrBitmap encode link) as [b|]; [|apply appends_ret].
  destruct mode; cbn [render_bitmap]; apply appends_each; intros row;
    (apply appends_then; [apply appends_write|]; apply appends_then; [|apply appends_write];
     apply appends_each; intros x; repeat case_match; auto using appends_write, appends_ret).
Qed.

Lemma presenting_stdout {A} link (m : St Writer A) : appends m → presenting link (on_stdout m).
Proof.
  intros Hm s. unfold on_stdout. destruct (Hm (ps_stdout s)) as [H1 H2].
  destruct (m (ps_stdout s)) as [a w]. cbn [fst snd] in *. split_and!; [done..|]. exists []. by rewrite app_nil_r.
Qed.
Lemma presenting_print link text : presenting link (fprint_out text).
Proof. apply presenting_bind; [apply presenting_stdout, appends_write|intros; apply presenting_ret]. Qed.
Lemma presenting_print_err link text : presenting link (fprint_err text).
Proof.
  apply presenting_bind; [|intros; apply presenting_ret]. intros s. unfold on_stderr.
  destruct (write text (ps_stderr s)). split_and!; [done..|]. exists []. by rewrite app_nil_r.
Qed.

Lemma presenting_png link output :
  presenting link (writePNG encode cwd mkdir_ok open_ok png_ok close_ok chmod_ok output link).
Proof.
  unfold writePNG. destruct (abs_elements cwd output); [|apply presenting_ret].
  apply presenting_bind; [by apply presenting_eff|intros _]. destruct (negb _); [apply presenting_ret|].
  destruct (qrBitmap encode link) as [[|row b]|] eqn:E; [apply presenting_ret| |apply presenting_ret].
  apply presenting_bind; [by apply presenting_eff|intros _]. destruct (negb _); [apply presenting_ret|].
  apply presenting_bind; [apply presenting_eff; by exists row, b|intros _]. destruct (negb _); [apply presenting_ret|].
  apply presenting_bind; [by apply presenting_eff|intros _]. apply presenting_ret.
Qed.

(** ** What is presented *)

(** A failed run says so in its exit code. *)
Lemma fail_text_code code text s s' c : fail_text code text s = (c, s') → c = Code code.
Proof.
  unfold fail_text, fprint_err, on_stderr. cbn [bind st_monad]. destruct (write _ _). cbn. by intros [= <- _].
Qed.

Ltac presenting :=
  repeat first
    [ apply presenting_ret | apply presenting_print | apply presenting_print_err | apply presenting_png
    | apply presenting_stdout, appends_render
    | apply presenting_bind; [|intros ?]
    | match goal with |- presenting _ (match ?x with _ => _ end) => destruct x end ].

Section Link.
Context (fs : list (string * flag_value)) (mode : renderMode) (link : string) (expires : Z).
Let present_link := present encode cwd mkdir_ok open_ok png_ok close_ok chmod_ok no_color stdout_device
                      stderr_device error_text local_time fs mode link expires.

Lemma presenting_heading : presenting link (print_heading no_color stdout_device local_time fs expires).
Proof. unfold print_heading. presenting. Qed.
Lemma presenting_link : presenting link (print_link no_color stdout_device fs link).
Proof. unfold print_link. presenting. Qed.
Lemma presenting_path path : presenting link (print_path no_color stdout_device fs path).
Proof. unfold print_path. presenting. Qed.
Lemma presenting_warning : presenting link (print_warning no_color stdout_device stderr_device fs).
Proof. unfold print_warning. destruct (_ && _); presenting. Qed.
Lemma presenting_qr : presenting link (print_qr encode no_color stdout_device error_text fs mode link).
Proof. unfold print_qr, print_qr_heading, fail_text. presenting. Qed.

(** The text is in the output. *)
Definition shows (text : string) (s : PState) : Prop :=
  ∃ pre post, wr_out (ps_stdout s) = (pre ++ str_bytes text ++ post)%list.
Lemma shows_presents text s s' : shows text s → presents link s s' → shows text s'.
Proof.
  intros (pre&post&E) ((rest&Er)&_). exists pre, (post ++ rest)%list. rewrite Er, E. by rewrite <- !app_assoc.
Qed.

(** The code of the link has been drawn, without an error, in the output. *)
Definition drawn (s : PState) : Prop :=
  ∃ b w0 w1, qrBitmap encode link = Some b
    ∧ render_bitmap mode b (Z.to_nat (flag_int "terminal-indent" fs)) w0 = (WOk, w1)
    ∧ wr_out w0 `prefix_of` wr_out w1 ∧ wr_out w1 `prefix_of` wr_out (ps_stdout s).

Lemma print_shows pre post s :
  wr_faults (ps_stdout s) = [] → shows link (fprint_out (pre +:+ link +:+ post) s).2.
Proof.
  intros Hf. unfold fprint_out, on_stdout, write. cbn [bind st_monad]. rewrite Hf. cbn.
  exists (wr_out (ps_stdout s) ++ str_bytes pre)%list, (str_bytes post).
  rewrite !str_bytes_app. by rewrite <- !app_assoc.
Qed.

Lemma print_link_shows s :
  wr_faults (ps_stdout s) = [] → shows link (print_link no_color stdout_device fs link s).2.
Proof.
  intros Hf. unfold print_link. destruct (styled _).
  - set (o := styleForWriter _ _ _).
    replace (os_green o +:+ "Copyable URL" +:+ os_reset o +:+ newline +:+ link +:+ newline)
      with ((os_green o +:+ "Copyable URL" +:+ os_reset o +:+ newline) +:+ link +:+ newline); [by apply print_shows|].
    apply str_bytes_inj. rewrite !str_bytes_app. by rewrite <- !app_assoc.
  - by apply (print_shows ("Pairing link:" +:+ newline) newline).
Qed.

Lemma print_qr_drawn s s' :
  print_qr encode no_color stdout_device error_text fs mode link s = (Code 0, s') → drawn s'.
Proof.
  unfold print_qr. cbn [bind st_monad]. destruct (print_qr_heading _ _ _ s) as [[] s1].
  unfold on_stdout at 1. pose proof (appends_render link mode (Z.to_nat (flag_int "terminal-indent" fs)) (ps_stdout s1)) as [Hp _].
  unfold renderTerminalQR in *. destruct (qrBitmap encode link) as [b|] eqn:Eb; [|by intros ?%fail_text_code].
  destruct (render_bitmap _ _ _ (ps_stdout s1)) as [[| |] w1] eqn:Er; [|by intros ?%fail_text_code|done].
  destruct (fprint_out newline _) as [[] s2] eqn:E2. apply (presenting_eq link) in E2 as (H2&_); [|apply presenting_print].
  intros H. apply pair_equal_spec in H as [_ <-]. by exists b, (ps_stdout s1), w1.
Qed.

Lemma presenting_output :
  presenting link (write_output encode cwd mkdir_ok open_ok png_ok close_ok chmod_ok no_color stdout_device
                     error_text fs link).
Proof. unfold write_output, fail_text. repeat (presenting || apply presenting_path). Qed.
Lemma presenting_when b m : presenting link m → presenting link (when b m).
Proof. destruct b; [done|]. intros _. apply presenting_ret. Qed.

Lemma presenting_present : presenting link present_link.
Proof.
  unfold present_link, present.
  apply presenting_bind; [apply presenting_when, presenting_heading|intros []].
  apply presenting_bind; [apply presenting_when, presenting_link|intros []].
  apply presenting_bind; [apply presenting_output|intros [code|]; [apply presenting_ret|]].
  apply presenting_bind; [apply presenting_when, presenting_warning|intros []].
  destruct (flag_bool _ _); [apply presenting_qr|apply presenting_ret].
Qed.

(** The outcome of a run that got its grant and succeeds. *)
Lemma present_success s s' :
  present_link s = (Code 0, s') →
  (flag_bool "print-link" fs = true → wr_faults (ps_stdout s) = [] → shows link s')
  ∧ (flag_bool "terminal" fs = true → drawn s').
Proof.
  unfold present_link, present. cbn [bind st_monad].
  destruct (when _ (print_heading _ _ _ _ _) s) as [[] s1] eqn:E1.
  destruct (when _ (print_link _ _ _ _) s1) as [[] s2] eqn:E2.
  pose proof (presenting_eq _ _ _ _ _ (presenting_when _ _ presenting_heading) E1) as H1.
  pose proof (presenting_eq _ _ _ _ _ (presenting_when _ _ presenting_link) E2) as H2.
  assert (flag_bool "print-link" fs = true → wr_faults (ps_stdout s) = [] → shows link s2) as Hs.
  { intros Hl Hf. rewrite Hl in E2. pose proof (print_link_shows s1) as H. unfold when in E2. rewrite E2 in H.
    apply H. by apply H1. }
  destruct (write_output _ _ _ _ _ _ _ _ _ _ _ _ s2) as [ended s3] eqn:E3.
  pose proof (presenting_eq _ _ _ _ _ presenting_output E3) as H3.
  destruct ended as [code|].
  { unfold write_output in E3. intros [= -> ->]. destruct (String.eqb _ _); [done|].
    cbn [bind st_monad] in E3. destruct (writePNG _ _ _ _ _ _ _ _ _ s2) as [[[path|e]|] s2']; [| |done].
    - destruct (print_path _ _ _ _ s2') as [[] ?]. done.
    - destruct (fail_text _ _ s2') as [c s2''] eqn:Ef. apply fail_text_code in Ef as ->. done. }
  destruct (when _ (print_warning _ _ _ _) s3) as [[] s4] eqn:E4.
  pose proof (presenting_eq _ _ _ _ _ (presenting_when _ _ presenting_warning) E4) as H4.
  assert (presents link s2 s4) as H24 by (by eapply presents_trans).
  intros E5. assert (presents link s4 s') as H5.
  { revert E5. destruct (flag_bool "terminal" fs); intros E5; [exact (presenting_eq _ _ _ _ _ presenting_qr E5)|].
    apply pair_equal_spec in E5 as [_ <-]. apply presents_refl. }
  split.
  - intros Hl Hf. eapply shows_presents; [by apply Hs|]. by eapply presents_trans.
  - intros Ht. rewrite Ht in E5. by eapply print_qr_drawn.
Qed.
End Link.
End Presenting.

(** ** run *)

Section Running.
Context (encode : string → option BitMatrix) (http : string → string → option content → http_answer)
        (interfaces : option (list NetInterface)) (cwd : option string)
        (mkdir_ok open_ok png_ok close_ok chmod_ok : string → bool)
        (no_color stdout_device stderr_device : bool)
        (error_text : pair_error → string) (usage : list string → string) (local_time : Z → string).
Let run_pairqr := run encode http interfaces cwd mkdir_ok open_ok png_ok close_ok chmod_ok no_color stdout_device
                    stderr_device error_text usage local_time.
Let present_all := present encode cwd mkdir_ok open_ok png_ok close_ok chmod_ok no_color stdout_device
                     stderr_device error_text local_time.

Definition endpoint_of (u : URL) : string := TrimRight (origin_string u) slash +:+ grants_path.
Definition grant_body (name : string) : json := JObj [("name", JStr name)].

Definition grant_content (name : string) : content := ("application/json", grant_body name).

(** The requests pairqr sends: the first to a loopback host, with nothing in it
    but a name, and the others only where the answers send them, with the same
    body or none; ten at most. *)
Definition answered (method url : string) (payload : option content) : option (Z * Location * option json) :=
  match http method url payload with Answer s l v => Some (s, l, v) | _ => None end.
Definition requested (a : asked (P := content)) : effect := let '(m, u, p) := a in Requested m u p.
Definition grant_requests (l : list (asked (P := content))) : Prop :=
  (length l ≤ 10)%nat ∧ chain answered l ∧
  (l = [] ∨ ∃ u control name, parseOrigin control = Some u ∧ isLoopbackHost (Hostname u) = true
     ∧ hd_error l = Some ("POST", endpoint_of u, Some (grant_content name))
     ∧ Forall (λ a, a.2 = Some (grant_content name) ∨ a.2 = None) l).

Lemma grant_requests_nil : grant_requests [].
Proof. split_and!; [cbn; lia|by intros i ?|by left]. Qed.

Definition same_output (s s' : PState) : Prop := ps_stdout s' = ps_stdout s.
#[local] Instance same_output_preorder : PreOrder same_output.
Proof. unfold same_output. split; [by intros x|]. intros x y z -> ->. done. Qed.

Lemma send_logs method url payload s a s' :
  send http method url payload s = (a, s') →
  same_output s s' ∧ ((s' = s ∧ a = None)
    ∨ (ps_log s' = (ps_log s ++ [Requested method url payload])%list ∧ a = answered method url payload)).
Proof. unfold send, answered. destruct (http _ _ _); intros [= <- <-]; (split; [done|]); auto. Qed.

(** What createPairingGrant did and found. *)
Lemma createPairingGrant_outcome control u name s r s' :
  parseOrigin control = Some u → isLoopbackHost (Hostname u) = true →
  createPairingGrant http u name s = (r, s') →
  ps_stdout s' = ps_stdout s ∧
  ∃ l, grant_requests l ∧ ps_log s' = (ps_log s ++ map requested l)%list ∧
  ∀ g, r = Ok g → ge_Code g ≠ "" ∧ hd_error l = Some ("POST", endpoint_of u, Some (grant_content name)) ∧
    ∃ method url payload loc j, last l = Some (method, url, payload)
      ∧ http method url payload = Answer 201 loc (Some j) ∧ dec_grantEnvelope j zero_grantEnvelope = (g, true).
Proof.
  intros Hu Hloop. unfold createPairingGrant. fold (grant_body name). fold (grant_content name). fold (endpoint_of u).
  assert (ps_stdout s = ps_stdout s ∧ ∃ l, grant_requests l ∧ ps_log s = (ps_log s ++ map requested l)%list
            ∧ l = []) as Hnone.
  { split; [done|]. exists []. cbn. rewrite app_nil_r. split_and!; [apply grant_requests_nil|done..]. }
  destruct (http "POST" _ _) as [| |status loc value] eqn:Eh.
  { intros [= <- <-]. split; [done|]. destruct Hnone as (_&l&?&?&->). by exists []. }
  all: clear Eh; cbn [bind st_monad]; destruct (Do _ _ _ _ s) as [a s1] eqn:E; intros [= <- <-];
    apply (follow_chain _ _ (λ m u p, Requested m u p) _ _ send_logs) in E as (Hout&l&Hc&Hn&Hlog&Hh&Ha);
    (split; [exact Hout|]); exists l; (split; [|split; [exact Hlog|]]).
  1,3: split_and!; [cbn in Hn; lia|done|]; destruct Hh as [[-> _]|Hh]; [by left|right; exists u, control, name];
    (split_and!; [done..|]); destruct l as [|x l]; [done|]; injection Hh as ->; by eapply chain_payload.
  all: intros g Hg; destruct a as [[st v]|]; [|done]; destruct Hh as [[_ ?]|Hh]; [done|];
    destruct (Ha _ _ eq_refl) as (m&url&p&loc'&Hlast&Hans); destruct v as [j|]; [|done];
    destruct (dec_grantEnvelope j _) as [e [|]] eqn:Ed; [|done];
    destruct (Z.eqb_spec st 201) as [->|]; [|done];
    destruct (ge_Success e) eqn:Es; [|done]; destruct (String.eqb_spec (ge_Code e) "") as [|Hne]; [done|];
    injection Hg as <-; (split_and!; [done..|]); exists m, url, p, loc', j; (split_and!; [done| |done]);
    unfold answered in Hans; destruct (http m url p); by simplify_eq.
Qed.

Lemma fail_text_log code text s c s' : fail_text code text s = (c, s') → ps_log s' = ps_log s ∧ c = Code code.
Proof.
  intros H. split; [|by eapply fail_text_code]. unfold fail_text, fprint_err, on_stderr in H. cbn [bind st_monad] in H.
  destruct (write _ _). cbn in H. by injection H as _ <-.
Qed.

(** A run that does not get to its request has failed and left no trace but
    text; the others send the request and present what they get. *)
Lemma run_outcome arguments s c s' :
  run_pairqr arguments s = (c, s') →
  (ps_log s' = ps_log s ∧ (c = Code 1 ∨ c = Code 2)) ∨
  ∃ fs rest mode o u s1,
    GoFlag.Parse pairqr_flags arguments = Some (fs, rest) ∧ parseOrigin (flag_string "control-url" fs) = Some u
    ∧ isLoopbackHost (Hostname u) = true ∧ mode_of (flag_string "terminal-render" fs) = Some mode ∧
    ∃ r, createPairingGrant http u (TrimSpace (flag_string "name" fs)) s = (r, s1) ∧
      match r with
      | Ok g => present_all fs mode (pairing_link o (ge_Code g)) (ge_ExpiresAt g) s1 = (c, s')
      | Err _ => c = Code 1 ∧ ps_log s' = ps_log s1
      end.
Proof.
  unfold run_pairqr, run. destruct (GoFlag.Parse _ _) as [[fs rest]|] eqn:Ep.
  2:{ cbn [bind st_monad]. intros H. left. destruct (fprint_err _ s) as [[] s1] eqn:E. injection H as <- <-.
      unfold fprint_err, on_stderr in E. cbn [bind st_monad] in E. destruct (write _ _). cbn in E.
      injection E as <-. auto. }
  destruct (mode_of _) as [mode|] eqn:Em; [|intros []%fail_text_log; auto].
  destruct (_ || _); [intros []%fail_text_log; auto|].
  match goal with |- context [match ?x with Some resolvedOrigin => _ | None => _ end] => destruct x as [resolved|] end;
    [|intros []%fail_text_log; auto].
  destruct (parseOrigin resolved) as [o|]; [|intros []%fail_text_log; auto].
  destruct (parseOrigin (flag_string "control-url" fs)) as [u|] eqn:Eu; [|intros []%fail_text_log; auto].
  destruct (isLoopbackHost _) eqn:El; cbn [negb]; [|intros []%fail_text_log; auto].
  destruct (String.eqb _ _); [intros []%fail_text_log; auto|]. cbn [bind st_monad].
  destruct (createPairingGrant _ _ _ s) as [[g|e] s1] eqn:Eg; intros H; right; exists fs, rest, mode, o, u, s1;
    (split_and!; [done..|]).
  - exists (Ok g). done.
  - exists (Err e). apply fail_text_log in H. naive_solver.
Qed.

(** ** Against Auth Control *)

Section Paired.
Context (conf : Config) (zone : Z → Z) (now : Z) (c1 c2 : list Z) (w : World ADB).
Hypothesis whole_minutes : ∀ t, (zone t mod 60 = 0)%Z.

(** The request as the server of the control endpoints gets it, and its answer
    as pairqr gets it. *)
Definition control_request (contentType : string) (body : json) : Request :=
  mkRequest "POST" ["v1"; "auth-control"; "pairing-grants"]
    (λ name, if String.eqb name "Content-Type" then contentType else "") (λ _, "") (λ _, "") (λ _, None) (Some body).
Definition control_answer (contentType : string) (body : json) : http_answer :=
  let r := (ServeControl conf now c1 c2 (control_request contentType body) w).1 in
  Answer (rs_Status r) NoLocation (json_response zone r).

(** A grant is created, or the status is another one. *)
Lemma control_created name :
  let '(r, w1) := ServeControl conf now c1 c2 (control_request "application/json" (grant_body name)) w in
  rs_Status r = 201%Z →
  rs_Body r = Data (DLink (mkLink (randomSecret c1) (now + PairingTTL conf)))
  ∧ CreatePairingGrant conf now c1 c2 name [] w = (Ok (mkLink (randomSecret c1) (now + PairingTTL conf)), w1).
Proof.
  unfold ServeControl. cbn [bind st_monad].
  assert (∀ h, serve control_routes h (control_request "application/json" (grant_body name))
               = h HCreateGrant (with_values [] (control_request "application/json" (grant_body name)))) as -> by done.
  unfold run_control, createGrant.
  assert (decodeRequest (D := AuthData) ("", []) dec_grant_request (with_values [] (control_request "application/json" (grant_body name)))
          = Ok (name, [])) as -> by done.
  cbn [decoded bind ret st_monad fst snd].
  destruct (CreatePairingGrant conf now c1 c2 name [] w) as [[l|e] w1] eqn:E.
  - assert (l = mkLink (randomSecret c1) (now + PairingTTL conf)) as ->.
    { unfold CreatePairingGrant in E. destruct (_ || _); [done|]. destruct (normalizeScopes []); [|done].
      cbv zeta in E. cbn [bind ret sm_monad] in E. by destruct (StoreCreatePairingGrant _ w) as [[[]|] ?]; simplify_eq. }
    by split.
  - by destruct e.
Qed.

Lemma sextet_plain n : (0 ≤ n < 64)%Z →
  shouldEscape (sextet n) EncodeQueryComponent = false ∧ code (sextet n) ≠ 32%N.
Proof.
  intros Hn. pose proof (sextet_cases (λ n, negb (shouldEscape (sextet n) EncodeQueryComponent)
    && negb (code (sextet n) =? 32)%N) ltac:(vm_compute; reflexivity) n Hn) as H.
  apply andb_true_iff in H as [H1%negb_true_iff H2%negb_true_iff%N.eqb_neq]. done.
Qed.
Lemma QueryEscape_secret r : Forall is_byte r → QueryEscape (randomSecret r) = randomSecret r.
Proof.
  intros Hr. unfold QueryEscape. rewrite escape_url_plain; [apply bytes_str_bytes|].
  unfold randomSecret, RawURLEncoding. rewrite str_bytes_str. by apply raw_url_all; [apply sextet_plain|].
Qed.

(** Auth Control answers what is posted at its path. *)
Definition auth_control_answers : Prop := ∀ origin contentType body,
  http "POST" (origin +:+ grants_path) (Some (contentType, body)) = control_answer contentType body.

(** It sends its client nowhere else. *)
Lemma auth_control_alone l : auth_control_answers → grant_requests l → (length l ≤ 1)%nat.
Proof.
  intros Hhttp (_&Hc&[->|(u&control&name&_&_&Hh&_)]); [cbn; lia|]. eapply chain_alone; [|done].
  rewrite Hh. intros a b [= <-] (status&url&response&Hans&_). unfold answered, endpoint_of, grant_content in Hans.
  by rewrite Hhttp in Hans.
Qed.

(** C27. pairqr pairs a device: whatever its arguments and whatever it is
    answered, its first request goes to a loopback host, any other only where
    the answer before sends it, ten at most, and none carries more than the name
    of the grant.  When it is Auth Control that answers, there is one request
    at most; and when pairqr then exits with 0, that request has created a grant
    in the name it was given, it is the link of that grant that was printed,
    drawn and written to a file for the user alone, with the code as it is, and
    the code can be exchanged before it expires for a client with that name and
    the default scopes, whose access token authenticates.  Only a failure of the
    database can come between. *)
Theorem pairqr_pairs arguments s c s' :
  run_pairqr arguments s = (c, s') →
  (∃ requests link files, ps_log s' = (ps_log s ++ map requested requests ++ files)%list ∧ grant_requests requests
     ∧ (auth_control_answers → (length requests ≤ 1)%nat) ∧ Forall (file_effect encode link) files) ∧
  (w_env w = [] → secret_bytes 32 c1 → auth_control_answers → c = Code 0 → ∃ fs rest mode origin,
     GoFlag.Parse pairqr_flags arguments = Some (fs, rest) ∧ mode_of (flag_string "terminal-render" fs) = Some mode ∧
     let name := TrimSpace (flag_string "name" fs) in
     let code := randomSecret c1 in
     let link := TrimRight (origin_string origin) slash +:+ "/pair#code=" +:+ code in
     (∃ request files, ps_log s' = (ps_log s ++ requested request :: files)%list ∧ grant_requests [request]
        ∧ request.2 = Some (grant_content name) ∧ Forall (file_effect encode link) files)
     ∧ (flag_bool "print-link" fs = true → wr_faults (ps_stdout s) = [] → shows link s')
     ∧ (flag_bool "terminal" fs = true → drawn encode fs mode link s') ∧
     let w1 := (ServeControl conf now c1 c2 (control_request "application/json" (grant_body name)) w).2 in
     ∀ now' r1 r2 r3 r4 r5 res w2, secret_bytes 18 r1 → secret_bytes 32 r2 →
       (now' < TruncateMicro (now + PairingTTL conf))%Z →
       ExchangePairingGrant conf now' r1 r2 r3 r4 r5 code w1 = (res, w2) →
       auth_db_error res
       ∨ ∃ pair, res = Ok pair ∧ paired (TrimSpace name) DefaultScopes now' r1 r3 r5 w2 pair).
Proof.
  intros [[Hl Hc]|(fs&rest&mode&o&u&s1&Hp&Hu&Hloop&Hm&r&Hg&Hr)]%run_outcome.
  { split; [exists [], "", []; rewrite Hl; cbn; rewrite app_nil_r; split_and!; [done|apply grant_requests_nil|cbn; lia|done]|].
    intros _ _ _ ->. by destruct Hc. }
  set (name := TrimSpace (flag_string "name" fs)) in *.
  apply (createPairingGrant_outcome _ _ _ _ _ _ Hu Hloop) in Hg as (Hout&l&Hreq&Hlog&Hok).
  pose proof (λ H, auth_control_alone l H Hreq) as Hone.
  destruct r as [g|e].
  2:{ destruct Hr as [-> Hl]. split; [|done]. exists l, "", []. rewrite Hl, Hlog, app_nil_r. by split_and!. }
  destruct (Hok g eq_refl) as (_&Hhead&method&url&payload&loc&j&Hlast&Hj&Hd).
  destruct (presenting_eq _ _ _ _ _ _ (presenting_present _ _ _ _ _ _ _ _ _ _ _ _ _ _ _ _) Hr) as (_&_&files&Hfiles&Hall).
  rewrite Hlog, <- app_assoc in Hfiles. split; [by exists l, (pairing_link o (ge_Code g)), files|].
  intros Hw Hc1 Hhttp ->. destruct l as [|x [|y l]]; [done| |specialize (Hone Hhttp); cbn in Hone; lia].
  injection Hhead as ->. injection Hlast as <- <- <-. unfold endpoint_of, grant_content in Hj. rewrite Hhttp in Hj.
  unfold control_answer in Hj. pose proof (control_created name) as Hcr. revert Hj Hcr.
  destruct (ServeControl _ _ _ _ _ w) as [rs w1] eqn:Es. cbn [fst snd]. intros Hj Hcr. injection Hj as H201 _ Hjson.
  destruct (Hcr H201) as [Hb Hcreate].
  rewrite (pairqr_reads_link zone whole_minutes rs _ j Hb Hjson) in Hd. injection Hd as <-.
  cbn [ge_Code ge_ExpiresAt lk_Code lk_ExpiresAt] in Hr, Hall. unfold pairing_link in Hr, Hall.
  rewrite (QueryEscape_secret c1) in Hr, Hall by apply Hc1.
  set (link := TrimRight (origin_string o) slash +:+ "/pair#code=" +:+ randomSecret c1) in *.
  apply present_success in Hr as [Hshow Hdrawn]. rewrite Hout in Hshow.
  exists fs, rest, mode, o. split; [done|]. split; [done|]. cbv zeta.
  split; [eexists (_, _, _), files; split; [exact Hfiles|by split]|]. split; [done|]. split; [done|].
  intros now' r1 r2 r3 r4 r5 res w2 Hr1 Hr2 Hexp Hex. fold name in Hex. rewrite Es in Hex.
  by apply (pairing_flow conf now c1 c2 name [] w (mkLink (randomSecret c1) (now + PairingTTL conf)) w1 now' r1 r2 r3 r4 r5).
Qed.
End Paired.
End Running.
