(* ===== verification/HTTPScenario.v ===== *)
(** * A concrete client of the HTTP interface

    Requests to the relay over the small databases of the other scenarios and a
    Redis in memory: the instances of the theorems on the endpoints, the feeds
    and the broker. *)

From S2P Require Import Prelude GoStd GoTime GoTimeSpec GoCrypto Json JsonText GoHTTP Protocol Payloads.
From S2P Require Import Sql Tables RuntimeDB RuntimeSql RuntimeHistory RunStore Outbox Bootstrap Listing Hub Router.
From S2P Require Import Gateway Coordinator CoordSpec PgStore EventSpec.
From S2P Require Import RuntimeHTTP RuntimeFeed FeedSpec SessionFeed RunFeed Notify Redis RedisSpec MemRedis.
From S2P Require Import AuthDB AuthStore AuthService AuthEffects AuthInvariant AuthSpec AuthSafety AuthFlow AuthHTTP Server Config GoNet PairQR QRSpec.
From S2P Require Import RuntimeStore RunFlow EventFlow Scenario AuthScenario.
From Stdlib Require Import Ascii.
#[local] Open Scope string_scope.
#[local] Open Scope Z_scope.

#[local] Existing Instance plain_jsonb.
#[local] Existing Instance byte_collation.

(** ** Parameters and notifications *)

(** A GET with the given headers and query values. *)
Definition pick (l : list (string * string)) (name : string) : string :=
  match list_find (λ kv, kv.1 = name) l with Some (_, (_, v)) => v | None => "" end.
Definition request (method : string) (segments : list string) (headers query : list (string * string))
    (body : option json) : Request :=
  mkRequest method segments (pick headers) (λ _, "") (pick query) (λ _, None) body.

Definition poll_rq : Request := request "GET" [] [] [("after", "7"); ("limit", "20")] None.

Lemma cursor_roundtrip_witness : lastEventID (request "GET" [] [("Last-Event-ID", "42")] [] None) = 42.
Proof.
  refine (proj1 (cursor_roundtrip (request "GET" [] [("Last-Event-ID", "42")] [] None) 42 _) _).
  - unfold int64_max. lia.
  - vm_compute. reflexivity.
Defined.

(** A waiter that waits, and a notifier that has written its version since. *)
Definition quiet : NState := mkN (Some 5) 0 WStart 0 false false false false.
Definition waiting : NState := mkN (Some 6) 1 WWaiting 0 true false false false.
Lemma waiting_reachable : rtc step quiet waiting.
Proof.
  eapply rtc_l; [by apply step_read|]. eapply rtc_l; [by apply step_subscribe|].
  eapply rtc_l; [by apply step_recheck|]. apply rtc_once.
  exact (step_set (mkN (Some 5) 0 WWaiting 0 false false false false) 6).
Qed.
Lemma no_lost_wakeup_witness :
  ((0 < n_mailbox waiting)%nat ∨ ∃ s', step waiting s' ∧ n_waiter s' = WWaiting ∧ (0 < n_mailbox s')%nat) ∧
  ((0 < n_mailbox waiting)%nat → ∃ s', step waiting s' ∧ n_waiter s' = WReturned true).
Proof.
  apply (no_lost_wakeup quiet waiting); [split; reflexivity|exact waiting_reachable|reflexivity..].
Defined.

(** ** The broker *)

Definition redis0 : MemRedis := mkMem ∅ ∅.
Definition turn_payload : json := JObj [("turn_id", JStr "turn")].
Definition append1 :=
  AppendRunEvent "run_02" 1 "turn.started" (Raw turn_payload) 1714557600000000000.
Definition redis1 : MemRedis := Eval vm_compute in (append1 redis0).2.

Lemma redis0_relay : relay_streams redis0.
Proof. intros s. unfold streams, mem_laws, mem_stream, redis0. simpl. rewrite lookup_empty. constructor. Qed.

(** The event is appended, and found again by a retry. *)
Lemma AppendRunEvent_spec_witness :
  let e := event_entry 1 "turn.started" (Raw turn_payload) 1714557600000000000 in
  (append1 redis1).1 = true ∧ streams (append1 redis0).2 (runStream "run_02") = [e] ∧
  (((append1 redis0).1 = true →
    (streams (append1 redis0).2 (runStream "run_02") = (streams redis0 (runStream "run_02") ++ [e])%list
      ∧ Forall (λ x, x.1 < 1) (streams redis0 (runStream "run_02")))
    ∨ (streams (append1 redis0).2 (runStream "run_02") = streams redis0 (runStream "run_02")
      ∧ e ∈ streams redis0 (runStream "run_02")))).
Proof.
  intros e. split; [vm_compute; reflexivity|]. split; [vm_compute; reflexivity|].
  apply (AppendRunEvent_spec "run_02" 1 "turn.started" (Raw turn_payload) 1714557600000000000 redis0
           (append1 redis0).1 (append1 redis0).2).
  - exact redis0_relay.
  - unfold int64_max. lia.
  - repeat (constructor; [vm_compute; reflexivity|]). constructor.
  - apply surjective_pairing.
Defined.

Lemma broker_roundtrip_witness :
  let e := mkRunEvent 1 "turn.started" turn_payload 1714557600000000000 in
  ∃ l, (ReadRunEvents "run_02" 0 redis1).1 = Some l ∧ e ∈ l ∧ (∀ x, x ∈ l → re_Sequence x = 1 → x = e).
Proof.
  intros e. exists [e]. split; [vm_compute; reflexivity|].
  apply (broker_roundtrip "run_02" 1 "turn.started" turn_payload 1714557600000000000 redis1 0 [e] redis1).
  - assert (streams redis1 (runStream "run_02") = [event_entry 1 "turn.started" (Raw turn_payload) 1714557600000000000])
      as -> by (vm_compute; reflexivity). left.
  - vm_compute. split; discriminate || reflexivity.
  - unfold int64_min. lia.
  - vm_compute. reflexivity.
Defined.

(** ** Following a session and a run *)

(** The run of the scenario, started: a second event of its session. *)
Definition start_event : Call := CAppendAgentEvent 6000 6500 "run_02" 1 "turn.started" started_payload "".
Definition db_started : DB := Eval vm_compute in w_db (run_calls [start_event] (calm db_run)).
Lemma db_started_wf : db_wf db_started.
Proof.
  change db_started with (w_db (run_calls [start_event] (calm db_run))).
  apply run_calls_good; [apply rely_none|exact db_run_wf].
Qed.

Definition broker1 : RedisBroker MemRedis := mkBroker redis1 [].
Definition rstate (d : DB) : RState (RedisBroker MemRedis) := mkRState (mkWorld d [Done; Done; Done; LostReply] [id]) broker1.
Lemma rstate_sane d : db_wf d → sane (rstate d).
Proof. intros H. split; [exact (rely_idle good d _)|exact H]. Qed.

Definition env1 : HEnv :=
  mkHEnv 8000 8000 [1] [2] false [mkTick 9000 false; mkTick (60 * second) false] [Tick; Heartbeat; Tick; Gone].

Definition no_source : option (SourceReadPayload → SourceResult) := None.
Definition no_profiles : option (string → ProfileResult) := None.

(** The first poll gets one event of the session, the second is lost, the third
    gets the rest. *)
Definition three_polls : list (HEnv * string * string) := [(env1, "0", "1"); (env1, "0", "5"); (env1, "0", "5")].
Definition follow3 := follow_session no_source no_profiles "session_01" 0 three_polls (rstate db_started).

Lemma session_poll_exact_witness :
  (follow3.1.2 = 2 ∧ length follow3.1.1 = 2%nat) ∧
  (delivered "session_01" 0 follow3.1.2 follow3.1.1 (db_of follow3.2) ∧ moved (rstate db_started) follow3.2).
Proof.
  split; [split; vm_compute; reflexivity|].
  apply (session_poll_exact no_source no_profiles "session_01" 0 three_polls (rstate db_started) follow3.1.1 follow3.1.2 follow3.2).
  - discriminate.
  - unfold int64_max. lia.
  - apply rstate_sane, db_started_wf.
  - unfold follow3. destruct (follow_session _ _ _ _ _ _) as [[? ?] ?]. reflexivity.
Defined.

Definition stream_rq (name id : string) : Request :=
  with_values [(name, id)] (request "GET" [] [("Last-Event-ID", "0")] [] None).
Definition session_stream := sessionEvents [Tick; Heartbeat; Tick] (stream_rq "session_id" "session_01") (rstate db_started).

Lemma session_stream_exact_witness :
  moved (rstate db_started) session_stream.2 ∧ ∃ frames last rs, rs_Body session_stream.1 = Plain (DStream frames false)
    ∧ log_slice (db_of session_stream.2) "session_01" 0 last rs
    ∧ omap frame_event frames = map log_event rs.
Proof.
  apply (session_stream_exact [Tick; Heartbeat; Tick] (stream_rq "session_id" "session_01") (rstate db_started)).
  - apply rstate_sane, db_started_wf.
  - vm_compute. discriminate.
  - apply surjective_pairing.
Defined.

Lemma polls_end_witness :
  let ticks := [mkTick 9000 false; mkTick (60 * second) false] in
  (sessionEventsPoll 8000 ticks poll_rq (rstate db_run)).1 ≠ None
  ∧ (runEventsPoll 8000 ticks poll_rq (rstate db_run)).1 ≠ None.
Proof.
  apply (polls_end 8000 [mkTick 9000 false; mkTick (60 * second) false] poll_rq (rstate db_run)).
  right. left. vm_compute. reflexivity.
Defined.

(** The event is in the broker only. *)
Definition read1 := read_run_events "run_02" 0 (rstate db_run).
Lemma read_run_events_spec_witness :
  ∃ l, read1.1 = Events l ∧ length l = 1%nat ∧
  ∃ live evs b, q_ReadRunEvents "run_02" 0 broker1 = (Some live, b)
    ∧ delivery (w_db (rs_store read1.2)) live "run_02" 0 evs
    ∧ Forall2 (λ e x, run_sse "run_02" e = Some x) evs l.
Proof.
  destruct read1.1 as [l| |] eqn:El; [|vm_compute in El; discriminate El..].
  exists l. split; [reflexivity|]. split; [vm_compute in El; injection El as <-; reflexivity|].
  apply (read_run_events_spec "run_02" 0 (rstate db_run) l read1.2).
  - exact redis_reads_after.
  - unfold int64_min, int64_max. lia.
  - rewrite <- El. apply surjective_pairing.
Defined.

Definition run_stream := runEvents [Tick; Heartbeat; Tick] (stream_rq "run_id" "run_02") (rstate db_run).
Lemma run_stream_gapless_witness :
  ∃ frames aborted, rs_Body run_stream.1 = Plain (DStream frames aborted)
    ∧ sse_ID <$> omap frame_event frames = seqZ (0 + 1) (Z.of_nat (length (omap frame_event frames))).
Proof.
  apply (run_stream_gapless [Tick; Heartbeat; Tick] (stream_rq "run_id" "run_02") (rstate db_run) run_stream.1 run_stream.2).
  - exact redis_reads_after.
  - apply surjective_pairing.
Defined.

(** ** Creating a run *)

Definition run_rq : Request :=
  request "POST" ["v1"; "runtime"; "sessions"; "session_01"; "runs"] [("Idempotency-Key", "k")] []
    (Some (JObj [("prompt", JStr " do it "); ("permission_profile_id", JStr "profile")])).
(** The session's database, whose commit happens and is not answered; and the
    same where everything is answered. *)
Definition unanswered : RState (RedisBroker MemRedis) := mkRState lost_commit broker1.
Definition answered : RState (RedisBroker MemRedis) := mkRState (calm db_session) broker1.
Definition posted (s : RState (RedisBroker MemRedis)) := serve_post no_source no_profiles run_rq env1 s.
Definition posted_row : run_row := queued_run 8000 "session_01" "do it" "profile" "k" (run_hash "do it" "profile").

(** The first answer is 500; a repetition tells of the run. *)
Lemma post_run_idempotent_witness :
  (posted unanswered).1 = writeInternal ∧
  (serve_post no_source no_profiles run_rq env1
     (mkRState (calm (w_db (rs_store (posted unanswered).2))) broker1)).1 = accepted "run_01" posted_row 0.
Proof.
  split; [vm_compute; reflexivity|].
  destruct (post_run_idempotent no_source no_profiles "session_01" run_rq env1 (rs_store unanswered) broker1
              (posted unanswered).1 (posted unanswered).2) as [_ H].
  - split; [reflexivity|split; [reflexivity|discriminate]].
  - reflexivity.
  - apply surjective_pairing.
  - destruct H as (key&prompt&profile&Hs&H).
    { intros H. apply (f_equal (λ d, bool_decide (runs d = ∅))) in H. vm_compute in H. discriminate H. }
    vm_compute in Hs. injection Hs as <- <- <-. exact (proj1 (H env1 broker1)).
Defined.

(** The run's command is in the outbox; the Agent is connected with an empty
    queue. *)
Definition run_coord : Router.RState (Coord (World DB) (RedisBroker MemRedis)) :=
  (hub2.1, mkCoord (calm (w_db (rs_store (posted answered).2))) broker1 ∅ ∅ ∅ "worker" 9000 []).
Lemma run_reaches_agent_witness :
  rs_Status (posted answered).1 = StatusAccepted ∧ ∃ sent m,
    agent_queue 1 64 sent (dispatch run_coord).2 ∧ m ∈ sent
    ∧ starts_turn "run_01" (mkTurnStart "cmd_02" "run_01" "p" "" "do it" "profile") m.
Proof.
  assert (rs_Status (posted answered).1 = StatusAccepted) as Hok by (vm_compute; reflexivity).
  split; [exact Hok|].
  destruct (run_reaches_agent no_source no_profiles "session_01" run_rq env1 "k" "do it" "profile" (calm db_session)
              broker1 (posted answered).1 (posted answered).2 run_coord 1 64%nat [])
    as (session&sent&m&Hse&Hq&Hm&Hst&_).
  - split; [reflexivity|split; [reflexivity|discriminate]].
  - vm_compute; reflexivity.
  - reflexivity.
  - apply surjective_pairing.
  - exact Hok.
  - vm_compute; reflexivity.
  - reflexivity.
  - reflexivity.
  - vm_compute; discriminate.
  - intros H. inversion H.
  - vm_compute. lia.
  - vm_compute; reflexivity.
  - split; [vm_compute; reflexivity|vm_compute; reflexivity|reflexivity|exact env0_ok].
  - simpl; lia.
  - exists sent, m. split; [exact Hq|]. split; [exact Hm|].
    vm_compute in Hse. injection Hse as <-. exact Hst.
Defined.

(** ** An event of the Agent *)

Definition broker0 : RedisBroker MemRedis := mkBroker redis0 [].
(** The Agent's first event of the run, with the Agent as connection 1. *)
Definition before_event : Router.RState (Coord (World DB) (RedisBroker MemRedis)) :=
  (hub2.1, mkCoord (calm db_run) broker0 ∅ ∅ ∅ "worker" 7000 []).
Definition after_event := (agent_message 1 agent_event before_event).2.
Definition follow_rq : Request :=
  request "GET" ["v1"; "runtime"; "runs"; "run_02"; "events"] [("Last-Event-ID", "0")] [] None.
Definition client_state : RState (RedisBroker MemRedis) := mkRState (co_store after_event.2) (co_broker after_event.2).
Definition followed := ServeRuntime no_source no_profiles env1 follow_rq client_state.

Lemma event_reaches_client_witness :
  acked 1 before_event.1 after_event.1
  ∧ match rs_Body followed.1 with Plain (DStream (Event x :: _) _) => sse_ID x = 1 | _ => False end
  ∧ ∃ row, rev_type row = "turn.started"
    ∧ shows (scanRunEvent (1, row)) "run_02" 0 client_state followed.1.
Proof.
  assert (acked 1 before_event.1 after_event.1) as Hack.
  { destruct (hub_peers before_event.1 !! 1) as [p|] eqn:Hp; [|vm_compute in Hp; discriminate Hp].
    destruct (hub_peers after_event.1 !! 1) as [p'|] eqn:Hp'; [|vm_compute in Hp'; discriminate Hp'].
    assert (peer_queue <$> hub_peers before_event.1 !! 1 = Some []) as Hq by (vm_compute; reflexivity).
    assert (existsb (λ a, String.eqb (m_Type a) TypeRuntimeDurableAck)
              (default [] (peer_queue <$> hub_peers after_event.1 !! 1)) = true) as Hq' by (vm_compute; reflexivity).
    rewrite Hp in Hq. rewrite Hp' in Hq'. injection Hq as Hq. apply existsb_exists in Hq' as (a&Ha&Ht).
    exists p, p', (peer_queue p'), a. split; [exact Hp|]. split; [exact Hp'|]. split; [rewrite Hq; reflexivity|].
    split; [apply list_elem_of_In; exact Ha|apply String.eqb_eq; exact Ht]. }
  split; [exact Hack|]. split; [vm_compute; reflexivity|].
  assert (w_env (co_store after_event.2) = []) as Henv by (vm_compute; reflexivity).
  assert (rows (log_of before_event) (m_TraceID agent_event) !! m_AgentSequence agent_event = None) as Hnew
    by (vm_compute; reflexivity).
  assert (lastEventID follow_rq = 0) as Hcursor by (vm_compute; reflexivity).
  destruct (event_reaches_client no_source no_profiles 1 agent_event before_event
              (agent_message 1 agent_event before_event).1 after_event) as (row&_&Hrow&Hclient).
  - exact redis_reads_after.
  - reflexivity.
  - unfold printable_time. vm_compute. split; [intros H; discriminate H|reflexivity].
  - vm_compute. intros H; discriminate H.
  - reflexivity.
  - apply surjective_pairing.
  - exact Hack.
  - exists row. split.
    + destruct Hrow as [Hold|(_&p0&p&_&_&->)]; [|reflexivity]. rewrite Hnew in Hold. discriminate Hold.
    + apply (Hclient env1 [Heartbeat; Tick; Gone] follow_rq client_state followed.1 followed.2).
      * by apply rely_alone.
      * reflexivity.
      * split; [reflexivity|split; [reflexivity|discriminate]].
      * reflexivity.
      * vm_compute. reflexivity.
      * intros k [H1 H2]. rewrite Hcursor in H1. cbn in H2. lia.
      * apply surjective_pairing.
Defined.

(** ** The relay's handler *)

Definition http_config : HTTPConfig := mkHTTPConfig "refresh" true.
Definition senv (now : Z) : SEnv :=
  mkSEnv now now [draw 18 21; draw 32 22; draw 32 23; draw 18 24; draw 18 25] (draw 16 26) env1
    (mkSnapshot false false 0 "" "").
Definition bearer : list (string * string) := [("Authorization", "Bearer " +:+ access_token)].
Definition relay (segments : list string) (method : string) :=
  ServeHTTP no_source no_profiles (Some (cfg, http_config)) "https://app.example"
    (senv (t0 + 2 * second)) (request method segments bearer [] None) (shared db_paired, rstate db_run).
Definition read_sessions := relay ["v1"; "runtime"; "sessions"] "GET".

(** The paired phone may read; it may not write. *)
Lemma runtime_protected_witness :
  rs_Status read_sessions.1 = StatusOK ∧
  rs_Status (relay ["v1"; "runtime"; "sessions"] "POST").1 = StatusForbidden ∧
  ((read_sessions.2.2 = rstate db_run ∧ rs_Status read_sessions.1 ∈ [204; 301; 401; 403]
    ∧ (∀ d, rs_Body read_sessions.1 ≠ Data d ∧ rs_Body read_sessions.1 ≠ Plain d))
  ∨ ∃ p d r,
      auth_wf d ∧ auth_grows db_paired d
      ∧ live_credential (t0 + 2 * second) access_token p d
      ∧ ServeRuntime no_source no_profiles env1 (request "GET" ["v1"; "runtime"; "sessions"] bearer [] None)
          (rstate db_run) = (r, read_sessions.2.2)
      ∧ ∀ h values, route runtime_routes (request "GET" ["v1"; "runtime"; "sessions"] bearer [] None) = Routed h values →
          handler_scope h ∈ pl_Scopes p
          ∨ (handler_scope h = ScopeRuntimeRead
             ∧ ¬ plain_path h (request "GET" ["v1"; "runtime"; "sessions"] bearer [] None)
             ∧ HasSuffix (Path (request "GET" ["v1"; "runtime"; "sessions"] bearer [] None)) "/source:read" = true
             ∧ ScopeSourceRead ∈ pl_Scopes p)).
Proof.
  split; [vm_compute; reflexivity|]. split; [vm_compute; reflexivity|].
  apply (runtime_protected no_source no_profiles (cfg, http_config) "https://app.example"
           (senv (t0 + 2 * second)) (request "GET" ["v1"; "runtime"; "sessions"] bearer [] None) ["sessions"]
           (shared db_paired) (rstate db_run) read_sessions.1 read_sessions.2.1 read_sessions.2.2).
  - apply shared_rely.
  - exact db_paired_wf.
  - reflexivity.
  - unfold read_sessions, relay. destruct (ServeHTTP _ _ _ _ _ _ _) as [? [? ?]]. reflexivity.
Defined.

Definition preflight : Request := request "OPTIONS" ["v1"; "auth"; "me"] [("Origin", "https://app.example")] [] None.
Lemma cors_safe_witness :
  ("Access-Control-Allow-Credentials", "true") ∈ cors_headers "https://app.example, https://b.example" preflight ∧
  ("Access-Control-Allow-Origin", "https://app.example") ∈ cors_headers "https://app.example, https://b.example" preflight.
Proof.
  assert (("Access-Control-Allow-Credentials", "true") ∈ cors_headers "https://app.example, https://b.example" preflight) as H
    by (vm_compute; do 4 right; left).
  split; [exact H|].
  apply (cors_safe "https://app.example, https://b.example" (S := unit) (λ _, ret no_content) preflight tt
           (cors "https://app.example, https://b.example" (S := unit) (λ _, ret no_content) preflight tt).1 tt).
  - reflexivity.
  - exact H.
Defined.

Definition browser_post (headers : list (string * string)) : Request :=
  request "POST" ["v1"; "auth"; "pairing-grants:exchange"] headers [] (Some (JObj [("code", JStr pairing_code)])).
Definition public (rq : Request) :=
  ServePublic cfg http_config (t0 + second) (t0 + second) (draw 18 3) (draw 32 4) (draw 18 5) (draw 32 6) (draw 18 7)
    rq (shared db_granted).

Lemma public_csrf_witness :
  let call := public (browser_post []) in
  rs_Status call.1 = StatusForbidden ∧
  (call.2 = shared db_granted ∧ rs_Cookie call.1 = None
   ∧ (rs_Status call.1 = StatusForbidden ∨ rs_Status call.1 = StatusNotFound ∨ rs_Status call.1 = StatusMethodNotAllowed)).
Proof.
  intros call. split; [vm_compute; reflexivity|].
  apply (public_csrf cfg http_config (t0 + second) (t0 + second) (draw 18 3) (draw 32 4) (draw 18 5) (draw 32 6)
           (draw 18 7) (browser_post []) (shared db_granted) call.1 call.2).
  - reflexivity.
  - vm_compute. discriminate.
  - apply surjective_pairing.
Defined.

Definition browser_rq : Request := browser_post [(CSRFHeader, "1"); ("Content-Type", "application/json")].
Definition browser_exchange :=
  run_public cfg http_config HExchange (t0 + second) (t0 + second) (draw 18 3) (draw 32 4) (draw 18 5) (draw 32 6)
    (draw 18 7) browser_rq (shared db_granted).
Lemma browser_cookie_witness :
  ck_Value <$> rs_Cookie browser_exchange.1 = Some refresh_token ∧
  (∀ c, rs_Cookie browser_exchange.1 = Some c → cookie_guarded http_config c).
Proof.
  split; [vm_compute; reflexivity|].
  assert (∀ res w', browser_exchange = (res, w') → ∀ c, rs_Cookie res = Some c → cookie_guarded http_config c) as H.
  { intros res w' E.
    exact (proj1 (browser_cookie cfg http_config (t0 + second) (t0 + second) (draw 18 3) (draw 32 4) (draw 18 5)
                    (draw 32 6) (draw 18 7) browser_rq HExchange (shared db_granted) res w' (or_introl eq_refl) E)). }
  exact (H _ _ (surjective_pairing browser_exchange)).
Defined.

(** ** The configuration *)

(** An environment that sets the pairing lifetime only. *)
Definition environment : string → string := pick [("AUTH_PAIRING_TTL", "5m")].
Definition configured : Env.Config :=
  Eval vm_compute in match Env.FromEnv environment with
                     | Ok c => c
                     | Err _ => Env.mkConfig "" 0 0 0 0 "" "" "" "" false "" 0 0 0 "" false
                     end.

Lemma FromEnv_safe_witness :
  Env.AuthControlAddr configured = quad_addr 127 0 0 1 (str_bytes "18776") ∧ Env.AuthPairingTTL configured = 5 * minute ∧
  Env.Validate (with_control (quad_addr 127 9 9 9 (str_bytes "1")) configured) = None ∧
  Env.Validate (with_control (quad_addr 192 168 1 20 (str_bytes "1")) configured) ≠ None ∧
  Env.Validate (with_control ":18776" configured) ≠ None.
Proof.
  destruct (FromEnv_safe environment configured) as [_ Hauth]; [vm_compute; reflexivity|].
  destruct (Hauth eq_refl) as (_&_&_&Honly&_&Hquad).
  assert (∀ n, bool_decide (0 ≤ n ∧ n < 256) = true → is_octet n) as Ho by (intros n H; by apply bool_decide_eq_true in H).
  assert (port_digits (str_bytes "1")) as Hp by (constructor; [by eexists|constructor]).
  split; [vm_compute; reflexivity|]. split; [vm_compute; reflexivity|].
  split; [|split].
  - apply (Hquad 127 9 9 9 (str_bytes "1")); try (apply Ho; vm_compute; reflexivity); done.
  - intros H. apply (Hquad 192 168 1 20 (str_bytes "1")) in H; try (apply Ho; vm_compute; reflexivity); done.
  - intros H. apply Honly in H as (host&port&Hsplit&H). vm_compute in Hsplit. injection Hsplit as <- <-.
    destruct H as [H|(ip&H&_)]; [discriminate H|vm_compute in H; discriminate H].
Defined.

(** ** The pairing code *)

(** A code of three by three modules. *)
Definition tiny_encode (content : string) : option BitMatrix :=
  if String.eqb content "" then None
  else Some (mkMatrix 3 3 (λ column row, Nat.even (column + row) || (column =? 2)%nat)).
Definition tiny : BitMatrix := mkMatrix 3 3 (λ column row, Nat.even (column + row) || (column =? 2)%nat).

Lemma pairing_code_drawn_witness :
  (renderTerminalQR tiny_encode "link" Small 2 (mkWriter [] [None; Some 1%nat])).1 = WErr ∧
  (∀ w, (renderTerminalQR tiny_encode "link" Small 2 w).1 ≠ WPanic) ∧
  ∃ out screen, renderTerminalQR tiny_encode "link" Small 2 (mkWriter [] []) = (WOk, mkWriter out [])
    ∧ read_screen out = Some screen ∧ pixel screen 1 1 = Some true ∧ pixel screen 1 0 = Some false.
Proof.
  split; [vm_compute; reflexivity|].
  destruct (pairing_code_drawn tiny_encode "link" Small 2 tiny eq_refl) as (Hcalm&(out&screen&Hr&Hs&Hh&columns&_&Hw&Hp)&_).
  split; [exact Hcalm|]. exists out, screen. split; [exact Hr|]. split; [exact Hs|].
  cbn [GetHeight GetWidth tiny module_size fst snd] in Hh, Hw.
  split.
  - rewrite (Hp 1%nat 1%nat); [vm_compute; reflexivity|lia|lia].
  - rewrite (Hp 1%nat 0%nat); [vm_compute; reflexivity|lia|lia].
Defined.
