(* ===== verification/CtlScenario.v ===== *)
(** * Concrete runs of the command line programs

    relayctl's turn and a listing through the relay, a relay from its start to
    its end, and a device paired with pairqr: the instances of the theorems on
    cmd/. *)

From S2P Require Import Prelude GoStd GoTime GoCrypto GoFlag GoNet GoURL GoClient Json GoHTTP Protocol Payloads AgentPayloads Envelope.
From S2P Require Import Sql Tables RuntimeDB RuntimeSql RunStore RuntimeHistory Outbox Bootstrap Listing RuntimeStore Hub Router Gateway Coordinator PgStore.
From S2P Require Import AuthDB AuthStore AuthService AuthEffects AuthFlow AuthHTTP AuthJSON Config RelayMain Scenario AuthScenario.
From S2P Require Import PairQR PairRun PairFlow RelayCtl RelayCtlSpec RelayFlow.
#[local] Open Scope string_scope.

#[local] Existing Instance plain_jsonb.
#[local] Existing Instance byte_collation.

(** ** turn *)

(** Events of the Agent in a turn's trace. *)
Definition agent_frame (trace type : string) (payload : json) : option json :=
  Some (JObj [("spec_version", JStr "2.0"); ("message_id", JStr "m"); ("type", JStr type);
        ("occurred_at", JStr "2024-05-01T10:00:00Z"); ("trace_id", JStr trace);
        ("sender", JObj [("kind", JStr "device"); ("id", JStr "local-mac")]); ("payload", payload)]).
Definition started := agent_frame "t" TypeTurnStarted (JObj [("thread_id", JStr "th"); ("turn_id", JStr "tu")]).
Definition output_of (trace text : string) := agent_frame trace TypeTurnOutput (JObj [("stream", JStr "stdout"); ("text", JStr text)]).
Definition completed := agent_frame "t" TypeTurnCompleted (JObj [("duration_ms", JInt 1500)]).

Definition client_world : RelayCtl.World := mkWorld env0 [].
(** Another turn's output in between; an interrupt that comes too late. *)
Definition turn_labels : list label :=
  [FrameRead started; Delivered; FrameRead (output_of "other" "no"); TakeMessage; Delivered; SignalRaised;
   TakeMessage; FrameRead (output_of "t" "hi"); Delivered; TakeSignal true true; TakeMessage;
   FrameRead completed; Delivered; TakeMessage].
Definition raw_text (_ : RawMessage) : string := "payload".

Definition turn_end : TurnState :=
  default (turn_start "t" client_world) (turn_run raw_text turn_labels (turn_start "t" client_world)).

Lemma turn_outcome_witness :
  t_exit turn_end = Some (RelayCtl.Code 0) ∧ stdout (w_log (t_world turn_end)) = "hi"
  ∧ length (sent (w_log (t_world turn_end))) = 1%nat
  ∧ ∃ j, sent (w_log (t_world turn_end)) = [j] ∧ interrupts "t" ("th", "tu") j.
Proof.
  assert (turn_run raw_text turn_labels (turn_start "t" client_world) = Some turn_end) as E
    by (vm_compute; reflexivity).
  assert (stdout (w_log (t_world turn_end)) = "hi" ∧ length (sent (w_log (t_world turn_end))) = 1%nat) as [Ho Hl]
    by (split; vm_compute; reflexivity).
  destruct (turn_outcome raw_text "t" ltac:(discriminate) client_world turn_labels turn_end env0_ok E)
    as (_&_&_&(js&Hj&Hf&_)&_).
  split; [vm_compute; reflexivity|]. split; [exact Ho|]. split; [exact Hl|].
  assert (all_asked "t" turn_labels = [("th", "tu")]) as Ha by (vm_compute; reflexivity).
  rewrite Ha in Hf. inversion Hf as [|turn j asked_ js' Hi Hrest H1 H2]. inversion Hrest as [H3 H4|].
  exists j. split; [|exact Hi]. rewrite Hj, <- H2, <- H4. reflexivity.
Defined.

(** ** A listing through the relay *)

(** The relay with an Agent, connection 1, and relayctl, connection 2. *)
Definition relay_state : RState (Coord (Sql.World DB) unit) := (hub2.1, coord0).
Definition ask_trace : string := Eval vm_compute in (new_id client_world).1.
Definition threads_frame : option json := agent_frame ask_trace TypeThreadSnapshot (JObj [("threads", JArr [])]).
Definition reply_message : Message :=
  Eval vm_compute in match Decode threads_frame with Ok m => m | Err _ => zero_message end.
Definition relayed_reply : option json :=
  Eval vm_compute in json_Message 0 (with_sender reply_message (mkSender "device" "local-mac")).
(** The connection delivers a frame that is not JSON, then the reply. *)
Definition relay_connection (_ : string) : option Conn := Some (mkConn true [None; relayed_reply]).

Lemma relayctl_query_answered_witness :
  (query relay_connection "ws://relay" TypeThreadList (json_ThreadList "p") TypeThreadSnapshot client_world).1
  = Ok (with_sender reply_message (mkSender "device" "local-mac")).
Proof.
  assert (ready RoleApp 2 (mkPeer RoleApp [] false) relay_state.1) as Happ
    by (unfold ready; split; [vm_compute; reflexivity|split; [vm_compute; reflexivity|
          split; [reflexivity|split; [reflexivity|vm_compute; lia]]]]).
  assert (ready RoleAgent 1 (mkPeer RoleAgent [] false) relay_state.1) as Hag
    by (unfold ready; split; [vm_compute; reflexivity|split; [vm_compute; reflexivity|
          split; [reflexivity|split; [reflexivity|vm_compute; lia]]]]).
  destruct (relayctl_query_answered (SI := _) (BI := open_broker) relay_connection no_text "ws://relay" TypeThreadList TypeThreadSnapshot
              (json_ThreadList "p") client_world relay_state 2 _ 1 _ env0_ok
              ltac:(unfold listings; apply list_elem_of_In; vm_compute; auto) Happ Hag
              ltac:(vm_compute; discriminate) ltac:(vm_compute; reflexivity)) as (j&_&_&H).
  destruct (H threads_frame reply_message ltac:(vm_compute; reflexivity) ltac:(vm_compute; reflexivity)
              ltac:(vm_compute; reflexivity)) as [_ H'].
  destruct relayed_reply as [jr|] eqn:Er; [|vm_compute in Er; discriminate Er].
  apply (H' 0%Z jr [None] []); [reflexivity| |by constructor|].
  - transitivity relayed_reply; [vm_compute; reflexivity|exact Er].
  - unfold relay_connection. rewrite Er. reflexivity.
Defined.

(** ** A relay's life *)

(** An environment that leaves everything at its default, and a signal. *)
Definition plain_environment (_ : string) : string := "".
Notation relay_run := (RelayMain.realMain plain_environment (λ _, true) Signalled ["--listen"; "127.0.0.1:9000"])
  (only parsing).

Lemma relay_lifecycle_witness :
  relay_run.1 = 0%Z ∧ existsb serves relay_run.2 = true ∧ opened relay_run.2 ≠ []
  ∧ released relay_run.2 = rev (opened relay_run.2)
  ∧ ∃ base addr, Env.FromEnv plain_environment = Ok base ∧ relay_run.2 = lifetime Signalled (with_listen addr base).
Proof.
  destruct (relay_lifecycle plain_environment (λ _, true) Signalled ["--listen"; "127.0.0.1:9000"] relay_run.1 relay_run.2
              (surjective_pairing relay_run)) as (H1&_&H2).
  assert (existsb serves relay_run.2 = true) as Hs by (vm_compute; reflexivity).
  destruct (H2 Hs) as (base&addr&Hb&_&_&_&_&Hl).
  split; [vm_compute; reflexivity|]. split; [exact Hs|]. split; [vm_compute; discriminate|].
  split; [exact H1|]. exact (ex_intro _ base (ex_intro _ addr (conj Hb Hl))).
Defined.

(** ** Pairing *)

Definition utc_zone (_ : Z) : Z := 0.
Definition one_module (_ : string) : option BitMatrix := Some (mkMatrix 1 1 (λ _ _, true)).
Definition auth_control (_ _ : string) (payload : option content) : http_answer :=
  match payload with
  | Some (contentType, body) =>
      control_answer cfg utc_zone t0 (draw 32 1) (draw 18 2) (calm empty_adb) contentType body
  | None => NoAnswer
  end.
Definition pair_arguments : list string :=
  ["--origin"; "http://192.168.1.2:18774/"; "-name= Phone "; "--output"; "qr.png"; "--terminal=false"].
Definition no_output : PState := mkPState (mkWriter [] []) (mkWriter [] []) [].
Definition pair_run : PairRun.exit * PState :=
  run one_module auth_control None (Some "/home/user") (λ _, true) (λ _, true) (λ _, true) (λ _, true) (λ _, true)
    false true true (λ _, "error") (λ _, "usage") (λ _, "soon") pair_arguments no_output.
Definition paired_world : Sql.World ADB :=
  (ServeControl cfg t0 (draw 32 1) (draw 18 2) (control_request "application/json" (grant_body "Phone")) (calm empty_adb)).2.
Definition paired_device : result auth_error TokenPair * Sql.World ADB :=
  ExchangePairingGrant cfg (t0 + second) (draw 18 3) (draw 32 4) (draw 18 5) (draw 32 6) (draw 18 7)
    (randomSecret (draw 32 1)) paired_world.

Lemma pairqr_pairs_witness :
  pair_run.1 = PairRun.Code 0 ∧ is_ok paired_device.1 = true
  ∧ (∃ requests link files, ps_log pair_run.2 = (map requested requests ++ files)%list
       ∧ grant_requests auth_control requests ∧ (length requests ≤ 1)%nat ∧ Forall (file_effect one_module link) files)
  ∧ (auth_db_error paired_device.1
     ∨ ∃ pair, paired_device.1 = Ok pair ∧
         paired "Phone" DefaultScopes (t0 + second) (draw 18 3) (draw 18 5) (draw 18 7) paired_device.2 pair).
Proof.
  assert (secret_bytes 32 (draw 32 1)) as Hc1 by (by apply draw_bytes).
  assert (secret_bytes 18 (draw 18 3)) as Hr1 by (by apply draw_bytes).
  assert (secret_bytes 32 (draw 32 4)) as Hr2 by (by apply draw_bytes).
  destruct (pairqr_pairs one_module auth_control None (Some "/home/user") (λ _, true) (λ _, true) (λ _, true)
              (λ _, true) (λ _, true) false true true (λ _, "error") (λ _, "usage") (λ _, "soon")
              cfg utc_zone t0 (draw 32 1) (draw 18 2) (calm empty_adb) ltac:(reflexivity) pair_arguments no_output
              pair_run.1 pair_run.2 ltac:(apply surjective_pairing)) as [H1 H2].
  assert (auth_control_answers auth_control cfg utc_zone t0 (draw 32 1) (draw 18 2) (calm empty_adb)) as Ha by (by intros ???).
  assert (pair_run.1 = PairRun.Code 0) as H0 by (vm_compute; reflexivity).
  specialize (H2 eq_refl Hc1 Ha H0). destruct H2 as (fs&rest&mode&origin&Hp&_&_&_&_&H).
  assert (TrimSpace (flag_string "name" fs) = "Phone") as Hn.
  { transitivity (TrimSpace (flag_string "name" (default [] (fst <$> GoFlag.Parse pairqr_flags pair_arguments))));
      [rewrite Hp; reflexivity|vm_compute; reflexivity]. }
  cbv zeta in H. rewrite Hn in H. change (TrimSpace "Phone") with "Phone" in H.
  split; [exact H0|]. split; [vm_compute; reflexivity|].
  split; [destruct H1 as (rs&l&fl&Hlog&Hg&H1&Hf); exists rs, l, fl; split; [exact Hlog|split; [exact Hg|split; [exact (H1 Ha)|exact Hf]]]|].
  apply (H (t0 + second)%Z (draw 18 3) (draw 32 4) (draw 18 5) (draw 32 6) (draw 18 7) paired_device.1 paired_device.2).
  - exact Hr1.
  - exact Hr2.
  - vm_compute; reflexivity.
  - exact (surjective_pairing paired_device).
Defined.
